(* ===== verification/_CoqProject ===== *)
-Q . S2P
Prelude.v
GoFloat.v
GoStd.v
GoFormat.v
GoURL.v
GoTime.v
Json.v
GoText.v
Types.v
StripeApi.v
Ids.v
Charges.v
Ledger.v
Grants.v
Store.v
Events.v
LedgerCommands.v
LedgerGrants.v
Cycles.v
Entitlements.v
ContractStore.v
DocumentStore.v
DueChanges.v
WindowStore.v
Windows.v
Statements.v
Finalizations.v
Dispatcher.v
Contracts.v
Catalog.v
EntitlementsView.v
Clock.v
StripeStore.v
Stripe.v
ContractRequests.v
Runtime.v
Samples.v
Frames.v
PeriodSystem.v
ContractSystem.v
AdminFrames.v
Legs.v
WindowInv.v
PrepareTx.v
ReserveTx.v
WindowSystem.v
Service.v
ContractRuns.v
Settlement.v
SampleRun.v
WindowTheorems.v
WindowCalls.v
PricingTheorems.v
FundingTheorems.v
LedgerTheorems.v
CycleTheorems.v
EntitlementTheorems.v
ContractRun.v
ContractTheorems.v
DocumentTheorems.v
StatementTheorems.v
EventTheorems.v
ViewTheorems.v
FinalizationTheorems.v
DueWorkTheorems.v
ClockTheorems.v
StripeTheorems.v
PaymentTheorems.v
RequestTheorems.v
ServiceTheorems.v
ProjectTypes.v
ProjectStore.v
ProjectService.v
ProjectSystem.v
ProjectSamples.v
ProjectTheorems.v
ProjectPages.v
ProjectTenants.v
