(* ===== verification/Prelude.v ===== *)
(** * Services of Verself: a verification development

    Verself is a platform-as-a-service written in Go.  This library models two
    of its services: the billing service (src/src/services/billing-service,
    below "billing/" for internal/billing and "queries/" for
    internal/store/queries), which decides what an organisation may use, what
    it is charged, and which ledger transfers, contracts and documents come of
    it; and the projects service (src/src/services/projects-service, below
    "projects/" for internal/projects), the registry of the projects and
    environments the others refer to.

    ** The program

    The billing service keeps its state in PostgreSQL and mirrors money in a
    TigerBeetle ledger.  A client reserves a billing window (an allocation of
    resources for some time), which the service prices from the catalogue and
    funds from the organisation's grants; it activates and later settles or
    voids the window.  A settlement writes a ledger command in the same
    transaction (an outbox), which is dispatched to the ledger afterwards.
    Grants come from manual deposits and from entitlements that a cycle (a
    billing month) materialises for the free tier and for contracts.  When a
    cycle is due it is rolled over: it is closed, the changes of contracts that
    fall due are applied, a finalization is queued that computes its statement
    and issues a document, and the successor is opened.  Every fact is also an
    event that is delivered to ClickHouse.

    The projects service keeps projects and their environments in PostgreSQL.
    A write names the version it changes and an idempotency key; it runs in
    one transaction that locks the key, looks for the recorded result of the
    same request, changes the row, appends an event and records the result.  A
    project that is renamed leaves its old slug behind as a redirect.  Callers
    resolve a slug or an id to a project, and page through listings with
    cursors.

    ** The model

    A handler is a computation [B A = world -> outcome * world] (Store.v),
    where the world holds the database (a record of tables, each a finite map
    from keys to rows), the ledger (abstract), the readings of the clock, the
    ids handed out, the rows sent to ClickHouse and the requests sent to
    Stripe.  An outcome is a value, an
    error or a panic.  [WithTx] runs a computation as a transaction: its
    database changes vanish when it fails.  A SQL statement is a function on
    the database written from its query and the constraints of the schema
    (migrations/001_initial_schema.up.sql): checks, unique and exclusion
    constraints; a violation is an error.

    Go's uint64 and int64 are [Z] with the wrap-around or the range check
    written out; float64 is the IEEE 754 arithmetic of GoFloat.v, on dyadic
    rationals, sufficient for the charges; strings are byte strings; times are
    nanoseconds since 1970 with the calendar of GoTime.v; timestamptz columns
    truncate to microseconds.  The zero [time.Time] is [zero_time].

    The operations of the projects service are computations of the same shape
    over their own world (ProjectService.v), with foreign keys as well, on
    which the code relies there.

    What is not under src/ is a parameter: [Env] (the wall clock, fresh ledger
    ids, the configuration, what ClickHouse accepts, the overflow behaviour of
    float conversions), [Digest] (SHA-256 as an arbitrary function, except
    where GoStd.v computes it), [TigerBeetle] (the ledger server, with the
    documented laws as fields), [TBCodec] (the byte layout of its client),
    [StripeAPI] (stripe-go: the answers of Stripe, webhook signatures and the
    decoding of event objects), [NetURL] (parsing and printing a URL, apart
    from its query), [ProjectsEnv] (the clock and trace context of the projects
    service and google/uuid: drawing, printing and parsing an id).  Samples.v
    and ProjectSamples.v instantiate all of them; the witnesses run the
    operations there.

    ** Files

    - Prelude, GoFloat, GoStd, GoFormat, GoTime, Json: the language and its
      library, lists, sorting, machine integers, the outcome monad.
    - Types, Ids (billing/types.go, ids.go, safeconv.go): data exchanged,
      derived identifiers, checked conversions.
    - Charges (the pricing half of billing/windows.go), Grants
      (billing/grants.go): charges of an allocation, the funding waterfall.
    - Ledger (billing/ledger/ledger.go): payloads, validation, dispatch; the
      class [TigerBeetle] and the reference ledger [RefLedger].
    - Store (billing/service.go and the tables), Events
      (billing/events.go).
    - LedgerCommands, LedgerGrants, Dispatcher (billing/ledger_commands.go,
      ledger_grants.go, ledger_reconcile.go).
    - Cycles (billing/cycles.go), Entitlements (billing/entitlements.go).
    - ContractStore, DueChanges, Contracts (billing/contracts.go with
      queries/contracts.sql); DocumentStore, Statements, Finalizations
      (billing/finalizations.go, documents.go, statement.go); Catalog
      (billing/catalog.go).  Cycles.v calls the period work through the class
      [PeriodWork], which Finalizations.v implements.
    - WindowStore, Windows (billing/windows.go with queries/windows.sql).
    - EntitlementsView (billing/entitlements_view.go, storage_entitlements.go):
      the read models.  Clock (billing/clock.go): the business clock and the
      reset to the wall clock.
    - StripeApi, StripeStore, Stripe (billing/stripe.go with
      queries/stripe.sql), GoURL (query strings), ContractRequests (the rest of
      billing/contracts.go), Runtime (billing/runtime.go): checkouts, provider
      events, contract requests and what the workers run.
    - AdminFrames: what these operations write, for the transition systems.
    - GoText: more of the language's library (runes, fields, integers,
      base64).  ProjectTypes (projects/types.go, safeconv.go), ProjectStore
      (the tables and statements), ProjectService (projects/store.go);
      ProjectSystem: the operations as a transition system ([store_step],
      [moves R m]), what the statements keep and what successful
      transactions have done; ProjectSamples: a concrete run.
    - Samples, SampleRun, ContractRun: concrete runs of the service.
    - Frames: what each operation leaves alone ([evolves RD RT m]: whatever
      its outcome, [m] changes the database along [RD], the ledger along
      [RT]).  Legs, WindowInv, PrepareTx, ReserveTx, WindowSystem,
      Settlement: the window transition system [window_tx] and its invariant
      [Inv].  PeriodSystem, ContractSystem, ContractRuns: the
      transition system [period_step] of contracts and documents.  Service:
      the list of operations ([handler]) and [service_step].
    - *Theorems, WindowCalls: the properties.

    ** What is shown

    - ServiceTheorems: every operation conforms to both transition systems, so
      their invariants hold after any sequence of calls; this covers every
      interleaving, as a step is one transaction (or one statement).
    - WindowTheorems, WindowCalls: the life cycle of a window; reserve, settle,
      void, their replays and their refusals; a settlement never exceeds its
      authorization and is a stored ledger transfer per grant.
    - PricingTheorems, FundingTheorems: charges (rounding, monotonicity, order
      independence) and the waterfall (exact coverage, no overdraft, priority).
    - LedgerTheorems: dispatch, ids, balances, reconciliation, deposits,
      failures of commands.
    - CycleTheorems, DueWorkTheorems: cycle bounds, opening, rollover without a
      gap, termination of the rollover loop and what holds when it returns.
    - EntitlementTheorems: credit is issued once; derived ids identify.
    - ContractTheorems: cancellation, downgrade, upgrade,
      closed contracts, table invariants, the promotion that never applies.
    - DocumentTheorems, FinalizationTheorems, StatementTheorems: document
      numbers, the outcome of a finalization, statements that balance.
    - EventTheorems: a round of delivery, and what a failure strands.
    - ClockTheorems: setting, advancing and clearing the clock; the reset leaves
      one open cycle and what it repairs.  ViewTheorems: the sums of the
      entitlements view.
    - StripeTheorems: the life cycle of a provider event, the outcome of an
      attempt, a round of pending events.  PaymentTheorems: a purchase is
      credited once; the collection of an upgrade payment.
    - RequestTheorems: return URLs; the workers keep the invariants.
    - ProjectTheorems: slugs and redirects in every reachable state, slugs
      that keep resolving, the outcome of an update, versions, repeated
      requests, the normal form of slugs; ProjectTenants: organisations are kept apart; ProjectPages:
      cursors visit every row once.

    ** Bounds and fuel

    Go's unbounded loops are functions with fuel; running out is the error
    [OutOfFuel], which the code does not have.  The only such loop is that of
    ApplyDueBillingWork (and the operations that call it):
    [DueWorkTheorems.due_work_terminates] shows that it has a result, which
    any sufficient fuel computes.  The loop of cycleBoundsContaining stops
    after 2400 periods in the code as well.

    ** Not modelled

    - Stripe, stripe-go, TigerBeetle, ClickHouse and net/url beyond the query:
      they are parameters.  A run that a handler of a provider event cuts off
      for lack of fuel counts as a failed attempt, as any error does.
    - Foreign keys of the billing tables, the generated SQL bindings, tracing, logging and metrics.
    - Advisory locks and row locks: a transaction is atomic here, so waiting
      for a lock has no effect.
    - The order of rows PostgreSQL leaves unspecified is the order of the
      model's selection; text is ordered bytewise.
    - projects/service.go, which traces each call and passes it on.
    - River, which stores, deduplicates, retries and schedules the jobs, and
      the construction of its client.
    - The HTTP APIs and the daemons, and the other services of the repository
      (src/src/services), which orchestrate external systems. *)

From stdpp Require Export prelude gmap strings list sorting.
From Stdlib Require Export ZArith Lia.
From Stdlib Require Import Ascii.

#[global] Set Default Goal Selector "!".
#[global] Open Scope Z_scope.

Declare Scope billing_scope.
Delimit Scope billing_scope with billing.
#[global] Open Scope billing_scope.

(** ** Machine integers

    A Go integer of width w is a [Z]; what the code does at the edge of the
    range (wrap, panic, an explicit test) is written out where it happens. *)

Definition u16_max : Z := 2 ^ 16 - 1.
Definition u32_max : Z := 2 ^ 32 - 1.
Definition u64_max : Z := 2 ^ 64 - 1.
Definition i32_max : Z := 2 ^ 31 - 1.
Definition i32_min : Z := - 2 ^ 31.
Definition i64_max : Z := 2 ^ 63 - 1.

Definition is_u16 (z : Z) : Prop := 0 <= z <= u16_max.
Definition is_u32 (z : Z) : Prop := 0 <= z <= u32_max.
Definition is_u64 (z : Z) : Prop := 0 <= z <= u64_max.

(** Go's unsigned addition and subtraction on [uint64] wrap around. *)
Definition u64_add (a b : Z) : Z := (a + b) mod 2 ^ 64.
Definition u64_sub (a b : Z) : Z := (a - b) mod 2 ^ 64.

(** Multiplication on [int64]. *)
Definition i64_mul (a b : Z) : Z := (a * b + 2 ^ 63) mod 2 ^ 64 - 2 ^ 63.

Lemma u64_add_small a b : is_u64 a -> is_u64 b -> a + b <= u64_max -> u64_add a b = a + b.
Proof. unfold is_u64, u64_add, u64_max. intros. apply Z.mod_small. lia. Qed.

Lemma u64_sub_small a b : is_u64 a -> 0 <= b <= a -> u64_sub a b = a - b.
Proof. unfold is_u64, u64_sub, u64_max. intros. apply Z.mod_small. lia. Qed.

Lemma u64_add_is_u64 a b : is_u64 (u64_add a b).
Proof.
  unfold is_u64, u64_add, u64_max.
  pose proof (Z.mod_pos_bound (a + b) (2 ^ 64)). lia.
Qed.

(** ** Outcomes

    A Go call ends by returning a value, by returning an error, or by a
    panic (the [checked*] conversions panic). *)

Inductive outcome (E A : Type) : Type :=
| Ret (a : A)
| Err (e : E)
| Panic.
Arguments Ret {E A} a.
Arguments Err {E A} e.
Arguments Panic {E A}.

Definition obind {E A B} (m : outcome E A) (f : A -> outcome E B) : outcome E B :=
  match m with
  | Ret a => f a
  | Err e => Err e
  | Panic => Panic
  end.

Notation "'let!' x := m 'in' k" := (obind m (fun x => k))
  (at level 10, x pattern, m at level 100, k at level 200) : billing_scope.

Lemma obind_Ret_inv {E A B} (m : outcome E A) (f : A -> outcome E B) b :
  obind m f = Ret b -> exists a, m = Ret a /\ f a = Ret b.
Proof. destruct m; simpl; try discriminate. eauto. Qed.

Definition is_ret {E A} (m : outcome E A) : bool :=
  match m with Ret _ => true | _ => false end.

(** ** Stateful computations

    [M W E A]: a handler that reads and changes a world [W].  The world is
    returned whatever the outcome, because effects that are not undone by a
    database rollback survive an error. *)

Definition M (W E A : Type) : Type := W -> outcome E A * W.

Definition mret {W E A} (a : A) : M W E A := fun w => (Ret a, w).
Definition mfail {W E A} (e : E) : M W E A := fun w => (Err e, w).
Definition mlift {W E A} (o : outcome E A) : M W E A := fun w => (o, w).
Definition mbindM {W E A B} (m : M W E A) (f : A -> M W E B) : M W E B :=
  fun w =>
    match m w with
    | (Ret a, w') => f a w'
    | (Err e, w') => (Err e, w')
    | (Panic, w') => (Panic, w')
    end.

Notation "'do!' x <- m ; k" := (mbindM m (fun x => k))
  (at level 10, x pattern, m at level 100, k at level 200) : billing_scope.
Notation "'exec!' m ; k" := (mbindM m (fun _ => k))
  (at level 10, m at level 100, k at level 200) : billing_scope.

Lemma mbindM_Ret_inv {W E A B} (m : M W E A) (f : A -> M W E B) w b w' :
  mbindM m f w = (Ret b, w') -> exists a w1, m w = (Ret a, w1) /\ f a w1 = (Ret b, w').
Proof. unfold mbindM. destruct (m w) as [[a|e|] w1]; try discriminate. eauto. Qed.

Lemma mbindM_run {W E A B} (m : M W E A) (f : A -> M W E B) w a w1 :
  m w = (Ret a, w1) -> mbindM m f w = f a w1.
Proof. unfold mbindM. by intros ->. Qed.

(** Fold a fallible loop body over a slice. *)
Fixpoint outcome_fold {E A S} (f : S -> A -> outcome E S) (s : S) (l : list A) : outcome E S :=
  match l with
  | [] => Ret s
  | x :: l' => let! s' := f s x in outcome_fold f s' l'
  end.

Fixpoint outcome_map {E A B} (f : A -> outcome E B) (l : list A) : outcome E (list B) :=
  match l with
  | [] => Ret []
  | x :: l' => let! y := f x in let! ys := outcome_map f l' in Ret (y :: ys)
  end.

Lemma outcome_map_Forall2 {E A B} (f : A -> outcome E B) l ys :
  outcome_map f l = Ret ys -> Forall2 (fun x y => f x = Ret y) l ys.
Proof.
  revert ys. induction l as [|x l IH]; simpl; intros ys H; [by simplify_eq|].
  apply obind_Ret_inv in H as (y & Hy & H).
  apply obind_Ret_inv in H as (ys' & Hys & H). simplify_eq. eauto.
Qed.

(** ** Strings

    Go orders strings by their bytes, as [String.compare] does. *)

Definition str_ltb (a b : string) : bool := String.ltb a b.
Definition str_eqb (a b : string) : bool := String.eqb a b.

Lemma ascii_compare_lt_trans a b c :
  Ascii.compare a b = Lt -> Ascii.compare b c = Lt -> Ascii.compare a c = Lt.
Proof. unfold Ascii.compare. rewrite !N.compare_lt_iff. lia. Qed.

Lemma string_compare_lt_trans a b c :
  String.compare a b = Lt -> String.compare b c = Lt -> String.compare a c = Lt.
Proof.
  revert b c. induction a as [|x a IH]; intros [|y b] [|z c]; simpl; try congruence.
  destruct (Ascii.compare x y) eqn:E1; try discriminate;
    destruct (Ascii.compare y z) eqn:E2; try discriminate; intros H1 H2.
  - apply Ascii.compare_eq_iff in E1, E2. subst.
    assert (Ascii.compare z z = Eq) as -> by (unfold Ascii.compare; apply N.compare_refl). eauto.
  - apply Ascii.compare_eq_iff in E1. subst. by rewrite E2.
  - apply Ascii.compare_eq_iff in E2. subst. by rewrite E1.
  - by rewrite (ascii_compare_lt_trans _ _ _ E1 E2).
Qed.

Lemma string_compare_refl a : String.compare a a = Eq.
Proof.
  induction a as [|x a IH]; simpl; [done|].
  unfold Ascii.compare. by rewrite N.compare_refl.
Qed.

Lemma str_ltb_irrefl a : str_ltb a a = false.
Proof. unfold str_ltb, String.ltb. by rewrite string_compare_refl. Qed.

Lemma str_ltb_trans a b c : str_ltb a b = true -> str_ltb b c = true -> str_ltb a c = true.
Proof.
  unfold str_ltb, String.ltb. intros H1 H2.
  destruct (String.compare a b) eqn:E1; try discriminate.
  destruct (String.compare b c) eqn:E2; try discriminate.
  by rewrite (string_compare_lt_trans _ _ _ E1 E2).
Qed.

Lemma str_ltb_total a b : str_ltb a b = false -> str_ltb b a = false -> a = b.
Proof.
  unfold str_ltb, String.ltb. rewrite (String.compare_antisym b a).
  destruct (String.compare a b) eqn:E; simpl; try discriminate. intros _ _.
  by apply String.compare_eq_iff.
Qed.

(** ** Sorting

    [sort_slice less] is the stable sort of [sort.SliceStable].  Where the
    code calls the unstable [sort.Slice], its comparison separates any two
    distinct elements of the slice, and [sort_slice_unique] shows that every
    sorted permutation is then this one. *)

Section Sort.
Context {A : Type} (less : A -> A -> bool).

Fixpoint sort_insert (x : A) (l : list A) : list A :=
  match l with
  | [] => [x]
  | y :: l' => if less y x then y :: sort_insert x l' else x :: l
  end.

Fixpoint sort_slice (l : list A) : list A :=
  match l with
  | [] => []
  | x :: l' => sort_insert x (sort_slice l')
  end.

Definition not_after (x y : A) : Prop := less y x = false.

Lemma sort_insert_perm x l : sort_insert x l ≡ₚ x :: l.
Proof.
  induction l as [|y l IH]; simpl; [done|].
  destruct (less y x); [|done]. rewrite IH. apply Permutation_swap.
Qed.

Lemma sort_slice_perm l : sort_slice l ≡ₚ l.
Proof. induction l as [|x l IH]; simpl; [done|]. by rewrite sort_insert_perm, IH. Qed.

Context (less_irrefl : forall x, less x x = false)
        (less_trans : forall x y z, less x y = true -> less y z = true -> less x z = true)
        (less_cotrans : forall x y z, less x z = true -> less x y = true \/ less y z = true).

Lemma not_after_trans x y z : not_after x y -> not_after y z -> not_after x z.
Proof.
  unfold not_after. intros H1 H2. destruct (less z x) eqn:E; [|done].
  destruct (less_cotrans z y x E); congruence.
Qed.

Lemma sort_insert_sorted x l :
  StronglySorted not_after l -> StronglySorted not_after (sort_insert x l).
Proof using less_irrefl less_trans less_cotrans.
  induction 1 as [|y l Hs IH Hall]; simpl; [by repeat constructor|].
  destruct (less y x) eqn:E.
  - constructor; [done|]. rewrite sort_insert_perm. constructor; [|done].
    unfold not_after. destruct (less x y) eqn:E2; [|done].
    pose proof (less_trans _ _ _ E E2). rewrite less_irrefl in H. discriminate.
  - constructor; [by constructor|]. constructor; [done|].
    eapply Forall_impl; [exact Hall|]. intros z Hz. by apply not_after_trans with y.
Qed.

Lemma sort_slice_sorted l : StronglySorted not_after (sort_slice l).
Proof using less_irrefl less_trans less_cotrans.
  induction l as [|x l IH]; simpl; [constructor|]. by apply sort_insert_sorted.
Qed.

(** Any sorted permutation equals the computed one when the comparison
    separates the elements of the slice. *)
Lemma sort_slice_unique l l' :
  (forall x y, x ∈ l -> y ∈ l -> less x y = false -> less y x = false -> x = y) ->
  l' ≡ₚ l -> StronglySorted not_after l' -> l' = sort_slice l.
Proof using less_irrefl less_trans less_cotrans.
  intros Hsep Hperm Hs.
  apply (StronglySorted_unique_strong not_after); [|done|apply sort_slice_sorted|].
  - intros x y Hx Hy H1 H2. apply Hsep; auto; [by rewrite <- Hperm|].
    by rewrite <- (sort_slice_perm l).
  - by rewrite sort_slice_perm.
Qed.
End Sort.

(** ** Comparison functions

    The [less] closures passed to package sort compare one key after the
    other; [lex_key] is one such step. *)

Class StrictWeak {A} (less : A -> A -> bool) : Prop := {
  sw_irrefl : forall x, less x x = false;
  sw_trans : forall x y z, less x y = true -> less y z = true -> less x z = true;
  sw_cotrans : forall x y z, less x z = true -> less x y = true \/ less y z = true
}.

Class KeyOrder {K} (eqb ltb : K -> K -> bool) : Prop := {
  ko_eqb : forall a b, eqb a b = true <-> a = b;
  ko_irrefl : forall a, ltb a a = false;
  ko_trans : forall a b c, ltb a b = true -> ltb b c = true -> ltb a c = true;
  ko_total : forall a b, ltb a b = false -> ltb b a = false -> a = b
}.

#[export] Instance Z_key_order : KeyOrder Z.eqb Z.ltb.
Proof.
  split; intros; rewrite ?Z.eqb_eq, ?Z.ltb_lt, ?Z.ltb_ge in *; lia.
Qed.

#[export] Instance string_key_order : KeyOrder str_eqb str_ltb.
Proof.
  split; intros; eauto using str_ltb_irrefl, str_ltb_trans, str_ltb_total.
  apply String.eqb_eq.
Qed.

Lemma ko_cotrans {K} (eqb ltb : K -> K -> bool) `{!KeyOrder eqb ltb} a b c :
  ltb a c = true -> ltb a b = true \/ ltb b c = true.
Proof.
  intros H. destruct (ltb a b) eqn:E1; [by left|]. right.
  destruct (ltb b a) eqn:E2; [by apply (ko_trans (ltb := ltb)) with a|].
  by rewrite (ko_total (ltb := ltb) b a E2 E1).
Qed.

(** [if k(x) != k(y) { return k(x) < k(y) }; return rest(x, y)] *)
Definition lex_key {A K} (eqb ltb : K -> K -> bool) (k : A -> K) (rest : A -> A -> bool) (x y : A) : bool :=
  if negb (eqb (k x) (k y)) then ltb (k x) (k y) else rest x y.

Definition on_key {A K} (ltb : K -> K -> bool) (k : A -> K) (x y : A) : bool := ltb (k x) (k y).

#[export] Instance on_key_strict_weak {A K} (eqb ltb : K -> K -> bool) (k : A -> K) :
  KeyOrder eqb ltb -> StrictWeak (on_key ltb k).
Proof.
  intros HK. unfold on_key.
  split; intros; eauto using ko_irrefl, ko_trans. by eapply ko_cotrans.
Qed.

#[export] Instance lex_key_strict_weak {A K} (eqb ltb : K -> K -> bool) (k : A -> K) rest :
  KeyOrder eqb ltb -> StrictWeak rest -> StrictWeak (lex_key eqb ltb k rest).
Proof.
  intros HK HR. unfold lex_key.
  assert (forall a b : K, eqb a b = true /\ a = b \/ eqb a b = false /\ a <> b) as Hd.
  { intros a b. pose proof (ko_eqb (ltb := ltb) a b) as Hab.
    destruct (eqb a b); [left|right]; split; try done; [by apply Hab|].
    intros Heq. by apply Hab in Heq. }
  split.
  - intros x. destruct (Hd (k x) (k x)) as [[-> _]|[_ ?]]; [|done]. simpl. apply sw_irrefl.
  - intros x y z.
    destruct (Hd (k x) (k y)) as [[-> E1]|[-> E1]], (Hd (k y) (k z)) as [[-> E2]|[-> E2]],
      (Hd (k x) (k z)) as [[-> E3]|[-> E3]]; simpl; try congruence.
    + apply sw_trans.
    + intros H1 H2. rewrite E3 in H1. pose proof (ko_trans _ _ _ H1 H2) as H.
      rewrite (ko_irrefl (ltb := ltb)) in H. discriminate.
    + apply ko_trans.
  - intros x y z.
    destruct (Hd (k x) (k z)) as [[-> E1]|[-> E1]], (Hd (k x) (k y)) as [[-> E2]|[-> E2]],
      (Hd (k y) (k z)) as [[-> E3]|[-> E3]]; simpl; try congruence; auto.
    + apply sw_cotrans.
    + intros _. rewrite E1. destruct (ltb (k z) (k y)) eqn:G1; [by left|].
      destruct (ltb (k y) (k z)) eqn:G2; [by right|].
      contradict E3. by apply (ko_total (ltb := ltb)).
    + rewrite E2. auto.
    + rewrite E3. auto.
    + by apply ko_cotrans with eqb.
Qed.

Section SortSW.
Context {A : Type} (less : A -> A -> bool) `{!StrictWeak less}.

Lemma sort_sorted l : StronglySorted (not_after less) (sort_slice less l).
Proof.
  apply sort_slice_sorted; [apply sw_irrefl|apply sw_trans|apply sw_cotrans].
Qed.

Lemma sort_unique l l' :
  (forall x y, x ∈ l -> y ∈ l -> less x y = false -> less y x = false -> x = y) ->
  l' ≡ₚ l -> StronglySorted (not_after less) l' -> l' = sort_slice less l.
Proof.
  apply sort_slice_unique; [apply sw_irrefl|apply sw_trans|apply sw_cotrans].
Qed.
End SortSW.

(** ** Sums *)

Definition zsum (l : list Z) : Z := foldr Z.add 0 l.

Lemma zsum_app l1 l2 : zsum (l1 ++ l2) = zsum l1 + zsum l2.
Proof. induction l1; simpl; lia. Qed.

Lemma zsum_cons x l : zsum (x :: l) = x + zsum l.
Proof. done. Qed.

#[global] Arguments zsum : simpl never.
Ltac zsum_simpl := rewrite ?fmap_cons, ?zsum_cons.

#[global] Instance zsum_proper : Proper ((≡ₚ) ==> eq) zsum.
Proof. intros l1 l2 H. induction H; zsum_simpl; lia. Qed.

Lemma zsum_nonneg l : Forall (fun z => 0 <= z) l -> 0 <= zsum l.
Proof. induction 1; zsum_simpl; [done|lia]. Qed.

Lemma zsum_map_filter {A} (f : A -> Z) (p : A -> bool) l :
  zsum (f <$> l) = zsum (f <$> filter (fun x => p x = true) l)
                 + zsum (f <$> filter (fun x => p x = false) l).
Proof.
  induction l as [|x l IH]; [done|].
  rewrite !filter_cons, fmap_cons, zsum_cons, IH. destruct (p x).
  - rewrite decide_True, decide_False by done. rewrite fmap_cons, zsum_cons. lia.
  - rewrite decide_False, decide_True by done. rewrite fmap_cons, zsum_cons. lia.
Qed.

Lemma zsum_le {A} (f g : A -> Z) l :
  Forall (fun x => f x <= g x) l -> zsum (f <$> l) <= zsum (g <$> l).
Proof. induction 1; [done|]. zsum_simpl. lia. Qed.

Lemma zsum_ext {A} (f g : A -> Z) l :
  Forall (fun x => f x = g x) l -> zsum (f <$> l) = zsum (g <$> l).
Proof. induction 1; [done|]. zsum_simpl. lia. Qed.

Lemma zsum_elem_le {A} (f : A -> Z) l x :
  Forall (fun x => 0 <= f x) l -> x ∈ l -> f x <= zsum (f <$> l).
Proof.
  induction 1 as [|y l Hy Hl IH]; [by intros ?%elem_of_nil|].
  intros [->|Hx]%elem_of_cons; zsum_simpl.
  - pose proof (zsum_nonneg (f <$> l)). rewrite Forall_fmap in H. specialize (H Hl). lia.
  - specialize (IH Hx). lia.
Qed.

(** Folding [u64_add] is the mathematical sum as long as that sum fits. *)
Lemma u64_fold_mod l a : foldl u64_add a l mod 2 ^ 64 = (a + zsum l) mod 2 ^ 64.
Proof.
  revert a. induction l as [|x l IH]; intros a; simpl; [f_equal; unfold zsum; simpl; lia|].
  rewrite IH, zsum_cons. unfold u64_add. rewrite Zplus_mod_idemp_l. f_equal. lia.
Qed.

Lemma u64_fold_sum l :
  Forall is_u64 l -> zsum l <= u64_max -> foldl u64_add 0 l = zsum l.
Proof.
  intros Hl Hs.
  assert (0 <= zsum l) by (apply zsum_nonneg; eapply Forall_impl; [exact Hl|]; unfold is_u64; lia).
  assert (forall a l, is_u64 a -> is_u64 (foldl u64_add a l)) as Hu.
  { intros a l'. revert a. induction l'; simpl; auto using u64_add_is_u64. }
  specialize (Hu 0 l ltac:(unfold is_u64, u64_max; lia)).
  pose proof (u64_fold_mod l 0) as E. unfold is_u64, u64_max in *.
  rewrite !Z.mod_small in E by lia. lia.
Qed.

(** Sum of the values of a map. *)
Definition msum {K} `{Countable K} (m : gmap K Z) : Z := zsum ((map_to_list m).*2).

Lemma msum_empty {K} `{Countable K} : msum (∅ : gmap K Z) = 0.
Proof. unfold msum. by rewrite map_to_list_empty. Qed.

Lemma msum_insert_new {K} `{Countable K} (m : gmap K Z) k v :
  m !! k = None -> msum (<[k:=v]> m) = v + msum m.
Proof.
  intros Hk. unfold msum. by rewrite (map_to_list_insert m k v Hk), fmap_cons, zsum_cons.
Qed.

Lemma msum_insert {K} `{Countable K} (m : gmap K Z) k v :
  msum (<[k:=v]> m) = v + msum m - default 0 (m !! k).
Proof.
  destruct (m !! k) as [w|] eqn:Hk; simpl; [|rewrite msum_insert_new by done; lia].
  rewrite <- (insert_delete_id m k w) at 2 by done.
  rewrite <- insert_delete_eq.
  rewrite !msum_insert_new by apply lookup_delete_eq. lia.
Qed.

Lemma msum_nonneg {K} `{Countable K} (m : gmap K Z) :
  (forall k v, m !! k = Some v -> 0 <= v) -> 0 <= msum m.
Proof.
  intros Hm. apply zsum_nonneg, Forall_fmap, Forall_forall. intros [k v] Hkv.
  apply elem_of_map_to_list in Hkv. eauto.
Qed.

(** ** Fallible loops over a map

    Go visits a map in an unspecified order.  [same_result] relates two runs
    that return the same value or both fail; a loop whose body commutes up to
    [same_result] gives the same result in every order. *)

Inductive same_result {E A} : outcome E A -> outcome E A -> Prop :=
| same_ret a : same_result (Ret a) (Ret a)
| same_err e1 e2 : same_result (Err e1) (Err e2).

Lemma same_result_refl_fold {E A S} (f : S -> A -> outcome E S) s l :
  (forall s x, f s x <> Panic) -> same_result (outcome_fold f s l) (outcome_fold f s l).
Proof.
  intros Hp. revert s. induction l as [|x l IH]; intros s; simpl; [constructor|].
  destruct (f s x) eqn:E1; simpl; [apply IH|constructor|by apply Hp in E1].
Qed.

Lemma same_result_trans {E A} (m1 m2 m3 : outcome E A) :
  same_result m1 m2 -> same_result m2 m3 -> same_result m1 m3.
Proof. intros [] H2; inversion H2; subst; constructor. Qed.

Lemma outcome_fold_perm {E A S K} (key : A -> K) (f : S -> A -> outcome E S) l1 l2 s :
  (forall s x, f s x <> Panic) ->
  (forall s x y, key x <> key y ->
     same_result (obind (f s x) (fun s => f s y)) (obind (f s y) (fun s => f s x))) ->
  NoDup (key <$> l1) -> l1 ≡ₚ l2 -> same_result (outcome_fold f s l1) (outcome_fold f s l2).
Proof.
  intros Hp Hc Hnd Hperm. revert s.
  induction Hperm as [|x l1 l2 Hperm IH|x y l|l1 l2 l3 H1 IH1 H2 IH2]; intros s.
  - constructor.
  - rewrite fmap_cons in Hnd. apply NoDup_cons in Hnd as [_ Hnd]. simpl.
    destruct (f s x) eqn:E1; simpl; [by apply IH|constructor|by apply Hp in E1].
  - rewrite !fmap_cons in Hnd. apply NoDup_cons in Hnd as [Hyx _].
    assert (key y <> key x) as Hne by (intros Heq; apply Hyx; rewrite Heq; constructor).
    pose proof (Hc s y x Hne) as Hs. simpl.
    assert (forall m (k : S -> outcome E S), obind (obind m (fun s => f s x)) k
            = obind m (fun s => obind (f s x) k)) as Ha by (by intros [] k).
    assert (forall m (k : S -> outcome E S), obind (obind m (fun s => f s y)) k
            = obind m (fun s => obind (f s y) k)) as Hb by (by intros [] k).
    rewrite <- Ha, <- Hb.
    inversion Hs as [a Ea Eb|e1 e2 Ea Eb]; simpl; [by apply same_result_refl_fold|constructor].
  - apply same_result_trans with (outcome_fold f s l2); [by apply IH1|].
    apply IH2. by rewrite <- H1.
Qed.

(** ** Automation *)

Create HintDb billing.
#[export] Hint Resolve u64_add_is_u64 zsum_nonneg : billing.

Ltac inv_ret :=
  repeat match goal with
  | H : obind _ _ = Ret _ |- _ => apply obind_Ret_inv in H as (? & ? & H)
  | H : mbindM _ _ _ = (Ret _, _) |- _ => apply mbindM_Ret_inv in H as (? & ? & ? & H)
  | H : Ret _ = Ret _ |- _ => injection H as H; subst
  | H : Err _ = Ret _ |- _ => discriminate
  | H : Panic = Ret _ |- _ => discriminate
  end.

(** Case analysis on the boolean tests of a definition. *)
Ltac case_bool :=
  match goal with
  | |- context [if ?b then _ else _] => destruct b eqn:?
  | H : context [if ?b then _ else _] |- _ => destruct b eqn:?
  end.

Ltac zbool :=
  repeat match goal with
  | H : (_ <? _) = true |- _ => apply Z.ltb_lt in H
  | H : (_ <? _) = false |- _ => apply Z.ltb_ge in H
  | H : (_ <=? _) = true |- _ => apply Z.leb_le in H
  | H : (_ <=? _) = false |- _ => apply Z.leb_gt in H
  | H : (_ =? _) = true |- _ => apply Z.eqb_eq in H
  | H : (_ =? _) = false |- _ => apply Z.eqb_neq in H
  | H : (_ && _)%bool = true |- _ => apply andb_prop in H as [? ?]
  | H : (_ || _)%bool = false |- _ => apply orb_false_elim in H as [? ?]
  | H : negb _ = true |- _ => apply negb_true_iff in H
  | H : negb _ = false |- _ => apply negb_false_iff in H
  end.
