(* ===== verification/GoFloat.v ===== *)
(** * Go's [float64]

    Billing quantities are multiplied in IEEE-754 binary64 before they are
    rounded to whole charge units.  A finite [float64] is a whole multiple of
    2^-1074, so a finite value is represented by that multiple: [FFin n] is
    the number n * 2^-1074.  The sign of zero is not kept: no test of the
    billing code separates -0 from +0.

    [round_nonneg p q] rounds the non-negative rational p/q (in units of
    2^-1074) to 53 significant bits, ties to even, with gradual underflow;
    multiplication, division, addition and integer conversion are the exact
    result rounded by it.  The main result is that rounding is monotone
    ([round_nonneg_mono]), on which the charge and settlement theorems rest. *)

From S2P Require Import Prelude.

Inductive f64 : Type :=
| FNaN
| FInf (neg : bool)
| FFin (n : Z).

#[global] Instance f64_eq_dec : EqDecision f64.
Proof. solve_decision. Defined.

(** Number of quanta (2^-1074) in 1.0, and the first magnitude that overflows. *)
Definition one_quanta : Z := 2 ^ 1074.
Definition overflow_quanta : Z := 2 ^ 2098.

(** Floor division; a power of two is shifted out, so that evaluation does not
    divide thousand-bit numbers bit by bit. *)
Definition zdiv (p d : Z) : Z :=
  let k := Z.log2 d in if d =? 2 ^ k then Z.shiftr p k else p / d.

Lemma zdiv_div p d : zdiv p d = p / d.
Proof.
  unfold zdiv. destruct (Z.eqb_spec d (2 ^ Z.log2 d)) as [E|]; [|done].
  rewrite Z.shiftr_div_pow2 by apply Z.log2_nonneg. by rewrite <- E.
Qed.

(** Nearest integer to p/d, ties to even. *)
Definition rne (p d : Z) : Z :=
  let m := zdiv p d in
  let r := p - d * m in
  if 2 * r <? d then m
  else if d <? 2 * r then m + 1
  else if Z.even m then m else m + 1.

(** Exponent of the last kept bit. *)
Definition ulp_exp (p q : Z) : Z := Z.max 0 (Z.log2 (zdiv p q) - 52).

Definition round_nonneg (p q : Z) : Z :=
  let e := ulp_exp p q in rne p (q * 2 ^ e) * 2 ^ e.

Definition mk_f64 (neg : bool) (n : Z) : f64 :=
  if overflow_quanta <=? n then FInf neg else FFin (if neg then - n else n).

(** float64(z) for a non-negative integer z. *)
Definition f64_of_Z (z : Z) : f64 := mk_f64 (z <? 0) (round_nonneg (Z.abs z * one_quanta) 1).

Definition f64_mul (a b : f64) : f64 :=
  match a, b with
  | FNaN, _ | _, FNaN => FNaN
  | FInf s, FInf t => FInf (xorb s t)
  | FInf s, FFin n | FFin n, FInf s => if n =? 0 then FNaN else FInf (xorb s (n <? 0))
  | FFin m, FFin n =>
      mk_f64 (xorb (m <? 0) (n <? 0)) (round_nonneg (Z.abs m * Z.abs n) one_quanta)
  end.

Definition f64_div (a b : f64) : f64 :=
  match a, b with
  | FNaN, _ | _, FNaN => FNaN
  | FInf _, FInf _ => FNaN
  | FInf s, FFin n => FInf (xorb s (n <? 0))
  | FFin _, FInf _ => FFin 0
  | FFin m, FFin n =>
      if n =? 0 then (if m =? 0 then FNaN else FInf (m <? 0))
      else mk_f64 (xorb (m <? 0) (n <? 0)) (round_nonneg (Z.abs m * one_quanta) (Z.abs n))
  end.

Definition f64_add (a b : f64) : f64 :=
  match a, b with
  | FNaN, _ | _, FNaN => FNaN
  | FInf s, FInf t => if Bool.eqb s t then FInf s else FNaN
  | FInf s, FFin _ | FFin _, FInf s => FInf s
  | FFin m, FFin n => mk_f64 (m + n <? 0) (round_nonneg (Z.abs (m + n)) 1)
  end.

Definition f64_is_nan (a : f64) : bool := match a with FNaN => true | _ => false end.
Definition f64_is_inf (a : f64) : bool := match a with FInf _ => true | _ => false end.

(** a < b, false as soon as one side is NaN. *)
Definition f64_lt (a b : f64) : bool :=
  match a, b with
  | FNaN, _ | _, FNaN => false
  | FInf s, FInf t => s && negb t
  | FInf s, FFin _ => s
  | FFin _, FInf t => negb t
  | FFin m, FFin n => m <? n
  end.

Definition f64_eqb (a b : f64) : bool :=
  match a, b with
  | FInf s, FInf t => Bool.eqb s t
  | FFin m, FFin n => m =? n
  | _, _ => false
  end.

(** a >= b *)
Definition f64_ge (a b : f64) : bool := f64_lt b a || f64_eqb a b.

(** math.Ceil *)
Definition f64_ceil (a : f64) : f64 :=
  match a with
  | FFin n => FFin (- zdiv (- n) one_quanta * one_quanta)
  | _ => a
  end.

(** uint64(a): truncation toward zero; [None] where the Go specification
    leaves the result to the implementation. *)
Definition f64_to_u64 (a : f64) : option Z :=
  match a with
  | FFin n =>
      let z := if 0 <=? n then zdiv n one_quanta else - zdiv (- n) one_quanta in
      if (0 <=? z) && (z <=? u64_max) then Some z else None
  | _ => None
  end.

(** ** Rounding is monotone *)

(** Rounding with the usual quotient and remainder. *)
Definition rne_ref (p d : Z) : Z :=
  let m := p / d in
  let r := p mod d in
  if 2 * r <? d then m
  else if d <? 2 * r then m + 1
  else if Z.even m then m else m + 1.

Lemma rne_div p d : 0 < d -> rne p d = rne_ref p d.
Proof. intros Hd. unfold rne, rne_ref. rewrite zdiv_div, Z.mod_eq by lia. done. Qed.

Lemma rne_bounds p d :
  0 < d ->
  (2 * rne p d - 1) * d <= 2 * p <= (2 * rne p d + 1) * d
  /\ (2 * p = (2 * rne p d - 1) * d \/ 2 * p = (2 * rne p d + 1) * d -> Z.even (rne p d) = true).
Proof.
  intros Hd. rewrite rne_div by done. unfold rne_ref.
  pose proof (Z.div_mod p d ltac:(lia)) as E. pose proof (Z.mod_pos_bound p d Hd) as B.
  set (m := p / d) in *. set (r := p mod d) in *.
  destruct (Z.ltb_spec (2 * r) d); [split; [nia|]; intros [?|?]; nia|].
  destruct (Z.ltb_spec d (2 * r)); [split; [nia|]; intros [?|?]; nia|].
  destruct (Z.even m) eqn:Ev; [split; [nia|done]|].
  split; [nia|]. intros _. by rewrite Z.add_1_r, Z.even_succ, <- Z.negb_even, Ev.
Qed.

Lemma rne_mono p1 d1 p2 d2 :
  0 < d1 -> 0 < d2 -> p1 * d2 <= p2 * d1 -> rne p1 d1 <= rne p2 d2.
Proof.
  intros H1 H2 Hle.
  destruct (rne_bounds p1 d1 H1) as [[L1 U1] T1].
  destruct (rne_bounds p2 d2 H2) as [[L2 U2] T2].
  set (m1 := rne p1 d1) in *. set (m2 := rne p2 d2) in *.
  destruct (Z.le_gt_cases m1 m2) as [|Hgt]; [done|exfalso].
  assert ((2 * m1 - 1) * d1 * d2 <= 2 * p1 * d2) by nia.
  assert (2 * p2 * d1 <= (2 * m2 + 1) * d2 * d1) by nia.
  assert (0 < d1 * d2) by nia.
  assert (m1 = m2 + 1) as -> by nia.
  assert (2 * p1 = (2 * (m2 + 1) - 1) * d1) as E1 by nia.
  assert (2 * p2 = (2 * m2 + 1) * d2) as E2 by nia.
  specialize (T1 (or_introl E1)). specialize (T2 (or_intror E2)).
  rewrite Z.add_1_r, Z.even_succ, <- Z.negb_even, T2 in T1. discriminate.
Qed.

Lemma rne_int n d : 0 < d -> rne (n * d) d = n.
Proof.
  intros Hd. rewrite rne_div by done. unfold rne_ref. rewrite Z.div_mul, Z.mod_mul by lia.
  destruct (Z.ltb_spec (2 * 0) d); lia.
Qed.

Lemma rne_ge_int n p d : 0 < d -> n * d <= p -> n <= rne p d.
Proof. intros Hd H. rewrite <- (rne_int n d Hd) at 1. apply rne_mono; nia. Qed.

Lemma rne_le_int n p d : 0 < d -> p <= n * d -> rne p d <= n.
Proof. intros Hd H. rewrite <- (rne_int n d Hd). apply rne_mono; nia. Qed.

Lemma ulp_exp_nonneg p q : 0 <= ulp_exp p q.
Proof. unfold ulp_exp. lia. Qed.

Lemma div_le_div p1 q1 p2 q2 :
  0 < q1 -> 0 < q2 -> 0 <= p1 -> p1 * q2 <= p2 * q1 -> p1 / q1 <= p2 / q2.
Proof.
  intros H1 H2 Hp H. apply Z.div_le_lower_bound; [done|].
  pose proof (Z.mul_div_le p1 q1 H1). nia.
Qed.

Lemma ulp_exp_mono p1 q1 p2 q2 :
  0 < q1 -> 0 < q2 -> 0 <= p1 -> p1 * q2 <= p2 * q1 -> ulp_exp p1 q1 <= ulp_exp p2 q2.
Proof.
  intros. unfold ulp_exp. rewrite !zdiv_div.
  pose proof (Z.log2_le_mono (p1 / q1) (p2 / q2) ltac:(by apply div_le_div)). lia.
Qed.

(** The significand never exceeds 2^53. *)
Lemma round_significand p q : 0 < q -> 0 <= p ->
  0 <= rne p (q * 2 ^ ulp_exp p q) <= 2 ^ 53.
Proof.
  intros Hq Hp. pose proof (ulp_exp_nonneg p q) as He.
  pose proof (Z.pow_pos_nonneg 2 (ulp_exp p q) ltac:(lia) He) as Hpow.
  split; [apply rne_ge_int; nia|]. apply rne_le_int; [nia|].
  assert (p < (p / q + 1) * q) as Hlt by (pose proof (Z.div_mod p q ltac:(lia));
    pose proof (Z.mod_pos_bound p q Hq); nia).
  assert (p / q + 1 <= 2 ^ 53 * 2 ^ ulp_exp p q) as Hb; [|nia].
  rewrite <- Z.pow_add_r by lia. unfold ulp_exp. rewrite !zdiv_div.
  assert (0 <= p / q) by (apply Z.div_pos; lia).
  destruct (Z.eq_dec (p / q) 0) as [->|Hnz]; [vm_compute; discriminate|].
  pose proof (Z.log2_spec (p / q) ltac:(lia)) as [_ Hs].
  apply Z.le_trans with (2 ^ Z.succ (Z.log2 (p / q))); [lia|].
  apply Z.pow_le_mono_r; lia.
Qed.

Lemma round_lower p q : 0 < q -> 0 <= p -> 0 < ulp_exp p q ->
  2 ^ (52 + ulp_exp p q) <= round_nonneg p q.
Proof.
  intros Hq Hp He. unfold round_nonneg.
  rewrite Z.pow_add_r by lia. apply Z.mul_le_mono_nonneg_r; [lia|].
  pose proof (Z.pow_pos_nonneg 2 (ulp_exp p q) ltac:(lia) ltac:(lia)).
  apply rne_ge_int; [nia|].
  assert (2 ^ 52 * 2 ^ ulp_exp p q <= p / q) as Hb.
  { rewrite <- Z.pow_add_r by lia. unfold ulp_exp in *. rewrite zdiv_div in *.
    assert (0 < p / q) by (destruct (Z.le_gt_cases (p / q) 0) as [Hz|]; [|done];
      rewrite (Z.log2_nonpos _ Hz) in He; lia).
    pose proof (Z.log2_spec (p / q) ltac:(lia)) as [Hs _].
    replace (52 + Z.max 0 (Z.log2 (p / q) - 52)) with (Z.log2 (p / q)) by lia. done. }
  pose proof (Z.mul_div_le p q Hq). nia.
Qed.

Lemma round_upper p q : 0 < q -> 0 <= p -> round_nonneg p q <= 2 ^ (53 + ulp_exp p q).
Proof.
  intros Hq Hp. unfold round_nonneg.
  rewrite Z.pow_add_r by (pose proof (ulp_exp_nonneg p q); lia).
  apply Z.mul_le_mono_nonneg_r; [lia|]. by apply round_significand.
Qed.

Lemma round_nonneg_mono p1 q1 p2 q2 :
  0 < q1 -> 0 < q2 -> 0 <= p1 -> p1 * q2 <= p2 * q1 ->
  round_nonneg p1 q1 <= round_nonneg p2 q2.
Proof.
  intros H1 H2 Hp1 Hle. assert (0 <= p2) as Hp2 by nia.
  pose proof (ulp_exp_mono p1 q1 p2 q2 H1 H2 Hp1 Hle) as He.
  pose proof (ulp_exp_nonneg p1 q1) as He1.
  destruct (Z.eq_dec (ulp_exp p1 q1) (ulp_exp p2 q2)) as [Heq|Hne].
  - unfold round_nonneg. rewrite Heq.
    pose proof (Z.pow_pos_nonneg 2 (ulp_exp p2 q2) ltac:(lia) ltac:(lia)) as Hpow.
    apply Z.mul_le_mono_nonneg_r; [lia|]. apply rne_mono; nia.
  - apply Z.le_trans with (2 ^ (53 + ulp_exp p1 q1)); [by apply round_upper|].
    apply Z.le_trans with (2 ^ (52 + ulp_exp p2 q2)); [apply Z.pow_le_mono_r; lia|].
    apply round_lower; lia.
Qed.

Lemma round_nonneg_le p1 p2 q :
  0 < q -> 0 <= p1 <= p2 -> round_nonneg p1 q <= round_nonneg p2 q.
Proof.
  intros Hq H. apply round_nonneg_mono; try lia. apply Z.mul_le_mono_nonneg_r; lia.
Qed.

Lemma round_nonneg_nonneg p q : 0 < q -> 0 <= p -> 0 <= round_nonneg p q.
Proof.
  intros Hq Hp. unfold round_nonneg. pose proof (round_significand p q Hq Hp).
  apply Z.mul_nonneg_nonneg; [lia|]. apply Z.pow_nonneg. lia.
Qed.

(** ** Representable magnitudes *)

(** A magnitude with at most 53 significant bits. *)
Definition representable (n : Z) : Prop :=
  exists m e, 0 <= m <= 2 ^ 53 /\ 0 <= e /\ n = m * 2 ^ e.

Lemma round_representable p q : 0 < q -> 0 <= p -> representable (round_nonneg p q).
Proof.
  intros Hq Hp. exists (rne p (q * 2 ^ ulp_exp p q)), (ulp_exp p q).
  split; [by apply round_significand|]. split; [apply ulp_exp_nonneg|done].
Qed.

(** From 2^53 upwards a float64 is a whole number. *)
Lemma representable_integral n :
  representable n -> 2 ^ 53 * one_quanta <= n -> n mod one_quanta = 0.
Proof.
  intros (m & e & Hm & He & ->) Hle. unfold one_quanta in *.
  assert (1074 <= e) as Hge.
  { destruct (Z.le_gt_cases 1074 e) as [|Hlt]; [done|exfalso].
    assert (2 ^ e < 2 ^ 1074) by (apply Z.pow_lt_mono_r; lia).
    assert (0 <= 2 ^ e) by (apply Z.pow_nonneg; lia). nia. }
  replace e with ((e - 1074) + 1074) by lia.
  rewrite Z.pow_add_r by lia. rewrite Z.mul_assoc. apply Z.mod_mul. lia.
Qed.

(** Below a whole bound of at least 2^53, the ceiling stays below it. *)
Lemma ceil_below n b :
  representable n -> 2 ^ 53 < b -> n < b * one_quanta -> - (- n / one_quanta) < b.
Proof.
  intros Hr Hb Hn. assert (0 < one_quanta) as Hq by (vm_compute; done).
  destruct (Z.le_gt_cases (2 ^ 53 * one_quanta) n) as [Hbig|Hsmall].
  - pose proof (representable_integral n Hr Hbig) as H0.
    assert (n = one_quanta * (n / one_quanta)) as E by (apply Z.div_exact; lia).
    assert (- n / one_quanta = - (n / one_quanta)) as ->.
    { rewrite E at 1. replace (- (one_quanta * (n / one_quanta)))
        with (- (n / one_quanta) * one_quanta) by lia. apply Z.div_mul. lia. }
    nia.
  - assert (- 2 ^ 53 <= - n / one_quanta); [|lia].
    apply Z.div_le_lower_bound; lia.
Qed.

#[global] Opaque overflow_quanta one_quanta.

Lemma one_quanta_pos : 0 < one_quanta.
Proof. Transparent one_quanta. vm_compute. done. Qed.
#[global] Opaque one_quanta.

#[export] Hint Resolve one_quanta_pos round_nonneg_nonneg : billing.
