(* ===== verification/GoStd.v ===== *)
(** * Go standard library functions the billing code calls on strings

    [crypto/sha256] (FIPS 180-4) with [encoding/hex], [strings.TrimSpace],
    [ToLower], [Contains], [Split] and [Join], [strconv.FormatUint],
    [FormatInt] and [ParseUint] in base 10 and [binary.BigEndian.Uint64], as
    executable functions on byte strings. *)

From Stdlib Require Import Ascii.
From S2P Require Import Prelude.

(** ** Bytes *)

Definition byte_of_ascii (c : ascii) : Z := Z.of_N (N_of_ascii c).
Definition ascii_of_byte (z : Z) : ascii := ascii_of_N (Z.to_N z).

Fixpoint bytes_of_string (s : string) : list Z :=
  match s with
  | EmptyString => []
  | String c s' => byte_of_ascii c :: bytes_of_string s'
  end.

Fixpoint string_of_bytes (l : list Z) : string :=
  match l with
  | [] => EmptyString
  | z :: l' => String (ascii_of_byte z) (string_of_bytes l')
  end.

Definition is_byte (z : Z) : Prop := 0 <= z < 256.

Lemma byte_of_ascii_range c : is_byte (byte_of_ascii c).
Proof. unfold is_byte, byte_of_ascii. pose proof (N_ascii_bounded c). lia. Qed.

Lemma ascii_of_byte_of_ascii c : ascii_of_byte (byte_of_ascii c) = c.
Proof. unfold ascii_of_byte, byte_of_ascii. rewrite N2Z.id. apply ascii_N_embedding. Qed.

Lemma byte_of_ascii_of_byte z : is_byte z -> byte_of_ascii (ascii_of_byte z) = z.
Proof.
  unfold is_byte, byte_of_ascii, ascii_of_byte. intros H.
  rewrite N_ascii_embedding by lia. lia.
Qed.

Lemma bytes_are_bytes s : Forall is_byte (bytes_of_string s).
Proof. induction s as [|c s IH]; simpl; constructor; [apply byte_of_ascii_range|done]. Qed.

Lemma string_of_bytes_of_string s : string_of_bytes (bytes_of_string s) = s.
Proof. induction s as [|c s IH]; simpl; [done|]. by rewrite ascii_of_byte_of_ascii, IH. Qed.

Lemma bytes_of_string_of_bytes l : Forall is_byte l -> bytes_of_string (string_of_bytes l) = l.
Proof. induction 1; simpl; [done|]. by rewrite byte_of_ascii_of_byte, IHForall. Qed.

Lemma bytes_of_string_inj s t : bytes_of_string s = bytes_of_string t -> s = t.
Proof. intros H. by rewrite <- (string_of_bytes_of_string s), H, string_of_bytes_of_string. Qed.

Lemma bytes_of_string_app s t : bytes_of_string (s +:+ t) = bytes_of_string s ++ bytes_of_string t.
Proof. induction s as [|c s IH]; simpl; [done|]. by rewrite IH. Qed.

(** ** encoding/hex *)

Definition hex_digit (n : Z) : Z := if n <? 10 then 48 + n else 87 + n.

Definition hex_encode (l : list Z) : string :=
  string_of_bytes (flat_map (fun b => [hex_digit (b / 16); hex_digit (b mod 16)]) l).

(** hex.DecodeString accepts both cases. *)
Definition from_hex_char (c : Z) : option Z :=
  if (48 <=? c) && (c <=? 57) then Some (c - 48)
  else if (97 <=? c) && (c <=? 102) then Some (c - 87)
  else if (65 <=? c) && (c <=? 70) then Some (c - 55)
  else None.

Fixpoint hex_decode_bytes (l : list Z) : option (list Z) :=
  match l with
  | [] => Some []
  | [_] => None
  | a :: b :: l' =>
      match from_hex_char a, from_hex_char b, hex_decode_bytes l' with
      | Some x, Some y, Some r => Some (16 * x + y :: r)
      | _, _, _ => None
      end
  end.

Definition hex_decode (s : string) : option (list Z) := hex_decode_bytes (bytes_of_string s).

Lemma hex_digit_byte n : 0 <= n < 16 -> is_byte (hex_digit n).
Proof. unfold hex_digit, is_byte. intros. case_bool; zbool; lia. Qed.

Lemma from_hex_digit n : 0 <= n < 16 -> from_hex_char (hex_digit n) = Some n.
Proof.
  intros H. unfold hex_digit, from_hex_char.
  destruct (Z.ltb_spec n 10).
  - destruct (Z.leb_spec 48 (48 + n)), (Z.leb_spec (48 + n) 57); simpl; try lia. f_equal. lia.
  - destruct (Z.leb_spec 48 (87 + n)), (Z.leb_spec (87 + n) 57); simpl; try lia;
    destruct (Z.leb_spec 97 (87 + n)), (Z.leb_spec (87 + n) 102); simpl; try lia; f_equal; lia.
Qed.

Lemma hex_decode_encode l : Forall is_byte l -> hex_decode (hex_encode l) = Some l.
Proof.
  intros Hl. unfold hex_decode, hex_encode. rewrite bytes_of_string_of_bytes.
  2: { rewrite Forall_forall in *. intros x Hx. apply list_elem_of_In, in_flat_map in Hx as (b & Hb & Hx).
       apply list_elem_of_In in Hb. specialize (Hl b Hb). unfold is_byte in Hl.
       assert (0 <= b / 16 < 16) by (split; [apply Z.div_pos|apply Z.div_lt_upper_bound]; lia).
       pose proof (Z.mod_pos_bound b 16). destruct Hx as [<-|[<-|[]]]; apply hex_digit_byte; lia. }
  induction Hl as [|b l Hb Hl IH]; simpl; [done|]. unfold is_byte in Hb.
  assert (0 <= b / 16 < 16) by (split; [apply Z.div_pos|apply Z.div_lt_upper_bound]; lia).
  pose proof (Z.mod_pos_bound b 16).
  rewrite !from_hex_digit, IH by lia. do 2 f_equal. pose proof (Z.div_mod b 16). lia.
Qed.

(** ** crypto/sha256 *)

Module Sha256.
Definition w32 (z : Z) : Z := Z.land z (Z.ones 32).
Definition rotr (n x : Z) : Z := Z.lor (Z.shiftr x n) (w32 (Z.shiftl x (32 - n))).
Definition not32 (x : Z) : Z := Z.lxor x (Z.ones 32).

(** The constants as FIPS 180-4 derives them: the first 32 bits of the
    fractional parts of the cube roots of the first 64 primes, and of the
    square roots of the first eight. *)
Definition is_prime (n : Z) : bool :=
  forallb (fun d => negb (n mod Z.of_nat d =? 0)) (seq 2 (Z.to_nat (n - 2))).

Definition primes : list Z := filter (fun n => is_prime n = true) (Z.of_nat <$> seq 2 310).

(** Integer cube root, by bits from [b] down. *)
Fixpoint cube_root (b : nat) (acc n : Z) : Z :=
  match b with
  | O => acc
  | S b' => let x := acc + 2 ^ Z.of_nat b' in cube_root b' (if x * x * x <=? n then x else acc) n
  end.

Definition K : list Z :=
  Eval vm_compute in (fun p => w32 (cube_root 36 0 (Z.shiftl p 96))) <$> take 64 primes.

Definition H0 : list Z :=
  Eval vm_compute in (fun p => w32 (Z.sqrt (Z.shiftl p 64))) <$> take 8 primes.

Definition be_bytes (n : nat) (z : Z) : list Z :=
  (fun i => Z.land (Z.shiftr z (8 * Z.of_nat i)) 255) <$> rev (seq 0 n).

Definition pad (m : list Z) : list Z :=
  let len := Z.of_nat (length m) in
  m ++ [128] ++ replicate (Z.to_nat ((55 - len) mod 64)) 0 ++ be_bytes 8 (8 * len).

Fixpoint words (l : list Z) : list Z :=
  match l with
  | a :: b :: c :: d :: l' =>
      Z.shiftl a 24 + Z.shiftl b 16 + Z.shiftl c 8 + d :: words l'
  | _ => []
  end.

(** Message schedule, newest word first. *)
Fixpoint schedule (n : nat) (rw : list Z) : list Z :=
  match n with
  | O => rw
  | S n' =>
      let w2 := nth 1 rw 0 in let w15 := nth 14 rw 0 in
      let s0 := Z.lxor (Z.lxor (rotr 7 w15) (rotr 18 w15)) (Z.shiftr w15 3) in
      let s1 := Z.lxor (Z.lxor (rotr 17 w2) (rotr 19 w2)) (Z.shiftr w2 10) in
      schedule n' (w32 (nth 15 rw 0 + s0 + nth 6 rw 0 + s1) :: rw)
  end.

Fixpoint rounds (kw : list (Z * Z)) (st : list Z) : list Z :=
  match kw, st with
  | (k, w) :: kw', [a; b; c; d; e; f; g; h] =>
      let S1 := Z.lxor (Z.lxor (rotr 6 e) (rotr 11 e)) (rotr 25 e) in
      let ch := Z.lxor (Z.land e f) (Z.land (not32 e) g) in
      let t1 := h + S1 + ch + k + w in
      let S0 := Z.lxor (Z.lxor (rotr 2 a) (rotr 13 a)) (rotr 22 a) in
      let maj := Z.lxor (Z.lxor (Z.land a b) (Z.land a c)) (Z.land b c) in
      rounds kw' [w32 (t1 + (S0 + maj)); a; b; c; w32 (d + t1); e; f; g]
  | _, _ => st
  end.

Definition block (st : list Z) (ws : list Z) : list Z :=
  zip_with (fun x y => w32 (x + y)) st
    (rounds (zip K (rev (schedule 48 (rev ws)))) st).

Fixpoint blocks (fuel : nat) (st : list Z) (ws : list Z) : list Z :=
  match fuel, ws with
  | S fuel', _ :: _ => blocks fuel' (block st (take 16 ws)) (drop 16 ws)
  | _, _ => st
  end.

(** The 32-byte digest of a message. *)
Definition sum256 (m : list Z) : list Z :=
  let ws := words (pad m) in
  flat_map (be_bytes 4) (blocks (length ws) H0 ws).
End Sha256.

Definition sha256 (s : string) : list Z := Sha256.sum256 (bytes_of_string s).

(** The components below use the digest through [Digest], so their theorems
    hold whatever it computes; [sha256_digest] is the one the program uses. *)
Class Digest : Type := digest : list Z -> list Z.
Definition sha256_digest : Digest := Sha256.sum256.

Example sha256_abc :
  hex_encode (sha256 "abc") = "ba7816bf8f01cfea414140de5dae2223b00361a396177a9cb410ff61f20015ad"%string.
Proof. vm_compute. reflexivity. Qed.

Example sha256_two_blocks :
  hex_encode (sha256 "abcdbcdecdefdefgefghfghighijhijkijkljklmklmnlmnomnopnopq")
  = "248d6a61d20638b8e5c026930c3e6039a33ce45964ff2167f6ecedd419db06c1"%string.
Proof. vm_compute. reflexivity. Qed.

(** ** strings.TrimSpace *)

Definition chr (n : nat) : ascii := ascii_of_nat n.
Definition str_of_codes (l : list nat) : string := fold_right (fun n s => String (chr n) s) EmptyString l.

(** UTF-8 encodings of the runes unicode.IsSpace accepts. *)
Definition space_runes : list string :=
  str_of_codes <$>
    [[9]; [10]; [11]; [12]; [13]; [32]; [194; 133]; [194; 160]; [225; 154; 128];
     [226; 128; 128]; [226; 128; 129]; [226; 128; 130]; [226; 128; 131]; [226; 128; 132];
     [226; 128; 133]; [226; 128; 134]; [226; 128; 135]; [226; 128; 136]; [226; 128; 137];
     [226; 128; 138]; [226; 128; 168]; [226; 128; 169]; [226; 128; 175]; [226; 129; 159];
     [227; 128; 128]]%nat.

Fixpoint strip_prefix {A} `{EqDecision A} (p l : list A) : option (list A) :=
  match p, l with
  | [], _ => Some l
  | x :: p', y :: l' => if decide (x = y) then strip_prefix p' l' else None
  | _ :: _, [] => None
  end.

Definition strip_any (ps : list (list Z)) (l : list Z) : option (list Z) :=
  head (omap (fun p => strip_prefix p l) ps).

Fixpoint trim_left (fuel : nat) (ps : list (list Z)) (l : list Z) : list Z :=
  match fuel with
  | O => l
  | S fuel' => match strip_any ps l with Some l' => trim_left fuel' ps l' | None => l end
  end.

Definition trim_bytes (l : list Z) : list Z :=
  let ps := bytes_of_string <$> space_runes in
  let l1 := trim_left (length l) ps l in
  rev (trim_left (length l1) (@rev Z <$> ps) (rev l1)).

Definition trim_space (s : string) : string := string_of_bytes (trim_bytes (bytes_of_string s)).

(** ** strings.ToLower and strings.Contains

    [to_lower] maps A-Z, and the two runes outside ASCII whose lower case is
    an ASCII letter (U+0130 to i, U+212A to k); the other runes outside ASCII
    stay outside ASCII and are kept, so that comparisons with ASCII text come
    out as in Go. *)
Fixpoint lower_bytes (l : list Z) : list Z :=
  match l with
  | 196 :: 176 :: l' => 105 :: lower_bytes l'
  | 226 :: 132 :: 170 :: l' => 107 :: lower_bytes l'
  | b :: l' => (if (65 <=? b) && (b <=? 90) then b + 32 else b) :: lower_bytes l'
  | [] => []
  end.

Definition to_lower (s : string) : string := string_of_bytes (lower_bytes (bytes_of_string s)).

Fixpoint contains_bytes (l sub : list Z) : bool :=
  match strip_prefix sub l, l with
  | Some _, _ => true
  | None, _ :: l' => contains_bytes l' sub
  | None, [] => false
  end.

Definition contains (s sub : string) : bool := contains_bytes (bytes_of_string s) (bytes_of_string sub).

(** Text made of printable ASCII bytes is left alone. *)
Definition printable (b : Z) : Prop := 33 <= b < 128.

Definition starts_unprintable (p : list Z) : bool :=
  match p with x :: _ => (x <? 33) || (128 <=? x) | [] => false end.

Lemma strip_any_printable ps l :
  forallb starts_unprintable ps = true -> Forall printable l -> strip_any ps l = None.
Proof.
  intros Hps Hl. unfold strip_any. induction ps as [|p ps IH]; simpl in *; [done|].
  apply andb_prop in Hps as [Hp Hps].
  assert (strip_prefix p l = None) as ->; [|by apply IH].
  destruct p as [|x p]; [done|]. destruct Hl as [|y l Hy Hl]; simpl in *; [done|].
  destruct (decide (x = y)) as [->|]; [|done]. unfold printable in Hy.
  destruct (Z.ltb_spec y 33), (Z.leb_spec 128 y); simpl in Hp; lia || done.
Qed.

Lemma trim_left_printable fuel ps l :
  forallb starts_unprintable ps = true -> Forall printable l -> trim_left fuel ps l = l.
Proof. intros Hps Hl. destruct fuel; simpl; [done|]. by rewrite strip_any_printable. Qed.

Lemma trim_space_printable s : Forall printable (bytes_of_string s) -> trim_space s = s.
Proof.
  intros H. unfold trim_space, trim_bytes.
  rewrite (trim_left_printable _ _ (bytes_of_string s)); [|reflexivity|done].
  rewrite trim_left_printable; [|reflexivity|by apply Forall_rev].
  rewrite rev_involutive. apply string_of_bytes_of_string.
Qed.

(** Trimming twice is trimming once. *)
Lemma strip_prefix_app (p l k l' : list Z) : strip_prefix p l = Some l' -> strip_prefix p (l ++ k) = Some (l' ++ k).
Proof.
  revert l. induction p as [|x p IH]; intros [|y l]; simpl; try by intros [= <-]. case_decide; [apply IH|done].
Qed.

Lemma strip_prefix_Some (p l l' : list Z) : strip_prefix p l = Some l' -> l = p ++ l'.
Proof.
  revert l. induction p as [|x p IH]; intros [|y l]; simpl; try by intros [= <-].
  case_decide as E; [|done]. intros H. by rewrite E, (IH _ H).
Qed.

Lemma strip_any_app ps l k : strip_any ps (l ++ k) = None -> strip_any ps l = None.
Proof.
  unfold strip_any. intros H. induction ps as [|p ps IH]; simpl in *; [done|].
  destruct (strip_prefix p l) as [l'|] eqn:E; [by rewrite (strip_prefix_app _ _ k _ E) in H|].
  destruct (strip_prefix p (l ++ k)); [done|by apply IH].
Qed.

Lemma strip_any_Some ps l l' : strip_any ps l = Some l' -> exists p, p ∈ ps /\ l = p ++ l'.
Proof.
  unfold strip_any. intros H. destruct (omap _ ps) as [|x xs] eqn:E; [done|]. injection H as ->.
  assert (l' ∈ omap (fun p => strip_prefix p l) ps) as Hin by (rewrite E; left).
  apply list_elem_of_omap in Hin as (p & Hp & Hs). exists p. split; [done|by apply strip_prefix_Some].
Qed.

Lemma trim_left_spec ps fuel l :
  Forall (fun p => p <> []) ps -> (length l <= fuel)%nat ->
  strip_any ps (trim_left fuel ps l) = None /\ exists k, l = k ++ trim_left fuel ps l.
Proof.
  intros Hps. revert l. induction fuel as [|fuel IH]; intros l Hl; simpl.
  - destruct l; [|simpl in Hl; lia]. split; [|by exists []]. apply eq_None_ne_Some. intros l' (p & Hp & E)%strip_any_Some.
    symmetry in E. apply app_eq_nil in E as [-> _]. by apply (Forall_forall _ _) with (x := []) in Hps.
  - destruct (strip_any ps l) as [l'|] eqn:E; [|by split; [|exists []]]. apply strip_any_Some in E as (p & Hp & ->).
    rewrite Forall_forall in Hps. specialize (Hps _ Hp). destruct (IH l') as [H1 [k Hk]].
    { rewrite length_app in Hl. destruct p; [done|simpl in Hl; lia]. }
    split; [done|]. exists (p ++ k). by rewrite <- app_assoc, <- Hk.
Qed.

Lemma trim_left_None ps fuel l : strip_any ps l = None -> trim_left fuel ps l = l.
Proof. destruct fuel; simpl; [done|]. by intros ->. Qed.

Lemma trim_bytes_spec l :
  trim_bytes (trim_bytes l) = trim_bytes l /\ exists k k', l = k ++ trim_bytes l ++ k'.
Proof.
  unfold trim_bytes at 2 3 4. set (ps := bytes_of_string <$> space_runes).
  destruct (trim_left_spec ps (length l) l) as [N1 [k1 E1]]; [vm_compute; repeat (constructor; [discriminate|]); constructor|done|].
  set (l1 := trim_left (length l) ps l) in *.
  destruct (trim_left_spec (@rev Z <$> ps) (length l1) (rev l1)) as [N2 [k2 E2]];
    [vm_compute; repeat (constructor; [discriminate|]); constructor|by rewrite length_rev|].
  set (t := trim_left (length l1) (@rev Z <$> ps) (rev l1)) in *.
  assert (l1 = rev t ++ rev k2) as E3 by (by rewrite <- rev_app_distr, <- E2, rev_involutive).
  rewrite E3 in N1. apply strip_any_app in N1. split.
  - unfold trim_bytes. fold ps. rewrite (trim_left_None ps) by done. rewrite trim_left_None; by rewrite rev_involutive.
  - exists k1, (rev k2). by rewrite <- E3.
Qed.

Lemma trim_space_trimmed s : trim_space (trim_space s) = trim_space s.
Proof.
  unfold trim_space. destruct (trim_bytes_spec (bytes_of_string s)) as (Ht & k & k' & E).
  rewrite bytes_of_string_of_bytes; [by rewrite Ht|].
  pose proof (bytes_are_bytes s) as Hb. rewrite E in Hb. apply Forall_app in Hb as [_ Hb]. by apply Forall_app in Hb as [Hb _].
Qed.

Lemma hex_digit_printable n : 0 <= n < 16 -> printable (hex_digit n).
Proof. unfold hex_digit, printable. intros. case_bool; zbool; lia. Qed.

Lemma hex_encode_printable l : Forall is_byte l -> Forall printable (bytes_of_string (hex_encode l)).
Proof.
  intros Hl. unfold hex_encode.
  assert (Forall (fun x => is_byte x /\ printable x)
    (flat_map (fun b => [hex_digit (b / 16); hex_digit (b mod 16)]) l)) as H.
  { induction Hl as [|b l Hb Hl IH]; simpl; [done|]. unfold is_byte in Hb.
    assert (0 <= b / 16 < 16) by (split; [apply Z.div_pos|apply Z.div_lt_upper_bound]; lia).
    pose proof (Z.mod_pos_bound b 16).
    repeat (constructor; [split; [apply hex_digit_byte|apply hex_digit_printable]; lia|]). done. }
  rewrite bytes_of_string_of_bytes; (eapply Forall_impl; [exact H|]); by intros x [? ?].
Qed.

(** ** strconv *)

(** strconv.FormatUint(z, 10) *)
Fixpoint dec_digits (fuel : nat) (z : Z) (acc : list Z) : list Z :=
  match fuel with
  | O => acc
  | S fuel' =>
      let acc' := 48 + z mod 10 :: acc in
      if z <? 10 then acc' else dec_digits fuel' (z / 10) acc'
  end.

Definition format_uint (z : Z) : string :=
  string_of_bytes (dec_digits (S (Z.to_nat (Z.log2 z))) z []).

(** strconv.FormatInt(z, 10) *)
Definition format_int (z : Z) : string :=
  if z <? 0 then "-" +:+ format_uint (- z) else format_uint z.

Example format_uint_ex : format_uint 18446744073709551615 = "18446744073709551615"%string.
Proof. vm_compute. reflexivity. Qed.

(** The digits determine the number. *)
Definition dec_fold (z : Z) (l : list Z) : Z := foldl (fun a b => a * 10 + (b - 48)) z l.

Lemma dec_digits_value fuel z acc :
  0 <= z < 2 ^ Z.of_nat fuel -> dec_fold 0 (dec_digits fuel z acc) = dec_fold z acc.
Proof.
  revert z acc. induction fuel as [|fuel IH]; intros z acc Hz; simpl.
  - change (2 ^ Z.of_nat 0) with 1 in Hz. by replace z with 0 by lia.
  - pose proof (Z.div_mod z 10 ltac:(lia)). pose proof (Z.mod_pos_bound z 10 ltac:(lia)).
    rewrite Nat2Z.inj_succ, Z.pow_succ_r in Hz by lia.
    destruct (Z.ltb_spec z 10); [|rewrite IH by lia]; unfold dec_fold; simpl; f_equal; [rewrite Z.mod_small|]; lia.
Qed.

Lemma dec_digits_ascii fuel z acc :
  Forall (fun b => 48 <= b <= 57) acc -> Forall (fun b => 48 <= b <= 57) (dec_digits fuel z acc).
Proof.
  revert z acc. induction fuel as [|fuel IH]; intros z acc Ha; simpl; [done|].
  pose proof (Z.mod_pos_bound z 10 ltac:(lia)).
  destruct (z <? 10); [|apply IH]; (constructor; [lia|done]).
Qed.

Lemma format_uint_bytes z : bytes_of_string (format_uint z) = dec_digits (S (Z.to_nat (Z.log2 z))) z [].
Proof.
  apply bytes_of_string_of_bytes. eapply Forall_impl; [apply dec_digits_ascii; constructor|].
  intros b Hb. simpl in Hb. unfold is_byte. lia.
Qed.

Lemma format_uint_value z : 0 <= z -> dec_fold 0 (bytes_of_string (format_uint z)) = z.
Proof.
  intros Hz. rewrite format_uint_bytes, dec_digits_value; [done|]. split; [done|].
  destruct (decide (z = 0)) as [->|]; [by vm_compute|].
  rewrite Nat2Z.inj_succ, Z2Nat.id by apply Z.log2_nonneg. apply Z.log2_spec. lia.
Qed.

Lemma format_uint_inj x y : 0 <= x -> 0 <= y -> format_uint x = format_uint y -> x = y.
Proof. intros Hx Hy E. by rewrite <- (format_uint_value x Hx), E, format_uint_value. Qed.

(** strconv.ParseUint(s, 10, 64) with its error dropped: 0 on a syntax error,
    the largest value when the number read so far does not fit. *)
Fixpoint parse_digits (l : list Z) (n : Z) : Z :=
  match l with
  | [] => n
  | b :: l' =>
      if (48 <=? b) && (b <=? 57)
      then let n' := n * 10 + (b - 48) in if u64_max <? n' then u64_max else parse_digits l' n'
      else 0
  end.

Definition parse_uint (s : string) : Z := parse_digits (bytes_of_string s) 0.

Lemma dec_fold_ge l n : Forall (fun b => 48 <= b <= 57) l -> 0 <= n -> n <= dec_fold n l.
Proof.
  intros Hl. revert n. induction Hl as [|b l Hb _ IH]; intros n Hn; unfold dec_fold in *; simpl; [lia|].
  etrans; [|apply IH]; lia.
Qed.

Lemma parse_digits_fold l n :
  Forall (fun b => 48 <= b <= 57) l -> 0 <= n -> dec_fold n l <= u64_max -> parse_digits l n = dec_fold n l.
Proof.
  intros Hl. revert n. induction Hl as [|b l Hb Hl IH]; intros n Hn H; simpl; [done|].
  pose proof (dec_fold_ge l (n * 10 + (b - 48)) Hl ltac:(lia)). unfold dec_fold in *. simpl in *.
  destruct (Z.leb_spec 48 b), (Z.leb_spec b 57); try lia. simpl.
  destruct (Z.ltb_spec u64_max (n * 10 + (b - 48))); [lia|]. apply IH; lia.
Qed.

Lemma parse_format_uint z : is_u64 z -> parse_uint (format_uint z) = z.
Proof.
  unfold is_u64, parse_uint. intros Hz. pose proof (format_uint_value z (proj1 Hz)) as Hv.
  rewrite parse_digits_fold; [done| |lia|lia]. rewrite format_uint_bytes. by apply dec_digits_ascii.
Qed.

(** ** strings.Split, strings.Join and strings.HasPrefix *)

(** The parts of [s] between the occurrences of the one-byte separator. *)
Fixpoint split_string (sep : ascii) (s : string) : list string :=
  match s with
  | EmptyString => [EmptyString]
  | String c s' =>
      match split_string sep s' with
      | part :: parts => if Ascii.eqb c sep then EmptyString :: part :: parts else String c part :: parts
      | [] => [EmptyString]
      end
  end.

Fixpoint join_strings (sep : string) (parts : list string) : string :=
  match parts with
  | [] => ""
  | [s] => s
  | s :: parts' => s +:+ sep +:+ join_strings sep parts'
  end.

Definition has_prefix (s prefix : string) : bool := String.prefix prefix s.

(** binary.BigEndian.Uint64 and binary.LittleEndian.Uint64 *)
Definition be_value (l : list Z) : Z := foldl (fun acc b => acc * 256 + b) 0 l.
Definition le_value (l : list Z) : Z := be_value (rev l).

Lemma be_value_snoc l b : be_value (l ++ [b]) = be_value l * 256 + b.
Proof. unfold be_value. by rewrite foldl_app. Qed.

(** The little-endian value in the usual recursive form. *)
Lemma le_value_cons b l : le_value (b :: l) = b + 256 * le_value l.
Proof. unfold le_value. simpl. rewrite be_value_snoc. lia. Qed.

Lemma le_value_range l : Forall is_byte l -> 0 <= le_value l < 256 ^ Z.of_nat (length l).
Proof.
  induction 1 as [|b l Hb Hl IH]; [by vm_compute|]. rewrite le_value_cons.
  unfold is_byte in Hb. simpl length. rewrite Nat2Z.inj_succ, Z.pow_succ_r by lia. lia.
Qed.

Lemma le_value_app l1 l2 : le_value (l1 ++ l2) = le_value l1 + 256 ^ Z.of_nat (length l1) * le_value l2.
Proof.
  induction l1 as [|b l1 IH].
  - simpl length. change (le_value []) with 0. simpl app. lia.
  - simpl app. rewrite !le_value_cons, IH. simpl length. rewrite Nat2Z.inj_succ, Z.pow_succ_r by lia. lia.
Qed.

Lemma le_value_zero l : Forall is_byte l -> le_value l = 0 <-> Forall (fun b => b = 0) l.
Proof.
  induction 1 as [|b l Hb Hl IH]; [by split|]. rewrite le_value_cons, Forall_cons, <- IH.
  pose proof (le_value_range l Hl). unfold is_byte in Hb. lia.
Qed.
