(* ===== verification/GoFormat.v ===== *)
(** * strconv.FormatFloat(x, 'g', -1, 64) and FormatFloat(x, 'f', -1, 64)

    The shortest decimal that parses back to the same float64, closest to it
    among those of its length, printed with an exponent when the decimal
    exponent is below -4 or at least 6. *)

From S2P Require Import Prelude GoFloat GoStd.

(** Is n quanta less than 10^dp? *)
Definition below_pow10 (n dp : Z) : bool :=
  if 0 <=? dp then n <? 10 ^ dp * one_quanta else n * 10 ^ (- dp) <? one_quanta.

Fixpoint decimal_point (fuel : nat) (n dp : Z) : Z :=
  match fuel with
  | O => dp
  | S fuel' => if below_pow10 n dp then dp else decimal_point fuel' n (dp + 1)
  end.

(** The float64 nearest to m * 10^e, in quanta. *)
Definition parse_decimal (m e : Z) : Z :=
  if 0 <=? e then round_nonneg (m * 10 ^ e * one_quanta) 1 else round_nonneg (m * one_quanta) (10 ^ (- e)).

(** The value scaled by 10^s: quotient, and twice the remainder compared with
    the divisor. *)
Definition scaled (n s : Z) : Z * comparison :=
  let num := if 0 <=? s then n * 10 ^ s else n in
  let den := if 0 <=? s then one_quanta else one_quanta * 10 ^ (- s) in
  (num / den, 2 * (num mod den) ?= den).

(** The candidate with k digits, if one parses back. *)
Definition shortest_at (n dp k : Z) : option Z :=
  let '(m, half) := scaled n (k - dp) in
  let lo := parse_decimal m (dp - k) =? n in
  let hi := parse_decimal (m + 1) (dp - k) =? n in
  match lo, hi with
  | true, true => Some (match half with Lt => m | Gt => m + 1 | Eq => if Z.even m then m else m + 1 end)
  | true, false => Some m
  | false, true => Some (m + 1)
  | false, false => None
  end.

Fixpoint shortest (fuel : nat) (n dp k : Z) : Z * Z :=
  match shortest_at n dp k, fuel with
  | Some m, _ => (m, k)
  | None, S fuel' => shortest fuel' n dp (k + 1)
  | None, O => (0, k)
  end.

(** Digits (most significant first) and decimal point of a positive value. *)
Definition float_digits (n : Z) : string * Z :=
  let dp := decimal_point 6 n ((Z.log2 n - 1074) * 30103 / 100000 - 1) in
  let '(m, k) := shortest 17 n dp 1 in
  if m =? 10 ^ k then ("1"%string, dp + 1) else (format_uint m, dp).

Definition zeros (n : Z) : string := string_of_bytes (replicate (Z.to_nat n) 48).

Definition format_exponent (digits : string) (dp : Z) : string :=
  let exp := dp - 1 in
  let mant := match digits with
              | String c EmptyString => String c EmptyString
              | String c rest => String c EmptyString +:+ "." +:+ rest
              | EmptyString => ""
              end in
  let e := format_uint (Z.abs exp) in
  mant +:+ "e" +:+ (if exp <? 0 then "-" else "+") +:+ (if Z.abs exp <? 10 then "0" +:+ e else e).

Definition format_fixed (digits : string) (dp : Z) : string :=
  let nd := Z.of_nat (String.length digits) in
  if dp <=? 0 then "0." +:+ zeros (- dp) +:+ digits
  else if nd <=? dp then digits +:+ zeros (dp - nd)
  else string_of_bytes (take (Z.to_nat dp) (bytes_of_string digits)) +:+ "."
       +:+ string_of_bytes (drop (Z.to_nat dp) (bytes_of_string digits)).

Definition format_positive (n : Z) : string :=
  let '(digits, dp) := float_digits n in
  if (dp - 1 <? -4) || (6 <=? dp - 1) then format_exponent digits dp else format_fixed digits dp.

Definition format_float (f : f64) : string :=
  match f with
  | FNaN => "NaN"
  | FInf neg => if (neg : bool) then "-Inf" else "+Inf"
  | FFin n => if n =? 0 then "0" else if n <? 0 then "-" +:+ format_positive (- n) else format_positive n
  end.

(** FormatFloat(x, 'f', -1, 64): never an exponent. *)
Definition format_plain (f : f64) : string :=
  let positive n := let '(digits, dp) := float_digits n in format_fixed digits dp in
  match f with
  | FNaN => "NaN"
  | FInf neg => if (neg : bool) then "-Inf" else "+Inf"
  | FFin n => if n =? 0 then "0" else if n <? 0 then "-" +:+ positive (- n) else positive n
  end.
