(* ===== verification/GoURL.v ===== *)
(** * net/url: query strings

    Models what contracts.go uses of net/url: [URL.Query] (ParseQuery with its
    error dropped), [Values.Set] and [Values.Encode].  [url.Parse] and
    [URL.String] treat the rest of a URL; they are the operations of [NetURL],
    of which nothing is assumed. *)

From Stdlib Require Import Ascii.
From S2P Require Import Prelude GoStd.

Class NetURL : Type := {
  goURL : Type;
  url_parse : string -> option goURL;
  url_raw_query : goURL -> string;
  (** parsed.RawQuery = query *)
  url_with_query : string -> goURL -> goURL;
  url_string : goURL -> string
}.

(** ** QueryEscape and QueryUnescape, on bytes *)

(** Letters, digits and the marks - _ . ~ *)
Definition unreserved (b : Z) : bool :=
  (97 <=? b) && (b <=? 122) || (65 <=? b) && (b <=? 90) || (48 <=? b) && (b <=? 57)
  || bool_decide (b ∈ [45; 95; 46; 126]).

Definition upper_hex (n : Z) : Z := if n <? 10 then 48 + n else 55 + n.

Definition escape_byte (b : Z) : list Z :=
  if unreserved b then [b] else if b =? 32 then [43] else [37; upper_hex (b / 16); upper_hex (b mod 16)].

Definition query_escape_bytes (l : list Z) : list Z := flat_map escape_byte l.

Fixpoint query_unescape_bytes (l : list Z) : option (list Z) :=
  match l with
  | [] => Some []
  | 37 :: a :: b :: l' =>
      match from_hex_char a, from_hex_char b, query_unescape_bytes l' with
      | Some x, Some y, Some r => Some (16 * x + y :: r)
      | _, _, _ => None
      end
  | 37 :: _ => None
  | b :: l' => (fun r => (if b =? 43 then 32 else b) :: r) <$> query_unescape_bytes l'
  end.

(** ** ParseQuery and Encode, on bytes *)

(** strings.Cut: the part before the separator and the part after it. *)
Fixpoint cut_bytes (sep : Z) (l : list Z) : list Z * list Z :=
  match l with
  | [] => ([], [])
  | b :: l' => if b =? sep then ([], l') else let r := cut_bytes sep l' in (b :: r.1, r.2)
  end.

Fixpoint split_bytes (sep : Z) (l : list Z) : list (list Z) :=
  match l with
  | [] => [[]]
  | b :: l' =>
      match split_bytes sep l' with
      | part :: parts => if b =? sep then [] :: part :: parts else (b :: part) :: parts
      | [] => [[]]
      end
  end.

Abbreviation values := (gmap string (list string)).

Definition add_value (m : values) (k v : string) : values := <[k := default [] (m !! k) ++ [v]]> m.

(** One setting of a query; [None] when it is skipped. *)
Definition parse_setting (setting : list Z) : option (string * string) :=
  if bool_decide (59 ∈ setting) || bool_decide (setting = []) then None
  else
    let kv := cut_bytes 61 setting in
    match query_unescape_bytes kv.1, query_unescape_bytes kv.2 with
    | Some k, Some v => Some (string_of_bytes k, string_of_bytes v)
    | _, _ => None
    end.

Definition add_setting (m : values) (setting : list Z) : values :=
  match parse_setting setting with Some (k, v) => add_value m k v | None => m end.

Definition parse_query (query : string) : values := foldl add_setting ∅ (split_bytes 38 (bytes_of_string query)).

Definition set_value (m : values) (k v : string) : values := <[k := [v]]> m.

Definition encode_setting (kv : string * string) : list Z :=
  query_escape_bytes (bytes_of_string kv.1) ++ 61 :: query_escape_bytes (bytes_of_string kv.2).

Fixpoint join_bytes (sep : Z) (parts : list (list Z)) : list Z :=
  match parts with
  | [] => []
  | [p] => p
  | p :: parts' => p ++ sep :: join_bytes sep parts'
  end.

(** The settings of the values, ordered by key. *)
Definition settings (m : values) : list (string * string) :=
  flat_map (fun kvs => (fun v => (kvs.1, v)) <$> kvs.2)
    (sort_slice (on_key str_ltb fst) (map_to_list m)).

Definition encode_query (m : values) : string := string_of_bytes (join_bytes 38 (encode_setting <$> settings m)).

(** ** The escape is undone *)

Lemma upper_hex_hex n : 0 <= n < 16 -> from_hex_char (upper_hex n) = Some n.
Proof.
  intros H. assert (forallb (fun k => bool_decide (from_hex_char (upper_hex (Z.of_nat k)) = Some (Z.of_nat k))) (seq 0 16) = true)
    as Hall by by vm_compute.
  rewrite forallb_forall in Hall. specialize (Hall (Z.to_nat n)). rewrite Z2Nat.id, bool_decide_eq_true in Hall by lia.
  apply Hall, in_seq. lia.
Qed.

Lemma unescape_escape_byte b l :
  is_byte b -> query_unescape_bytes (escape_byte b ++ l) = (b ::.) <$> query_unescape_bytes l.
Proof.
  unfold is_byte, escape_byte. intros Hb. destruct (unreserved b) eqn:Hu.
  - assert (b <> 37 /\ b <> 43) as [H37 H43] by (split; intros ->; by vm_compute in Hu).
    assert (query_unescape_bytes (b :: l) = (fun r => (if b =? 43 then 32 else b) :: r) <$> query_unescape_bytes l) as Hd.
    { destruct b as [|p|p]; try done. do 7 (destruct p as [p|p|]; try done). }
    simpl app. rewrite Hd. destruct (Z.eqb_spec b 43); [done|]. done.
  - destruct (Z.eqb_spec b 32) as [->|H32]; [done|].
    pose proof (Z.mod_pos_bound b 16). assert (0 <= b / 16 < 16) by (split; [apply Z.div_pos|apply Z.div_lt_upper_bound]; lia).
    simpl app. cbn [query_unescape_bytes]. rewrite !upper_hex_hex by lia.
    replace (16 * (b / 16) + b mod 16) with b by (pose proof (Z.div_mod b 16); lia).
    by destruct (query_unescape_bytes l).
Qed.

Lemma unescape_escape l : Forall is_byte l -> query_unescape_bytes (query_escape_bytes l) = Some l.
Proof.
  induction 1 as [|b l Hb Hl IH]; [done|]. unfold query_escape_bytes in *. cbn [flat_map].
  by rewrite unescape_escape_byte, IH.
Qed.

(** ** Encode and ParseQuery are inverse *)

Lemma escape_byte_safe b : is_byte b -> Forall (fun x => x <> 38 /\ x <> 59 /\ x <> 61) (escape_byte b).
Proof.
  unfold is_byte, escape_byte, upper_hex. intros Hb. destruct (unreserved b) eqn:Hu.
  - constructor; [|constructor]. repeat split; intros ->; by vm_compute in Hu.
  - rewrite !Forall_forall. intros x Hx. pose proof (Z.mod_pos_bound b 16). pose proof (Z.div_mod b 16).
    destruct (b =? 32); rewrite !elem_of_cons in Hx; destruct_or!; subst; try (by apply elem_of_nil in Hx);
      repeat split; repeat (case_bool; zbool); lia.
Qed.

Lemma query_escape_safe l : Forall is_byte l -> Forall (fun x => x <> 38 /\ x <> 59 /\ x <> 61) (query_escape_bytes l).
Proof.
  induction 1 as [|b l Hb Hl IH]; [constructor|]. unfold query_escape_bytes in *. cbn [flat_map].
  apply Forall_app. split; [by apply escape_byte_safe|exact IH].
Qed.

Lemma cut_bytes_sep sep l r : Forall (fun x => x <> sep) l -> cut_bytes sep (l ++ sep :: r) = (l, r).
Proof.
  induction 1 as [|b l Hb Hl IH]; simpl; [by rewrite Z.eqb_refl|].
  destruct (Z.eqb_spec b sep); [done|]. by rewrite IH.
Qed.

Lemma encode_setting_safe kv : Forall (fun x => x <> 38 /\ x <> 59) (encode_setting kv).
Proof.
  unfold encode_setting. apply Forall_app. split; [|constructor; [done|]];
    (eapply Forall_impl; [apply query_escape_safe, bytes_are_bytes|]); simpl; tauto.
Qed.

Lemma parse_encode_setting kv : parse_setting (encode_setting kv) = Some kv.
Proof.
  unfold parse_setting. pose proof (encode_setting_safe kv) as Hs.
  assert (bool_decide (59 ∈ encode_setting kv) = false) as ->.
  { apply bool_decide_eq_false. intros Hin. rewrite Forall_forall in Hs. by apply Hs in Hin as []. }
  assert (bool_decide (encode_setting kv = []) = false) as ->.
  { apply bool_decide_eq_false. unfold encode_setting. by destruct (query_escape_bytes _). }
  simpl. unfold encode_setting. rewrite cut_bytes_sep; simpl.
  - rewrite !unescape_escape by apply bytes_are_bytes. rewrite !string_of_bytes_of_string. by destruct kv.
  - eapply Forall_impl; [apply query_escape_safe, bytes_are_bytes|]. simpl. tauto.
Qed.

Lemma split_bytes_app sep l r :
  Forall (fun x => x <> sep) l -> split_bytes sep (l ++ sep :: r) = l :: split_bytes sep r.
Proof.
  assert (forall r', exists p ps, split_bytes sep r' = p :: ps) as Hne.
  { induction r' as [|b r' (p & ps & IH)]; simpl; [eauto|]. rewrite IH. destruct (b =? sep); eauto. }
  induction 1 as [|b l Hb Hl IH]; simpl.
  - destruct (Hne r) as (p & ps & ->). by rewrite Z.eqb_refl.
  - rewrite IH. by destruct (Z.eqb_spec b sep).
Qed.

Lemma split_bytes_none sep l : Forall (fun x => x <> sep) l -> split_bytes sep l = [l].
Proof. induction 1 as [|b l Hb Hl IH]; simpl; [done|]. rewrite IH. by destruct (Z.eqb_spec b sep). Qed.

Lemma split_join_bytes sep parts :
  parts <> [] -> Forall (Forall (fun x => x <> sep)) parts -> split_bytes sep (join_bytes sep parts) = parts.
Proof.
  intros Hne Hp. induction Hp as [|p parts Hp Hps IH]; [done|]. destruct parts as [|q parts]; simpl.
  - by apply split_bytes_none.
  - rewrite split_bytes_app by done. f_equal. by apply IH.
Qed.

Lemma join_bytes_are_bytes parts : Forall (Forall is_byte) parts -> Forall is_byte (join_bytes 38 parts).
Proof.
  induction 1 as [|p parts Hp Hps IH]; [constructor|]. destruct parts; [done|]. simpl.
  apply Forall_app. split; [done|]. constructor; [by unfold is_byte|done].
Qed.

Lemma encode_setting_bytes kv : Forall is_byte (encode_setting kv).
Proof.
  assert (forall s, Forall is_byte (query_escape_bytes (bytes_of_string s))) as Hq.
  { intros s. induction (bytes_are_bytes s) as [|b l Hb Hl IH]; [constructor|].
    unfold query_escape_bytes in *. cbn [flat_map]. apply Forall_app. split; [|done].
    unfold is_byte, escape_byte, upper_hex in *. pose proof (Z.mod_pos_bound b 16).
    assert (0 <= b / 16 < 16) by (split; [apply Z.div_pos|apply Z.div_lt_upper_bound]; lia).
    apply Forall_forall. intros x Hx. destruct (unreserved b), (b =? 32); rewrite !elem_of_cons in Hx; destruct_or!; subst;
      try (by apply elem_of_nil in Hx); repeat (case_bool; zbool); lia. }
  unfold encode_setting. apply Forall_app. split; [done|]. constructor; [by unfold is_byte|done].
Qed.

(** Every key has a value. *)
Definition wf_values (m : values) : Prop := map_Forall (fun _ vs => vs <> []) m.

Lemma add_values_more m k pre vs :
  m !! k = Some pre -> foldl (fun m kv => add_value m kv.1 kv.2) m ((fun v => (k, v)) <$> vs) = <[k := pre ++ vs]> m.
Proof.
  revert m pre. induction vs as [|v vs IH]; intros m pre Hk; simpl.
  - by rewrite app_nil_r, insert_id.
  - rewrite (IH _ (pre ++ [v])); unfold add_value; rewrite Hk; simpl; [|by rewrite lookup_insert_eq].
    by rewrite insert_insert_eq, <- app_assoc.
Qed.

Lemma add_values_new m k vs :
  m !! k = None -> vs <> [] ->
  foldl (fun m kv => add_value m kv.1 kv.2) m ((fun v => (k, v)) <$> vs) = <[k := vs]> m.
Proof.
  intros Hk Hvs. destruct vs as [|v vs]; [done|]. simpl.
  rewrite (add_values_more _ k [v]); unfold add_value; rewrite Hk; simpl; [|by rewrite lookup_insert_eq].
  by rewrite insert_insert_eq.
Qed.

Lemma add_all_values (s : list (string * list string)) (m : values) :
  NoDup s.*1 -> Forall (fun kvs => kvs.2 <> []) s -> Forall (fun kvs => m !! kvs.1 = None) s ->
  foldl (fun m kv => add_value m kv.1 kv.2) m (flat_map (fun kvs => (fun v => (kvs.1, v)) <$> kvs.2) s)
  = list_to_map s ∪ m.
Proof.
  revert m. induction s as [|[k vs] s IH]; intros m Hnd Hne Hm; cbn [flat_map].
  - simpl. by rewrite map_empty_union.
  - rewrite fmap_cons, NoDup_cons in Hnd. destruct Hnd as [Hk Hnd].
    apply Forall_cons in Hne as [Hvs Hne]. apply Forall_cons in Hm as [Hkm Hm]. simpl in Hvs, Hkm.
    rewrite foldl_app, add_values_new by done. rewrite IH; [|done..|].
    + simpl. rewrite <- insert_union_l, insert_union_r; [done|]. apply not_elem_of_list_to_map_1. exact Hk.
    + apply Forall_forall. intros [k' vs'] Hin. rewrite Forall_forall in Hm. simpl.
      rewrite lookup_insert_ne; [by apply (Hm (k', vs'))|]. intros ->. apply Hk.
      apply list_elem_of_fmap. by exists (k', vs').
Qed.

Lemma foldl_settings (l : list (string * string)) (m : values) :
  foldl add_setting m (encode_setting <$> l) = foldl (fun m kv => add_value m kv.1 kv.2) m l.
Proof.
  revert m. induction l as [|kv l IH]; intros m; [done|]. rewrite fmap_cons. cbn [foldl]. rewrite IH.
  unfold add_setting at 1. rewrite parse_encode_setting. by destruct kv.
Qed.

Lemma parse_encode_query m : wf_values m -> parse_query (encode_query m) = m.
Proof.
  intros Hm. unfold parse_query, encode_query. rewrite bytes_of_string_of_bytes.
  2: { apply join_bytes_are_bytes, Forall_fmap, Forall_true. intros kv. apply encode_setting_bytes. }
  transitivity (foldl (fun m kv => add_value m kv.1 kv.2) (∅ : values) (settings m)).
  - destruct (settings m) as [|kv l] eqn:E; [done|]. rewrite split_join_bytes; [apply foldl_settings|done|].
    apply Forall_fmap, Forall_true. intros kv'. eapply Forall_impl; [apply encode_setting_safe|]. simpl. tauto.
  - unfold settings. pose proof (sort_slice_perm (on_key str_ltb fst) (map_to_list m)) as Hp.
    rewrite add_all_values.
    + rewrite map_union_empty. transitivity (list_to_map (M := values) (map_to_list m)); [|apply list_to_map_to_list].
      apply list_to_map_proper; [|exact Hp]. rewrite Hp. apply NoDup_fst_map_to_list.
    + rewrite Hp. apply NoDup_fst_map_to_list.
    + rewrite Hp. apply map_Forall_to_list in Hm. eapply Forall_impl; [exact Hm|]. by intros [].
    + apply Forall_true. intros x. apply lookup_empty.
Qed.
