(* ===== verification/GoTime.v ===== *)
(** * Go's [time.Time] in UTC

    A [time.Time] is its distance in nanoseconds from the Unix epoch; the
    billing code converts every time to UTC before it uses it, so no zone is
    kept.  The proleptic Gregorian calendar of [Time.Date], [time.Date] and
    [Time.AddDate] is computed on day numbers and month numbers: [month_first i]
    is the first day of month [i], counted from March of year 0 (so that the
    leap day ends a year), and [month_index] is its inverse on days. *)

From S2P Require Import Prelude GoStd.

Abbreviation time := Z.

Definition nanosecond : Z := 1.
Definition microsecond : Z := 1000.
Definition millisecond : Z := 1000 * microsecond.
Definition second : Z := 1000 * millisecond.
Definition day_ns : Z := 86400 * second.

(** The zero Time, January 1, year 1. *)
Definition zero_time : time := -62135596800 * second.
Definition is_zero (t : time) : bool := t =? zero_time.

Definition day_of (t : time) : Z := t / day_ns.
Definition clock_of (t : time) : Z := t mod day_ns.

(** ** The calendar *)

(** Days before March 1 of year [y]. *)
Definition year_days (y : Z) : Z := 365 * y + y / 4 - y / 100 + y / 400.

(** Days before month [mp] of a year that starts in March. *)
Definition month_days (mp : Z) : Z := (153 * mp + 2) / 5.

(** First day of month [i] (month 0 is March of year 0), as a day number
    counted from March 1 of year 0. *)
Definition month_first (i : Z) : Z := year_days (i / 12) + month_days (i mod 12).

(** Day number of the Unix epoch in that count. *)
Definition epoch_day : Z := 719468.

(** The month of a day number, by 400-, 100-, 4- and 1-year cycles. *)
Definition month_index (z : Z) : Z :=
  let era := z / 146097 in
  let doe := z mod 146097 in
  let a := Z.min 3 (doe / 36524) in
  let r1 := doe - 36524 * a in
  let b := r1 / 1461 in
  let r2 := r1 - 1461 * b in
  let c := Z.min 3 (r2 / 365) in
  let doy := r2 - 365 * c in
  12 * (400 * era + 100 * a + 4 * b + c) + (5 * doy + 2) / 153.

(** t.Sub(u): a Duration, saturating at the bounds of int64. *)
Definition time_sub (t u : time) : Z := Z.max (- 2 ^ 63) (Z.min i64_max (t - u)).

(** Time.Date: year, month (1..12) and day of the month. *)
Definition date_of (t : time) : Z * Z * Z :=
  let z := day_of t + epoch_day in
  let i := month_index z in
  ((i + 2) / 12, (i + 2) mod 12 + 1, z - month_first i + 1).

(** time.Date in UTC with the clock given in nanoseconds; months and days
    outside their range are carried over, as Go does. *)
Definition go_date (y m d clock : Z) : time :=
  (month_first (12 * y + m - 3) + d - 1 - epoch_day) * day_ns + clock.

(** Time.AddDate *)
Definition add_date (t : time) (years months days : Z) : time :=
  let '(y, m, d) := date_of t in
  go_date (y + years) (m + months) (d + days) (clock_of t).

Example date_of_ex : date_of (1776420000 * second) = (2026, 4, 17).
Proof. vm_compute. reflexivity. Qed.

(** What PostgreSQL stores for a timestamptz: whole microseconds. *)
Definition pg_timestamptz (t : time) : time := t / microsecond * microsecond.

(** The services' timestamptz helper: a zero time is stored as NULL. *)
Definition timestamptz (value : time) : option time := if is_zero value then None else Some (pg_timestamptz value).

Lemma pg_timestamptz_le t : pg_timestamptz t <= t < pg_timestamptz t + microsecond.
Proof.
  unfold pg_timestamptz, microsecond.
  pose proof (Z.div_mod t 1000). pose proof (Z.mod_pos_bound t 1000). lia.
Qed.

Lemma pg_timestamptz_mono s t : s <= t -> pg_timestamptz s <= pg_timestamptz t.
Proof.
  unfold pg_timestamptz, microsecond. intros H.
  apply Z.mul_le_mono_nonneg_r; [lia|]. apply Z.div_le_mono; lia.
Qed.

Lemma pg_timestamptz_idemp t : pg_timestamptz (pg_timestamptz t) = pg_timestamptz t.
Proof. unfold pg_timestamptz, microsecond. by rewrite Z.div_mul. Qed.

(** ** Calendar laws *)

#[local] Ltac Zify.zify_post_hook ::= Z.to_euclidean_division_equations.

Ltac split_div x n :=
  let q := fresh "q" in let r := fresh "r" in let E := fresh "E" in let B := fresh "B" in
  pose proof (Z.div_mod x n ltac:(lia)) as E; pose proof (Z.mod_pos_bound x n ltac:(lia)) as B;
  set (q := x / n) in *; set (r := x mod n) in *; clearbody q r.

Lemma month_first_step i : 28 <= month_first (i + 1) - month_first i <= 31.
Proof.
  unfold month_first.
  pose proof (Z.div_mod i 12 ltac:(lia)) as E. pose proof (Z.mod_pos_bound i 12 ltac:(lia)) as B.
  set (y := i / 12) in *. set (mp := i mod 12) in *.
  destruct (Z.eq_dec mp 11) as [Hm|Hm].
  - assert ((i + 1) / 12 = y + 1) as -> by lia.
    assert ((i + 1) mod 12 = 0) as -> by lia.
    rewrite Hm. clear. unfold year_days, month_days. lia.
  - assert ((i + 1) / 12 = y) as -> by lia.
    assert ((i + 1) mod 12 = mp + 1) as -> by lia.
    clear E. clearbody mp. unfold month_days. lia.
Qed.

Lemma month_first_mono i j : i <= j -> month_first i + 28 * (j - i) <= month_first j.
Proof.
  intros H. replace j with (i + Z.of_nat (Z.to_nat (j - i))) by lia.
  generalize (Z.to_nat (j - i)). clear. intros n.
  induction n as [|n IH]; [replace (i + Z.of_nat 0) with i by lia; lia|].
  pose proof (month_first_step (i + Z.of_nat n)).
  replace (i + Z.of_nat (S n)) with (i + Z.of_nat n + 1) by lia. lia.
Qed.

Lemma month_index_spec z : month_first (month_index z) <= z < month_first (month_index z + 1).
Proof.
  unfold month_index. split_div z 146097. rename q into era, r into doe.
  assert (0 <= Z.min 3 (doe / 36524) <= 3) as Ha by lia.
  set (a := Z.min 3 (doe / 36524)) in *.
  assert (0 <= doe - 36524 * a <= 36524 /\ (doe - 36524 * a = 36524 -> a = 3)) as Hr1 by lia.
  clearbody a. set (r1 := doe - 36524 * a) in *.
  assert (0 <= r1 / 1461 <= 24) as Hb by lia.
  assert (0 <= r1 - 1461 * (r1 / 1461) <= 1460
          /\ (r1 / 1461 = 24 -> r1 - 1461 * (r1 / 1461) = 1460 -> a = 3)) as Hr2 by lia.
  set (b := r1 / 1461) in *. clearbody b. set (r2 := r1 - 1461 * b) in *.
  assert (0 <= Z.min 3 (r2 / 365) <= 3) as Hc by lia.
  assert (0 <= r2 - 365 * Z.min 3 (r2 / 365) <= 365
          /\ (r2 - 365 * Z.min 3 (r2 / 365) = 365 -> Z.min 3 (r2 / 365) = 3 /\ r2 = 1460)) as Hd by lia.
  set (c := Z.min 3 (r2 / 365)) in *. clearbody c. set (doy := r2 - 365 * c) in *.
  assert (year_days (400 * era + 100 * a + 4 * b + c) = z - doy) as Hy.
  { unfold year_days.
    assert ((400 * era + 100 * a + 4 * b + c) / 4 = 100 * era + 25 * a + b) as -> by lia.
    assert ((400 * era + 100 * a + 4 * b + c) / 100 = 4 * era + a) as -> by lia.
    assert ((400 * era + 100 * a + 4 * b + c) / 400 = era) as -> by lia. lia. }
  set (y := 400 * era + 100 * a + 4 * b + c) in *.
  assert (doy < year_days (y + 1) - year_days y) as Hlen.
  { destruct (Z.le_gt_cases doy 364) as [|]; [unfold year_days; lia|].
    assert (doy = 365) as Hdoy by lia. destruct Hd as [_ Hd]. destruct (Hd Hdoy) as [Hc3 Hr].
    unfold year_days.
    assert ((y + 1) / 4 = y / 4 + 1) as -> by (unfold y; lia).
    destruct (Z.eq_dec b 24) as [Hb24|Hb24].
    - assert (a = 3) by (apply Hr2; done).
      assert ((y + 1) / 100 = y / 100 + 1) as -> by (unfold y; lia).
      assert ((y + 1) / 400 = y / 400 + 1) as -> by (unfold y; lia). lia.
    - assert ((y + 1) / 100 = y / 100) as -> by (unfold y; lia).
      assert ((y + 1) / 400 = y / 400) as -> by (unfold y; lia). lia. }
  destruct Hd as [Hd _]. clearbody y doy. clear - Hy Hlen Hd.
  assert (0 <= (5 * doy + 2) / 153 <= 11) as Hmp by lia.
  assert (month_days ((5 * doy + 2) / 153) <= doy
          /\ ((5 * doy + 2) / 153 < 11 -> doy < month_days ((5 * doy + 2) / 153 + 1))) as Hdoy.
  { unfold month_days. lia. }
  set (mp := (5 * doy + 2) / 153) in *. clearbody mp. unfold month_first.
  assert ((12 * y + mp) / 12 = y) as -> by lia.
  assert ((12 * y + mp) mod 12 = mp) as -> by lia.
  split; [lia|]. destruct (Z.eq_dec mp 11) as [->|].
  - assert ((12 * y + 11 + 1) / 12 = y + 1) as -> by lia.
    assert ((12 * y + 11 + 1) mod 12 = 0) as -> by lia.
    assert (month_days 0 = 0) as -> by done. lia.
  - assert ((12 * y + mp + 1) / 12 = y) as -> by lia.
    assert ((12 * y + mp + 1) mod 12 = mp + 1) as -> by lia. lia.
Qed.

(** The month containing a day is unique. *)
Lemma month_index_unique i z : month_first i <= z < month_first (i + 1) -> month_index z = i.
Proof.
  intros H. pose proof (month_index_spec z) as H'. set (j := month_index z) in *.
  destruct (Z.lt_trichotomy i j) as [Hlt|[->|Hgt]]; [|done|].
  - pose proof (month_first_mono (i + 1) j ltac:(lia)). lia.
  - pose proof (month_first_mono (j + 1) i ltac:(lia)). lia.
Qed.

Lemma time_split t : t = day_of t * day_ns + clock_of t /\ 0 <= clock_of t < day_ns.
Proof.
  unfold day_of, clock_of. assert (0 < day_ns) by (vm_compute; done).
  pose proof (Z.div_mod t day_ns). pose proof (Z.mod_pos_bound t day_ns). lia.
Qed.

(** Month number of a time. *)
Definition month_of (t : time) : Z := month_index (day_of t + epoch_day).

(** Midnight of the first day of a month. *)
Definition month_start (i : Z) : time := (month_first i - epoch_day) * day_ns.

Lemma add_date_months t n d :
  add_date t 0 n d
  = t + (month_first (month_of t + n) - month_first (month_of t) + d) * day_ns.
Proof.
  unfold add_date, date_of, go_date. fold (month_of t). set (i := month_of t).
  replace (12 * ((i + 2) / 12 + 0) + ((i + 2) mod 12 + 1 + n) - 3) with (i + n)
    by (pose proof (Z.div_mod (i + 2) 12); lia).
  pose proof (time_split t). lia.
Qed.

Lemma add_date_years t n :
  add_date t n 0 0 = t + (month_first (month_of t + 12 * n) - month_first (month_of t)) * day_ns.
Proof.
  unfold add_date, date_of, go_date. fold (month_of t). set (i := month_of t).
  replace (12 * ((i + 2) / 12 + n) + ((i + 2) mod 12 + 1 + 0) - 3) with (i + 12 * n)
    by (pose proof (Z.div_mod (i + 2) 12); lia).
  pose proof (time_split t). lia.
Qed.

Lemma day_ns_pos : 0 < day_ns.
Proof. vm_compute. done. Qed.

(** A month later is 28 to 31 days later. *)
Lemma add_month_bounds t : t + 28 * day_ns <= add_date t 0 1 0 <= t + 31 * day_ns.
Proof.
  rewrite add_date_months. pose proof (month_first_step (month_of t)). pose proof day_ns_pos. nia.
Qed.

Lemma add_year_bounds t : t < add_date t 1 0 0.
Proof.
  rewrite add_date_years. pose proof (month_first_mono (month_of t) (month_of t + 12 * 1) ltac:(lia)).
  pose proof day_ns_pos. nia.
Qed.

Lemma month_start_bounds t : month_start (month_of t) <= t < month_start (month_of t + 1).
Proof.
  unfold month_start. pose proof (month_index_spec (day_of t + epoch_day)) as H.
  fold (month_of t) in H. pose proof (time_split t). pose proof day_ns_pos. nia.
Qed.

Lemma month_of_start i : month_of (month_start i) = i.
Proof.
  unfold month_of, month_start, day_of. rewrite Z.div_mul by (pose proof day_ns_pos; lia).
  apply month_index_unique. pose proof (month_first_step i). lia.
Qed.

Lemma month_of_unique i t : month_start i <= t < month_start (i + 1) -> month_of t = i.
Proof.
  unfold month_start, month_of. intros H. apply month_index_unique.
  pose proof (time_split t). pose proof day_ns_pos. nia.
Qed.

Lemma month_start_mono i j : i < j -> month_start i < month_start j.
Proof.
  unfold month_start. pose proof (month_first_mono i j). pose proof day_ns_pos. nia.
Qed.

(** ** Formatting *)

(** appendInt(x, width) for a non-negative x. *)
Definition pad_uint (width : nat) (z : Z) : string :=
  let s := format_uint z in
  string_of_bytes (replicate (width - String.length s) 48) +:+ s.

(** Fraction digits without trailing zeros, for [ns] below one second. *)
Fixpoint trim_trailing_zeros (fuel : nat) (z : Z) (width : nat) : Z * nat :=
  match fuel with
  | O => (z, width)
  | S fuel' => if z mod 10 =? 0 then trim_trailing_zeros fuel' (z / 10) (width - 1) else (z, width)
  end.

Definition format_fraction (ns : Z) : string :=
  if ns =? 0 then ""
  else let '(z, w) := trim_trailing_zeros 9 ns 9 in "." +:+ pad_uint w z.

(** t.UTC().Format(time.RFC3339Nano) *)
Definition format_rfc3339nano (t : time) : string :=
  let '(y, m, d) := date_of t in
  let c := clock_of t in
  let secs := c / second in
  (if y <? 0 then "-" else "") +:+ pad_uint 4 (Z.abs y) +:+ "-" +:+ pad_uint 2 m +:+ "-" +:+ pad_uint 2 d
  +:+ "T" +:+ pad_uint 2 (secs / 3600) +:+ ":" +:+ pad_uint 2 (secs / 60 mod 60)
  +:+ ":" +:+ pad_uint 2 (secs mod 60) +:+ format_fraction (c mod second) +:+ "Z".

Example format_rfc3339nano_ex :
  format_rfc3339nano (1776420000 * second + 120000000) = "2026-04-17T10:00:00.12Z"%string.
Proof. vm_compute. reflexivity. Qed.
