(* ===== verification/Json.v ===== *)
(** * encoding/json, for the values the billing code marshals

    Event payloads and drift snapshots are Go maps of strings, integers,
    booleans, lists and nested maps.  [json_marshal] is [json.Marshal] on them: keys
    sorted, strings quoted with the package's HTML-safe escapes. *)

From Stdlib Require Import Ascii.
From S2P Require Import Prelude GoStd.

Inductive jval : Type :=
| JNull
| JBool (b : bool)
| JInt (z : Z)
| JStr (s : string)
| JArr (items : list jval)
| JObj (fields : list (string * jval)).

(** The width of the UTF-8 sequence at the head of [l]; 0 when it is invalid. *)
Definition between (lo hi b : Z) : bool := (lo <=? b) && (b <=? hi).

Definition utf8_width (l : list Z) : nat :=
  let cont := between 128 191 in
  match l with
  | b0 :: rest =>
      if b0 <? 128 then 1%nat
      else if between 194 223 b0 then
        match rest with b1 :: _ => if cont b1 then 2%nat else 0%nat | _ => 0%nat end
      else if between 224 239 b0 then
        match rest with
        | b1 :: b2 :: _ =>
            let lo := if b0 =? 224 then 160 else 128 in
            let hi := if b0 =? 237 then 159 else 191 in
            if between lo hi b1 && cont b2 then 3%nat else 0%nat
        | _ => 0%nat
        end
      else if between 240 244 b0 then
        match rest with
        | b1 :: b2 :: b3 :: _ =>
            let lo := if b0 =? 240 then 144 else 128 in
            let hi := if b0 =? 244 then 143 else 191 in
            if between lo hi b1 && cont b2 && cont b3 then 4%nat else 0%nat
        | _ => 0%nat
        end
      else 0%nat
  | [] => 0%nat
  end.

(** The escape of one ASCII byte. *)
Definition json_escape_ascii (b : Z) : list Z :=
  if (b =? 34) || (b =? 92) then [92; b]
  else if b =? 8 then [92; 98]
  else if b =? 12 then [92; 102]
  else if b =? 10 then [92; 110]
  else if b =? 13 then [92; 114]
  else if b =? 9 then [92; 116]
  else if (b <? 32) || (b =? 60) || (b =? 62) || (b =? 38)
  then [92; 117; 48; 48; hex_digit (b / 16); hex_digit (b mod 16)]
  else [b].

Fixpoint json_escape (fuel : nat) (l : list Z) : list Z :=
  match fuel, l with
  | S fuel', b :: rest =>
      if b <? 128 then json_escape_ascii b ++ json_escape fuel' rest
      else match utf8_width l with
           | O => bytes_of_string "\ufffd" ++ json_escape fuel' rest
           | n => (if decide (take 3 l = [226; 128; 168]) then bytes_of_string "\u2028"
                   else if decide (take 3 l = [226; 128; 169]) then bytes_of_string "\u2029"
                   else take n l)
                  ++ json_escape fuel' (drop n l)
           end
  | _, _ => []
  end.

Definition json_string (s : string) : list Z :=
  let l := bytes_of_string s in
  [34] ++ json_escape (length l) l ++ [34].

Definition field_less {A} : (string * A) -> (string * A) -> bool := on_key str_ltb fst.

Fixpoint json_join (parts : list (list Z)) : list Z :=
  match parts with
  | [] => []
  | [p] => p
  | p :: parts' => p ++ [44] ++ json_join parts'
  end.

Fixpoint json_bytes (v : jval) : list Z :=
  match v with
  | JNull => bytes_of_string "null"
  | JBool b => bytes_of_string (if b then "true" else "false")
  | JInt z => bytes_of_string (format_int z)
  | JStr s => json_string s
  | JArr items => [91] ++ json_join (map json_bytes items) ++ [93]
  | JObj fields =>
      let rendered := map (fun kv => (kv.1, json_string kv.1 ++ [58] ++ json_bytes kv.2)) fields in
      [123] ++ json_join ((sort_slice field_less rendered).*2) ++ [125]
  end.

Definition json_marshal (v : jval) : string := string_of_bytes (json_bytes v).

(** A map[string]uint64 as a payload value. *)
Definition JUintMap (m : gmap string Z) : jval := JObj ((fun kv => (kv.1, JInt kv.2)) <$> map_to_list m).

Example json_marshal_ex :
  json_marshal (JObj [("b", JInt 7); ("a", JStr "x<y"); ("c", JObj [("k", JBool true)])])
  = string_of_bytes ([123; 34; 97; 34; 58; 34; 120; 92; 117; 48; 48; 51; 99; 121; 34; 44; 34; 98; 34; 58; 55; 44; 34; 99; 34; 58;
       123; 34; 107; 34; 58; 116; 114; 117; 101; 125; 125]).
Proof. vm_compute. reflexivity. Qed.
