(* ===== verification/GoText.v ===== *)
(** * More of the Go library: text, integers and base64

    [strings.Fields], the decoding of UTF-8 into runes, [strconv.ParseInt] in
    base 10, [strings.SplitN] in two and [base64.RawURLEncoding], on byte
    lists, as the code of the projects service uses them. *)

From S2P Require Import Prelude GoStd Json.

(** ** Runes *)

(** The value of a UTF-8 sequence of the given width. *)
Definition rune_value (n : nat) (l : list Z) : Z :=
  match n, l with
  | 1%nat, b0 :: _ => b0
  | 2%nat, b0 :: b1 :: _ => Z.land b0 31 * 64 + Z.land b1 63
  | 3%nat, b0 :: b1 :: b2 :: _ => (Z.land b0 15 * 64 + Z.land b1 63) * 64 + Z.land b2 63
  | 4%nat, b0 :: b1 :: b2 :: b3 :: _ => ((Z.land b0 7 * 64 + Z.land b1 63) * 64 + Z.land b2 63) * 64 + Z.land b3 63
  | _, _ => 65533
  end.

(** []rune(s): an invalid byte is the replacement character. *)
Fixpoint decode_runes (fuel : nat) (l : list Z) : list Z :=
  match fuel, l with
  | S fuel', b :: rest =>
      let n := utf8_width l in
      rune_value n l :: decode_runes fuel' (match n with O => rest | _ => drop n l end)
  | _, _ => []
  end.

Definition runes (s : string) : list Z := let l := bytes_of_string s in decode_runes (length l) l.

Example runes_ex : runes (string_of_bytes [97; 195; 169; 226; 130; 172; 240; 159; 152; 128; 255]) = [97; 233; 8364; 128512; 65533].
Proof. vm_compute. reflexivity. Qed.

(** unicode.IsControl *)
Definition is_control (r : Z) : bool := (0 <=? r) && (r <? 32) || (127 <=? r) && (r <? 160).

(** ** strings.Fields

    The encodings of the spaces start with a lead byte that no other rune
    contains, so that looking for them byte by byte finds the runes. *)

Definition space_bytes : list (list Z) := bytes_of_string <$> space_runes.

Definition flush (field : list Z) (rest : list (list Z)) : list (list Z) :=
  match field with [] => rest | _ => field :: rest end.

Fixpoint fields_bytes (fuel : nat) (field l : list Z) : list (list Z) :=
  match fuel with
  | O => flush field []
  | S fuel' =>
      match strip_any space_bytes l, l with
      | Some l', _ => flush field (fields_bytes fuel' [] l')
      | None, b :: l' => fields_bytes fuel' (field ++ [b]) l'
      | None, [] => flush field []
      end
  end.

Definition fields (s : string) : list string :=
  let l := bytes_of_string s in string_of_bytes <$> fields_bytes (S (length l)) [] l.

Example fields_ex : fields "  two  words " = ["two"; "words"]%string.
Proof. vm_compute. reflexivity. Qed.

(** ** strconv.ParseInt(s, 10, 64) *)

Definition is_digit (b : Z) : bool := (48 <=? b) && (b <=? 57).

Definition parse_natural (l : list Z) : option Z :=
  match l with
  | [] => None
  | _ => if forallb is_digit l then Some (dec_fold 0 l) else None
  end.

Definition parse_int (s : string) : option Z :=
  let bounded z := if (- 2 ^ 63 <=? z) && (z <=? i64_max) then Some z else None in
  match bytes_of_string s with
  | 45 :: l => match parse_natural l with Some z => bounded (- z) | None => None end
  | 43 :: l => match parse_natural l with Some z => bounded z | None => None end
  | l => match parse_natural l with Some z => bounded z | None => None end
  end.

Lemma dec_digits_nonempty fuel z acc : acc <> [] -> dec_digits fuel z acc <> [].
Proof.
  revert z acc. induction fuel as [|fuel IH]; intros z acc H; [done|]. simpl. destruct (z <? 10); [done|]. by apply IH.
Qed.

Lemma format_uint_digits z :
  bytes_of_string (format_uint z) <> [] /\ Forall (fun b => 48 <= b <= 57) (bytes_of_string (format_uint z)).
Proof.
  rewrite format_uint_bytes. split; [|apply dec_digits_ascii; constructor]. simpl.
  destruct (z <? 10); [done|]. by apply dec_digits_nonempty.
Qed.

Lemma digits_of_uint z : 0 <= z -> parse_natural (bytes_of_string (format_uint z)) = Some z.
Proof.
  intros Hz. unfold parse_natural. pose proof (format_uint_value z Hz) as Hv. destruct (format_uint_digits z) as [Hne Hd].
  assert (forallb is_digit (bytes_of_string (format_uint z)) = true) as Ha.
  { apply forallb_forall. intros b Hb. rewrite Forall_forall in Hd. unfold is_digit.
    specialize (Hd b). rewrite list_elem_of_In in Hd. specialize (Hd Hb). lia. }
  destruct (bytes_of_string (format_uint z)) as [|b l]; [done|]. by rewrite Ha, Hv.
Qed.

Lemma parse_format_int z : - 2 ^ 63 <= z <= i64_max -> parse_int (format_int z) = Some z.
Proof.
  intros Hz. unfold parse_int, format_int. destruct (Z.ltb_spec z 0).
  - rewrite bytes_of_string_app. change (bytes_of_string "-") with [45]. cbn [app]. rewrite digits_of_uint by lia.
    rewrite Z.opp_involutive. destruct (Z.leb_spec (- 2 ^ 63) z), (Z.leb_spec z i64_max); try lia. done.
  - pose proof (digits_of_uint z ltac:(lia)) as Hp. destruct (format_uint_digits z) as [Hne Hd].
    destruct (bytes_of_string (format_uint z)) as [|b l]; [done|]. apply Forall_cons in Hd as [Hb _].
    assert ((match b :: l with
      | 45 :: l => match parse_natural l with Some z => if (- 2 ^ 63 <=? - z) && (- z <=? i64_max) then Some (- z) else None | None => None end
      | 43 :: l => match parse_natural l with Some z => if (- 2 ^ 63 <=? z) && (z <=? i64_max) then Some z else None | None => None end
      | l => match parse_natural l with Some z => if (- 2 ^ 63 <=? z) && (z <=? i64_max) then Some z else None | None => None end
      end) = match parse_natural (b :: l) with Some z => if (- 2 ^ 63 <=? z) && (z <=? i64_max) then Some z else None | None => None end) as ->.
    { destruct b as [|p|p]; try done. do 6 (destruct p as [p|p|]; try done; try lia). }
    rewrite Hp. destruct (Z.leb_spec (- 2 ^ 63) z), (Z.leb_spec z i64_max); try lia. done.
Qed.

(** ** strings.SplitN(s, sep, 2) *)

Fixpoint split_two (sep : Z) (l : list Z) : option (list Z * list Z) :=
  match l with
  | [] => None
  | b :: l' => if b =? sep then Some ([], l') else (fun r => (b :: r.1, r.2)) <$> split_two sep l'
  end.

Lemma split_two_sep sep l r : Forall (fun x => x <> sep) l -> split_two sep (l ++ sep :: r) = Some (l, r).
Proof.
  induction 1 as [|b l Hb Hl IH]; simpl; [by rewrite Z.eqb_refl|]. destruct (Z.eqb_spec b sep); [done|]. by rewrite IH.
Qed.

Lemma format_int_no_bar z : Forall (fun x => x <> 124) (bytes_of_string (format_int z)).
Proof.
  assert (forall y, Forall (fun x => x <> 124) (bytes_of_string (format_uint y))) as Hu.
  { intros y. eapply Forall_impl; [apply format_uint_digits|]. simpl. lia. }
  unfold format_int. destruct (z <? 0); [|done]. rewrite bytes_of_string_app. by constructor.
Qed.

(** ** base64.RawURLEncoding *)

Definition b64_char (n : Z) : Z :=
  if n <? 26 then 65 + n else if n <? 52 then 71 + n else if n <? 62 then n - 4 else if n =? 62 then 45 else 95.

Definition b64_value (c : Z) : option Z :=
  if (65 <=? c) && (c <=? 90) then Some (c - 65)
  else if (97 <=? c) && (c <=? 122) then Some (c - 71)
  else if (48 <=? c) && (c <=? 57) then Some (c + 4)
  else if c =? 45 then Some 62 else if c =? 95 then Some 63 else None.

Fixpoint b64_encode (l : list Z) : list Z :=
  match l with
  | a :: b :: c :: l' =>
      b64_char (a / 4) :: b64_char (a mod 4 * 16 + b / 16) :: b64_char (b mod 16 * 4 + c / 64) :: b64_char (c mod 64)
      :: b64_encode l'
  | [a; b] => [b64_char (a / 4); b64_char (a mod 4 * 16 + b / 16); b64_char (b mod 16 * 4)]
  | [a] => [b64_char (a / 4); b64_char (a mod 4 * 16)]
  | [] => []
  end.

(** The bits after the last whole byte are dropped. *)
Fixpoint b64_decode_values (l : list Z) : option (list Z) :=
  match l with
  | n0 :: n1 :: n2 :: n3 :: l' =>
      (fun r => n0 * 4 + n1 / 16 :: n1 mod 16 * 16 + n2 / 4 :: n2 mod 4 * 64 + n3 :: r) <$> b64_decode_values l'
  | [n0; n1; n2] => Some [n0 * 4 + n1 / 16; n1 mod 16 * 16 + n2 / 4]
  | [n0; n1] => Some [n0 * 4 + n1 / 16]
  | [_] => None
  | [] => Some []
  end.

(** Line breaks are skipped. *)
Definition b64_decode (l : list Z) : option (list Z) :=
  match mapM b64_value (filter (fun b => b <> 10 /\ b <> 13) l) with
  | Some values => b64_decode_values values
  | None => None
  end.

(** The six-bit values of an encoding. *)
Fixpoint b64_sextets (l : list Z) : list Z :=
  match l with
  | a :: b :: c :: l' => a / 4 :: a mod 4 * 16 + b / 16 :: b mod 16 * 4 + c / 64 :: c mod 64 :: b64_sextets l'
  | [a; b] => [a / 4; a mod 4 * 16 + b / 16; b mod 16 * 4]
  | [a] => [a / 4; a mod 4 * 16]
  | [] => []
  end.

Lemma list_ind3 {A} (P : list A -> Prop) :
  P [] -> (forall a, P [a]) -> (forall a b, P [a; b]) -> (forall a b c l, P l -> P (a :: b :: c :: l)) -> forall l, P l.
Proof.
  intros H0 H1 H2 H3 l. enough (P l /\ (forall a, P (a :: l)) /\ (forall a b, P (a :: b :: l))) by tauto.
  induction l as [|x l (I0 & I1 & I2)]; auto.
Qed.

Lemma b64_encode_sextets l : b64_encode l = b64_char <$> b64_sextets l.
Proof. induction l as [|a|a b|a b c l IH] using list_ind3; try done. simpl. by rewrite IH. Qed.

Lemma b64_sextets_range l : Forall is_byte l -> Forall (fun n => 0 <= n < 64) (b64_sextets l).
Proof.
  unfold is_byte. induction l as [|a|a b|a b c l IH] using list_ind3; intros H; rewrite ?Forall_cons in H; simpl;
    repeat constructor; try (Z.to_euclidean_division_equations; lia).
  apply IH. tauto.
Qed.

Lemma b64_decode_sextets l : Forall is_byte l -> b64_decode_values (b64_sextets l) = Some l.
Proof.
  unfold is_byte. induction l as [|a|a b|a b c l IH] using list_ind3; intros H; rewrite ?Forall_cons in H; simpl; [done|..].
  - do 2 f_equal. Z.to_euclidean_division_equations; lia.
  - do 2 f_equal; [|f_equal]; Z.to_euclidean_division_equations; lia.
  - rewrite IH by tauto. simpl. do 2 f_equal; [|f_equal; [|f_equal]]; Z.to_euclidean_division_equations; lia.
Qed.

Lemma b64_value_char n : 0 <= n < 64 -> b64_value (b64_char n) = Some n /\ 33 <= b64_char n < 128.
Proof.
  intros H. unfold b64_char, b64_value. repeat (case_bool; zbool; try lia); split; try lia; f_equal; lia.
Qed.

Lemma b64_char_kept n : 0 <= n < 64 -> b64_char n <> 10 /\ b64_char n <> 13.
Proof. intros H. destruct (b64_value_char n H). lia. Qed.

Lemma b64_decode_encode l : Forall is_byte l -> b64_decode (b64_encode l) = Some l.
Proof.
  intros H. rewrite b64_encode_sextets. pose proof (b64_sextets_range l H) as Hr. unfold b64_decode.
  assert (forall s, Forall (fun n => 0 <= n < 64) s ->
    mapM b64_value (filter (fun b => b <> 10 /\ b <> 13) (b64_char <$> s)) = Some s) as Hm.
  { induction 1 as [|n s Hn Hs IH]; [done|]. rewrite fmap_cons, filter_cons_True by by apply b64_char_kept.
    simpl. destruct (b64_value_char n Hn) as [-> _]. simpl. by rewrite IH. }
  rewrite Hm by done. by apply b64_decode_sextets.
Qed.

Lemma b64_encode_printable l : Forall is_byte l -> Forall printable (b64_encode l).
Proof.
  intros H. rewrite b64_encode_sextets. apply Forall_fmap. eapply Forall_impl; [by apply b64_sextets_range|].
  intros n Hn. by destruct (b64_value_char n Hn).
Qed.
