(* ===== verification/Types.v ===== *)
(** * Errors and shared constants of the billing package

    An error value of the Go code is identified by the sentinel it wraps
    ([errors.Is]); an error built by [fmt.Errorf] without a sentinel is
    [Errorf] with its leading text. *)

From S2P Require Import Prelude.

(** types.go: the package's sentinel errors, and those of the ledger package. *)
Inductive goerr : Type :=
| ErrInvalidConfig
| ErrOrgNotFound
| ErrPaymentRequired
| ErrForbidden
| ErrContractNotFound
| ErrNoStripeCustomer
| ErrUnsupportedChange
| ErrUnsupportedCadence
| ErrUnsupportedTrustTier
| ErrInsufficientBalance
| ErrOrgSuspended
| ErrWindowNotFound
| ErrWindowNotReserved
| ErrWindowNotActivated
| ErrWindowSourceConflict
| ErrWindowAlreadySettled
| ErrWindowAlreadyVoided
| LedgerErr (e : ledger_err)
| Errorf (msg : string)
(** not an error of the program: a run cut off by the bound on a loop *)
| OutOfFuel
with ledger_err : Type :=
| ErrUnavailable
| ErrBatchTooLarge
| ErrAccountConflict
| ErrTransferConflict
| ErrLedgerInsufficientBalance
| ErrPendingTransferGone
| ErrInvalidCommand
| ErrAccountNotFound
| ErrBalanceOverflow
| ErrUnsupportedGrantType.

Abbreviation res A := (outcome goerr A).

Definition ReservationShapeTime : string := "time".
Definition ReservationShapeCount : string := "count".

Definition errorf {A} (msg : string) : res A := Err (Errorf msg).

(** The text of an error: its sentinel's message.  What the code appends to
    it (ids, wrapped causes) is not kept. *)
Definition ledgerErrorText (e : ledger_err) : string :=
  match e with
  | ErrUnavailable => "ledger: unavailable"
  | ErrBatchTooLarge => "ledger: batch too large"
  | ErrAccountConflict => "ledger: account conflict"
  | ErrTransferConflict => "ledger: transfer conflict"
  | ErrLedgerInsufficientBalance => "ledger: insufficient balance"
  | ErrPendingTransferGone => "ledger: pending transfer expired or missing"
  | ErrInvalidCommand => "ledger: invalid command"
  | ErrAccountNotFound => "ledger: account not found"
  | ErrBalanceOverflow => "ledger: balance overflow"
  | ErrUnsupportedGrantType => "ledger: unsupported grant source"
  end.

Definition errorText (e : goerr) : string :=
  match e with
  | LedgerErr l => ledgerErrorText l
  | Errorf msg => msg
  | OutOfFuel => ""
  | ErrInvalidConfig => "billing: invalid config"
  | ErrOrgNotFound => "billing: org not found"
  | ErrPaymentRequired => "billing: payment required"
  | ErrForbidden => "billing: forbidden"
  | ErrContractNotFound => "billing: contract not found"
  | ErrNoStripeCustomer => "billing: no stripe customer"
  | ErrUnsupportedChange => "billing: unsupported contract change"
  | ErrUnsupportedCadence => "billing: unsupported cadence"
  | ErrUnsupportedTrustTier => "billing: unsupported trust tier"
  | ErrInsufficientBalance => "billing: insufficient balance"
  | ErrOrgSuspended => "billing: org suspended"
  | ErrWindowNotFound => "billing: window not found"
  | ErrWindowNotReserved => "billing: window not reserved"
  | ErrWindowNotActivated => "billing: window not activated"
  | ErrWindowSourceConflict => "billing: window source conflict"
  | ErrWindowAlreadySettled => "billing: window already settled"
  | ErrWindowAlreadyVoided => "billing: window already voided"
  end.
