(* ===== verification/StripeApi.v ===== *)
(** * The Stripe client, as the billing code uses it

    The requests the code sends to Stripe and the fields of the objects it
    reads back (billing/stripe.go, billing/contracts.go).  stripe-go and
    Stripe itself are not part of the repository: [StripeAPI] has one function
    per call, from the moment of the call and its parameters to an answer or
    an error, and the decoding of webhook payloads.  Nothing is assumed of
    them.  encoding/json into a map[string]any is the language's: a raw JSON
    value is [jsonAny]. *)

From S2P Require Import Prelude GoFloat GoStd GoTime GoFormat Json Types.

(** ** Raw JSON *)

Inductive jsonAny : Type :=
| AnyNull
| AnyBool (b : bool)
| AnyNumber (f : f64)
| AnyText (s : string)
| AnyArray (l : list jsonAny)
| AnyObject (fields : list (string * jsonAny)).

(** json.RawMessage; [None] when the message has no such field. *)
Abbreviation rawMessage := (option jsonAny).

(** The fields of an object decoded into a map: the last duplicate wins. *)
Definition json_field (fields : list (string * jsonAny)) (k : string) : option jsonAny :=
  foldl (fun acc kv => if decide (kv.1 = k) then Some kv.2 else acc) None fields.

(** object := map[string]any{}; _ = json.Unmarshal(raw, &object) *)
Definition unmarshalObject (raw : rawMessage) : list (string * jsonAny) :=
  match raw with Some (AnyObject fields) => fields | _ => [] end.

(** ** Objects *)

Record stripeCard : Type := mkCard {
  card_Brand : string;
  card_Last4 : string;
  card_ExpMonth : Z;
  card_ExpYear : Z
}.

Record stripePaymentMethod : Type := mkPaymentMethod {
  pmt_ID : string;
  pmt_Card : option stripeCard
}.

(** A customer field is the id of an expandable customer. *)
Record stripeSetupIntent : Type := mkSetupIntent {
  si_ID : string;
  si_Status : string;
  si_Metadata : gmap string string;
  si_Customer : option string;
  si_PaymentMethod : option stripePaymentMethod
}.

Record stripeCheckoutSession : Type := mkCheckoutSession {
  cs_ID : string;
  cs_Mode : string;
  cs_URL : string;
  cs_Metadata : gmap string string;
  cs_Customer : option string;
  cs_SetupIntent : option stripeSetupIntent
}.

Record stripePaymentIntent : Type := mkPaymentIntent {
  pin_ID : string;
  pin_Metadata : gmap string string
}.

Record stripeInvoice : Type := mkInvoice {
  in_ID : string;
  in_Status : string;
  in_HostedInvoiceURL : string;
  in_InvoicePDF : string;
  in_Metadata : gmap string string
}.

(** stripe.Event; [ev_Data] is [None] when the payload has no data. *)
Record stripeEvent : Type := mkStripeEvent {
  ev_ID : string;
  ev_Type : string;
  ev_Created : Z;
  ev_Livemode : bool;
  ev_Data : option rawMessage
}.

(** ** Requests *)

Record customerParams : Type := mkCustomerParams {
  cu_Metadata : gmap string string;
  cu_Email : option string;
  cu_IdempotencyKey : string
}.

Record checkoutLine : Type := mkCheckoutLine {
  cl_Quantity : Z;
  cl_Currency : string;
  cl_UnitAmount : Z;
  cl_Name : string
}.

Record checkoutParams : Type := mkCheckoutParams {
  co_Mode : string;
  co_SuccessURL : string;
  co_CancelURL : string;
  co_Currency : option string;
  co_LineItems : list checkoutLine;
  co_Customer : option string;
  co_CustomerCreation : option string;
  co_PaymentIntentMetadata : option (gmap string string);
  co_SetupIntentData : option (string * gmap string string);
  co_Metadata : gmap string string;
  co_IdempotencyKey : option string
}.

Record invoiceParams : Type := mkInvoiceParams {
  ip_AutoAdvance : bool;
  ip_CollectionMethod : string;
  ip_Currency : string;
  ip_Customer : string;
  ip_DefaultPaymentMethod : string;
  ip_Description : string;
  ip_Metadata : gmap string string;
  ip_PendingInvoiceItemsBehavior : string;
  ip_IdempotencyKey : string
}.

Record invoiceItemParams : Type := mkInvoiceItemParams {
  ii_Amount : Z;
  ii_Currency : string;
  ii_Customer : string;
  ii_Description : string;
  ii_Invoice : string;
  ii_Metadata : gmap string string;
  ii_PeriodStart : Z;
  ii_PeriodEnd : Z;
  ii_IdempotencyKey : string
}.

Inductive stripeRequest : Type :=
| CustomersCreate (params : customerParams)
| CheckoutSessionsCreate (params : checkoutParams)
| PortalSessionsCreate (customer returnURL : string)
| SetupIntentsRetrieve (id : string)
| InvoicesCreate (params : invoiceParams)
| InvoiceItemsCreate (params : invoiceItemParams)
| InvoicesFinalize (id : string) (autoAdvance : bool) (idempotencyKey : string)
| InvoicesPay (id paymentMethod : string) (offSession : bool) (idempotencyKey : string).

(** ** The API

    The first argument is the moment of the call, so that the same request may
    be answered differently each time. *)
Class StripeAPI : Type := {
  customers_create : nat -> customerParams -> res string;
  checkout_sessions_create : nat -> checkoutParams -> res string;
  portal_sessions_create : nat -> string -> string -> res string;
  setup_intents_retrieve : nat -> string -> res stripeSetupIntent;
  invoices_create : nat -> invoiceParams -> res stripeInvoice;
  invoice_items_create : nat -> invoiceItemParams -> res unit;
  invoices_finalize : nat -> string -> res stripeInvoice;
  invoices_pay : nat -> string -> string -> res stripeInvoice;
  (** webhook.ConstructEvent(payload, signatureHeader, secret) *)
  construct_event : string -> string -> string -> res stripeEvent;
  (** json.Unmarshal into the types of stripe-go *)
  decode_event : string -> res stripeEvent;
  decode_setup_intent : rawMessage -> res stripeSetupIntent;
  decode_checkout_session : rawMessage -> res stripeCheckoutSession;
  decode_payment_intent : rawMessage -> res stripePaymentIntent;
  decode_invoice : rawMessage -> res stripeInvoice
}.
