(* ===== verification/Ids.v ===== *)
(** * Identifiers and checked conversions

    Models billing/ids.go (deterministic text identifiers, organisation ids,
    calendar-month boundaries, money units) and billing/safeconv.go (the
    conversions between SQL's signed columns and the domain's unsigned
    counters, which panic outside their range). *)

From S2P Require Import Prelude GoStd GoTime Types.

Definition ledgerUnitsPerCent : Z := 100000.

(** ** safeconv.go *)

Definition checkedInt64FromUint64 (value : Z) : res Z :=
  if i64_max <? value then Panic else Ret value.

Definition checkedUint64FromInt64 (value : Z) : res Z :=
  if value <? 0 then Panic else Ret value.

Definition checkedUint32FromInt64 (value : Z) : res Z :=
  if (value <? 0) || (u32_max <? value) then Panic else Ret value.

Definition checkedUint32FromInt32 (value : Z) : res Z :=
  if value <? 0 then Panic else Ret value.

Definition checkedUint16FromInt32 (value : Z) : res Z :=
  if (value <? 0) || (u16_max <? value) then Panic else Ret value.

Definition checkedInt32FromInt (value : Z) : res Z :=
  if (value <? i32_min) || (i32_max <? value) then Panic else Ret value.

Section Ids.
Context `{Digest}.

(** ** Organisation ids *)

Definition orgIDText (orgID : string) : string := trim_space orgID.

Definition parseOrgID (value : string) : res string :=
  let value := trim_space value in
  if decide (value = "") then Ret "" else Ret value.

Definition ledgerOrgKey (orgID : string) : Z :=
  let key := be_value (take 8 (digest (bytes_of_string (orgIDText orgID)))) in
  if key =? 0 then 1 else key.

(** ** Text ids *)

(** The bytes hashed by textID: the kind, then a zero byte before each part. *)
Fixpoint textID_parts (parts : list string) : list Z :=
  match parts with
  | [] => []
  | p :: parts' => 0 :: bytes_of_string p ++ textID_parts parts'
  end.

Definition textID_preimage (kind : string) (parts : list string) : list Z :=
  bytes_of_string kind ++ textID_parts parts.

Definition textID (kind : string) (parts : list string) : string :=
  kind +:+ "_" +:+ hex_encode (take 16 (digest (textID_preimage kind parts))).

Definition monthStartUTC (t : time) : time :=
  let '(y, m, _) := date_of t in go_date y m 1 0.

Definition nextMonth (t : time) : time := add_date (monthStartUTC t) 0 1 0.

Definition cycleID (orgID productID : string) (startsAt : time) : string :=
  textID "cycle" [orgIDText orgID; productID; format_rfc3339nano startsAt].

Definition freeTierPeriodID (orgID policyID : string) (start end_ : time) : string :=
  textID "period" [orgIDText orgID; "free_tier"; policyID; format_rfc3339nano start; format_rfc3339nano end_].

Definition contractPeriodID (orgID lineID cycleID : string) (start end_ : time) : string :=
  textID "period" [orgIDText orgID; "contract"; lineID; cycleID; format_rfc3339nano start; format_rfc3339nano end_].

Definition grantID (orgID source scopeType productID bucketID skuID sourceRef : string) : string :=
  textID "grant" [orgIDText orgID; source; scopeType; productID; bucketID; skuID; sourceRef].

Definition billingWindowID (orgID productID sourceType sourceRef : string) (seq : Z) : string :=
  textID "win" [orgIDText orgID; productID; sourceType; sourceRef; format_uint seq].

Definition contractID (orgID productID : string) : string :=
  textID "contract" [orgIDText orgID; productID].

Definition phaseID (contractID planID : string) (effectiveAt : time) : string :=
  textID "phase" [contractID; planID; format_rfc3339nano effectiveAt].

Definition internalPromotionPhaseID (contractID planID : string) : string :=
  textID "phase" [contractID; "internal_promotion"; planID].

Definition changeID (contractID targetPlanID : string) (effectiveAt : time) : string :=
  textID "change" [contractID; targetPlanID; format_rfc3339nano effectiveAt].

Definition finalizationID (subjectType subjectID : string) : string :=
  textID "finalization" [subjectType; subjectID].

Definition documentID (subjectType subjectID : string) : string :=
  textID "document" [subjectType; subjectID].

Definition eventID (eventType aggregateID : string) (occurredAt : time) (payloadHash : string) : string :=
  textID "evt" [eventType; aggregateID; format_rfc3339nano occurredAt; payloadHash].

Fixpoint cleanNonEmpty (parts : list string) : string :=
  match parts with
  | [] => ""
  | part :: parts' => if decide (trim_space part = "") then cleanNonEmpty parts' else trim_space part
  end.

(** The product of two uint64 values wraps. *)
Definition moneyUnitsFromCents (cents : Z) : res Z :=
  if cents <? 0 then errorf "cents must be non-negative"
  else Ret ((cents * ledgerUnitsPerCent) mod 2 ^ 64).
End Ids.

Lemma textID_not_empty `{Digest} kind parts : textID kind parts <> "".
Proof. unfold textID. by destruct kind. Qed.

#[global] Opaque textID.

(** ** Laws *)

(** A part that contains no NUL byte. *)
Definition nul_free (s : string) : Prop := Forall (fun b => b <> 0) (bytes_of_string s).

Lemma split_at_nul (a1 a2 b1 b2 : list Z) :
  Forall (fun b => b <> 0) a1 -> Forall (fun b => b <> 0) a2 ->
  (b1 = [] \/ exists c, b1 = 0 :: c) -> (b2 = [] \/ exists c, b2 = 0 :: c) ->
  a1 ++ b1 = a2 ++ b2 -> a1 = a2 /\ b1 = b2.
Proof.
  intros H1. revert a2. induction H1 as [|x a1 Hx H1 IH]; intros a2 H2 Hb1 Hb2 E.
  - destruct H2 as [|y a2 Hy H2]; [done|]. simpl in E.
    destruct Hb1 as [->|[c ->]]; [discriminate|]. injection E. intros. congruence.
  - destruct H2 as [|y a2 Hy H2]; simpl in E.
    + destruct Hb2 as [->|[c ->]]; [discriminate|]. injection E. intros. congruence.
    + injection E as -> E. destruct (IH a2 H2 Hb1 Hb2 E) as [-> ->]. done.
Qed.

Lemma textID_parts_shape parts : textID_parts parts = [] \/ exists c, textID_parts parts = 0 :: c.
Proof. destruct parts; simpl; eauto. Qed.

Lemma textID_parts_inj ps1 ps2 :
  Forall nul_free ps1 -> Forall nul_free ps2 ->
  textID_parts ps1 = textID_parts ps2 -> ps1 = ps2.
Proof.
  intros H1. revert ps2. induction H1 as [|p ps1 Hp H1 IH]; intros ps2 H2 E.
  - destruct ps2; [done|discriminate].
  - destruct H2 as [|p2 ps2 Hp2 H2]; [discriminate|]. simpl in E. injection E as E.
    apply split_at_nul in E as [Ep E]; auto using textID_parts_shape.
    apply bytes_of_string_inj in Ep as ->. f_equal. by apply IH.
Qed.

Lemma textID_preimage_inj k1 k2 ps1 ps2 :
  nul_free k1 -> nul_free k2 -> Forall nul_free ps1 -> Forall nul_free ps2 ->
  textID_preimage k1 ps1 = textID_preimage k2 ps2 -> k1 = k2 /\ ps1 = ps2.
Proof.
  unfold textID_preimage. intros Hk1 Hk2 H1 H2 E.
  apply split_at_nul in E as [Ek E]; auto using textID_parts_shape.
  split; [by apply bytes_of_string_inj|by apply textID_parts_inj].
Qed.

(** With a NUL byte inside a part the separator is ambiguous. *)
Lemma textID_preimage_nul_collision :
  textID_preimage "win" ["a"; "b"] = textID_preimage "win" [string_of_bytes [97; 0; 98]].
Proof. reflexivity. Qed.

(** A checked conversion never changes the value. *)
Lemma checkedInt64_Ret v z : checkedInt64FromUint64 v = Ret z -> z = v /\ v <= i64_max.
Proof. unfold checkedInt64FromUint64. case_bool; [done|]. zbool. intros [= ->]. done. Qed.

Lemma checkedUint64_Ret v z : checkedUint64FromInt64 v = Ret z -> z = v /\ 0 <= v.
Proof. unfold checkedUint64FromInt64. case_bool; [done|]. zbool. intros [= ->]. done. Qed.

(** The SQL round trip: what fits in a signed column comes back unchanged. *)
Lemma checked_roundtrip v z :
  0 <= v -> checkedInt64FromUint64 v = Ret z -> checkedUint64FromInt64 z = Ret v.
Proof.
  intros H0 H. apply checkedInt64_Ret in H as [-> _].
  unfold checkedUint64FromInt64. destruct (Z.ltb_spec v 0); [lia|done].
Qed.

Lemma monthStartUTC_eq t : monthStartUTC t = month_start (month_of t).
Proof.
  unfold monthStartUTC, date_of, go_date, month_start. fold (month_of t).
  set (i := month_of t).
  replace (12 * ((i + 2) / 12) + ((i + 2) mod 12 + 1) - 3) with i
    by (pose proof (Z.div_mod (i + 2) 12); lia). lia.
Qed.

Lemma nextMonth_eq t : nextMonth t = month_start (month_of t + 1).
Proof.
  unfold nextMonth. rewrite monthStartUTC_eq, add_date_months, month_of_start.
  unfold month_start. lia.
Qed.

Lemma moneyUnitsFromCents_exact cents :
  0 <= cents <= u64_max / ledgerUnitsPerCent ->
  moneyUnitsFromCents cents = Ret (cents * ledgerUnitsPerCent).
Proof.
  unfold moneyUnitsFromCents, u64_max, ledgerUnitsPerCent. intros [H0 H1].
  destruct (Z.ltb_spec cents 0); [lia|]. f_equal. apply Z.mod_small.
  assert (100000 * ((2 ^ 64 - 1) / 100000) <= 2 ^ 64 - 1) by (apply Z.mul_div_le; lia). lia.
Qed.
