(* ===== verification/Charges.v ===== *)
(** * Window charges

    Models the pricing part of billing/windows.go: the captured pricing
    context, the charge of one SKU ([chargeUnitsForQuantity]), the charges of
    a whole allocation per component and per bucket ([computeWindowCharges])
    and the order in which components are funded ([componentChargeOrder]).

    A Go map is a [gmap]; where the code ranges over a map, the model takes
    the visiting order as a list, and [computeWindowCharges] fixes one. *)

From S2P Require Import Prelude GoFloat Types.

(** windows.go: type pricingContext *)
Record pricingContext : Type := mkPricing {
  PlanID : string;
  BillingMode : string;
  ContractID : string;
  PhaseID : string;
  OveragePolicy : string;
  Currency : string;
  SKURates : gmap string Z;
  SKUBuckets : gmap string string;
  SKUBucketOrders : gmap string Z;
  SKUDisplayNames : gmap string string;
  SKUQuantityUnits : gmap string string;
  BucketDisplayNames : gmap string string;
  CostPerUnit : Z
}.

(** Reading a missing key of a Go map gives the zero value. *)
Definition map_str (m : gmap string string) (k : string) : string := default "" (m !! k).
Definition map_u64 (m : gmap string Z) (k : string) : Z := default 0 (m !! k).

Definition f64_zero : f64 := FFin 0.

(** units * float64(quantity) * float64(rate) *)
Definition charge_product (units : f64) (rate quantity : Z) : f64 :=
  f64_mul (f64_mul units (f64_of_Z quantity)) (f64_of_Z rate).

(** The conversion back to uint64 is always in range here
    ([chargeUnitsForQuantity_bounds]), so the default is never used. *)
Definition chargeUnitsForQuantity (units : f64) (rate quantity : Z) : res Z :=
  if f64_lt units f64_zero || f64_is_nan units || f64_is_inf units then errorf "invalid allocation"
  else if f64_eqb units f64_zero || (rate =? 0) || (quantity =? 0) then Ret 0
  else
    let charge := charge_product units rate quantity in
    if f64_is_nan charge || f64_is_inf charge || f64_ge charge (f64_of_Z u64_max)
    then errorf "charge overflow"
    else Ret (default 0 (f64_to_u64 (f64_ceil charge))).

Definition addChargeUnits (left right : Z) : res Z :=
  if u64_max - left <? right then errorf "charge overflow" else Ret (left + right).

Record windowCharges : Type := mkCharges {
  components : gmap string Z;
  buckets : gmap string Z;
  costPerUnit : Z
}.

(** The loop body of computeWindowCharges for one SKU of the allocation. *)
Definition charge_step (rates : gmap string Z) (skuBuckets : gmap string string) (quantity : Z)
    (st : windowCharges) (entry : string * f64) : res windowCharges :=
  let '(skuID, units) := entry in
  match rates !! skuID with
  | None => errorf "no active rate for sku"
  | Some rate =>
      let! componentPerUnit := chargeUnitsForQuantity units rate 1 in
      let! nextCostPerUnit := addChargeUnits (costPerUnit st) componentPerUnit in
      let! charge := chargeUnitsForQuantity units rate quantity in
      let bucketID := map_str skuBuckets skuID in
      let! nextBucketCharge := addChargeUnits (map_u64 (buckets st) bucketID) charge in
      Ret (mkCharges (<[skuID := charge]> (components st))
             (<[bucketID := nextBucketCharge]> (buckets st)) nextCostPerUnit)
  end.

#[global] Arguments charge_step : simpl never.

Definition computeWindowCharges_in (order : list (string * f64)) (rates : gmap string Z)
    (skuBuckets : gmap string string) (quantity : Z) : res windowCharges :=
  outcome_fold (charge_step rates skuBuckets quantity) (mkCharges ∅ ∅ 0) order.

Definition computeWindowCharges (allocation : gmap string f64) (rates : gmap string Z)
    (skuBuckets : gmap string string) (quantity : Z) : res windowCharges :=
  computeWindowCharges_in (map_to_list allocation) rates skuBuckets quantity.

Definition sumUint64Map (m : gmap string Z) : Z := foldl u64_add 0 ((map_to_list m).*2).

Definition minUint64 (a b : Z) : Z := if a <? b then a else b.

(** int(^uint(0) >> 1) *)
Definition max_int : Z := i64_max.

Definition skuBucketOrder (pricing : pricingContext) (skuID : string) : Z :=
  default max_int (SKUBucketOrders pricing !! skuID).

Definition componentLess (pricing : pricingContext) : string -> string -> bool :=
  lex_key Z.eqb Z.ltb (skuBucketOrder pricing)
    (lex_key str_eqb str_ltb (map_str (SKUBuckets pricing))
       (on_key str_ltb id)).

Definition componentChargeOrder (componentCharges : gmap string Z) (pricing : pricingContext) : list string :=
  sort_slice (componentLess pricing) ((map_to_list componentCharges).*1).

(** ** The charge of one SKU *)

Lemma u64_max_f64 : f64_of_Z u64_max = FFin (2 ^ 64 * one_quanta).
Proof. Transparent one_quanta overflow_quanta. vm_compute. reflexivity. Opaque one_quanta overflow_quanta. Qed.

Lemma overflow_above : 2 ^ 64 * one_quanta < overflow_quanta.
Proof. Transparent one_quanta overflow_quanta. vm_compute. reflexivity. Opaque one_quanta overflow_quanta. Qed.

Lemma mk_f64_fin n m : mk_f64 false n = FFin m -> m = n /\ n < overflow_quanta.
Proof. unfold mk_f64. case_bool; [done|]. zbool. intros [= <-]. done. Qed.

Lemma mk_f64_mono n1 n2 m2 :
  n1 <= n2 -> mk_f64 false n2 = FFin m2 -> mk_f64 false n1 = FFin n1.
Proof.
  intros H [-> Hlt]%mk_f64_fin. unfold mk_f64. destruct (Z.leb_spec overflow_quanta n1); [lia|done].
Qed.

(** An integer below 2^64 converts to a finite non-negative float64. *)
Lemma f64_of_Z_fin z : 0 <= z <= u64_max ->
  f64_of_Z z = FFin (round_nonneg (z * one_quanta) 1) /\ 0 <= round_nonneg (z * one_quanta) 1.
Proof.
  intros Hz. pose proof one_quanta_pos as Hq.
  assert (0 <= round_nonneg (z * one_quanta) 1) by (apply round_nonneg_nonneg; nia).
  split; [|done]. pose proof u64_max_f64 as Hmax. unfold f64_of_Z in *.
  rewrite Z.abs_eq by lia. rewrite (proj2 (Z.ltb_ge z 0)) by lia.
  rewrite Z.abs_eq in Hmax by (unfold u64_max; lia).
  rewrite (proj2 (Z.ltb_ge u64_max 0)) in Hmax by (unfold u64_max; lia).
  eapply mk_f64_mono; [|exact Hmax]. apply round_nonneg_le; nia.
Qed.

Lemma f64_mul_nonneg m n : 0 <= m -> 0 <= n ->
  f64_mul (FFin m) (FFin n) = mk_f64 false (round_nonneg (m * n) one_quanta).
Proof.
  intros Hm Hn. simpl. rewrite !Z.abs_eq by done.
  rewrite (proj2 (Z.ltb_ge m 0)), (proj2 (Z.ltb_ge n 0)) by done. done.
Qed.

Lemma f64_mul_fin_l m b n : f64_mul (FFin m) b = FFin n -> exists k, b = FFin k.
Proof. destruct b; simpl; [done| |eauto]. case_bool; done. Qed.

Lemma f64_mul_fin_r a n m : f64_mul a (FFin n) = FFin m -> exists k, a = FFin k.
Proof. destruct a; simpl; [done| |eauto]. case_bool; done. Qed.

(** The valid, non-trivial case: what the charge is. *)
Lemma chargeUnits_positive units rate quantity :
  is_u64 rate -> is_u32 quantity -> rate <> 0 -> quantity <> 0 ->
  forall c n, units = FFin n -> 0 < n ->
  chargeUnitsForQuantity units rate quantity = Ret c <->
  exists p, charge_product units rate quantity = FFin p /\ 0 <= p < 2 ^ 64 * one_quanta
            /\ representable p /\ c = - (- p / one_quanta).
Proof.
  intros Hr Hq Hr0 Hq0 c n -> Hn. unfold is_u64, is_u32 in *.
  assert (is_u64 quantity) as Hq64 by (unfold is_u64, u32_max, u64_max in *; lia).
  destruct (f64_of_Z_fin rate Hr) as [Er Hr']. destruct (f64_of_Z_fin quantity Hq64) as [Eq Hq'].
  pose proof one_quanta_pos as Ho.
  assert (forall p, charge_product (FFin n) rate quantity = FFin p -> 0 <= p /\ representable p) as Hp.
  { intros p Hp. unfold charge_product in Hp. rewrite Er in Hp.
    destruct (f64_mul_fin_r _ _ _ Hp) as [k Hk]. rewrite Hk in Hp. rewrite Eq in Hk.
    rewrite f64_mul_nonneg in Hk by lia. apply mk_f64_fin in Hk as [-> _].
    assert (0 <= round_nonneg (n * round_nonneg (quantity * one_quanta) 1) one_quanta)
      by (apply round_nonneg_nonneg; nia).
    rewrite f64_mul_nonneg in Hp by done. apply mk_f64_fin in Hp as [-> _].
    split; [apply round_nonneg_nonneg; nia|apply round_representable; nia]. }
  unfold chargeUnitsForQuantity. simpl f64_lt. simpl f64_eqb.
  rewrite (proj2 (Z.ltb_ge n 0)), (proj2 (Z.eqb_neq n 0)) by lia.
  rewrite (proj2 (Z.eqb_neq rate 0)), (proj2 (Z.eqb_neq quantity 0)) by done. simpl.
  rewrite u64_max_f64.
  destruct (charge_product (FFin n) rate quantity) as [|s|p] eqn:E; simpl.
  - split; [done|]. intros (p & ? & _). done.
  - split; [done|]. intros (p & ? & _). done.
  - destruct (Hp p eq_refl) as [Hp0 Hrep]. unfold f64_ge. simpl.
    destruct (Z.ltb_spec (2 ^ 64 * one_quanta) p); simpl;
      [split; [done|]; intros (p' & [= ->] & ? & _); lia|].
    destruct (Z.eqb_spec p (2 ^ 64 * one_quanta)); simpl;
      [split; [done|]; intros (p' & [= ->] & ? & _); lia|].
    rewrite !zdiv_div.
    pose proof (ceil_below p (2 ^ 64) Hrep ltac:(lia) ltac:(lia)) as Hc.
    assert (0 <= - (- p / one_quanta)) as Hc0.
    { assert (- p / one_quanta <= 0); [|lia]. apply Z.div_le_upper_bound; lia. }
    rewrite Z.div_mul by lia. rewrite (proj2 (Z.leb_le 0 (_ * _))) by nia.
    rewrite (proj2 (Z.leb_le 0 _)) by done. rewrite (proj2 (Z.leb_le _ u64_max)) by (unfold u64_max; lia).
    simpl. split.
    + intros [= <-]. exists p. repeat split; auto; lia.
    + intros (p' & [= ->] & _ & _ & ->). done.
Qed.

(** The three ways a charge can come out, and its range. *)
Lemma chargeUnits_cases units rate quantity c :
  chargeUnitsForQuantity units rate quantity = Ret c ->
  exists n, units = FFin n /\ 0 <= n /\ ((n = 0 \/ rate = 0 \/ quantity = 0) /\ c = 0
    \/ 0 < n /\ rate <> 0 /\ quantity <> 0).
Proof.
  unfold chargeUnitsForQuantity. destruct units as [|s|n]; simpl; [done|by destruct s|].
  destruct (Z.ltb_spec n 0); simpl; [done|].
  destruct (Z.eqb_spec n 0) as [->|Hn]; simpl; [intros [= <-]; exists 0; naive_solver|].
  destruct (Z.eqb_spec rate 0) as [->|Hr]; simpl; [intros [= <-]; exists n; naive_solver|].
  destruct (Z.eqb_spec quantity 0) as [->|Hq]; simpl; [intros [= <-]; exists n; naive_solver|].
  intros _. exists n. split; [done|]. split; [lia|]. right. lia.
Qed.

Lemma chargeUnits_range units rate quantity c :
  is_u64 rate -> is_u32 quantity ->
  chargeUnitsForQuantity units rate quantity = Ret c -> 0 <= c <= u64_max.
Proof.
  intros Hr Hq H. pose proof (chargeUnits_cases _ _ _ _ H) as (n & Hu & Hn0 & [[_ ->]|(Hn & Hr0 & Hq0)]).
  { unfold u64_max. lia. }
  apply (chargeUnits_positive _ _ _ Hr Hq Hr0 Hq0 c n Hu Hn) in H as (p & _ & Hp & Hrep & ->).
  pose proof (ceil_below p (2 ^ 64) Hrep ltac:(lia) ltac:(lia)). pose proof one_quanta_pos.
  assert (- p / one_quanta <= 0) by (apply Z.div_le_upper_bound; lia). unfold u64_max. lia.
Qed.

(** A charge that can be computed for a quantity can be computed for every
    smaller quantity, and is no larger there. *)
Lemma chargeUnits_mono units rate q1 q2 c2 :
  is_u64 rate -> is_u32 q1 -> is_u32 q2 -> q1 <= q2 ->
  chargeUnitsForQuantity units rate q2 = Ret c2 ->
  exists c1, chargeUnitsForQuantity units rate q1 = Ret c1 /\ 0 <= c1 <= c2.
Proof.
  intros Hr H1 H2 Hle H.
  pose proof (chargeUnits_range _ _ _ _ Hr H2 H) as Hc2.
  pose proof (chargeUnits_cases _ _ _ _ H) as (n & -> & Hn0 & Hcase).
  destruct (decide (n = 0 \/ rate = 0 \/ q1 = 0)) as [Hz|Hz].
  { exists 0. split; [|lia]. unfold chargeUnitsForQuantity. simpl.
    rewrite (proj2 (Z.ltb_ge n 0)) by done. simpl.
    destruct (Z.eqb_spec n 0), (Z.eqb_spec rate 0), (Z.eqb_spec q1 0); simpl; try done. lia. }
  destruct Hcase as [[? _]|(Hn & Hr0 & Hq0)]; [unfold is_u32 in *; lia|].
  apply (chargeUnits_positive _ _ _ Hr H2 Hr0 Hq0 c2 n eq_refl Hn) in H as (p2 & E2 & Hp2 & Hrep2 & ->).
  assert (exists p1, charge_product (FFin n) rate q1 = FFin p1 /\ 0 <= p1 <= p2 /\ representable p1)
    as (p1 & E1 & Hp1 & Hrep1).
  { unfold charge_product in *. pose proof one_quanta_pos as Ho.
    assert (is_u64 q1) as H1' by (unfold is_u32, is_u64, u32_max, u64_max in *; lia).
    assert (is_u64 q2) as H2' by (unfold is_u32, is_u64, u32_max, u64_max in *; lia).
    destruct (f64_of_Z_fin rate Hr) as [Er Hr']. rewrite Er in *.
    destruct (f64_of_Z_fin q1 H1') as [Eq1 Hq1']. destruct (f64_of_Z_fin q2 H2') as [Eq2 Hq2'].
    rewrite Eq1. rewrite Eq2 in E2.
    destruct (f64_mul_fin_r _ _ _ E2) as [k2 Hk2]. rewrite Hk2 in E2.
    rewrite f64_mul_nonneg in Hk2 |- * by lia.
    assert (round_nonneg (n * round_nonneg (q1 * one_quanta) 1) one_quanta
            <= round_nonneg (n * round_nonneg (q2 * one_quanta) 1) one_quanta) as Hm.
    { assert (round_nonneg (q1 * one_quanta) 1 <= round_nonneg (q2 * one_quanta) 1)
        by (apply round_nonneg_le; unfold is_u64 in *; nia).
      apply round_nonneg_le; [done|nia]. }
    rewrite (mk_f64_mono _ _ _ Hm Hk2). apply mk_f64_fin in Hk2 as [-> _].
    assert (0 <= round_nonneg (n * round_nonneg (q1 * one_quanta) 1) one_quanta)
      by (apply round_nonneg_nonneg; nia).
    rewrite f64_mul_nonneg in E2 |- * by lia.
    set (a1 := round_nonneg (n * round_nonneg (q1 * one_quanta) 1) one_quanta) in *.
    set (a2 := round_nonneg (n * round_nonneg (q2 * one_quanta) 1) one_quanta) in *.
    set (r := round_nonneg (rate * one_quanta) 1) in *.
    assert (round_nonneg (a1 * r) one_quanta <= round_nonneg (a2 * r) one_quanta) as Hm'
      by (apply round_nonneg_le; nia).
    exists (round_nonneg (a1 * r) one_quanta).
    rewrite (mk_f64_mono _ _ _ Hm' E2). apply mk_f64_fin in E2 as [-> _].
    repeat split; auto; [apply round_nonneg_nonneg; nia|apply round_representable; nia]. }
  assert (- p2 / one_quanta <= - p1 / one_quanta)
    by (apply Z.div_le_mono; [apply one_quanta_pos|lia]).
  exists (- (- p1 / one_quanta)). split.
  - apply (chargeUnits_positive _ _ _ Hr H1 Hr0 ltac:(tauto) _ n eq_refl Hn).
    exists p1. repeat split; auto; lia.
  - assert (- p1 / one_quanta <= 0) by (apply Z.div_le_upper_bound; pose proof one_quanta_pos; lia). lia.
Qed.

(** ** The charges of an allocation *)

Lemma addChargeUnits_Ret l r s : addChargeUnits l r = Ret s <-> s = l + r /\ l + r <= u64_max.
Proof.
  unfold addChargeUnits. destruct (Z.ltb_spec (u64_max - l) r); split.
  - done.
  - lia.
  - intros [= <-]. lia.
  - intros [-> _]. done.
Qed.

Lemma addChargeUnits_no_panic l r : addChargeUnits l r <> Panic.
Proof. unfold addChargeUnits. by case_bool. Qed.

Lemma chargeUnits_no_panic u r q : chargeUnitsForQuantity u r q <> Panic.
Proof. unfold chargeUnitsForQuantity. by repeat case_bool. Qed.

Lemma same_result_iff {E A} (m1 m2 : outcome E A) :
  m1 <> Panic -> m2 <> Panic -> (forall a, m1 = Ret a <-> m2 = Ret a) -> same_result m1 m2.
Proof.
  intros H1 H2 H. destruct m1 as [a|e|]; [|destruct m2 as [a|e'|]|done].
  - rewrite (proj1 (H a) eq_refl). constructor.
  - by pose proof (proj2 (H a) eq_refl).
  - constructor.
  - done.
Qed.

Section Charges.
Context (rates : gmap string Z) (skuBuckets : gmap string string).
Context (rates_u64 : forall sku r, rates !! sku = Some r -> is_u64 r).

(** What one iteration needs and does. *)
Lemma charge_step_Ret q st sku u st' :
  charge_step rates skuBuckets q st (sku, u) = Ret st' <->
  exists rate pu ch,
    rates !! sku = Some rate /\ chargeUnitsForQuantity u rate 1 = Ret pu
    /\ chargeUnitsForQuantity u rate q = Ret ch
    /\ costPerUnit st + pu <= u64_max
    /\ map_u64 (buckets st) (map_str skuBuckets sku) + ch <= u64_max
    /\ st' = mkCharges (<[sku := ch]> (components st))
                (<[map_str skuBuckets sku := map_u64 (buckets st) (map_str skuBuckets sku) + ch]> (buckets st))
                (costPerUnit st + pu).
Proof.
  unfold charge_step. destruct (rates !! sku) as [rate|]; [|by split; [|intros (?&?&?&?&_)]].
  split.
  - intros H. apply obind_Ret_inv in H as (pu & Hpu & H).
    apply obind_Ret_inv in H as (cpu & Hcpu & H). apply addChargeUnits_Ret in Hcpu as [-> Hcpu].
    apply obind_Ret_inv in H as (ch & Hch & H).
    apply obind_Ret_inv in H as (nb & Hnb & H). apply addChargeUnits_Ret in Hnb as [-> Hnb].
    injection H as <-. eauto 10.
  - intros (r & pu & ch & [= <-] & -> & -> & H1 & H2 & ->). simpl.
    rewrite (proj2 (addChargeUnits_Ret _ _ _) (conj eq_refl H1)). simpl.
    by rewrite (proj2 (addChargeUnits_Ret _ _ _) (conj eq_refl H2)).
Qed.

Lemma charge_step_intro q st sku u rate pu ch b :
  b = map_str skuBuckets sku ->
  rates !! sku = Some rate -> chargeUnitsForQuantity u rate 1 = Ret pu ->
  chargeUnitsForQuantity u rate q = Ret ch -> costPerUnit st + pu <= u64_max ->
  map_u64 (buckets st) b + ch <= u64_max ->
  charge_step rates skuBuckets q st (sku, u)
  = Ret (mkCharges (<[sku := ch]> (components st))
           (<[b := map_u64 (buckets st) b + ch]> (buckets st)) (costPerUnit st + pu)).
Proof. intros -> ?????. apply charge_step_Ret. eauto 10. Qed.

Lemma charge_step_no_panic q st e : charge_step rates skuBuckets q st e <> Panic.
Proof.
  destruct e as [sku u]. unfold charge_step. destruct (rates !! sku); [|done].
  destruct (chargeUnitsForQuantity u z 1) eqn:E1; simpl; [|done|by apply chargeUnits_no_panic in E1].
  destruct (addChargeUnits _ a) eqn:E2; simpl; [|done|by apply addChargeUnits_no_panic in E2].
  destruct (chargeUnitsForQuantity u z q) eqn:E3; simpl; [|done|by apply chargeUnits_no_panic in E3].
  destruct (addChargeUnits _ a1) eqn:E4; simpl; [done|done|by apply addChargeUnits_no_panic in E4].
Qed.

Lemma two_steps_Ret q st e1 e2 st2 :
  is_u32 q -> e1.1 <> e2.1 ->
  obind (charge_step rates skuBuckets q st e1) (fun s => charge_step rates skuBuckets q s e2) = Ret st2 ->
  obind (charge_step rates skuBuckets q st e2) (fun s => charge_step rates skuBuckets q s e1) = Ret st2.
Proof using rates_u64.
  destruct e1 as [k1 u1], e2 as [k2 u2]. simpl. intros Hq Hne H.
  apply obind_Ret_inv in H as (st1 & H1 & H2).
  apply charge_step_Ret in H1 as (r1 & p1 & c1 & Hr1 & Hp1 & Hc1 & Hb1 & Hs1 & ->).
  apply charge_step_Ret in H2 as (r2 & p2 & c2 & Hr2 & Hp2 & Hc2 & Hb2 & Hs2 & ->). simpl in *.
  assert (is_u32 1) as H1u by (unfold is_u32, u32_max; lia).
  pose proof (chargeUnits_range _ _ _ _ (rates_u64 _ _ Hr1) H1u Hp1).
  pose proof (chargeUnits_range _ _ _ _ (rates_u64 _ _ Hr2) H1u Hp2).
  pose proof (chargeUnits_range _ _ _ _ (rates_u64 _ _ Hr1) Hq Hc1).
  pose proof (chargeUnits_range _ _ _ _ (rates_u64 _ _ Hr2) Hq Hc2).
  set (b1 := map_str skuBuckets k1) in *. set (b2 := map_str skuBuckets k2) in *.
  unfold map_u64 in *. destruct (decide (b1 = b2)) as [Eb|Nb].
  - rewrite <- Eb in *. rewrite lookup_insert_eq in *. simpl in *.
    rewrite (charge_step_intro q st k2 u2 r2 p2 c2 b1) by (unfold map_u64; auto; lia).
    simpl. rewrite (charge_step_intro q _ k1 u1 r1 p1 c1 b1);
      unfold map_u64; simpl; rewrite ?lookup_insert_eq; simpl; auto; try lia.
    rewrite !insert_insert_eq, (insert_insert_ne _ k1 k2) by done.
    f_equal. f_equal; [f_equal; lia|lia].
  - rewrite lookup_insert_ne in * by done.
    rewrite (charge_step_intro q st k2 u2 r2 p2 c2 b2) by (unfold map_u64; auto; lia).
    simpl. rewrite (charge_step_intro q _ k1 u1 r1 p1 c1 b1);
      unfold map_u64; simpl; rewrite ?lookup_insert_ne by done; simpl; auto; try lia.
    rewrite (insert_insert_ne _ k1 k2), (insert_insert_ne _ b1 b2) by done. f_equal. f_equal. lia.
Qed.

Lemma compute_order q order order' :
  is_u32 q -> NoDup order.*1 -> order ≡ₚ order' ->
  same_result (computeWindowCharges_in order rates skuBuckets q)
              (computeWindowCharges_in order' rates skuBuckets q).
Proof using rates_u64.
  intros Hq Hnd Hp. unfold computeWindowCharges_in.
  apply (outcome_fold_perm fst); auto using charge_step_no_panic.
  intros s x y Hne. apply same_result_iff.
  - destruct (charge_step rates skuBuckets q s x) eqn:E; simpl; try done;
      [apply charge_step_no_panic|by apply charge_step_no_panic in E].
  - destruct (charge_step rates skuBuckets q s y) eqn:E; simpl; try done;
      [apply charge_step_no_panic|by apply charge_step_no_panic in E].
  - intros a. split; apply two_steps_Ret; auto.
Qed.

(** The component map holds exactly the charge of every allocated SKU. *)
Lemma charge_fold_components q order st st' :
  NoDup order.*1 ->
  outcome_fold (charge_step rates skuBuckets q) st order = Ret st' ->
  forall sku c, (components st' !! sku = Some c) <->
    (exists u rate, (sku, u) ∈ order /\ rates !! sku = Some rate
                    /\ chargeUnitsForQuantity u rate q = Ret c)
    \/ sku ∉ order.*1 /\ components st !! sku = Some c.
Proof.
  revert st. induction order as [|[k u] order IH]; intros st Hnd H sku c; simpl in *.
  { simplify_eq. split; [right; split; [apply not_elem_of_nil|done]|].
    intros [(?&?&?%elem_of_nil&_)|[_ ?]]; done. }
  apply NoDup_cons in Hnd as [Hk Hnd].
  apply obind_Ret_inv in H as (st1 & H1 & H).
  apply charge_step_Ret in H1 as (rate & pu & ch & Hr & _ & Hc & _ & _ & ->).
  rewrite (IH _ Hnd H). simpl. split.
  - intros [(u' & r' & Hin & Hr' & Hc')|[Hni Hl]].
    + left. exists u', r'. split; [by constructor|done].
    + destruct (decide (k = sku)) as [->|Hne].
      * rewrite lookup_insert_eq in Hl. simplify_eq. left. exists u, rate. split; [constructor|done].
      * rewrite lookup_insert_ne in Hl by done. right. split; [|done].
        rewrite not_elem_of_cons. done.
  - intros [(u' & r' & Hin & Hr' & Hc')|[Hni Hl]].
    + apply elem_of_cons in Hin as [E|Hin].
      * injection E as -> ->. right. rewrite lookup_insert_eq. split; [done|]. congruence.
      * left. eauto.
    + apply not_elem_of_cons in Hni as [Hne Hni]. right. split; [done|].
      rewrite lookup_insert_ne by done. done.
Qed.

Definition nonneg_map (m : gmap string Z) : Prop := forall k v, m !! k = Some v -> 0 <= v <= u64_max.

Lemma nonneg_map_get m k : nonneg_map m -> 0 <= map_u64 m k <= u64_max.
Proof.
  intros H. unfold map_u64. destruct (m !! k) eqn:E; simpl; [by apply (H k)|unfold u64_max; lia].
Qed.

Lemma nonneg_map_insert m k v : nonneg_map m -> 0 <= v <= u64_max -> nonneg_map (<[k:=v]> m).
Proof.
  intros Hm Hv k' v'. destruct (decide (k = k')) as [->|]; [rewrite lookup_insert_eq; by intros [= <-]|].
  rewrite lookup_insert_ne by done. apply Hm.
Qed.

(** Every value is a uint64, and the buckets partition the components. *)
Lemma charge_fold_sums q order st st' :
  is_u32 q -> NoDup order.*1 -> (forall k, k ∈ order.*1 -> components st !! k = None) ->
  nonneg_map (components st) -> nonneg_map (buckets st) ->
  outcome_fold (charge_step rates skuBuckets q) st order = Ret st' ->
  nonneg_map (components st') /\ nonneg_map (buckets st')
  /\ msum (buckets st') - msum (buckets st) = msum (components st') - msum (components st).
Proof using rates_u64.
  intros Hq. revert st. induction order as [|[k u] order IH]; intros st Hnd Hfresh Hcn Hbn H; simpl in *.
  { simplify_eq. split; [done|]. split; [done|lia]. }
  apply NoDup_cons in Hnd as [Hk Hnd].
  apply obind_Ret_inv in H as (st1 & H1 & H).
  apply charge_step_Ret in H1 as (rate & pu & ch & Hr & Hpu & Hc & _ & Hb & ->).
  pose proof (chargeUnits_range _ _ _ _ (rates_u64 _ _ Hr) Hq Hc) as Hch.
  pose proof (nonneg_map_get _ (map_str skuBuckets k) Hbn) as Hbk.
  apply IH in H as (Hcn' & Hbn' & Hsum); simpl in *.
  - split; [done|]. split; [done|]. rewrite !msum_insert in Hsum.
    rewrite (Hfresh k) in Hsum by constructor. unfold map_u64 in *. simpl in *. lia.
  - done.
  - intros k' Hk'. rewrite lookup_insert_ne by (intros ->; done). apply Hfresh. by constructor.
  - by apply nonneg_map_insert.
  - apply nonneg_map_insert; [done|lia].
Qed.

(** A smaller quantity of the same allocation can be charged, for less. *)
Definition charges_le (st1 st2 : windowCharges) : Prop :=
  costPerUnit st1 = costPerUnit st2
  /\ (forall b, 0 <= map_u64 (buckets st1) b <= map_u64 (buckets st2) b)
  /\ (forall k, match components st1 !! k, components st2 !! k with
                | Some c1, Some c2 => 0 <= c1 <= c2
                | None, None => True
                | _, _ => False
                end).

Lemma charge_fold_mono q1 q2 order s1 s2 st2 :
  is_u32 q1 -> is_u32 q2 -> q1 <= q2 -> charges_le s1 s2 ->
  outcome_fold (charge_step rates skuBuckets q2) s2 order = Ret st2 ->
  exists st1, outcome_fold (charge_step rates skuBuckets q1) s1 order = Ret st1 /\ charges_le st1 st2.
Proof using rates_u64.
  intros H1 H2 Hle. revert s1 s2. induction order as [|[k u] order IH]; intros s1 s2 Hs H; simpl in *.
  { simplify_eq. eauto. }
  apply obind_Ret_inv in H as (s2' & Hstep & H).
  apply charge_step_Ret in Hstep as (rate & pu & ch2 & Hr & Hpu & Hc2 & Hcpu & Hb & ->).
  destruct (chargeUnits_mono u rate q1 q2 ch2 (rates_u64 _ _ Hr) H1 H2 Hle Hc2) as (ch1 & Hc1 & Hch).
  destruct Hs as (Ecpu & Hbk & Hco).
  set (b := map_str skuBuckets k) in *. pose proof (Hbk b) as Hbb.
  rewrite (charge_step_intro q1 s1 k u rate pu ch1 b) by (auto; lia).
  simpl. eapply IH; [|exact H]. fold b. split; [simpl; lia|]. split; intros x; simpl.
  - unfold map_u64 in *. destruct (decide (b = x)) as [<-|].
    + rewrite !lookup_insert_eq. simpl. lia.
    + rewrite !lookup_insert_ne by done. apply Hbk.
  - destruct (decide (k = x)) as [<-|].
    + rewrite !lookup_insert_eq. lia.
    + rewrite !lookup_insert_ne by done. apply Hco.
Qed.
End Charges.

Lemma computeWindowCharges_components alloc rates bks q st sku c :
  computeWindowCharges alloc rates bks q = Ret st ->
  components st !! sku = Some c <->
  exists u rate, alloc !! sku = Some u /\ rates !! sku = Some rate
                 /\ chargeUnitsForQuantity u rate q = Ret c.
Proof.
  intros H. unfold computeWindowCharges, computeWindowCharges_in in H.
  rewrite (charge_fold_components _ _ _ _ _ _ (NoDup_fst_map_to_list alloc) H).
  simpl. setoid_rewrite elem_of_map_to_list. rewrite lookup_empty. split.
  - intros [H'|[_ ?]]; done.
  - auto.
Qed.

Lemma computeWindowCharges_sums alloc rates bks q st :
  (forall sku r, rates !! sku = Some r -> is_u64 r) -> is_u32 q ->
  computeWindowCharges alloc rates bks q = Ret st ->
  nonneg_map (components st) /\ nonneg_map (buckets st) /\ msum (buckets st) = msum (components st).
Proof.
  intros Hr Hq H. unfold computeWindowCharges, computeWindowCharges_in in H.
  destruct (charge_fold_sums rates bks Hr q _ (mkCharges ∅ ∅ 0) st Hq
    (NoDup_fst_map_to_list alloc) ltac:(done) ltac:(by intros ??) ltac:(by intros ??) H) as (H1 & H2 & H3).
  simpl in H3. rewrite !msum_empty in H3. split; [done|]. split; [done|lia].
Qed.

Lemma computeWindowCharges_mono alloc rates bks q1 q2 st2 :
  (forall sku r, rates !! sku = Some r -> is_u64 r) -> is_u32 q1 -> is_u32 q2 -> q1 <= q2 ->
  computeWindowCharges alloc rates bks q2 = Ret st2 ->
  exists st1, computeWindowCharges alloc rates bks q1 = Ret st1 /\ charges_le st1 st2.
Proof.
  intros Hr H1 H2 Hle H. eapply charge_fold_mono; eauto.
  split; [done|]. split; intros x; simpl; [unfold map_u64; rewrite lookup_empty; simpl; lia|].
  by rewrite lookup_empty.
Qed.

(** ** Sums of uint64 maps *)

Lemma sumUint64Map_mod m : sumUint64Map m = msum m mod 2 ^ 64.
Proof.
  unfold sumUint64Map, msum. pose proof (u64_fold_mod ((map_to_list m).*2) 0) as E.
  rewrite Z.add_0_l in E. rewrite <- E. symmetry. apply Z.mod_small.
  assert (forall l a, is_u64 a -> is_u64 (foldl u64_add a l)) as Hu.
  { intros l. induction l; simpl; auto using u64_add_is_u64. }
  specialize (Hu ((map_to_list m).*2) 0 ltac:(unfold is_u64, u64_max; lia)).
  unfold is_u64, u64_max in Hu. lia.
Qed.

Lemma sumUint64Map_exact m :
  (forall k v, m !! k = Some v -> 0 <= v) -> msum m <= u64_max -> sumUint64Map m = msum m.
Proof.
  intros H0 H. rewrite sumUint64Map_mod. apply Z.mod_small.
  pose proof (msum_nonneg m H0). unfold u64_max in H. lia.
Qed.

(** ** The funding order *)

#[export] Instance componentLess_strict_weak pricing : StrictWeak (componentLess pricing).
Proof. unfold componentLess. apply _. Qed.

Lemma componentLess_total pricing a b :
  componentLess pricing a b = false -> componentLess pricing b a = false -> a = b.
Proof.
  unfold componentLess, lex_key, on_key, id.
  rewrite (Z.eqb_sym (skuBucketOrder pricing b)), (String.eqb_sym (map_str (SKUBuckets pricing) b)).
  destruct (skuBucketOrder pricing a =? skuBucketOrder pricing b) eqn:E1; simpl.
  2: { rewrite !Z.ltb_ge. intros. zbool. lia. }
  destruct (str_eqb (map_str (SKUBuckets pricing) a) (map_str (SKUBuckets pricing) b)) eqn:E2; simpl;
    unfold str_eqb in E2; rewrite E2; simpl.
  - apply str_ltb_total.
  - intros H1 H2. pose proof (str_ltb_total _ _ H1 H2) as E. rewrite E, String.eqb_refl in E2. discriminate.
Qed.

Lemma componentChargeOrder_perm m pricing : componentChargeOrder m pricing ≡ₚ (map_to_list m).*1.
Proof. apply sort_slice_perm. Qed.

Lemma componentChargeOrder_NoDup m pricing : NoDup (componentChargeOrder m pricing).
Proof. rewrite componentChargeOrder_perm. apply NoDup_fst_map_to_list. Qed.

Lemma componentChargeOrder_elem m pricing sku :
  sku ∈ componentChargeOrder m pricing <-> is_Some (m !! sku).
Proof.
  rewrite componentChargeOrder_perm. rewrite list_elem_of_fmap. split.
  - intros ([k v] & -> & H%elem_of_map_to_list). eauto.
  - intros [v Hv]. exists (sku, v). by rewrite elem_of_map_to_list.
Qed.
