(* ===== verification/Ledger.v ===== *)
(** * The ledger client (billing/ledger/ledger.go)

    Identifiers, the account and transfer payloads of the ledger commands,
    their validation and linking, and the dispatch to TigerBeetle with the
    interpretation of its answers.

    TigerBeetle itself is not part of the repository.  [TBCodec] names the
    flag encodings of its Go client and [TigerBeetle] the server operations
    the code calls, with the documented laws the theorems use; [RefLedger] at
    the end of the file is a small ledger that satisfies them. *)

From S2P Require Import Prelude GoStd Types.

(** ** Identifiers: type ID [16]byte *)

Abbreviation ID := (list Z).

Definition zeroID : ID := replicate 16 0.
Definition wf_id (id : ID) : Prop := length id = 16%nat /\ Forall is_byte id.

Definition IDFromBytes (value : list Z) : res ID :=
  if decide (length value = 16%nat) then Ret value else errorf "ledger id must be 16 bytes".

Definition ParseID (value : string) : res ID :=
  let value := trim_space value in
  if decide (value = "") then Ret zeroID
  else match hex_decode value with
       | None => errorf "parse ledger id"
       | Some decoded => IDFromBytes decoded
       end.

Definition IsZero (id : ID) : bool := bool_decide (id = zeroID).

Definition IDString (id : ID) : string := if IsZero id then "" else hex_encode id.

(** ** TigerBeetle's Go types *)

(** tb.TransferFlags and tb.AccountFlags are structs of booleans, packed into
    a uint16 by ToUint16; the code reads four of the transfer flags, writes
    Linked, and packs account flags with three named fields set or not. *)
Class TBCodec : Type := {
  TransferFlags : Type;
  Linked : TransferFlags -> bool;
  Pending : TransferFlags -> bool;
  PostPendingTransfer : TransferFlags -> bool;
  VoidPendingTransfer : TransferFlags -> bool;
  set_Linked : bool -> TransferFlags -> TransferFlags;
  TransferFlags_ToUint16 : TransferFlags -> Z;
  transferFlagsFromUint16 : Z -> TransferFlags;
  (** AccountFlags{DebitsMustNotExceedCredits, CreditsMustNotExceedDebits, History}.ToUint16() *)
  AccountFlags_ToUint16 : bool -> bool -> bool -> Z;
  (** Transfer.TransferFlags inverts TransferFlags.ToUint16. *)
  flags_roundtrip : forall f, transferFlagsFromUint16 (TransferFlags_ToUint16 f) = f;
  (** No flag is set in the zero value. *)
  flags_zero : let f := transferFlagsFromUint16 0 in
    Linked f = false /\ Pending f = false /\ PostPendingTransfer f = false /\ VoidPendingTransfer f = false;
  (** Assigning one struct field reads back and leaves the other fields. *)
  set_Linked_spec : forall b f,
    Linked (set_Linked b f) = b /\ Pending (set_Linked b f) = Pending f
    /\ PostPendingTransfer (set_Linked b f) = PostPendingTransfer f
    /\ VoidPendingTransfer (set_Linked b f) = VoidPendingTransfer f;
  set_Linked_twice : forall b c f, set_Linked b (set_Linked c f) = set_Linked b f
}.

(** A Uint128 is its 16 little-endian bytes. *)
Abbreviation Uint128 := (list Z).

Record tbAccount : Type := mkTbAccount {
  acc_ID : Uint128;
  acc_UserData128 : Uint128;
  acc_UserData64 : Z;
  acc_UserData32 : Z;
  acc_Ledger : Z;
  acc_Code : Z;
  acc_Flags : Z;
  DebitsPending : Uint128;
  DebitsPosted : Uint128;
  CreditsPending : Uint128;
  CreditsPosted : Uint128
}.

Record tbTransfer : Type := mkTbTransfer {
  tr_ID : Uint128;
  tr_DebitAccountID : Uint128;
  tr_CreditAccountID : Uint128;
  tr_Amount : Z;
  tr_PendingID : Uint128;
  tr_UserData128 : Uint128;
  tr_UserData64 : Z;
  tr_UserData32 : Z;
  tr_Timeout : Z;
  tr_Ledger : Z;
  tr_Code : Z;
  tr_Flags : Z
}.

Inductive accountStatus : Type :=
| AccountCreated
| AccountExists
| AccountExistsWithDifferentFlags
| AccountExistsWithDifferentUserData128
| AccountExistsWithDifferentUserData64
| AccountExistsWithDifferentUserData32
| AccountExistsWithDifferentLedger
| AccountExistsWithDifferentCode
| AccountOtherStatus (code : Z).

(** The fields a stored transfer may differ in. *)
Inductive transferField : Type :=
| FieldFlags | FieldPendingID | FieldTimeout | FieldDebitAccountID | FieldCreditAccountID
| FieldAmount | FieldUserData128 | FieldUserData64 | FieldUserData32 | FieldLedger | FieldCode.

Inductive transferStatus : Type :=
| TransferCreated
| TransferExists
| TransferPendingTransferAlreadyPosted
| TransferPendingTransferAlreadyVoided
| TransferExceedsCredits
| TransferPendingTransferExpired
| TransferPendingTransferNotFound
| TransferPendingTransferNotPending
| TransferExistsWithDifferent (field : transferField)
| TransferOtherStatus (code : Z).

(** The server operations.  [None] is a client error (the request may or may
    not have been executed).  [tb_transfer] observes the stored transfers. *)
Class TigerBeetle `{TBCodec} (St : Type) : Type := {
  tb_create_accounts : list tbAccount -> St -> option (list accountStatus) * St;
  tb_create_transfers : list tbTransfer -> St -> option (list transferStatus) * St;
  tb_lookup_accounts : list Uint128 -> St -> option (list tbAccount);
  tb_transfer : St -> Uint128 -> option tbTransfer;
  (** Transfers are immutable and never disappear. *)
  tb_transfer_immutable : forall ts s id t,
    tb_transfer s id = Some t -> tb_transfer (tb_create_transfers ts s).2 id = Some t;
  (** A request stores nothing but its own transfers, under their ids. *)
  tb_transfer_origin : forall ts s id t,
    tb_transfer (tb_create_transfers ts s).2 id = Some t ->
    tb_transfer s id = Some t \/ t ∈ ts /\ tr_ID t = id;
  (** There is one status per transfer, and a created or existing transfer is
      stored with the fields that were sent. *)
  tb_status_length : forall ts s rs s',
    tb_create_transfers ts s = (Some rs, s') -> length rs = length ts;
  tb_status_stored : forall ts s rs s' i t,
    tb_create_transfers ts s = (Some rs, s') -> ts !! i = Some t ->
    rs !! i = Some TransferCreated \/ rs !! i = Some TransferExists ->
    tb_transfer s' (tr_ID t) = Some t;
  (** Only a post or void request is answered with the fate of its pending
      transfer. *)
  tb_status_pending : forall ts s rs s' i t r,
    tb_create_transfers ts s = (Some rs, s') -> ts !! i = Some t -> rs !! i = Some r ->
    r = TransferPendingTransferAlreadyPosted \/ r = TransferPendingTransferAlreadyVoided ->
    PostPendingTransfer (transferFlagsFromUint16 (tr_Flags t)) = true
    \/ VoidPendingTransfer (transferFlagsFromUint16 (tr_Flags t)) = true;
  tb_accounts_no_transfer : forall accts s id,
    tb_transfer (tb_create_accounts accts s).2 id = tb_transfer s id
}.

(** ** Constants *)

Definition DefaultLedger : Z := 1.
Definition BatchLimit : nat := Z.to_nat 8189.

Definition AccountCodeStripeExternal : Z := 1.
Definition AccountCodeStripeHolding : Z := 2.
Definition AccountCodeContractAllowanceClearing : Z := 3.
Definition AccountCodeFreeTierExpense : Z := 4.
Definition AccountCodePromoExpense : Z := 5.
Definition AccountCodeRefundExpense : Z := 6.
Definition AccountCodeWriteoffExpense : Z := 7.
Definition AccountCodeExpiredCredits : Z := 8.
Definition AccountCodeRevenue : Z := 9.
Definition AccountCodeReceivable : Z := 10.
Definition AccountCodeRevokedContractAllowance : Z := 11.
Definition AccountCodeCustomerGrant : Z := 100.

Definition TransferCodeGrantDeposit : Z := 1.
Definition TransferCodeUsageSpend : Z := 2.
Definition TransferCodeStripePaymentIn : Z := 3.
Definition TransferCodeGrantSweep : Z := 4.
Definition TransferCodeCorrection : Z := 5.

Definition SourceFreeTier : Z := 1.
Definition SourceContract : Z := 2.
Definition SourcePurchase : Z := 3.
Definition SourcePromo : Z := 4.
Definition SourceRefund : Z := 5.

(** ** Payloads *)

Record AccountDefinition : Type := mkAccountDefinition {
  def_Key : string;
  def_Kind : string;
  def_Code : Z;
  def_Flags : Z;
  def_Description : string
}.

Record AccountPayload : Type := mkAccountPayload {
  ap_ID : string;
  ap_UserData128 : string;
  ap_UserData64 : Z;
  ap_UserData32 : Z;
  ap_Ledger : Z;
  ap_Code : Z;
  ap_Flags : Z
}.

Record TransferPayload : Type := mkTransferPayload {
  tp_ID : string;
  tp_DebitAccountID : string;
  tp_CreditAccountID : string;
  tp_Amount : Z;
  tp_PendingID : string;
  tp_UserData128 : string;
  tp_UserData64 : Z;
  tp_UserData32 : Z;
  tp_Timeout : Z;
  tp_Ledger : Z;
  tp_Code : Z;
  tp_Flags : Z
}.

Record CommandPayload : Type := mkCommandPayload {
  cp_Accounts : list AccountPayload;
  cp_Transfers : list TransferPayload
}.

Record Balance : Type := mkBalance {
  bal_AccountID : ID;
  bal_Available : Z;
  bal_Pending : Z;
  bal_Spent : Z
}.

Record AccountSnapshot : Type := mkAccountSnapshot {
  snap_AccountID : ID;
  snap_DebitsPosted : Z;
  snap_DebitsPending : Z;
  snap_CreditsPosted : Z;
  snap_CreditsPending : Z
}.

Definition GrantSourceCode (source : string) : res Z :=
  if decide (source = "free_tier") then Ret SourceFreeTier
  else if decide (source = "contract") then Ret SourceContract
  else if decide (source = "purchase") then Ret SourcePurchase
  else if decide (source = "promo") then Ret SourcePromo
  else if decide (source = "refund") then Ret SourceRefund
  else Err (LedgerErr ErrUnsupportedGrantType).

Definition GrantFundingAccountKey (source : string) : res string :=
  if decide (source = "free_tier") then Ret "operator_free_tier_expense"%string
  else if decide (source = "contract") then Ret "operator_contract_allowance_clearing"%string
  else if decide (source = "purchase") then Ret "operator_stripe_holding"%string
  else if decide (source = "promo") then Ret "operator_promo_expense"%string
  else if decide (source = "refund") then Ret "operator_refund_expense"%string
  else Err (LedgerErr ErrUnsupportedGrantType).

Section Payloads.
Context `{TBCodec}.

Definition history_flags : Z := AccountFlags_ToUint16 false false true.
Definition credit_positive_flags : Z := AccountFlags_ToUint16 true false true.
Definition debit_positive_flags : Z := AccountFlags_ToUint16 false true true.

Definition OperatorAccountDefinitions : list AccountDefinition :=
  let history := history_flags in
  let creditPositive := credit_positive_flags in
  let debitPositive := debit_positive_flags in
  [ mkAccountDefinition "operator_stripe_external" "operator" AccountCodeStripeExternal history "Stripe and external payment rails";
    mkAccountDefinition "operator_stripe_holding" "operator" AccountCodeStripeHolding creditPositive "Cash-confirmed prepaid credit clearing";
    mkAccountDefinition "operator_contract_allowance_clearing" "operator" AccountCodeContractAllowanceClearing debitPositive "Recurring allowance clearing for active contracts";
    mkAccountDefinition "operator_free_tier_expense" "operator" AccountCodeFreeTierExpense debitPositive "Free-tier allowance funding";
    mkAccountDefinition "operator_promo_expense" "operator" AccountCodePromoExpense debitPositive "Promotional credit funding";
    mkAccountDefinition "operator_refund_expense" "operator" AccountCodeRefundExpense debitPositive "Refund credit funding";
    mkAccountDefinition "operator_writeoff_expense" "operator" AccountCodeWriteoffExpense debitPositive "No-consent usage absorbed by the platform";
    mkAccountDefinition "operator_expired_credits" "operator" AccountCodeExpiredCredits creditPositive "Unused grant balances swept at expiry";
    mkAccountDefinition "operator_revenue" "operator" AccountCodeRevenue creditPositive "Recognized usage revenue";
    mkAccountDefinition "operator_receivable" "operator" AccountCodeReceivable creditPositive "Consented usage awaiting invoice collection";
    mkAccountDefinition "operator_revoked_contract_allowance" "operator" AccountCodeRevokedContractAllowance creditPositive "Unused contract allowance revoked after terminal non-payment" ].

Definition CustomerGrantAccount (id : ID) (orgKey : Z) (source : string) : res AccountPayload :=
  let! sourceCode := GrantSourceCode source in
  Ret (mkAccountPayload (IDString id) "" orgKey sourceCode DefaultLedger AccountCodeCustomerGrant
         credit_positive_flags).

Definition OperatorAccount (id : ID) (def : AccountDefinition) : AccountPayload :=
  mkAccountPayload (IDString id) "" 0 0 DefaultLedger (def_Code def) (def_Flags def).

Definition with_flags (t : TransferPayload) (flags : Z) : TransferPayload :=
  mkTransferPayload (tp_ID t) (tp_DebitAccountID t) (tp_CreditAccountID t) (tp_Amount t) (tp_PendingID t)
    (tp_UserData128 t) (tp_UserData64 t) (tp_UserData32 t) (tp_Timeout t) (tp_Ledger t) (tp_Code t) flags.

(** LinkTransfers: every transfer but the last is linked to its successor. *)
Definition link_one (n i : nat) (t : TransferPayload) : TransferPayload :=
  with_flags t (TransferFlags_ToUint16 (set_Linked (bool_decide (i < n - 1)%nat) (transferFlagsFromUint16 (tp_Flags t)))).

Definition LinkTransfers (transfers : list TransferPayload) : list TransferPayload :=
  imap (link_one (length transfers)) transfers.

Definition UsageSpendTransfer (id grantAccountID revenueAccountID : ID) (amount : Z)
    (windowCorrelation : ID) (businessTimeMS : Z) : TransferPayload :=
  mkTransferPayload (IDString id) (IDString grantAccountID) (IDString revenueAccountID) amount ""
    (IDString windowCorrelation) businessTimeMS 0 0 DefaultLedger TransferCodeUsageSpend 0.

Definition GrantDepositTransfer (id debitAccountID creditAccountID : ID) (amount : Z)
    (grantCorrelation : ID) (businessTimeMS : Z) : TransferPayload :=
  mkTransferPayload (IDString id) (IDString debitAccountID) (IDString creditAccountID) amount ""
    (IDString grantCorrelation) businessTimeMS 0 0 DefaultLedger TransferCodeGrantDeposit 0.

Definition StripePaymentInTransfer (id externalAccountID holdingAccountID : ID) (amount : Z)
    (grantCorrelation : ID) (businessTimeMS : Z) : TransferPayload :=
  mkTransferPayload (IDString id) (IDString externalAccountID) (IDString holdingAccountID) amount ""
    (IDString grantCorrelation) businessTimeMS 0 0 DefaultLedger TransferCodeStripePaymentIn 0.

(** The loop body of payloadAccounts. *)
Definition payloadAccount (a : AccountPayload) : res tbAccount :=
  let! id := ParseID (ap_ID a) in
  let! userData128 := ParseID (ap_UserData128 a) in
  if IsZero id || (ap_Ledger a =? 0) || (ap_Code a =? 0)
  then Err (LedgerErr ErrInvalidCommand)
  else Ret (mkTbAccount id userData128 (ap_UserData64 a) (ap_UserData32 a) (ap_Ledger a) (ap_Code a)
              (ap_Flags a) zeroID zeroID zeroID zeroID).

Definition payloadAccounts (l : list AccountPayload) : res (list tbAccount) :=
  outcome_map payloadAccount l.

(** The loop body of payloadTransfers. *)
Definition payloadTransfer (t : TransferPayload) : res tbTransfer :=
  let! id := ParseID (tp_ID t) in
  let! debitID := ParseID (tp_DebitAccountID t) in
  let! creditID := ParseID (tp_CreditAccountID t) in
  let! pendingID := ParseID (tp_PendingID t) in
  let! userData128 := ParseID (tp_UserData128 t) in
  let flags := transferFlagsFromUint16 (tp_Flags t) in
  if IsZero id then Err (LedgerErr ErrInvalidCommand)
  else if (tp_Amount t =? 0) && negb (VoidPendingTransfer flags) then Err (LedgerErr ErrInvalidCommand)
  else if (tp_Ledger t =? 0) || (tp_Code t =? 0) then Err (LedgerErr ErrInvalidCommand)
  else if Pending flags && negb (IsZero pendingID) then Err (LedgerErr ErrInvalidCommand)
  else if (PostPendingTransfer flags || VoidPendingTransfer flags) && IsZero pendingID
       then Err (LedgerErr ErrInvalidCommand)
  else Ret (mkTbTransfer id debitID creditID (tp_Amount t) pendingID userData128 (tp_UserData64 t)
              (tp_UserData32 t) (tp_Timeout t) (tp_Ledger t) (tp_Code t) (tp_Flags t)).

Definition payloadTransfers (l : list TransferPayload) : res (list tbTransfer) :=
  outcome_map payloadTransfer l.

(** The status switch of createAccounts. *)
Definition accountStatusError (st : accountStatus) : option goerr :=
  match st with
  | AccountCreated | AccountExists => None
  | AccountExistsWithDifferentFlags
  | AccountExistsWithDifferentUserData128
  | AccountExistsWithDifferentUserData64
  | AccountExistsWithDifferentUserData32
  | AccountExistsWithDifferentLedger
  | AccountExistsWithDifferentCode => Some (LedgerErr ErrAccountConflict)
  | AccountOtherStatus _ => Some (Errorf "create account")
  end.

(** The status switch of createTransfers. *)
Definition transferStatusError (st : transferStatus) : option goerr :=
  match st with
  | TransferCreated | TransferExists
  | TransferPendingTransferAlreadyPosted | TransferPendingTransferAlreadyVoided => None
  | TransferExceedsCredits => Some (LedgerErr ErrLedgerInsufficientBalance)
  | TransferPendingTransferExpired | TransferPendingTransferNotFound
  | TransferPendingTransferNotPending => Some (LedgerErr ErrPendingTransferGone)
  | TransferExistsWithDifferent _ => Some (LedgerErr ErrTransferConflict)
  | TransferOtherStatus _ => Some (Errorf "create transfer")
  end.

(** The first status that is an error decides the result. *)
Definition first_error {A} (f : A -> option goerr) (l : list A) : res unit :=
  match head (omap f l) with
  | Some e => Err e
  | None => Ret tt
  end.
End Payloads.

(** ** Balances *)

Definition uint128ToUint64 (value : Uint128) : res Z :=
  if existsb (fun b => negb (b =? 0)) (drop 8 value)
  then Err (LedgerErr ErrBalanceOverflow)
  else Ret (le_value (take 8 value)).

Definition availableFromAccount (account : tbAccount) : res Z :=
  let! creditsPosted := uint128ToUint64 (CreditsPosted account) in
  let! debitsPosted := uint128ToUint64 (DebitsPosted account) in
  let! debitsPending := uint128ToUint64 (DebitsPending account) in
  if u64_max - debitsPending <? debitsPosted then Err (LedgerErr ErrBalanceOverflow)
  else
    let committed := debitsPosted + debitsPending in
    if creditsPosted <? committed then Err (LedgerErr ErrBalanceOverflow)
    else Ret (creditsPosted - committed).

Definition balanceOfAccount (account : tbAccount) : res Balance :=
  let! available := availableFromAccount account in
  let! pending := uint128ToUint64 (DebitsPending account) in
  let! spent := uint128ToUint64 (DebitsPosted account) in
  Ret (mkBalance (acc_ID account) available pending spent).

Definition snapshotOfAccount (account : tbAccount) : res AccountSnapshot :=
  let! debitsPosted := uint128ToUint64 (DebitsPosted account) in
  let! debitsPending := uint128ToUint64 (DebitsPending account) in
  let! creditsPosted := uint128ToUint64 (CreditsPosted account) in
  let! creditsPending := uint128ToUint64 (CreditsPending account) in
  Ret (mkAccountSnapshot (acc_ID account) debitsPosted debitsPending creditsPosted creditsPending).

(** ** Client operations *)

Section Client.
Context `{HC : TBCodec} {St : Type} `{!TigerBeetle St}.

Definition createAccounts (accounts : list tbAccount) : M St goerr unit := fun s =>
  match tb_create_accounts accounts s with
  | (None, s') => (Err (Errorf "create accounts"), s')
  | (Some results, s') => (first_error accountStatusError results, s')
  end.

Definition createTransfers (transfers : list tbTransfer) : M St goerr unit := fun s =>
  match tb_create_transfers transfers s with
  | (None, s') => (Err (Errorf "create transfers"), s')
  | (Some results, s') => (first_error transferStatusError results, s')
  end.

(** Dispatch; [connected] says that the client and its connection are set. *)
Definition Dispatch (connected : bool) (payload : CommandPayload) : M St goerr unit :=
  if negb connected then mfail (LedgerErr ErrUnavailable)
  else if bool_decide (BatchLimit < length (cp_Accounts payload))%nat
          || bool_decide (BatchLimit < length (cp_Transfers payload))%nat
  then mfail (LedgerErr ErrBatchTooLarge)
  else
    exec! (match cp_Accounts payload with
           | [] => mret tt
           | accts => do! accounts <- mlift (payloadAccounts accts); createAccounts accounts
           end);
    match cp_Transfers payload with
    | [] => mret tt
    | trs => do! transfers <- mlift (payloadTransfers trs); createTransfers transfers
    end.

(** The ids sent by the lookups: zero ids are skipped. *)
Definition lookup_ids (ids : list ID) : list Uint128 := filter (fun id => IsZero id = false) ids.

Definition lookup_guard (connected : bool) (ids : list ID) (s : St) : res (list tbAccount) :=
  if negb connected then Err (LedgerErr ErrUnavailable)
  else if bool_decide (BatchLimit < length ids)%nat then Err (LedgerErr ErrBatchTooLarge)
  else match tb_lookup_accounts (lookup_ids ids) s with
       | None => errorf "lookup accounts"
       | Some accounts => Ret accounts
       end.

Definition LookupBalances (connected : bool) (ids : list ID) (s : St) : res (gmap ID Balance) :=
  let! accounts := lookup_guard connected ids s in
  outcome_fold (fun out account =>
    let! b := balanceOfAccount account in Ret (<[acc_ID account := b]> out)) ∅ accounts.

Definition LookupAccountIDs (connected : bool) (ids : list ID) (s : St) : res (gset ID) :=
  let! accounts := lookup_guard connected ids s in
  Ret (list_to_set (acc_ID <$> accounts)).

Definition LookupAccountSnapshots (connected : bool) (ids : list ID) (s : St) : res (gmap ID AccountSnapshot) :=
  let! accounts := lookup_guard connected ids s in
  outcome_fold (fun out account =>
    let! snap := snapshotOfAccount account in Ret (<[acc_ID account := snap]> out)) ∅ accounts.
End Client.

(** ** Laws of identifiers *)

Lemma ParseID_IDString id : wf_id id -> ParseID (IDString id) = Ret id.
Proof.
  intros [Hl Hb]. unfold ParseID, IDString, IsZero.
  case_bool_decide as Hz; [by subst|].
  rewrite trim_space_printable by by apply hex_encode_printable.
  rewrite decide_False; [|destruct id; [discriminate|done]].
  rewrite hex_decode_encode by done. unfold IDFromBytes. by rewrite decide_True.
Qed.

Lemma ParseID_empty : ParseID "" = Ret zeroID.
Proof. reflexivity. Qed.

Lemma IDString_inj id1 id2 : wf_id id1 -> wf_id id2 -> IDString id1 = IDString id2 -> id1 = id2.
Proof. intros H1 H2 E. apply ParseID_IDString in H1, H2. congruence. Qed.

Lemma zeroID_wf : wf_id zeroID.
Proof. split; [done|]. apply Forall_replicate. unfold is_byte. lia. Qed.

#[export] Hint Resolve zeroID_wf : billing.

(** ** Laws of payloads *)

Section PayloadLaws.
Context `{TBCodec}.

Lemma LinkTransfers_lookup l i t' :
  LinkTransfers l !! i = Some t' <->
  exists t, l !! i = Some t /\ t' = link_one (length l) i t.
Proof.
  unfold LinkTransfers. rewrite list_lookup_imap. destruct (l !! i) as [u|]; simpl.
  - split; [intros [= <-]; eauto|]. intros (t & [= <-] & ->). done.
  - split; [done|]. by intros (t & ? & _).
Qed.

Lemma LinkTransfers_length l : length (LinkTransfers l) = length l.
Proof. apply length_imap. Qed.

Lemma link_one_flags n i t :
  let f := transferFlagsFromUint16 (tp_Flags t) in
  let f' := transferFlagsFromUint16 (tp_Flags (link_one n i t)) in
  Linked f' = bool_decide (i < n - 1)%nat /\ Pending f' = Pending f
  /\ PostPendingTransfer f' = PostPendingTransfer f /\ VoidPendingTransfer f' = VoidPendingTransfer f.
Proof. unfold link_one, with_flags. simpl. rewrite flags_roundtrip. apply set_Linked_spec. Qed.

Lemma LinkTransfers_idempotent l : LinkTransfers (LinkTransfers l) = LinkTransfers l.
Proof.
  apply list_eq. intros i. unfold LinkTransfers. rewrite !list_lookup_imap, length_imap.
  destruct (l !! i) as [t|]; simpl; [|done]. unfold link_one, with_flags. simpl.
  by rewrite flags_roundtrip, set_Linked_twice.
Qed.

(** Linking does not change what a transfer moves. *)
Lemma link_one_fields n i t :
  let t' := link_one n i t in
  tp_ID t' = tp_ID t /\ tp_DebitAccountID t' = tp_DebitAccountID t
  /\ tp_CreditAccountID t' = tp_CreditAccountID t /\ tp_Amount t' = tp_Amount t
  /\ tp_PendingID t' = tp_PendingID t /\ tp_UserData128 t' = tp_UserData128 t
  /\ tp_UserData64 t' = tp_UserData64 t /\ tp_Code t' = tp_Code t.
Proof. by repeat split. Qed.

(** What a payload must look like to be sent. *)
Lemma payloadTransfer_Ret t tr :
  payloadTransfer t = Ret tr ->
  let flags := transferFlagsFromUint16 (tp_Flags t) in
  ParseID (tp_ID t) = Ret (tr_ID tr) /\ ParseID (tp_DebitAccountID t) = Ret (tr_DebitAccountID tr)
  /\ ParseID (tp_CreditAccountID t) = Ret (tr_CreditAccountID tr)
  /\ tr_Amount tr = tp_Amount t /\ IsZero (tr_ID tr) = false
  /\ (tp_Amount t = 0 -> VoidPendingTransfer flags = true)
  /\ tr_Ledger tr <> 0 /\ tr_Code tr <> 0
  /\ (Pending flags = true -> IsZero (tr_PendingID tr) = true)
  /\ (PostPendingTransfer flags = true \/ VoidPendingTransfer flags = true -> IsZero (tr_PendingID tr) = false).
Proof.
  unfold payloadTransfer. intros Hp. inv_ret. cbv zeta in Hp.
  destruct (IsZero _) eqn:Hid in Hp; [discriminate|].
  destruct ((tp_Amount t =? 0) && _) eqn:Ham in Hp; [discriminate|].
  destruct ((tp_Ledger t =? 0) || _) eqn:Hlc in Hp; [discriminate|].
  destruct (Pending _ && _) eqn:Hpe in Hp; [discriminate|].
  destruct ((_ || _) && _) eqn:Hpv in Hp; [discriminate|]. injection Hp as <-. cbn [tr_ID tr_DebitAccountID tr_CreditAccountID
    tr_Amount tr_PendingID tr_Ledger tr_Code].
  zbool. repeat (split; [done|]). repeat split; auto.
  - intros E. rewrite E in Ham. simpl in Ham. by apply negb_false_iff.
  - intros E. rewrite E in Hpe. simpl in Hpe. by apply negb_false_iff.
  - intros [E|E]; rewrite E, ?orb_true_r in Hpv; done.
Qed.

(** A transfer the code builds itself passes validation as it is. *)
Lemma payloadTransfer_plain id d c amount corr time code flags :
  wf_id id -> wf_id d -> wf_id c -> wf_id corr -> IsZero id = false -> amount <> 0 -> code <> 0 ->
  Pending (transferFlagsFromUint16 flags) = false ->
  PostPendingTransfer (transferFlagsFromUint16 flags) = false ->
  VoidPendingTransfer (transferFlagsFromUint16 flags) = false ->
  payloadTransfer (mkTransferPayload (IDString id) (IDString d) (IDString c) amount ""
                     (IDString corr) time 0 0 DefaultLedger code flags)
  = Ret (mkTbTransfer id d c amount zeroID corr time 0 0 DefaultLedger code flags).
Proof.
  intros Hi Hd Hc Hcorr Hz Ha Hcode Hp Hpp Hvp. unfold payloadTransfer. cbn [tp_ID tp_DebitAccountID
    tp_CreditAccountID tp_PendingID tp_UserData128 tp_Flags tp_Amount tp_Ledger tp_Code].
  rewrite !ParseID_IDString, ParseID_empty by done. cbv [obind]. cbv zeta.
  rewrite Hz, Hp, Hpp, Hvp, (proj2 (Z.eqb_neq amount 0)), (proj2 (Z.eqb_neq code 0)) by done.
  reflexivity.
Qed.

Lemma first_error_Ret {A} (f : A -> option goerr) l :
  first_error f l = Ret tt <-> Forall (fun x => f x = None) l.
Proof.
  unfold first_error. induction l as [|x l IH]; simpl; [by split|].
  rewrite Forall_cons. destruct (f x) eqn:E; simpl; [split; [done|intros [? _]; congruence]|].
  rewrite IH. by split; [|intros [_ ?]].
Qed.
End PayloadLaws.

(** ** Laws of balances *)

Definition wf_u128 (v : Uint128) : Prop := length v = 16%nat /\ Forall is_byte v.

(** The narrowing succeeds exactly on the values that fit. *)
Lemma uint128ToUint64_Ret v z :
  wf_u128 v -> uint128ToUint64 v = Ret z <-> z = le_value v /\ le_value v <= u64_max.
Proof.
  intros [Hl Hb]. unfold uint128ToUint64.
  assert (Forall is_byte (take 8 v) /\ Forall is_byte (drop 8 v)) as [Ht Hd]
    by (rewrite <- (take_drop 8 v), Forall_app in Hb; done).
  pose proof (le_value_app (take 8 v) (drop 8 v)) as Happ. rewrite take_drop, length_take, Hl in Happ.
  change (256 ^ Z.of_nat (8 `min` 16)) with (2 ^ 64) in Happ.
  pose proof (le_value_range _ Ht) as Hrt. rewrite length_take, Hl in Hrt.
  change (256 ^ Z.of_nat (8 `min` 16)) with (2 ^ 64) in Hrt.
  pose proof (le_value_range _ Hd) as Hrd. pose proof (le_value_zero _ Hd) as Hz. unfold u64_max.
  destruct (existsb _ (drop 8 v)) eqn:E.
  - split; [done|]. intros [-> Hle]. exfalso. assert (le_value (drop 8 v) = 0) as H0 by lia.
    apply Hz in H0. apply existsb_exists in E as (b & Hin & Hne). apply list_elem_of_In in Hin.
    rewrite Forall_forall in H0. rewrite (H0 b Hin) in Hne. done.
  - assert (le_value (drop 8 v) = 0) as H0.
    { apply Hz, Forall_forall. intros b Hin. apply list_elem_of_In in Hin.
      destruct (decide (b = 0)) as [|Hne]; [done|]. exfalso.
      assert (existsb (fun b => negb (b =? 0)) (drop 8 v) = true); [|congruence].
      apply existsb_exists. exists b. split; [done|]. by rewrite (proj2 (Z.eqb_neq b 0)). }
    split; [intros [= <-]|intros [-> _]; f_equal]; lia.
Qed.

Definition wf_tbAccount (a : tbAccount) : Prop :=
  wf_u128 (DebitsPending a) /\ wf_u128 (DebitsPosted a) /\ wf_u128 (CreditsPending a) /\ wf_u128 (CreditsPosted a).

(** Posted credits less posted and pending debits, when that is a uint64
    computed from uint64 parts; an error otherwise. *)
Lemma availableFromAccount_Ret a z :
  wf_tbAccount a ->
  availableFromAccount a = Ret z <->
  z = le_value (CreditsPosted a) - (le_value (DebitsPosted a) + le_value (DebitsPending a))
  /\ 0 <= z /\ le_value (CreditsPosted a) <= u64_max.
Proof.
  intros (Hdp & Hd & _ & Hc). unfold availableFromAccount.
  pose proof (le_value_range _ (proj2 Hdp)) as Rdp. pose proof (le_value_range _ (proj2 Hd)) as Rd. split.
  - intros H. inv_ret.
    repeat match goal with Hu : uint128ToUint64 _ = Ret _ |- _ =>
      apply uint128ToUint64_Ret in Hu as [-> ?]; [|done] end.
    repeat (case_bool; [discriminate|]). zbool. injection H as <-. lia.
  - intros (Hz & Hz0 & Hmax).
    rewrite (proj2 (uint128ToUint64_Ret _ _ Hc) (conj eq_refl Hmax)). simpl.
    rewrite (proj2 (uint128ToUint64_Ret _ (le_value (DebitsPosted a)) Hd)) by lia. simpl.
    rewrite (proj2 (uint128ToUint64_Ret _ (le_value (DebitsPending a)) Hdp)) by lia. simpl.
    destruct (Z.ltb_spec (u64_max - le_value (DebitsPending a)) (le_value (DebitsPosted a))); [lia|].
    destruct (Z.ltb_spec (le_value (CreditsPosted a)) (le_value (DebitsPosted a) + le_value (DebitsPending a))); [lia|].
    f_equal. lia.
Qed.

(** ** Laws of the client *)

Section ClientLaws.
Context `{HC : TBCodec} {St : Type} `{!TigerBeetle St}.

Definition transfer_status_ok (st : transferStatus) : Prop := transferStatusError st = None.

(** Success means that every transfer was accepted. *)
Lemma createTransfers_Ret ts s s' :
  createTransfers ts s = (Ret tt, s') ->
  exists rs, tb_create_transfers ts s = (Some rs, s') /\ Forall transfer_status_ok rs.
Proof.
  unfold createTransfers. destruct (tb_create_transfers ts s) as [[rs|] s1]; [|done].
  intros [= H1 ->]. exists rs. split; [done|]. by apply first_error_Ret.
Qed.

(** A transfer that neither posts nor voids a pending one. *)
Definition direct_transfer (t : tbTransfer) : Prop :=
  PostPendingTransfer (transferFlagsFromUint16 (tr_Flags t)) = false
  /\ VoidPendingTransfer (transferFlagsFromUint16 (tr_Flags t)) = false.

Lemma createTransfers_stored ts s s' :
  createTransfers ts s = (Ret tt, s') -> Forall direct_transfer ts ->
  forall t, t ∈ ts -> tb_transfer s' (tr_ID t) = Some t.
Proof.
  intros (rs & Hc & Hok)%createTransfers_Ret Hd t (i & Ht)%list_elem_of_lookup.
  eapply tb_status_stored; eauto.
  pose proof (tb_status_length _ _ _ _ Hc) as Hlen.
  destruct (rs !! i) as [r|] eqn:Hr.
  2: { apply lookup_ge_None in Hr. apply lookup_lt_Some in Ht. lia. }
  apply (Forall_lookup_1 _ _ _ _ Hok) in Hr as Hr'.
  destruct (Forall_lookup_1 _ _ _ _ Hd Ht) as [H1 H2].
  pose proof (tb_status_pending _ _ _ _ _ _ _ Hc Ht Hr) as Hp.
  destruct r; try discriminate; auto; destruct Hp; auto; congruence.
Qed.

(** Whatever the outcome, nothing but the request's transfers is stored. *)
Lemma createTransfers_origin ts s id t :
  tb_transfer (createTransfers ts s).2 id = Some t ->
  tb_transfer s id = Some t \/ t ∈ ts /\ tr_ID t = id.
Proof.
  unfold createTransfers. pose proof (tb_transfer_origin ts s id t) as Ho.
  by destruct (tb_create_transfers ts s) as [[rs|] s1].
Qed.

Lemma createTransfers_immutable ts s id t :
  tb_transfer s id = Some t -> tb_transfer (createTransfers ts s).2 id = Some t.
Proof.
  unfold createTransfers. pose proof (tb_transfer_immutable ts s id t) as Ho.
  by destruct (tb_create_transfers ts s) as [[rs|] s1].
Qed.

Lemma createAccounts_transfer accts s id :
  tb_transfer (createAccounts accts s).2 id = tb_transfer s id.
Proof.
  unfold createAccounts. pose proof (tb_accounts_no_transfer accts s id) as Ho.
  by destruct (tb_create_accounts accts s) as [[rs|] s1].
Qed.

(** The accounts step of Dispatch, and the transfers step. *)
Definition dispatch_accounts (payload : CommandPayload) : M St goerr unit :=
  match cp_Accounts payload with
  | [] => mret tt
  | accts => do! accounts <- mlift (payloadAccounts accts); createAccounts accounts
  end.

Definition dispatch_transfers (payload : CommandPayload) : M St goerr unit :=
  match cp_Transfers payload with
  | [] => mret tt
  | trs => do! transfers <- mlift (payloadTransfers trs); createTransfers transfers
  end.

Lemma dispatch_accounts_transfer payload s id :
  tb_transfer (dispatch_accounts payload s).2 id = tb_transfer s id.
Proof.
  unfold dispatch_accounts. destruct (cp_Accounts payload) as [|a l]; [done|].
  unfold mbindM, mlift. destruct (payloadAccounts (a :: l)); simpl; [apply createAccounts_transfer|done|done].
Qed.

Lemma Dispatch_inv connected payload s s' :
  Dispatch connected payload s = (Ret tt, s') ->
  connected = true /\ (length (cp_Accounts payload) <= BatchLimit)%nat
  /\ (length (cp_Transfers payload) <= BatchLimit)%nat
  /\ exists s1, dispatch_accounts payload s = (Ret tt, s1) /\ dispatch_transfers payload s1 = (Ret tt, s').
Proof.
  unfold Dispatch. destruct connected; simpl; [|done].
  do 2 (case_bool_decide; simpl; [done|]). intros Hd.
  apply mbindM_Ret_inv in Hd as ([] & s1 & Ha & Ht).
  split; [done|]. split; [lia|]. split; [lia|]. eauto.
Qed.

(** A dispatched command has stored every transfer of its payload. *)
Lemma Dispatch_stored connected payload s s' ts :
  Dispatch connected payload s = (Ret tt, s') -> payloadTransfers (cp_Transfers payload) = Ret ts ->
  Forall direct_transfer ts -> forall t, t ∈ ts -> tb_transfer s' (tr_ID t) = Some t.
Proof.
  intros (_ & _ & _ & s1 & _ & Ht)%Dispatch_inv Hts Hd t Hin.
  unfold dispatch_transfers in Ht. destruct (cp_Transfers payload) as [|p ps].
  { injection Hts as <-. by apply elem_of_nil in Hin. }
  rewrite Hts in Ht. exact (createTransfers_stored ts s1 s' Ht Hd t Hin).
Qed.

Lemma Dispatch_transfer_immutable connected payload s id t :
  tb_transfer s id = Some t -> tb_transfer (Dispatch connected payload s).2 id = Some t.
Proof.
  intros Hs. unfold Dispatch. destruct connected; simpl; [|done].
  do 2 (case_bool_decide; simpl; [done|]). unfold mbindM at 1. fold (dispatch_accounts payload).
  pose proof (dispatch_accounts_transfer payload s id) as E.
  destruct (dispatch_accounts payload s) as [[[]|e|] s1]; simpl in *; [|congruence|congruence].
  rewrite Hs in E. destruct (cp_Transfers payload) as [|p ps]; [done|].
  unfold mbindM, mlift. destruct (payloadTransfers (p :: ps)); simpl; [|done|done].
  by apply createTransfers_immutable.
Qed.

Lemma Dispatch_transfer_origin connected payload s id t :
  tb_transfer (Dispatch connected payload s).2 id = Some t ->
  tb_transfer s id = Some t
  \/ exists ts, payloadTransfers (cp_Transfers payload) = Ret ts /\ t ∈ ts /\ tr_ID t = id.
Proof.
  unfold Dispatch. destruct connected; simpl; [|auto].
  do 2 (case_bool_decide; simpl; [auto|]). unfold mbindM at 1. fold (dispatch_accounts payload).
  pose proof (dispatch_accounts_transfer payload s id) as E.
  destruct (dispatch_accounts payload s) as [[[]|e|] s1]; simpl in *; [|left; congruence|left; congruence].
  destruct (cp_Transfers payload) as [|p ps]; simpl; [left; congruence|].
  unfold mbindM, mlift. destruct (payloadTransfers (p :: ps)) as [ts| |] eqn:Hts; simpl; [|left; congruence|left; congruence].
  intros [Hs|[? ?]]%createTransfers_origin; [left; congruence|right; eauto].
Qed.
End ClientLaws.

(** ** A small ledger

    [RefLedger] keeps accounts with their posted debits and credits and
    executes transfers one by one; with [RefCodec] it is used where a theorem
    is evaluated on concrete data. *)

Module RefLedger.
Definition codec : TBCodec.
Proof.
  refine {|
    TransferFlags := Z;
    Linked f := Z.testbit f 0;
    Pending f := Z.testbit f 1;
    PostPendingTransfer f := Z.testbit f 2;
    VoidPendingTransfer f := Z.testbit f 3;
    set_Linked b f := if (b : bool) then Z.setbit f 0 else Z.clearbit f 0;
    TransferFlags_ToUint16 f := f;
    transferFlagsFromUint16 f := f;
    AccountFlags_ToUint16 d c h := Z.b2z d * 2 + Z.b2z c * 4 + Z.b2z h * 8
  |}.
  - done.
  - done.
  - intros [] f; rewrite ?Z.setbit_eq, ?Z.clearbit_eq by lia;
      rewrite ?Z.setbit_neq, ?Z.clearbit_neq by lia; done.
  - intros b c f. apply Z.bits_inj. intros n.
    destruct b, c; rewrite ?Z.setbit_eqb, ?Z.clearbit_eqb, ?Z.setbit_eqb by lia;
      destruct (0 =? n), (Z.testbit f n); done.
Defined.

#[export] Existing Instance codec.

#[export] Instance tbTransfer_eq_dec : EqDecision tbTransfer.
Proof. solve_decision. Defined.

Record state : Type := mkState {
  accounts : gmap ID tbAccount;
  debits : gmap ID Z;
  credits : gmap ID Z;
  transfers : gmap ID tbTransfer
}.

Definition empty : state := mkState ∅ ∅ ∅ ∅.

Definition get (m : gmap ID Z) (k : ID) : Z := default 0 (m !! k).

Definition create_account (s : state) (a : tbAccount) : accountStatus * state :=
  match accounts s !! acc_ID a with
  | Some b => (if decide (acc_Code b = acc_Code a) then AccountExists else AccountExistsWithDifferentCode, s)
  | None => (AccountCreated, mkState (<[acc_ID a := a]> (accounts s)) (debits s) (credits s) (transfers s))
  end.

Definition create_transfer (s : state) (t : tbTransfer) : transferStatus * state :=
  match transfers s !! tr_ID t with
  | Some t0 => (if decide (t0 = t) then TransferExists else TransferExistsWithDifferent FieldAmount, s)
  | None =>
      match accounts s !! tr_DebitAccountID t, accounts s !! tr_CreditAccountID t with
      | Some d, Some _ =>
          if Z.testbit (acc_Flags d) 1
             && (get (credits s) (acc_ID d) <? get (debits s) (acc_ID d) + tr_Amount t)
          then (TransferExceedsCredits, s)
          else (TransferCreated,
                mkState (accounts s)
                  (<[tr_DebitAccountID t := get (debits s) (tr_DebitAccountID t) + tr_Amount t]> (debits s))
                  (<[tr_CreditAccountID t := get (credits s) (tr_CreditAccountID t) + tr_Amount t]> (credits s))
                  (<[tr_ID t := t]> (transfers s)))
      | _, _ => (TransferOtherStatus 21, s)
      end
  end.

Fixpoint run_requests {A R} (f : state -> A -> R * state) (s : state) (l : list A) : list R * state :=
  match l with
  | [] => ([], s)
  | x :: l' => let (r, s1) := f s x in let (rs, s2) := run_requests f s1 l' in (r :: rs, s2)
  end.

(** [z] as 16 little-endian bytes *)
Definition u128_of (z : Z) : Uint128 := (fun i : nat => (z / 256 ^ Z.of_nat i) mod 256) <$> seq 0 16.

Definition lookup_account (s : state) (id : ID) : option tbAccount :=
  match accounts s !! id with
  | None => None
  | Some a => Some (mkTbAccount (acc_ID a) (acc_UserData128 a) (acc_UserData64 a) (acc_UserData32 a)
                      (acc_Ledger a) (acc_Code a) (acc_Flags a)
                      (u128_of 0) (u128_of (get (debits s) id)) (u128_of 0) (u128_of (get (credits s) id)))
  end.

Lemma create_transfer_mono s t id t' :
  transfers s !! id = Some t' -> transfers (create_transfer s t).2 !! id = Some t'.
Proof.
  intros Hs. unfold create_transfer. destruct (transfers s !! tr_ID t) eqn:E; [done|].
  destruct (accounts s !! tr_DebitAccountID t); [|done]. destruct (accounts s !! tr_CreditAccountID t); [|done].
  case_bool; [done|]. simpl. rewrite lookup_insert_ne by congruence. done.
Qed.

Lemma create_transfer_origin s t id t' :
  transfers (create_transfer s t).2 !! id = Some t' ->
  transfers s !! id = Some t' \/ t' = t /\ tr_ID t = id.
Proof.
  unfold create_transfer. destruct (transfers s !! tr_ID t) eqn:E; [auto|].
  destruct (accounts s !! tr_DebitAccountID t); [|auto]. destruct (accounts s !! tr_CreditAccountID t); [|auto].
  case_bool; [auto|]. simpl. intros [[<- <-]|[_ ?]]%lookup_insert_Some; auto.
Qed.

Lemma create_transfer_stored s t :
  (create_transfer s t).1 = TransferCreated \/ (create_transfer s t).1 = TransferExists ->
  transfers (create_transfer s t).2 !! tr_ID t = Some t.
Proof.
  unfold create_transfer. destruct (transfers s !! tr_ID t) as [t0|] eqn:E.
  - simpl. case_decide; [subst; done|]. intros [|]; done.
  - destruct (accounts s !! tr_DebitAccountID t); [|intros [|]; done].
    destruct (accounts s !! tr_CreditAccountID t); [|intros [|]; done].
    case_bool; [intros [|]; done|]. simpl. intros _. apply lookup_insert_eq.
Qed.

Lemma create_transfer_status s t :
  (create_transfer s t).1 <> TransferPendingTransferAlreadyPosted
  /\ (create_transfer s t).1 <> TransferPendingTransferAlreadyVoided.
Proof. unfold create_transfer. repeat case_match; done. Qed.

Lemma run_mono ts s id t :
  transfers s !! id = Some t -> transfers (run_requests create_transfer s ts).2 !! id = Some t.
Proof.
  revert s. induction ts as [|x ts IH]; intros s Hs; simpl; [done|].
  apply (create_transfer_mono _ x) in Hs. destruct (create_transfer s x) as [r s1]; simpl in *.
  apply IH in Hs. by destruct (run_requests create_transfer s1 ts).
Qed.

Lemma run_origin ts s id t :
  transfers (run_requests create_transfer s ts).2 !! id = Some t ->
  transfers s !! id = Some t \/ t ∈ ts /\ tr_ID t = id.
Proof.
  revert s. induction ts as [|x ts IH]; intros s; simpl; [auto|].
  pose proof (create_transfer_origin s x id t) as Ho. destruct (create_transfer s x) as [r s1]; simpl in *.
  specialize (IH s1). destruct (run_requests create_transfer s1 ts); simpl in *. intros Hs.
  destruct (IH Hs) as [H1|[H1 H2]]; [|right; split; [by constructor|done]].
  destruct (Ho H1) as [|[-> ?]]; [auto|right; split; [constructor|done]].
Qed.

Lemma run_status ts s rs s' :
  run_requests create_transfer s ts = (rs, s') ->
  Forall2 (fun t r => r <> TransferPendingTransferAlreadyPosted /\ r <> TransferPendingTransferAlreadyVoided
    /\ (r = TransferCreated \/ r = TransferExists -> transfers s' !! tr_ID t = Some t)) ts rs.
Proof.
  revert s rs. induction ts as [|x ts IH]; intros s rs; simpl; [intros [= <- _]; constructor|].
  pose proof (create_transfer_status s x) as Hst. pose proof (create_transfer_stored s x) as Hsd.
  destruct (create_transfer s x) as [r s1]; simpl in *.
  pose proof (run_mono ts s1 (tr_ID x) x) as Hm.
  destruct (run_requests create_transfer s1 ts) as [rs1 s2] eqn:E. intros [= <- <-].
  constructor; [|by eapply IH]. destruct Hst. repeat split; auto.
Qed.

#[export, refine] Instance ref_tigerbeetle : TigerBeetle state := {
  tb_create_accounts l s := let (rs, s') := run_requests create_account s l in (Some rs, s');
  tb_create_transfers l s := let (rs, s') := run_requests create_transfer s l in (Some rs, s');
  tb_lookup_accounts ids s := Some (omap (lookup_account s) ids);
  tb_transfer s id := transfers s !! id
}.
Proof.
  - intros ts s id t Hs. pose proof (run_mono ts s id t Hs). by destruct (run_requests create_transfer s ts).
  - intros ts s id t. pose proof (run_origin ts s id t). by destruct (run_requests create_transfer s ts).
  - intros ts s rs s'. destruct (run_requests create_transfer s ts) eqn:E. intros [= <- <-].
    apply run_status, Forall2_length in E. done.
  - intros ts s rs s' i t. destruct (run_requests create_transfer s ts) eqn:E. intros [= <- <-] Ht Hr.
    destruct Hr as [Hr|Hr]; destruct (Forall2_lookup_lr _ _ _ _ _ _ (run_status _ _ _ _ E) Ht Hr) as (_ & _ & Hs); auto.
  - intros ts s rs s' i t r. destruct (run_requests create_transfer s ts) eqn:E. intros [= <- <-] Ht Hr Hp.
    destruct (Forall2_lookup_lr _ _ _ _ _ _ (run_status _ _ _ _ E) Ht Hr) as (? & ? & _). by destruct Hp.
  - intros l s id. assert (forall s, transfers (run_requests create_account s l).2 = transfers s) as Hr.
    { induction l as [|x l IH]; intros s1; simpl; [done|]. specialize (IH (create_account s1 x).2).
      unfold create_account in *. destruct (accounts s1 !! acc_ID x); simpl in *;
      match goal with |- context [run_requests ?f ?s ?l] => destruct (run_requests f s l) eqn:E end; simpl in *; done. }
    specialize (Hr s). destruct (run_requests create_account s l). simpl in *. by rewrite Hr.
Defined.
End RefLedger.
