(* ===== verification/Grants.v ===== *)
(** * Grants and the funding of a reservation

    Models the pure part of billing/grants.go (funding priorities and the
    scope test) and of billing/windows.go (fundReservationTx after its grants
    are loaded, the receivable legs of ReserveWindow and the sums over funding
    legs). *)

From S2P Require Import Prelude GoFloat GoTime Types Ledger Charges.

(** grants.go: type fundingLeg *)
Record fundingLeg : Type := mkLeg {
  fl_GrantID : string;
  fl_GrantAccountID : string;
  fl_SettlementID : string;
  fl_Amount : Z;
  fl_Source : string;
  fl_ScopeType : string;
  fl_ScopeProductID : string;
  fl_ScopeBucketID : string;
  fl_ScopeSKUID : string;
  fl_PlanID : string;
  fl_ComponentSKUID : string;
  fl_ComponentBucketID : string
}.

(** types.go: type GrantBalance *)
Record GrantBalance : Type := mkGrant {
  gb_OrgID : string;
  gb_GrantID : string;
  gb_ScopeType : string;
  gb_ScopeProductID : string;
  gb_ScopeBucketID : string;
  gb_ScopeSKUID : string;
  gb_Source : string;
  gb_SourceReferenceID : string;
  gb_EntitlementPeriodID : string;
  gb_PolicyVersion : string;
  gb_PlanID : string;
  gb_PlanTier : string;
  gb_PlanDisplayName : string;
  gb_StartsAt : time;
  gb_PeriodStart : option time;
  gb_PeriodEnd : option time;
  gb_ExpiresAt : option time;
  gb_OriginalAmount : Z;
  gb_Amount : Z;
  gb_Available : Z;
  gb_Pending : Z;
  gb_Spent : Z;
  gb_ledgerAccountID : ID
}.

Definition set_balances (g : GrantBalance) (available pending spent : Z) : GrantBalance :=
  mkGrant (gb_OrgID g) (gb_GrantID g) (gb_ScopeType g) (gb_ScopeProductID g) (gb_ScopeBucketID g)
    (gb_ScopeSKUID g) (gb_Source g) (gb_SourceReferenceID g) (gb_EntitlementPeriodID g) (gb_PolicyVersion g)
    (gb_PlanID g) (gb_PlanTier g) (gb_PlanDisplayName g) (gb_StartsAt g) (gb_PeriodStart g) (gb_PeriodEnd g)
    (gb_ExpiresAt g) (gb_OriginalAmount g) (gb_Amount g) available pending spent (gb_ledgerAccountID g).

Definition set_Available (g : GrantBalance) (available : Z) : GrantBalance :=
  set_balances g available (gb_Pending g) (gb_Spent g).

(** ** Priorities *)

Definition scopePriority (scope : string) : Z :=
  if decide (scope = "sku") then 1
  else if decide (scope = "bucket") then 2
  else if decide (scope = "product") then 3
  else if decide (scope = "account") then 4
  else 99.

Definition sourcePriority (source : string) : Z :=
  if decide (source = "free_tier") then 1
  else if decide (source = "contract") then 2
  else if decide (source = "promo") then 3
  else if decide (source = "refund") then 4
  else if decide (source = "purchase") then 5
  else 99.

Definition planPriority (tier planID : string) : Z :=
  if decide (tier = "") then 0
  else if decide (tier = "default") then 10
  else if decide (tier = "hobby") then 20
  else if decide (tier = "pro") then 30
  else if decide (planID = "") then 90 else 50.

Definition grantsLess : GrantBalance -> GrantBalance -> bool :=
  lex_key Z.eqb Z.ltb (fun g => sourcePriority (gb_Source g))
    (lex_key Z.eqb Z.ltb (fun g => scopePriority (gb_ScopeType g))
       (lex_key Z.eqb Z.ltb (fun g => planPriority (gb_PlanTier g) (gb_PlanID g))
          (lex_key Z.eqb Z.ltb gb_StartsAt (on_key str_ltb gb_GrantID)))).

Definition grantsByFundingPriority (grants : list GrantBalance) : list GrantBalance :=
  sort_slice grantsLess grants.

Definition grantCoversSKU (grant : GrantBalance) (productID bucketID skuID : string) : bool :=
  if decide (gb_ScopeType grant = "account") then true
  else if decide (gb_ScopeType grant = "product") then str_eqb (gb_ScopeProductID grant) productID
  else if decide (gb_ScopeType grant = "bucket")
  then str_eqb (gb_ScopeProductID grant) productID && str_eqb (gb_ScopeBucketID grant) bucketID
  else if decide (gb_ScopeType grant = "sku")
  then str_eqb (gb_ScopeProductID grant) productID && str_eqb (gb_ScopeBucketID grant) bucketID
       && str_eqb (gb_ScopeSKUID grant) skuID
  else false.

(** The loop that moves authorised but unsettled usage from Available to
    Pending, for one grant. *)
Definition holdAuthorized (authorized : gmap string Z) (g : GrantBalance) : GrantBalance :=
  let amount := map_u64 authorized (gb_GrantID g) in
  if amount =? 0 then g
  else
    let pending := u64_add (gb_Pending g) amount in
    if gb_Available g <=? amount then set_balances g 0 pending (gb_Spent g)
    else set_balances g (gb_Available g - amount) pending (gb_Spent g).

(** ** The waterfall *)

Definition grantLeg (g : GrantBalance) (amount : Z) (skuID bucketID : string) : fundingLeg :=
  mkLeg (gb_GrantID g) (IDString (gb_ledgerAccountID g)) "" amount (gb_Source g) (gb_ScopeType g)
    (gb_ScopeProductID g) (gb_ScopeBucketID g) (gb_ScopeSKUID g) (gb_PlanID g) skuID bucketID.

(** The inner loop of fundReservationTx: one component against the grants in
    order.  It returns what is left to fund, the grants with their balances
    reduced, and the legs. *)
Fixpoint fundComponent (productID bucketID skuID : string) (remaining : Z) (grants : list GrantBalance)
    : Z * list GrantBalance * list fundingLeg :=
  match grants with
  | [] => (remaining, [], [])
  | g :: rest =>
      if remaining =? 0 then (remaining, grants, [])
      else if (gb_Available g =? 0) || negb (grantCoversSKU g productID bucketID skuID) then
        let '(r, gs, ls) := fundComponent productID bucketID skuID remaining rest in (r, g :: gs, ls)
      else
        let amount := minUint64 remaining (gb_Available g) in
        let '(r, gs, ls) := fundComponent productID bucketID skuID (remaining - amount) rest in
        (r, set_Available g (gb_Available g - amount) :: gs, grantLeg g amount skuID bucketID :: ls)
  end.

(** One iteration of its outer loop. *)
Definition fundStep (productID : string) (componentCharges : gmap string Z) (pricing : pricingContext)
    (st : list GrantBalance * list fundingLeg) (skuID : string) : list GrantBalance * list fundingLeg :=
  let '(grants, legs) := st in
  let remaining := map_u64 componentCharges skuID in
  if remaining =? 0 then (grants, legs)
  else
    let '(_, grants', legs') := fundComponent productID (map_str (SKUBuckets pricing) skuID) skuID remaining grants in
    (grants', legs ++ legs').

Definition fundReservation (productID : string) (componentCharges : gmap string Z) (pricing : pricingContext)
    (grants : list GrantBalance) : list GrantBalance * list fundingLeg :=
  foldl (fundStep productID componentCharges pricing) (grants, [])
    (componentChargeOrder componentCharges pricing).

(** ** Sums over legs *)

Definition sumFundingLegs (legs : list fundingLeg) : Z :=
  foldl (fun out leg => u64_add out (fl_Amount leg)) 0 legs.

Definition fundingLegsForComponent (legs : list fundingLeg) (skuID : string) : Z :=
  foldl (fun out leg => if decide (fl_ComponentSKUID leg = skuID) then u64_add out (fl_Amount leg) else out) 0 legs.

Definition bump (m : gmap string Z) (k : string) (v : Z) : gmap string Z := <[k := u64_add (map_u64 m k) v]> m.

Definition chargeMapsFromFundingLegs (legs : list fundingLeg) : gmap string Z * gmap string Z :=
  foldl (fun '(components, buckets) leg =>
    if fl_Amount leg =? 0 then (components, buckets)
    else
      (if decide (fl_ComponentSKUID leg = "") then components else bump components (fl_ComponentSKUID leg) (fl_Amount leg),
       if decide (fl_ComponentBucketID leg = "") then buckets else bump buckets (fl_ComponentBucketID leg) (fl_Amount leg)))
    (∅, ∅) legs.

(** ** Receivables: the overage loop of ReserveWindow *)

Definition receivableLeg (pricing : pricingContext) (skuID : string) (missing : Z) : fundingLeg :=
  mkLeg "" "" "" missing "receivable" "" "" "" "" (PlanID pricing) skuID (map_str (SKUBuckets pricing) skuID).

Definition receivableStep (componentCharges : gmap string Z) (pricing : pricingContext)
    (legs : list fundingLeg) (skuID : string) : list fundingLeg :=
  let funded := fundingLegsForComponent legs skuID in
  if map_u64 componentCharges skuID <=? funded then legs
  else
    let missing := map_u64 componentCharges skuID - funded in
    if missing =? 0 then legs else legs ++ [receivableLeg pricing skuID missing].

Definition addReceivables (componentCharges : gmap string Z) (pricing : pricingContext)
    (legs : list fundingLeg) : list fundingLeg :=
  foldl (receivableStep componentCharges pricing) legs (componentChargeOrder componentCharges pricing).

(** The authorisation decision of ReserveWindow: grants first, receivables
    only under a contract that bills overage. *)
Definition authorizeLegs (componentCharges : gmap string Z) (pricing : pricingContext)
    (legs : list fundingLeg) : res (list fundingLeg) :=
  if sumFundingLegs legs <? sumUint64Map componentCharges then
    if decide (ContractID pricing = "") then Err ErrInsufficientBalance
    else if decide (OveragePolicy pricing = "bill_published_rate") then
      Ret (addReceivables componentCharges pricing legs)
    else Err ErrInsufficientBalance
  else Ret legs.

(** ** What the waterfall guarantees *)

Definition legs_of_sku (skuID : string) (legs : list fundingLeg) : list fundingLeg :=
  filter (fun l => fl_ComponentSKUID l = skuID) legs.

Definition sku_funded (legs : list fundingLeg) (skuID : string) : Z :=
  zsum (fl_Amount <$> legs_of_sku skuID legs).

Definition grant_drawn (legs : list fundingLeg) (gid : string) : Z :=
  zsum (fl_Amount <$> filter (fun l => fl_GrantID l = gid) legs).

Definition grant_available (grants : list GrantBalance) (gid : string) : Z :=
  zsum (gb_Available <$> filter (fun g => gb_GrantID g = gid) grants).

Definition wf_grants (grants : list GrantBalance) : Prop := Forall (fun g => 0 <= gb_Available g) grants.

(** [reduced g g']: the same grant with a balance that has not grown. *)
Definition reduced (g g' : GrantBalance) : Prop :=
  g' = set_Available g (gb_Available g') /\ 0 <= gb_Available g' <= gb_Available g.

(** A leg cut from one of [grants], which covers the leg's component. *)
Definition leg_from (productID : string) (grants : list GrantBalance) (l : fundingLeg) : Prop :=
  0 < fl_Amount l /\ exists g, g ∈ grants
    /\ grantCoversSKU g productID (fl_ComponentBucketID l) (fl_ComponentSKUID l) = true
    /\ fl_GrantID l = gb_GrantID g /\ fl_GrantAccountID l = IDString (gb_ledgerAccountID g)
    /\ fl_Source l = gb_Source g.

(** Every grant that covers the component is used up. *)
Definition exhausted (productID bucketID skuID : string) (grants : list GrantBalance) : Prop :=
  Forall (fun g => grantCoversSKU g productID bucketID skuID = true -> gb_Available g = 0) grants.

Lemma reduced_refl g : 0 <= gb_Available g -> reduced g g.
Proof. split; [by destruct g|lia]. Qed.

Lemma reduced_trans g1 g2 g3 : reduced g1 g2 -> reduced g2 g3 -> reduced g1 g3.
Proof.
  intros [E1 H1] [E2 H2]. split; [|lia]. rewrite E2. rewrite E1. by destruct g1.
Qed.

Lemma reduced_covers g g' p b s : reduced g g' -> grantCoversSKU g' p b s = grantCoversSKU g p b s.
Proof. intros [-> _]. by destruct g. Qed.

Lemma reduced_id g g' : reduced g g' -> gb_GrantID g' = gb_GrantID g.
Proof. intros [-> _]. by destruct g. Qed.

Lemma reduced_all_refl gs : wf_grants gs -> Forall2 reduced gs gs.
Proof. induction 1; constructor; auto using reduced_refl. Qed.

Lemma reduced_all_trans l1 l2 l3 : Forall2 reduced l1 l2 -> Forall2 reduced l2 l3 -> Forall2 reduced l1 l3.
Proof.
  intros H. revert l3. induction H; intros l3 H3; inversion H3; subst; constructor; eauto using reduced_trans.
Qed.

Lemma reduced_wf gs gs' : Forall2 reduced gs gs' -> wf_grants gs'.
Proof. induction 1 as [|?? ?? [_ ?]]; constructor; [lia|done]. Qed.

Lemma exhausted_reduced p b s gs gs' : Forall2 reduced gs gs' -> exhausted p b s gs -> exhausted p b s gs'.
Proof.
  intros H. induction H as [|g g' gs gs' Hg H IH]; intros He; [constructor|].
  inversion He as [|?? He1 He2]; subst. constructor; [|by apply IH].
  rewrite (reduced_covers _ _ _ _ _ Hg). intros Hc. specialize (He1 Hc). destruct Hg. lia.
Qed.

Lemma leg_from_reduced p gs gs' l : Forall2 reduced gs gs' -> leg_from p gs' l -> leg_from p gs l.
Proof.
  intros H (Ha & g' & Hg' & Hc & Hid & Hacc & Hsrc). split; [done|].
  apply list_elem_of_lookup in Hg' as [i Hi]. destruct (Forall2_lookup_r _ _ _ _ _ H Hi) as (g & Hgi & Hr).
  exists g. split; [by eapply list_elem_of_lookup_2|]. rewrite <- (reduced_covers _ _ _ _ _ Hr).
  split; [done|]. destruct Hr as [Er _]. rewrite Er in Hid, Hacc, Hsrc. by destruct g.
Qed.

Lemma grant_drawn_app l1 l2 gid : grant_drawn (l1 ++ l2) gid = grant_drawn l1 gid + grant_drawn l2 gid.
Proof. unfold grant_drawn. by rewrite filter_app, fmap_app, zsum_app. Qed.

Lemma sku_funded_app l1 l2 s : sku_funded (l1 ++ l2) s = sku_funded l1 s + sku_funded l2 s.
Proof. unfold sku_funded, legs_of_sku. by rewrite filter_app, fmap_app, zsum_app. Qed.

Lemma grant_drawn_cons l ls gid :
  grant_drawn (l :: ls) gid = (if decide (fl_GrantID l = gid) then fl_Amount l else 0) + grant_drawn ls gid.
Proof. unfold grant_drawn. rewrite filter_cons. case_decide; zsum_simpl; lia. Qed.

Lemma grant_available_cons g gs gid :
  grant_available (g :: gs) gid = (if decide (gb_GrantID g = gid) then gb_Available g else 0) + grant_available gs gid.
Proof. unfold grant_available. rewrite filter_cons. case_decide; zsum_simpl; lia. Qed.

Lemma sku_funded_all s ls :
  Forall (fun l => fl_ComponentSKUID l = s) ls -> sku_funded ls s = zsum (fl_Amount <$> ls).
Proof.
  induction 1 as [|l ls Hl H IH]; [done|]. unfold sku_funded, legs_of_sku in *.
  rewrite filter_cons_True by done. zsum_simpl. lia.
Qed.

Lemma sku_funded_none s ls :
  Forall (fun l => fl_ComponentSKUID l <> s) ls -> sku_funded ls s = 0.
Proof.
  induction 1 as [|l ls Hl H IH]; [done|]. unfold sku_funded, legs_of_sku in *.
  by rewrite filter_cons_False.
Qed.

(** The contract of the inner loop. *)
Record component_funded (p b s : string) (r : Z) (gs : list GrantBalance)
    (r' : Z) (gs' : list GrantBalance) (ls : list fundingLeg) : Prop := {
  cf_left : 0 <= r' <= r;
  cf_sum : zsum (fl_Amount <$> ls) = r - r';
  cf_reduced : Forall2 reduced gs gs';
  cf_legs : Forall (fun l => fl_ComponentSKUID l = s /\ fl_ComponentBucketID l = b /\ leg_from p gs l) ls;
  cf_exhausted : 0 < r' -> exhausted p b s gs';
  cf_conserved : forall gid, grant_available gs' gid + grant_drawn ls gid = grant_available gs gid
}.

Lemma leg_from_weaken p g gs l : leg_from p gs l -> leg_from p (g :: gs) l.
Proof. intros (Ha & g0 & Hin & H). split; [done|]. exists g0. split; [by constructor|done]. Qed.

Lemma fundComponent_spec p b s r gs r' gs' ls :
  0 <= r -> wf_grants gs -> fundComponent p b s r gs = (r', gs', ls) ->
  component_funded p b s r gs r' gs' ls.
Proof.
  intros Hr Hw. revert r r' gs' ls Hr. induction Hw as [|g gs Hg Hw IH]; intros r r' gs' ls Hr E; simpl in E.
  { injection E as <- <- <-.
    split; [lia|by rewrite Z.sub_diag|constructor|constructor|intros; constructor|done]. }
  destruct (Z.eqb_spec r 0) as [->|Hr0].
  { injection E as <- <- <-.
    assert (Forall2 reduced (g :: gs) (g :: gs)) by (apply reduced_all_refl; by constructor).
    split; [lia|done|done|by apply Forall_nil|lia|].
    intros gid. unfold grant_drawn. simpl. change (zsum []) with 0. lia. }
  destruct ((gb_Available g =? 0) || negb (grantCoversSKU g p b s)) eqn:Hskip.
  - destruct (fundComponent p b s r gs) as [[r1 gs1] ls1] eqn:E1. injection E as <- <- <-.
    destruct (IH _ _ _ _ Hr E1) as [H1 H2 H3 H4 H5 H6]. split; auto.
    + constructor; auto using reduced_refl.
    + eapply Forall_impl; [exact H4|]. intros l (? & ? & ?). auto using leg_from_weaken.
    + intros Hpos. constructor; [|by apply H5]. intros Hc. rewrite Hc, orb_false_r in Hskip. by zbool.
    + intros gid. rewrite !grant_available_cons. specialize (H6 gid). lia.
  - set (a := minUint64 r (gb_Available g)) in E.
    destruct (fundComponent p b s (r - a) gs) as [[r1 gs1] ls1] eqn:E1. injection E as <- <- <-.
    zbool. assert (0 < a /\ a <= r /\ a <= gb_Available g) as Ha.
    { unfold a, minUint64. case_bool; zbool; lia. }
    destruct (IH (r - a) _ _ _ ltac:(lia) E1) as [H1 H2 H3 H4 H5 H6]. split.
    + lia.
    + zsum_simpl. simpl. lia.
    + constructor; [|done]. split; [by destruct g|simpl; lia].
    + constructor.
      * split; [done|]. split; [done|]. split; [simpl; lia|]. exists g. by repeat split; try constructor.
      * eapply Forall_impl; [exact H4|]. intros l (? & ? & ?). auto using leg_from_weaken.
    + intros Hpos. constructor; [|by apply H5]. intros _. simpl.
      assert (gb_Available g < r \/ r <= gb_Available g) as [|] by lia.
      * unfold a, minUint64. destruct (Z.ltb_spec r (gb_Available g)); lia.
      * assert (r - a = 0) by (unfold a, minUint64; destruct (Z.ltb_spec r (gb_Available g)); lia). lia.
    + intros gid. rewrite !grant_available_cons, grant_drawn_cons. simpl. specialize (H6 gid).
      destruct (decide (gb_GrantID g = gid)); lia.
Qed.

(** The contract of the waterfall over the components in [done]. *)
Record reservation_funded (p : string) (charges : gmap string Z) (pricing : pricingContext) (done : list string)
    (gs gs' : list GrantBalance) (ls : list fundingLeg) : Prop := {
  rf_reduced : Forall2 reduced gs gs';
  rf_legs : Forall (fun l => fl_ComponentSKUID l ∈ done
              /\ fl_ComponentBucketID l = map_str (SKUBuckets pricing) (fl_ComponentSKUID l)
              /\ leg_from p gs l) ls;
  rf_bound : forall s, s ∈ done -> 0 <= sku_funded ls s <= map_u64 charges s;
  rf_exhausted : forall s, s ∈ done -> sku_funded ls s < map_u64 charges s ->
                 exhausted p (map_str (SKUBuckets pricing) s) s gs';
  rf_conserved : forall gid, grant_available gs' gid + grant_drawn ls gid = grant_available gs gid
}.

Lemma elem_of_snoc {A} (l : list A) x y : x ∈ l ++ [y] <-> x ∈ l \/ x = y.
Proof. by rewrite elem_of_app, list_elem_of_singleton. Qed.

Section Waterfall.
Context (p : string) (charges : gmap string Z) (pricing : pricingContext).
Context (charges_nonneg : nonneg_map charges).

Lemma reservation_funded_step done gs gs1 ls1 s gs2 ls2 :
  s ∉ done -> reservation_funded p charges pricing done gs gs1 ls1 ->
  fundStep p charges pricing (gs1, ls1) s = (gs2, ls2) ->
  reservation_funded p charges pricing (done ++ [s]) gs gs2 ls2.
Proof using charges_nonneg.
  intros Hs [R1 R2 R3 R4 R5] E. unfold fundStep in E.
  pose proof (nonneg_map_get charges s charges_nonneg) as Hch.
  assert (sku_funded ls1 s = 0) as Hnew.
  { apply sku_funded_none. eapply Forall_impl; [exact R2|]. intros l (Hl & _) E0. congruence. }
  destruct (Z.eqb_spec (map_u64 charges s) 0) as [E0|N0].
  { injection E as <- <-. split; auto.
    - eapply Forall_impl; [exact R2|]. intros l (? & ? & ?). split; [|done]. apply elem_of_app. by left.
    - intros s' [H| ->]%elem_of_snoc; [by apply R3|lia].
    - intros s' [H| ->]%elem_of_snoc; [by apply R4|lia]. }
  destruct (fundComponent _ _ _ _ gs1) as [[r' gs'] ls'] eqn:E1. injection E as <- <-.
  destruct (fundComponent_spec _ _ _ _ _ _ _ _ (proj1 Hch) (reduced_wf _ _ R1) E1) as [C1 C2 C3 C4 C5 C6].
  assert (sku_funded ls' s = map_u64 charges s - r') as Hnew'.
  { rewrite sku_funded_all; [done|]. eapply Forall_impl; [exact C4|]. by intros l (? & _). }
  assert (forall s', s' <> s -> sku_funded ls' s' = 0) as Hother.
  { intros s' Hne. apply sku_funded_none. eapply Forall_impl; [exact C4|]. intros l (El & _). congruence. }
  split.
  - by eapply reduced_all_trans.
  - apply Forall_app. split; (eapply Forall_impl; [eassumption|]).
    + intros l (? & ? & ?). split; [apply elem_of_app; by left|done].
    + intros l (El & Eb & ?). rewrite El, Eb. split; [apply elem_of_app; right; by apply list_elem_of_singleton|].
      split; [done|]. by eapply leg_from_reduced.
  - intros s' [H| ->]%elem_of_snoc; rewrite sku_funded_app.
    + rewrite Hother by (intros ->; done). specialize (R3 _ H). lia.
    + lia.
  - intros s' [H| ->]%elem_of_snoc; rewrite sku_funded_app; intros Hlt.
    + rewrite Hother in Hlt by (intros ->; done). eapply exhausted_reduced; [exact C3|]. apply R4; [done|lia].
    + apply C5. lia.
  - intros gid. rewrite grant_drawn_app. specialize (R5 gid). specialize (C6 gid). lia.
Qed.

Lemma fundReservation_fold order gs gs' ls :
  NoDup order -> wf_grants gs ->
  foldl (fundStep p charges pricing) (gs, []) order = (gs', ls) ->
  reservation_funded p charges pricing order gs gs' ls.
Proof using charges_nonneg.
  intros Hnd Hw. revert gs' ls. induction order as [|s order IH] using rev_ind; intros gs' ls E.
  { injection E as <- <-. split; [by apply reduced_all_refl|by apply Forall_nil| | |].
    - by intros s ?%elem_of_nil.
    - by intros s ?%elem_of_nil.
    - intros gid. unfold grant_drawn. simpl. change (zsum []) with 0. lia. }
  apply NoDup_app in Hnd as (Hnd & Hdis & _).
  rewrite foldl_app in E. destruct (foldl _ _ order) as [gs1 ls1] eqn:E1. simpl in E.
  eapply reservation_funded_step; [|by apply IH|exact E].
  intros Hin. apply (Hdis _ Hin). by apply list_elem_of_singleton.
Qed.

Lemma fundReservation_spec gs gs' ls :
  wf_grants gs -> fundReservation p charges pricing gs = (gs', ls) ->
  reservation_funded p charges pricing (componentChargeOrder charges pricing) gs gs' ls.
Proof using charges_nonneg. intros Hw E. by apply fundReservation_fold; [apply componentChargeOrder_NoDup| |]. Qed.
End Waterfall.

(** ** Sums *)

Lemma sumFundingLegs_fold legs : sumFundingLegs legs = foldl u64_add 0 (fl_Amount <$> legs).
Proof.
  unfold sumFundingLegs. generalize 0. induction legs as [|l legs IH]; intros z; simpl; [done|]. apply IH.
Qed.

Lemma fundingLegsForComponent_fold legs s :
  fundingLegsForComponent legs s = foldl u64_add 0 (fl_Amount <$> legs_of_sku s legs).
Proof.
  unfold fundingLegsForComponent, legs_of_sku. generalize 0.
  induction legs as [|l legs IH]; intros z; simpl; [done|].
  rewrite filter_cons. case_decide; simpl; apply IH.
Qed.

(** Legs grouped by component: over a duplicate-free list of components that
    contains every leg's, the component sums add up to the whole. *)
Lemma sku_funded_total order ls :
  NoDup order -> Forall (fun l => fl_ComponentSKUID l ∈ order) ls ->
  zsum (sku_funded ls <$> order) = zsum (fl_Amount <$> ls).
Proof.
  intros Hnd. induction ls as [|l ls IH]; intros Hin.
  { simpl. rewrite (zsum_ext _ (fun _ => 0)); [|by apply Forall_true].
    clear. change (zsum []) with 0. induction order; [done|]. zsum_simpl. lia. }
  inversion Hin as [|?? Hl Hls]; subst. zsum_simpl. rewrite <- IH by done. clear IH Hls Hin.
  assert (forall order, NoDup order ->
    zsum (sku_funded (l :: ls) <$> order)
    = (if decide (fl_ComponentSKUID l ∈ order) then fl_Amount l else 0) + zsum (sku_funded ls <$> order)) as Hg.
  { clear. intros order. induction 1 as [|s order Hs Hnd IH].
    { rewrite decide_False by apply not_elem_of_nil. done. }
    zsum_simpl. rewrite IH. change (l :: ls) with ([l] ++ ls). rewrite sku_funded_app.
    assert (sku_funded [l] s = if decide (fl_ComponentSKUID l = s) then fl_Amount l else 0) as ->.
    { unfold sku_funded, legs_of_sku. rewrite filter_cons, filter_nil.
      destruct (decide (fl_ComponentSKUID l = s)); unfold zsum; simpl; lia. }
    destruct (decide (fl_ComponentSKUID l = s)) as [->|Hne].
    - rewrite (decide_False _ _ Hs). rewrite decide_True by constructor. lia.
    - destruct (decide (fl_ComponentSKUID l ∈ order)) as [H|H].
      + rewrite decide_True by (by constructor). lia.
      + rewrite decide_False by (by rewrite not_elem_of_cons). lia. }
  rewrite Hg by done. by rewrite decide_True.
Qed.

Lemma map_u64_values (m : gmap string Z) : map_u64 m <$> (map_to_list m).*1 = (map_to_list m).*2.
Proof.
  rewrite <- list_fmap_compose. apply list_fmap_ext. intros i [k v] Hi. simpl.
  apply list_elem_of_lookup_2, elem_of_map_to_list in Hi. unfold map_u64. by rewrite Hi.
Qed.

Lemma charge_order_sum charges pricing :
  zsum (map_u64 charges <$> componentChargeOrder charges pricing) = msum charges.
Proof. unfold msum. by rewrite componentChargeOrder_perm, map_u64_values. Qed.

(** A component outside the charge map costs nothing. *)
Lemma map_u64_missing charges pricing s :
  s ∉ componentChargeOrder charges pricing -> map_u64 charges s = 0.
Proof.
  rewrite componentChargeOrder_elem. intros H. unfold map_u64. by destruct (charges !! s); [destruct H; eauto|].
Qed.

Lemma zsum_le_eq {A} (f g : A -> Z) l :
  Forall (fun x => f x <= g x) l -> zsum (g <$> l) <= zsum (f <$> l) -> Forall (fun x => f x = g x) l.
Proof.
  induction 1 as [|x l Hx H IH]; [by intros; apply Forall_nil|]. zsum_simpl. intros Hs.
  pose proof (zsum_le f g l H). constructor; [lia|]. apply IH. lia.
Qed.

Definition positive_legs (ls : list fundingLeg) : Prop := Forall (fun l => 0 < fl_Amount l) ls.

Lemma positive_legs_sum ls : positive_legs ls -> 0 <= zsum (fl_Amount <$> ls).
Proof. intros H. apply zsum_nonneg, Forall_fmap. eapply Forall_impl; [exact H|]. simpl. lia. Qed.

Lemma positive_fold_exact ls :
  positive_legs ls -> zsum (fl_Amount <$> ls) <= u64_max ->
  foldl u64_add 0 (fl_Amount <$> ls) = zsum (fl_Amount <$> ls).
Proof.
  intros H Hle. apply u64_fold_sum; [|done]. apply Forall_fmap, Forall_forall. intros l Hl.
  assert (fl_Amount l <= zsum (fl_Amount <$> ls)).
  { apply zsum_elem_le; [|done]. eapply Forall_impl; [exact H|]. simpl. lia. }
  unfold positive_legs in H. rewrite Forall_forall in H. specialize (H l Hl). unfold is_u64. simpl. lia.
Qed.

Lemma positive_legs_of_sku s ls : positive_legs ls -> positive_legs (legs_of_sku s ls).
Proof.
  unfold positive_legs. rewrite !Forall_forall. intros H l [_ Hl]%list_elem_of_filter. by apply H.
Qed.

Lemma fundingLegsForComponent_exact ls s :
  positive_legs ls -> sku_funded ls s <= u64_max -> fundingLegsForComponent ls s = sku_funded ls s.
Proof.
  intros H Hle. rewrite fundingLegsForComponent_fold. by apply positive_fold_exact; [apply positive_legs_of_sku|].
Qed.

Definition is_receivable (pricing : pricingContext) (l : fundingLeg) : Prop :=
  exists s missing, l = receivableLeg pricing s missing /\ 0 < missing.

Section Receivables.
Context (charges : gmap string Z) (pricing : pricingContext).
Context (charges_nonneg : nonneg_map charges).

Lemma receivables_fold order ls :
  NoDup order -> positive_legs ls -> (forall s, s ∈ order -> sku_funded ls s <= map_u64 charges s) ->
  exists rs, foldl (receivableStep charges pricing) ls order = ls ++ rs
    /\ Forall (is_receivable pricing) rs
    /\ (forall s, s ∈ order -> sku_funded (ls ++ rs) s = map_u64 charges s)
    /\ (forall s, s ∉ order -> sku_funded (ls ++ rs) s = sku_funded ls s).
Proof using charges_nonneg.
  intros Hnd Hp Hb. induction order as [|s order IH] using rev_ind.
  { exists []. rewrite app_nil_r. split; [done|]. split; [by apply Forall_nil|]. split; [by intros s ?%elem_of_nil|done]. }
  apply NoDup_app in Hnd as (Hnd & Hdis & _). rewrite foldl_app.
  destruct (IH Hnd) as (rs & -> & Hrs & Hdone & Hrest).
  { intros s' Hs'. apply Hb, elem_of_snoc. by left. }
  assert (s ∉ order) as Hs by (intros Hin; apply (Hdis _ Hin); by apply list_elem_of_singleton).
  assert (positive_legs (ls ++ rs)) as Hp'.
  { apply Forall_app. split; [done|]. eapply Forall_impl; [exact Hrs|]. by intros l (? & ? & -> & ?). }
  pose proof (nonneg_map_get charges s charges_nonneg) as Hch.
  specialize (Hb s ltac:(apply elem_of_snoc; by right)). specialize (Hrest s Hs) as Hrs_s.
  simpl. unfold receivableStep. rewrite fundingLegsForComponent_exact by (done || lia). rewrite Hrs_s.
  destruct (Z.leb_spec (map_u64 charges s) (sku_funded ls s)).
  { exists rs. split; [done|]. split; [done|]. split.
    - intros s' [H0| ->]%elem_of_snoc; [by apply Hdone|lia].
    - intros s' Hn. apply Hrest. intros Hin. apply Hn, elem_of_snoc. by left. }
  destruct (Z.eqb_spec (map_u64 charges s - sku_funded ls s) 0); [lia|].
  set (r := receivableLeg pricing s (map_u64 charges s - sku_funded ls s)).
  assert (forall s', sku_funded ((ls ++ rs) ++ [r]) s'
          = sku_funded (ls ++ rs) s' + if decide (s' = s) then map_u64 charges s - sku_funded ls s else 0) as Hr.
  { intros s'. rewrite sku_funded_app. f_equal. case_decide as Es.
    - subst s'. rewrite sku_funded_all by (by repeat constructor). unfold zsum. simpl. lia.
    - apply sku_funded_none. repeat constructor. simpl. congruence. }
  exists (rs ++ [r]). rewrite app_assoc. split; [done|]. split.
  { apply Forall_app. split; [done|]. constructor; [|by apply Forall_nil]. exists s, (map_u64 charges s - sku_funded ls s).
    split; [done|lia]. }
  split.
  - intros s' [H0| ->]%elem_of_snoc; rewrite Hr.
    + rewrite decide_False by (intros ->; done). rewrite Hdone by done. lia.
    + rewrite decide_True by done. lia.
  - intros s' Hn. rewrite Hr, Hrest by (intros Hin; apply Hn, elem_of_snoc; by left).
    rewrite decide_False; [lia|]. intros ->. apply Hn, elem_of_snoc. by right.
Qed.
End Receivables.

(** The whole authorisation: if the decision is positive, every component is
    funded for exactly its charge. *)
Lemma authorizeLegs_exact p charges pricing gs gs' ls legs :
  nonneg_map charges -> msum charges <= u64_max -> wf_grants gs ->
  fundReservation p charges pricing gs = (gs', ls) ->
  authorizeLegs charges pricing ls = Ret legs ->
  (forall s, sku_funded legs s = map_u64 charges s)
  /\ exists rs, legs = ls ++ rs /\ Forall (is_receivable pricing) rs
     /\ (rs <> [] -> ContractID pricing <> "" /\ OveragePolicy pricing = "bill_published_rate").
Proof.
  intros Hn Hsum Hw Hf Ha.
  pose proof (fundReservation_spec p charges pricing Hn gs gs' ls Hw Hf) as [R1 R2 R3 R4 R5].
  set (order := componentChargeOrder charges pricing) in *.
  pose proof (componentChargeOrder_NoDup charges pricing : NoDup order) as Hnd.
  assert (positive_legs ls) as Hp by (eapply Forall_impl; [exact R2|]; by intros l (_ & _ & ? & _)).
  assert (Forall (fun l => fl_ComponentSKUID l ∈ order) ls) as Hin
    by (eapply Forall_impl; [exact R2|]; by intros l (? & _)).
  assert (Forall (fun s => sku_funded ls s <= map_u64 charges s) order) as Hle
    by (apply Forall_forall; intros s Hs; by apply R3).
  pose proof (sku_funded_total order ls Hnd Hin) as Htot.
  pose proof (zsum_le _ _ _ Hle) as Hle'. pose proof (charge_order_sum charges pricing) as Hcs.
  assert (forall s, s ∉ order -> sku_funded ls s = 0) as Hout.
  { intros s Hs. apply sku_funded_none. eapply Forall_impl; [exact Hin|]. simpl. intros l Hl <-. done. }
  unfold authorizeLegs in Ha. rewrite sumFundingLegs_fold, positive_fold_exact in Ha by (done || (fold order in Hcs; lia)).
  rewrite sumUint64Map_exact in Ha by (done || (intros k v Hk; by apply (Hn k v))).
  destruct (Z.ltb_spec (zsum (fl_Amount <$> ls)) (msum charges)) as [Hlt|Hge].
  - case_decide as Hc; [done|]. case_decide as Ho; [|done]. injection Ha as <-. unfold addReceivables. fold order.
    destruct (receivables_fold charges pricing Hn order ls Hnd Hp) as (rs & -> & Hrs & Hd & Hr).
    { intros s Hs. by apply R3. }
    split; [|by exists rs]. intros s. destruct (decide (s ∈ order)) as [Hs|Hs]; [by apply Hd|].
    rewrite Hr, Hout by done. symmetry. by eapply map_u64_missing.
  - injection Ha as <-. split; [|exists []; rewrite app_nil_r; by repeat split].
    pose proof (zsum_le_eq _ _ _ Hle ltac:(fold order in Hcs; lia)) as Heq. rewrite Forall_forall in Heq.
    intros s. destruct (decide (s ∈ order)) as [Hs|Hs]; [by apply Heq|].
    rewrite Hout by done. symmetry. by eapply map_u64_missing.
Qed.

(** It fails only when some component is short although every grant that
    covers it is used up. *)
Lemma authorizeLegs_Err p charges pricing gs gs' ls e :
  nonneg_map charges -> msum charges <= u64_max -> wf_grants gs ->
  fundReservation p charges pricing gs = (gs', ls) ->
  authorizeLegs charges pricing ls = Err e ->
  e = ErrInsufficientBalance
  /\ (ContractID pricing = "" \/ OveragePolicy pricing <> "bill_published_rate")
  /\ exists s, sku_funded ls s < map_u64 charges s /\ exhausted p (map_str (SKUBuckets pricing) s) s gs'.
Proof.
  intros Hn Hsum Hw Hf Ha.
  pose proof (fundReservation_spec p charges pricing Hn gs gs' ls Hw Hf) as [R1 R2 R3 R4 R5].
  set (order := componentChargeOrder charges pricing) in *.
  assert (positive_legs ls) as Hp by (eapply Forall_impl; [exact R2|]; by intros l (_ & _ & ? & _)).
  assert (Forall (fun l => fl_ComponentSKUID l ∈ order) ls) as Hin
    by (eapply Forall_impl; [exact R2|]; by intros l (? & _)).
  assert (Forall (fun s => sku_funded ls s <= map_u64 charges s) order) as Hle
    by (apply Forall_forall; intros s Hs; by apply R3).
  pose proof (sku_funded_total order ls (componentChargeOrder_NoDup charges pricing) Hin) as Htot.
  pose proof (zsum_le _ _ _ Hle) as Hle'. pose proof (charge_order_sum charges pricing) as Hcs. fold order in Hcs.
  unfold authorizeLegs in Ha. rewrite sumFundingLegs_fold, positive_fold_exact in Ha by (done || lia).
  rewrite sumUint64Map_exact in Ha by (done || (intros k v Hk; by apply (Hn k v))).
  destruct (Z.ltb_spec (zsum (fl_Amount <$> ls)) (msum charges)) as [Hlt|Hge]; [|done].
  assert (e = ErrInsufficientBalance /\ (ContractID pricing = "" \/ OveragePolicy pricing <> "bill_published_rate")) as [-> Hpol].
  { case_decide; [injection Ha as <-; auto|]. case_decide; [done|]. injection Ha as <-; auto. }
  split; [done|]. split; [done|].
  destruct (decide (Exists (fun s => sku_funded ls s < map_u64 charges s) order)) as [Hex|Hnex].
  - apply Exists_exists in Hex as (s & Hs & Hlt'). exists s. split; [done|]. by apply R4.
  - exfalso. apply not_Exists_Forall in Hnex; [|intros s; apply _].
    assert (zsum (map_u64 charges <$> order) <= zsum (sku_funded ls <$> order)); [|lia].
    apply zsum_le. eapply Forall_impl; [exact Hnex|]. simpl. lia.
Qed.
