(* ===== verification/Store.v ===== *)
(** * The billing database and the execution environment

    The PostgreSQL tables the modelled code reads and writes, as finite maps
    from their primary keys (migrations/001_initial_schema.up.sql), the rows
    written to ClickHouse, and the world a handler runs in: the database, the
    ledger, the wall clock and the source of fresh ledger ids.

    Conventions.  A nullable text column whose writers all go through
    NULLIF(x, '') is a string in which the empty string is NULL.  A nullable
    timestamp is an [option time].  JSON columns are kept by value: what is
    marshalled into them is what is read back.  Statements fail on the primary
    key, unique and check constraints; foreign keys are not modelled, and a
    statement never fails for a reason outside the database (a lost
    connection).  Columns that no query of the modelled code reads (metadata,
    updated_at, created_reason, the stored JSON of a document) are left out. *)

From S2P Require Import Prelude GoFloat GoStd GoTime Json Types StripeApi Ids Ledger Charges Grants.

(** ** Rows *)

Inductive windowState : Type := WReserved | WActive | WSettling | WSettled | WVoided.

#[export] Instance windowState_eq_dec : EqDecision windowState.
Proof. solve_decision. Defined.

(** A value of a map[string]any, by its dynamic type. *)
Inductive goAny : Type :=
| AnyUint64 (z : Z)
| AnyUint32 (z : Z)
| AnyInt (z : Z)
| AnyInt64 (z : Z)
| AnyFloat64 (f : f64)
| AnyString (s : string)
| AnyOther (v : jval).

Record windowRow : Type := mkWindowRow {
  w_cycle_id : string;
  w_org_id : string;
  w_actor_id : string;
  w_product_id : string;
  w_pricing_contract_id : string;
  w_pricing_phase_id : string;
  w_pricing_plan_id : string;
  w_source_type : string;
  w_source_ref : string;
  w_source_fingerprint : string;
  w_billing_job_id : string;
  w_window_seq : Z;
  w_state : windowState;
  w_reservation_shape : string;
  w_reserved_quantity : Z;
  w_actual_quantity : Z;
  w_billable_quantity : Z;
  w_writeoff_quantity : Z;
  w_reserved_charge_units : Z;
  w_billed_charge_units : Z;
  w_writeoff_charge_units : Z;
  w_writeoff_reason : string;
  w_pricing_phase : string;
  w_allocation : gmap string f64;
  w_rate_context : pricingContext;
  w_usage_summary : gmap string goAny;
  w_funding_legs : list fundingLeg;
  w_ledger_correlation_id : ID;
  w_window_start : time;
  w_activated_at : option time;
  w_expires_at : time;
  w_renew_by : option time;
  w_settled_at : option time;
  w_metering_projected_at : option time;
  w_last_projection_error : string;
  w_created_at : time
}.

Inductive legState : Type := LPending | LPosted | LVoided.

#[export] Instance legState_eq_dec : EqDecision legState.
Proof. solve_decision. Defined.

(** billing_window_ledger_legs; an absent tbid column is [None]. *)
Record legRow : Type := mkLegRow {
  l_grant_id : string;
  l_grant_account_id : option ID;
  l_settlement_transfer_id : option ID;
  l_component_sku_id : string;
  l_component_bucket_id : string;
  l_source : string;
  l_scope_type : string;
  l_scope_product_id : string;
  l_scope_bucket_id : string;
  l_scope_sku_id : string;
  l_plan_id : string;
  l_amount_reserved : Z;
  l_amount_posted : Z;
  l_amount_voided : Z;
  l_state : legState
}.

Inductive commandState : Type := CPending | CInProgress | CPosted | CRetryableFailed | CDeadLetter.

#[export] Instance commandState_eq_dec : EqDecision commandState.
Proof. solve_decision. Defined.

Record commandRow : Type := mkCommandRow {
  c_operation : string;
  c_aggregate_type : string;
  c_aggregate_id : string;
  c_org_id : string;
  c_product_id : string;
  c_idempotency_key : string;
  c_state : commandState;
  c_payload : CommandPayload;
  c_attempts : Z;
  c_next_attempt_at : time;
  c_last_attempt_at : option time;
  c_lease_expires_at : option time;
  c_leased_by : string;
  c_last_attempt_id : string;
  c_last_error : string;
  c_posted_at : option time;
  c_dead_lettered_at : option time;
  c_dead_letter_reason : string;
  c_created_at : time
}.

Record ledgerAccountRow : Type := mkLedgerAccountRow {
  la_account_id : ID;
  la_ledger : Z;
  la_code : Z;
  la_flags : Z;
  la_account_kind : string;
  la_description : string
}.

Inductive postingState : Type := GPending | GInProgress | GPosted | GRetryableFailed | GFailed | GDeadLetter.

#[export] Instance postingState_eq_dec : EqDecision postingState.
Proof. solve_decision. Defined.

Record grantRow : Type := mkGrantRow {
  g_org_id : string;
  g_scope_type : string;
  g_scope_product_id : string;
  g_scope_bucket_id : string;
  g_scope_sku_id : string;
  g_amount : Z;
  g_source : string;
  g_source_reference_id : string;
  g_entitlement_period_id : string;
  g_policy_version : string;
  g_starts_at : time;
  g_period_start : option time;
  g_period_end : option time;
  g_expires_at : option time;
  g_closed_at : option time;
  g_closed_reason : string;
  g_account_id : ID;
  g_deposit_transfer_id : ID;
  g_ledger_posting_state : postingState;
  g_ledger_posted_at : option time;
  g_ledger_last_error : string
}.

Record periodRow : Type := mkPeriodRow {
  p_org_id : string;
  p_product_id : string;
  p_cycle_id : string;
  p_source : string;
  p_policy_id : string;
  p_contract_id : string;
  p_phase_id : string;
  p_line_id : string;
  p_scope_type : string;
  p_scope_product_id : string;
  p_scope_bucket_id : string;
  p_scope_sku_id : string;
  p_amount_units : Z;
  p_period_start : time;
  p_period_end : time;
  p_policy_version : string;
  p_payment_state : string;
  p_entitlement_state : string;
  p_calculation_kind : string;
  p_source_reference_id : string;
  (** metadata->>'voided_by' *)
  p_voided_by : string
}.

Inductive cycleStatus : Type := CyOpen | CyClosing | CyClosedForUsage | CyFinalized | CyBlocked | CyVoided.

#[export] Instance cycleStatus_eq_dec : EqDecision cycleStatus.
Proof. solve_decision. Defined.

Record cycleRow : Type := mkCycleRow {
  cy_org_id : string;
  cy_product_id : string;
  cy_currency : string;
  cy_predecessor_cycle_id : string;
  cy_anchor_at : time;
  cy_cycle_seq : Z;
  cy_cadence_kind : string;
  cy_starts_at : time;
  cy_ends_at : time;
  cy_status : cycleStatus;
  cy_finalization_due_at : time;
  cy_active_finalization_id : string;
  cy_successor_cycle_id : string;
  cy_closed_reason : string;
  cy_closed_for_usage_at : option time;
  cy_finalized_at : option time
}.

Record orgRow : Type := mkOrgRow {
  o_display_name : string;
  o_billing_email : string;
  o_state : string;
  o_trust_tier : string;
  o_overage_policy : string
}.

Record eventRow : Type := mkEventRow {
  e_event_type : string;
  e_event_version : Z;
  e_aggregate_type : string;
  e_aggregate_id : string;
  e_org_id : string;
  e_product_id : string;
  e_occurred_at : time;
  e_payload : jval;
  e_payload_hash : string;
  e_correlation_id : string;
  e_causation_event_id : string;
  e_created_at : time
}.

Inductive deliveryState : Type := DPending | DInProgress | DRetryableFailed | DDeadLetter.

#[export] Instance deliveryState_eq_dec : EqDecision deliveryState.
Proof. solve_decision. Defined.

Record deliveryRow : Type := mkDeliveryRow {
  dl_state : deliveryState;
  dl_attempts : Z;
  dl_next_attempt_at : time;
  dl_last_attempt_at : option time;
  dl_lease_expires_at : option time;
  dl_leased_by : string;
  dl_last_attempt_id : string;
  dl_delivery_error : string;
  dl_dead_lettered_at : option time;
  dl_dead_letter_reason : string
}.

Record driftRow : Type := mkDriftRow {
  d_drift_kind : string;
  d_severity : string;
  d_aggregate_type : string;
  d_aggregate_id : string;
  d_pg_snapshot : jval;
  d_tigerbeetle_snapshot : jval
}.

(** ** Contracts *)

Inductive contractState : Type :=
| KDraft | KPendingActivation | KActive | KPastDue | KSuspended | KCancelScheduled | KEnded | KVoided.

#[export] Instance contractState_eq_dec : EqDecision contractState.
Proof. solve_decision. Defined.

Record contractRow : Type := mkContractRow {
  ct_org_id : string;
  ct_product_id : string;
  ct_display_name : string;
  ct_contract_kind : string;
  ct_state : contractState;
  ct_payment_state : string;
  ct_entitlement_state : string;
  ct_overage_policy : string;
  ct_starts_at : time;
  ct_ends_at : option time;
  ct_cancel_at : option time;
  ct_closed_at : option time
}.

Inductive phaseState : Type :=
| PhScheduled | PhPendingPayment | PhActive | PhGrace | PhSuperseded | PhClosed | PhVoided.

#[export] Instance phaseState_eq_dec : EqDecision phaseState.
Proof. solve_decision. Defined.

Record phaseRow : Type := mkPhaseRow {
  ph_contract_id : string;
  ph_org_id : string;
  ph_product_id : string;
  ph_plan_id : string;
  ph_phase_kind : string;
  ph_state : phaseState;
  ph_payment_state : string;
  ph_entitlement_state : string;
  ph_currency : string;
  ph_recurring_amount_units : Z;
  ph_effective_start : time;
  ph_effective_end : option time;
  ph_activated_at : option time;
  ph_closed_at : option time;
  ph_superseded_by_phase_id : string
}.

Record lineRow : Type := mkLineRow {
  li_org_id : string;
  li_product_id : string;
  li_phase_id : string;
  li_contract_id : string;
  li_policy_id : string;
  li_scope_type : string;
  li_scope_product_id : string;
  li_scope_bucket_id : string;
  li_scope_sku_id : string;
  li_amount_units : Z;
  li_recurrence_anchor_kind : string;
  li_proration_mode : string;
  li_policy_version : string;
  li_active_from : time;
  li_active_until : option time
}.

Inductive changeState : Type :=
| ChRequested | ChProviderPending | ChAwaitingPayment | ChScheduled | ChApplying | ChApplied | ChFailed | ChCanceled.

#[export] Instance changeState_eq_dec : EqDecision changeState.
Proof. solve_decision. Defined.

(** contracts.go: planEntitlementPolicy, contractEntitlementDelta and
    contractChangeQuote, which an upgrade stores as its payload. *)
Record planEntitlementPolicy : Type := mkPolicy {
  pp_PolicyID : string;
  pp_ProductID : string;
  pp_ScopeType : string;
  pp_ScopeProductID : string;
  pp_ScopeBucketID : string;
  pp_ScopeSKUID : string;
  pp_AmountUnits : Z;
  pp_Cadence : string;
  pp_ProrationMode : string;
  pp_PolicyVersion : string;
  pp_RecurrenceAnchorKind : string
}.

Record contractEntitlementDelta : Type := mkDelta {
  de_Policy : planEntitlementPolicy;
  de_Amount : Z
}.

Record contractChangeQuote : Type := mkQuote {
  qt_ChangeID : string;
  qt_ContractID : string;
  qt_OrgID : string;
  qt_ProductID : string;
  qt_FromPlanID : string;
  qt_TargetPlanID : string;
  qt_FromPhaseID : string;
  qt_ToPhaseID : string;
  qt_CycleID : string;
  qt_CycleStart : time;
  qt_CycleEnd : time;
  qt_EffectiveAt : time;
  qt_RequestedAt : time;
  qt_ProviderRequestID : string;
  qt_PriceDeltaCents : Z;
  qt_PriceDeltaUnits : Z;
  qt_Deltas : list contractEntitlementDelta;
  qt_TargetPolicies : list planEntitlementPolicy
}.

Record changeRow : Type := mkChangeRow {
  ch_contract_id : string;
  ch_org_id : string;
  ch_product_id : string;
  ch_change_type : string;
  ch_timing : string;
  ch_requested_effective_at : time;
  ch_actual_effective_at : option time;
  ch_from_phase_id : string;
  ch_to_phase_id : string;
  ch_target_plan_id : string;
  ch_state : changeState;
  ch_provider : string;
  ch_provider_request_id : string;
  ch_provider_invoice_id : string;
  ch_idempotency_key : string;
  ch_requested_at : time;
  ch_attempts : Z;
  ch_proration_basis_cycle_id : string;
  ch_price_delta_units : Z;
  ch_proration_numerator : Z;
  ch_proration_denominator : Z;
  ch_payload : option contractChangeQuote
}.

Record contractTables : Type := mkContractTables {
  kt_contracts : gmap string contractRow;
  kt_phases : gmap string phaseRow;
  kt_lines : gmap string lineRow;
  kt_changes : gmap string changeRow
}.

(** ** Finalizations and documents *)

Inductive finalizationState : Type :=
| FPending | FCollectingFacts | FAwaitingLedgerCommands | FAwaitingProviderPreview | FReadyToIssue | FBlocked | FIssued
| FCollectionPending | FPaid | FPaymentFailed | FClosed | FFailed | FVoided.

#[export] Instance finalizationState_eq_dec : EqDecision finalizationState.
Proof. solve_decision. Defined.

Record finalizationRow : Type := mkFinalizationRow {
  f_subject_type : string;
  f_subject_id : string;
  f_cycle_id : string;
  f_contract_change_id : string;
  f_org_id : string;
  f_product_id : string;
  f_reason : string;
  f_document_id : string;
  f_document_kind : string;
  f_state : finalizationState;
  f_customer_visible : bool;
  f_notification_policy : string;
  f_has_usage : bool;
  f_has_financial_activity : bool;
  f_started_at : time;
  f_completed_at : option time;
  f_blocked_reason : string;
  f_attempts : Z;
  f_idempotency_key : string;
  f_last_error : string
}.

Record documentRow : Type := mkDocumentRow {
  do_document_number : string;
  do_document_kind : string;
  do_finalization_id : string;
  do_org_id : string;
  do_product_id : string;
  do_cycle_id : string;
  do_change_id : string;
  do_status : string;
  do_payment_status : string;
  do_period_start : time;
  do_period_end : time;
  do_issued_at : option time;
  do_currency : string;
  do_subtotal_units : Z;
  do_adjustment_units : Z;
  do_tax_units : Z;
  do_total_due_units : Z;
  do_rendered_html : string;
  do_stripe_invoice_id : string;
  do_stripe_hosted_invoice_url : string;
  do_stripe_invoice_pdf_url : string;
  do_stripe_payment_intent_id : string
}.

Record documentLineRow : Type := mkDocumentLineRow {
  dli_document_id : string;
  dli_product_id : string;
  dli_bucket_id : string;
  dli_sku_id : string;
  dli_description : string;
  dli_quantity : f64;
  dli_quantity_unit : string;
  dli_unit_rate_units : Z;
  dli_charge_units : Z;
  dli_free_tier_units : Z;
  dli_contract_units : Z;
  dli_purchase_units : Z;
  dli_promo_units : Z;
  dli_refund_units : Z;
  dli_receivable_units : Z
}.

(** The allocators of the one issuer, by year. *)
Record documentTables : Type := mkDocumentTables {
  dt_finalizations : gmap string finalizationRow;
  dt_documents : gmap string documentRow;
  dt_line_items : gmap string documentLineRow;
  dt_allocators : gmap Z Z
}.

(** A request to the job queue: the arguments of runtime.go's InsertTx and
    Insert calls.  The queue itself (River) is not part of the repository; the
    requests of committed transactions are recorded in order. *)
Inductive jobRequest : Type :=
| MeteringProjectWindowArgs (windowID : string)
| FinalizationRunArgs (finalizationID : string)
| ContractUpgradePaymentArgs (changeID : string)
| ProviderEventApplyArgs (eventID : string)
| ProviderEventApplyPendingArgs (limit : Z)
| EventDeliveryProjectPendingArgs (sink : string) (limit : Z)
| LedgerDispatchPendingArgs (limit : Z)
| LedgerReconcileArgs (limit : Z)
| MeteringProjectPendingArgs (limit : Z)
| DueWorkApplyPendingArgs (limit : Z)
| FinalizationRunPendingArgs (limit : Z).

(** ** The catalogue, which the modelled operations only read *)

Record productRow : Type := mkProductRow {
  pr_display_name : string;
  pr_active : bool
}.

Record planRow : Type := mkPlanRow {
  pl_product_id : string;
  pl_display_name : string;
  pl_billing_mode : string;
  pl_tier : string;
  pl_currency : string;
  pl_monthly_amount_cents : Z;
  pl_annual_amount_cents : Z;
  pl_active : bool;
  pl_is_default : bool
}.

Record rateRow : Type := mkRateRow {
  r_plan_id : string;
  r_sku_id : string;
  r_unit_rate : Z;
  r_active : bool;
  r_active_from : time;
  r_active_until : option time
}.

Record skuRow : Type := mkSkuRow {
  s_product_id : string;
  s_bucket_id : string;
  s_display_name : string;
  s_quantity_unit : string;
  s_active : bool
}.

Record bucketRow : Type := mkBucketRow {
  b_display_name : string;
  b_sort_order : Z
}.

Record policyRow : Type := mkPolicyRow {
  po_source : string;
  po_product_id : string;
  po_scope_type : string;
  po_scope_product_id : string;
  po_scope_bucket_id : string;
  po_scope_sku_id : string;
  po_amount_units : Z;
  po_cadence : string;
  po_anchor_kind : string;
  po_proration_mode : string;
  po_policy_version : string;
  po_active_from : time;
  po_active_until : option time
}.

Record planEntitlementRow : Type := mkPlanEntitlementRow {
  pe_plan_id : string;
  pe_policy_id : string;
  pe_sort_order : Z
}.

Record catalogTables : Type := mkCatalog {
  ca_products : gmap string productRow;
  ca_plans : gmap string planRow;
  ca_rates : list rateRow;
  ca_skus : gmap string skuRow;
  ca_buckets : gmap string bucketRow;
  ca_policies : gmap string policyRow;
  ca_plan_entitlements : list planEntitlementRow
}.

(** billing_clock_overrides, by scope_kind and scope_id. *)
Record clockRow : Type := mkClockRow {
  clk_business_now : time;
  clk_generation : Z
}.

(** ** Stripe *)

Record bindingRow : Type := mkBindingRow {
  bi_aggregate_type : string;
  bi_aggregate_id : string;
  bi_provider : string;
  bi_provider_object_type : string;
  bi_provider_object_id : string;
  bi_provider_customer_id : string;
  bi_sync_state : string;
  bi_created_at : time
}.

Record paymentMethodRow : Type := mkPaymentMethodRow {
  pmr_org_id : string;
  pmr_provider : string;
  pmr_provider_customer_id : string;
  pmr_provider_payment_method_id : string;
  pmr_setup_intent_id : string;
  pmr_status : string;
  pmr_is_default : bool;
  pmr_card_brand : string;
  pmr_card_last4 : string;
  pmr_expires_month : option Z;
  pmr_expires_year : option Z;
  pmr_off_session_authorized_at : option time;
  pmr_updated_at : time
}.

Inductive providerEventState : Type :=
| PvReceived | PvQueued | PvApplying | PvApplied | PvIgnored | PvFailed | PvDeadLetter.

#[export] Instance providerEventState_eq_dec : EqDecision providerEventState.
Proof. solve_decision. Defined.

Record providerEventRow : Type := mkProviderEventRow {
  pv_provider_event_id : string;
  pv_provider : string;
  pv_event_type : string;
  pv_provider_object_type : string;
  pv_provider_object_id : string;
  pv_provider_customer_id : string;
  pv_provider_invoice_id : string;
  pv_provider_payment_intent_id : string;
  pv_contract_id : string;
  pv_change_id : string;
  pv_finalization_id : string;
  pv_document_id : string;
  pv_org_id : string;
  pv_product_id : string;
  pv_received_at : time;
  pv_provider_created_at : option time;
  pv_livemode : bool;
  pv_payload : string;
  pv_state : providerEventState;
  pv_attempts : Z;
  pv_next_attempt_at : option time;
  pv_applied_at : option time;
  pv_last_error : string
}.

Record providerTables : Type := mkProviderTables {
  pt_bindings : gmap string bindingRow;
  pt_payment_methods : gmap string paymentMethodRow;
  pt_events : gmap string providerEventRow
}.

Record DB : Type := mkDB {
  db_windows : gmap string windowRow;
  db_legs : gmap (string * Z) legRow;
  db_commands : gmap string commandRow;
  db_accounts : gmap string ledgerAccountRow;
  db_grants : gmap string grantRow;
  db_periods : gmap string periodRow;
  db_cycles : gmap string cycleRow;
  db_orgs : gmap string orgRow;
  db_events : gmap string eventRow;
  db_deliveries : gmap (string * string * Z) deliveryRow;
  db_drifts : gmap string driftRow;
  db_contracts : contractTables;
  db_documents : documentTables;
  db_jobs : list jobRequest;
  db_catalog : catalogTables;
  db_clock : gmap (string * string) clockRow;
  db_providers : providerTables
}.

Definition set_windows (x : gmap string windowRow) (d : DB) : DB :=
  mkDB x (db_legs d) (db_commands d) (db_accounts d) (db_grants d) (db_periods d) (db_cycles d)
    (db_orgs d) (db_events d) (db_deliveries d) (db_drifts d) (db_contracts d) (db_documents d) (db_jobs d) (db_catalog d)
    (db_clock d) (db_providers d).
Definition set_legs (x : gmap (string * Z) legRow) (d : DB) : DB :=
  mkDB (db_windows d) x (db_commands d) (db_accounts d) (db_grants d) (db_periods d) (db_cycles d)
    (db_orgs d) (db_events d) (db_deliveries d) (db_drifts d) (db_contracts d) (db_documents d) (db_jobs d) (db_catalog d)
    (db_clock d) (db_providers d).
Definition set_commands (x : gmap string commandRow) (d : DB) : DB :=
  mkDB (db_windows d) (db_legs d) x (db_accounts d) (db_grants d) (db_periods d) (db_cycles d)
    (db_orgs d) (db_events d) (db_deliveries d) (db_drifts d) (db_contracts d) (db_documents d) (db_jobs d) (db_catalog d)
    (db_clock d) (db_providers d).
Definition set_accounts (x : gmap string ledgerAccountRow) (d : DB) : DB :=
  mkDB (db_windows d) (db_legs d) (db_commands d) x (db_grants d) (db_periods d) (db_cycles d)
    (db_orgs d) (db_events d) (db_deliveries d) (db_drifts d) (db_contracts d) (db_documents d) (db_jobs d) (db_catalog d)
    (db_clock d) (db_providers d).
Definition set_grants (x : gmap string grantRow) (d : DB) : DB :=
  mkDB (db_windows d) (db_legs d) (db_commands d) (db_accounts d) x (db_periods d) (db_cycles d)
    (db_orgs d) (db_events d) (db_deliveries d) (db_drifts d) (db_contracts d) (db_documents d) (db_jobs d) (db_catalog d)
    (db_clock d) (db_providers d).
Definition set_periods (x : gmap string periodRow) (d : DB) : DB :=
  mkDB (db_windows d) (db_legs d) (db_commands d) (db_accounts d) (db_grants d) x (db_cycles d)
    (db_orgs d) (db_events d) (db_deliveries d) (db_drifts d) (db_contracts d) (db_documents d) (db_jobs d) (db_catalog d)
    (db_clock d) (db_providers d).
Definition set_cycles (x : gmap string cycleRow) (d : DB) : DB :=
  mkDB (db_windows d) (db_legs d) (db_commands d) (db_accounts d) (db_grants d) (db_periods d) x
    (db_orgs d) (db_events d) (db_deliveries d) (db_drifts d) (db_contracts d) (db_documents d) (db_jobs d) (db_catalog d)
    (db_clock d) (db_providers d).
Definition set_orgs (x : gmap string orgRow) (d : DB) : DB :=
  mkDB (db_windows d) (db_legs d) (db_commands d) (db_accounts d) (db_grants d) (db_periods d)
    (db_cycles d) x (db_events d) (db_deliveries d) (db_drifts d) (db_contracts d) (db_documents d)
    (db_jobs d) (db_catalog d)
    (db_clock d) (db_providers d).
Definition set_events (x : gmap string eventRow) (d : DB) : DB :=
  mkDB (db_windows d) (db_legs d) (db_commands d) (db_accounts d) (db_grants d) (db_periods d)
    (db_cycles d) (db_orgs d) x (db_deliveries d) (db_drifts d) (db_contracts d) (db_documents d)
    (db_jobs d) (db_catalog d)
    (db_clock d) (db_providers d).
Definition set_deliveries (x : gmap (string * string * Z) deliveryRow) (d : DB) : DB :=
  mkDB (db_windows d) (db_legs d) (db_commands d) (db_accounts d) (db_grants d) (db_periods d)
    (db_cycles d) (db_orgs d) (db_events d) x (db_drifts d) (db_contracts d) (db_documents d) (db_jobs d) (db_catalog d)
    (db_clock d) (db_providers d).
Definition set_drifts (x : gmap string driftRow) (d : DB) : DB :=
  mkDB (db_windows d) (db_legs d) (db_commands d) (db_accounts d) (db_grants d) (db_periods d)
    (db_cycles d) (db_orgs d) (db_events d) (db_deliveries d) x (db_contracts d) (db_documents d)
    (db_jobs d) (db_catalog d)
    (db_clock d) (db_providers d).
Definition set_contracts (x : contractTables) (d : DB) : DB :=
  mkDB (db_windows d) (db_legs d) (db_commands d) (db_accounts d) (db_grants d) (db_periods d)
    (db_cycles d) (db_orgs d) (db_events d) (db_deliveries d) (db_drifts d) x (db_documents d) (db_jobs d) (db_catalog d)
    (db_clock d) (db_providers d).
Definition set_documents (x : documentTables) (d : DB) : DB :=
  mkDB (db_windows d) (db_legs d) (db_commands d) (db_accounts d) (db_grants d) (db_periods d)
    (db_cycles d) (db_orgs d) (db_events d) (db_deliveries d) (db_drifts d) (db_contracts d) x (db_jobs d) (db_catalog d)
    (db_clock d) (db_providers d).
Definition set_jobs (x : list jobRequest) (d : DB) : DB :=
  mkDB (db_windows d) (db_legs d) (db_commands d) (db_accounts d) (db_grants d) (db_periods d)
    (db_cycles d) (db_orgs d) (db_events d) (db_deliveries d) (db_drifts d) (db_contracts d)
    (db_documents d) x (db_catalog d)
    (db_clock d) (db_providers d).
Definition set_clock (x : gmap (string * string) clockRow) (d : DB) : DB :=
  mkDB (db_windows d) (db_legs d) (db_commands d) (db_accounts d) (db_grants d) (db_periods d)
    (db_cycles d) (db_orgs d) (db_events d) (db_deliveries d) (db_drifts d) (db_contracts d)
    (db_documents d) (db_jobs d) (db_catalog d) x (db_providers d).
Definition set_providers (x : providerTables) (d : DB) : DB :=
  mkDB (db_windows d) (db_legs d) (db_commands d) (db_accounts d) (db_grants d) (db_periods d)
    (db_cycles d) (db_orgs d) (db_events d) (db_deliveries d) (db_drifts d) (db_contracts d)
    (db_documents d) (db_jobs d) (db_catalog d) (db_clock d) x.

(** ** The environment *)

(** What a process runs with: successive readings of the wall clock, the ids
    tb.ID() hands out, and which optional clients are configured. *)
Class Env : Type := {
  now_at : nat -> time;
  id_at : nat -> ID;
  ledger_configured : bool;
  runtime_configured : bool;
  (** cfg.UseStripe with a Stripe client; cmd/billing-service/main.go sets
      both or neither, the other programs neither *)
  stripe_configured : bool;
  clickhouse_configured : bool;
  (** whether ClickHouse accepts the batch sent at a given tick *)
  clickhouse_accepts : nat -> bool;
  (** what uint64(f) yields for a float64 out of range, which Go leaves to the
      implementation *)
  float_overflow : f64 -> Z
}.

(** tb.ID() is documented to return non-zero 16-byte ids. *)
Class FreshIds `{Env} : Prop := {
  id_at_wf : forall n, wf_id (id_at n);
  id_at_nonzero : forall n, IsZero (id_at n) = false
}.

(** A row of the ClickHouse table verself.metering (windows.go: meteringRow). *)
Record meteringRow : Type := mkMeteringRow {
  m_WindowID : string;
  m_OrgID : string;
  m_ActorID : string;
  m_ProductID : string;
  m_SourceType : string;
  m_SourceRef : string;
  m_WindowSeq : Z;
  m_ReservationShape : string;
  m_StartedAt : time;
  m_EndedAt : time;
  m_ReservedQuantity : Z;
  m_ActualQuantity : Z;
  m_BillableQuantity : Z;
  m_WriteoffQuantity : Z;
  m_CycleID : string;
  m_PricingContractID : string;
  m_PricingPhaseID : string;
  m_PricingPlanID : string;
  m_PricingPhase : string;
  m_Dimensions : gmap string f64;
  m_ComponentQuantities : gmap string f64;
  m_ComponentChargeUnits : gmap string Z;
  m_BucketChargeUnits : gmap string Z;
  m_ChargeUnits : Z;
  m_WriteoffChargeUnits : Z;
  m_FreeTierUnits : Z;
  m_ContractUnits : Z;
  m_PurchaseUnits : Z;
  m_PromoUnits : Z;
  m_RefundUnits : Z;
  m_ReceivableUnits : Z;
  m_AdjustmentUnits : Z;
  m_AdjustmentReason : string;
  m_ComponentFreeTierUnits : gmap string Z;
  m_ComponentContractUnits : gmap string Z;
  m_ComponentPurchaseUnits : gmap string Z;
  m_ComponentPromoUnits : gmap string Z;
  m_ComponentRefundUnits : gmap string Z;
  m_ComponentReceivableUnits : gmap string Z;
  m_ComponentAdjustmentUnits : gmap string Z;
  m_UsageEvidence : gmap string Z;
  m_CostPerUnit : Z;
  m_RecordedAt : time;
  m_TraceID : string
}.

(** A row of verself.billing_events (events.go: billingEventProjectionRow).
    The payload column is the stored JSON, by value. *)
Record billingEventProjectionRow : Type := mkProjection {
  be_EventID : string;
  be_EventType : string;
  be_EventVersion : Z;
  be_AggregateType : string;
  be_AggregateID : string;
  be_ContractID : string;
  be_CycleID : string;
  be_PricingContractID : string;
  be_PricingPhaseID : string;
  be_PricingPlanID : string;
  be_FinalizationID : string;
  be_DocumentID : string;
  be_DocumentKind : string;
  be_ProviderEventID : string;
  be_OrgID : string;
  be_ProductID : string;
  be_OccurredAt : time;
  be_Payload : jval;
  be_PayloadHash : string;
  be_CorrelationID : string;
  be_CausationEventID : string;
  be_RecordedAt : time
}.

Inductive clickhouseRow : Type :=
| MeteringRow (row : meteringRow)
| BillingEventRow (row : billingEventProjectionRow).

(** The world: database, ledger, clock and id counters, the timestamp of the
    open transaction, the rows ClickHouse has accepted and the requests sent to
    Stripe. *)
Record world (St : Type) : Type := mkWorld {
  w_db : DB;
  w_tb : St;
  w_ticks : nat;
  w_ids : nat;
  w_txnow : option time;
  w_clickhouse : list clickhouseRow;
  w_stripe : list stripeRequest
}.
Arguments mkWorld {St}.
Arguments w_db {St}.
Arguments w_tb {St}.
Arguments w_ticks {St}.
Arguments w_ids {St}.
Arguments w_txnow {St}.
Arguments w_clickhouse {St}.
Arguments w_stripe {St}.

Definition not_null {A} (v : option A) : res A :=
  match v with
  | Some x => Ret x
  | None => errorf "null value violates not-null constraint"
  end.

Definition check_constraint (b : bool) : res unit :=
  if b then Ret tt else errorf "violates check constraint".

Section World.
Context {St : Type} `{Env}.

Definition B (A : Type) : Type := M (world St) goerr A.

Definition with_db (d : DB) (w : world St) : world St :=
  mkWorld d (w_tb w) (w_ticks w) (w_ids w) (w_txnow w) (w_clickhouse w) (w_stripe w).
Definition with_txnow (t : option time) (w : world St) : world St :=
  mkWorld (w_db w) (w_tb w) (w_ticks w) (w_ids w) t (w_clickhouse w) (w_stripe w).

(** time.Now().UTC() *)
Definition timeNow : B time := fun w =>
  (Ret (now_at (w_ticks w)), mkWorld (w_db w) (w_tb w) (S (w_ticks w)) (w_ids w) (w_txnow w) (w_clickhouse w) (w_stripe w)).

(** now() / transaction_timestamp(): fixed within a transaction. *)
Definition pgNow : B time := fun w =>
  match w_txnow w with
  | Some t => (Ret t, w)
  | None => let '(o, w') := timeNow w in (match o with Ret t => Ret (pg_timestamptz t) | x => x end, w')
  end.

(** ledger.NewID() *)
Definition NewID : B ID := fun w =>
  (Ret (id_at (w_ids w)), mkWorld (w_db w) (w_tb w) (w_ticks w) (S (w_ids w)) (w_txnow w) (w_clickhouse w) (w_stripe w)).

Definition query {A} (f : DB -> A) : B A := fun w => (Ret (f (w_db w)), w).

(** A statement that may violate a constraint; it changes nothing then. *)
Definition statement {A} (f : DB -> res (A * DB)) : B A := fun w =>
  match f (w_db w) with
  | Ret (a, d) => (Ret a, with_db d w)
  | Err e => (Err e, w)
  | Panic => (Panic, w)
  end.

(** An operation on the ledger. *)
Definition on_ledger {A} (m : M St goerr A) : B A := fun w =>
  let '(o, s) := m (w_tb w) in
  (o, mkWorld (w_db w) s (w_ticks w) (w_ids w) (w_txnow w) (w_clickhouse w) (w_stripe w)).

Definition ledger_query {A} (f : St -> res A) : B A := fun w => (f (w_tb w), w).

(** service.go: WithTx.  An error or a panic rolls the database back; clock,
    ids and ledger are not part of the transaction. *)
Definition WithTx {A} (fn : B A) : B A := fun w =>
  let '(_, w1) := timeNow w in
  let begin := pg_timestamptz (now_at (w_ticks w)) in
  match fn (with_txnow (Some begin) w1) with
  | (Ret a, w2) => (Ret a, with_txnow None w2)
  | (Err e, w2) => (Err e, with_db (w_db w) (with_txnow None w2))
  | (Panic, w2) => (Panic, with_db (w_db w) (with_txnow None w2))
  end.

(** core.sql: BusinessNow, through service.go. *)
Definition business_clock (d : DB) (org productID : string) : option time :=
  let overrides := clk_business_now <$> db_clock d in
  match overrides !! ("org_product"%string, org +:+ ":" +:+ productID) with
  | Some t => Some t
  | None =>
      match overrides !! ("org"%string, org) with
      | Some t => Some t
      | None => overrides !! ("global"%string, ""%string)
      end
  end.

Definition BusinessNow (orgID productID : string) : B time :=
  do! override <- query (fun d => business_clock d (orgIDText orgID) productID);
  match override with
  | Some t => mret t
  | None => pgNow
  end.

(** Try [m] and hand its error to the caller as a value. *)
Definition attempt {A} (m : B A) : B (A + goerr) := fun w =>
  match m w with
  | (Ret a, w') => (Ret (inl a), w')
  | (Err e, w') => (Ret (inr e), w')
  | (Panic, w') => (Panic, w')
  end.

(** Send a batch of one row to ClickHouse. *)
Definition clickhouseInsert (row : clickhouseRow) : B unit := fun w =>
  if clickhouse_accepts (w_ticks w) then
    (Ret tt, mkWorld (w_db w) (w_tb w) (S (w_ticks w)) (w_ids w) (w_txnow w) (w_clickhouse w ++ [row]) (w_stripe w))
  else (Err (Errorf "send ClickHouse batch"),
        mkWorld (w_db w) (w_tb w) (S (w_ticks w)) (w_ids w) (w_txnow w) (w_clickhouse w) (w_stripe w)).

(** Send a request to Stripe. *)
Definition stripeCall {A} (request : stripeRequest) (answer : nat -> res A) : B A := fun w =>
  (answer (w_ticks w),
   mkWorld (w_db w) (w_tb w) (S (w_ticks w)) (w_ids w) (w_txnow w) (w_clickhouse w) (w_stripe w ++ [request])).

(** Go loops over a slice: each iteration may fail and the loop stops. *)
Fixpoint forEach {A} (f : A -> B unit) (l : list A) : B unit :=
  match l with
  | [] => mret tt
  | x :: l' => exec! f x; forEach f l'
  end.

(** _ = f(): the error is dropped, a panic is not. *)
Definition ignoreError {A} (m : B A) : B unit := fun w =>
  match m w with
  | (Panic, w') => (Panic, w')
  | (_, w') => (Ret tt, w')
  end.

(** if err := f(); err != nil { handler }: run [h] on the error. *)
Definition onError {A} (m : B A) (h : goerr -> B A) : B A := fun w =>
  match m w with
  | (Err e, w') => h e w'
  | r => r
  end.

(** ** Frames

    [evolves RD RT m]: whatever its outcome, [m] changes the database along
    [RD] and the ledger along [RT]. *)

Definition evolves {A} (RD : relation DB) (RT : relation St) (m : B A) : Prop :=
  forall w, RD (w_db w) (w_db (m w).2) /\ RT (w_tb w) (w_tb (m w).2).

Section Frames.
Context (RD : relation DB) (RT : relation St) `{!PreOrder RD} `{!PreOrder RT}.

Lemma evolves_refl {A} (m : B A) :
  (forall w, w_db (m w).2 = w_db w) -> (forall w, w_tb (m w).2 = w_tb w) -> evolves RD RT m.
Proof using All. intros H1 H2 w. by rewrite H1, H2. Qed.

Lemma evolves_mono {A} (RD' : relation DB) (RT' : relation St) (m : B A) :
  (forall d d', RD' d d' -> RD d d') -> (forall s s', RT' s s' -> RT s s') -> evolves RD' RT' m -> evolves RD RT m.
Proof using All. intros H1 H2 Hm w. destruct (Hm w). auto. Qed.

Lemma evolves_ret {A} (a : A) : evolves RD RT (mret a).
Proof using All. by apply evolves_refl. Qed.

Lemma evolves_fail {A} e : evolves RD RT (mfail e : B A).
Proof using All. by apply evolves_refl. Qed.

Lemma evolves_lift {A} (o : res A) : evolves RD RT (mlift o).
Proof using All. by apply evolves_refl. Qed.

Lemma evolves_timeNow : evolves RD RT timeNow.
Proof using All. by apply evolves_refl. Qed.

Lemma evolves_pgNow : evolves RD RT pgNow.
Proof using All. apply evolves_refl; intros w; unfold pgNow; by destruct (w_txnow w). Qed.

Lemma evolves_NewID : evolves RD RT NewID.
Proof using All. by apply evolves_refl. Qed.

Lemma evolves_query {A} (f : DB -> A) : evolves RD RT (query f).
Proof using All. by apply evolves_refl. Qed.

Lemma evolves_ledger_query {A} (f : St -> res A) : evolves RD RT (ledger_query f).
Proof using All. by apply evolves_refl. Qed.

Lemma evolves_statement {A} (f : DB -> res (A * DB)) :
  (forall d a d', f d = Ret (a, d') -> RD d d') -> evolves RD RT (statement f).
Proof using All.
  intros Hf w. unfold statement. destruct (f (w_db w)) as [[a d]|e|] eqn:E; simpl; [|done|done].
  split; [by eapply Hf|done].
Qed.

Lemma evolves_on_ledger {A} (m : M St goerr A) :
  (forall s, RT s (m s).2) -> evolves RD RT (on_ledger m).
Proof using All.
  intros Hm w. unfold on_ledger. specialize (Hm (w_tb w)). destruct (m (w_tb w)); simpl in *. done.
Qed.

Lemma evolves_bind {A C} (m : B A) (f : A -> B C) :
  evolves RD RT m -> (forall a, evolves RD RT (f a)) -> evolves RD RT (mbindM m f).
Proof using All.
  intros Hm Hf w. unfold mbindM. destruct (Hm w) as [H1 H2].
  destruct (m w) as [[a|e|] w1]; simpl in *; [|done|done].
  destruct (Hf a w1) as [H3 H4]. split; by etrans.
Qed.

Lemma evolves_WithTx {A} (m : B A) : evolves RD RT m -> evolves RD RT (WithTx m).
Proof using All.
  intros Hm w. unfold WithTx. simpl.
  match goal with |- context [m ?x] => destruct (Hm x) as [H1 H2]; destruct (m x) as [[a|e|] w2] end; simpl in *; done.
Qed.

Lemma evolves_BusinessNow org product : evolves RD RT (BusinessNow org product).
Proof using All.
  apply evolves_bind; [apply evolves_query|]. intros [t|]; [apply evolves_ret|apply evolves_pgNow].
Qed.

Lemma evolves_forEach {A} (f : A -> B unit) l :
  (forall x, evolves RD RT (f x)) -> evolves RD RT (forEach f l).
Proof using All.
  intros Hf. induction l; simpl; [apply evolves_ret|]. by apply evolves_bind.
Qed.

Lemma evolves_ignoreError {A} (m : B A) : evolves RD RT m -> evolves RD RT (ignoreError m).
Proof using All. intros Hm w. specialize (Hm w). unfold ignoreError. by destruct (m w) as [[]]. Qed.

Lemma evolves_attempt {A} (m : B A) : evolves RD RT m -> evolves RD RT (attempt m).
Proof using All. intros Hm w. specialize (Hm w). unfold attempt. by destruct (m w) as [[]]. Qed.

Lemma evolves_clickhouseInsert row : evolves RD RT (clickhouseInsert row).
Proof using All.
  apply evolves_refl; intros w; unfold clickhouseInsert; by destruct (clickhouse_accepts (w_ticks w)).
Qed.

Lemma evolves_stripeCall {A} request (answer : nat -> res A) : evolves RD RT (stripeCall request answer).
Proof using All. by apply evolves_refl. Qed.

Lemma evolves_onError {A} (m : B A) h :
  evolves RD RT m -> (forall e, evolves RD RT (h e)) -> evolves RD RT (onError m h).
Proof using All.
  intros Hm Hh w. unfold onError. destruct (Hm w) as [H1 H2].
  destruct (m w) as [[a|e|] w1]; simpl in *; [done| |done].
  destruct (Hh e w1). split; by etrans.
Qed.
End Frames.
End World.

Create HintDb frame.
#[export] Hint Resolve evolves_ret evolves_fail evolves_lift evolves_timeNow evolves_pgNow evolves_NewID
  evolves_query evolves_ledger_query evolves_bind evolves_WithTx evolves_BusinessNow evolves_forEach
  evolves_ignoreError evolves_onError evolves_attempt evolves_clickhouseInsert
  evolves_stripeCall : frame.

(** Walk through a handler: bind by bind, branch by branch. *)
Ltac frame :=
  repeat lazymatch goal with
  | |- evolves _ _ (match ?x with _ => _ end) => destruct x
  | |- evolves _ _ (mbindM _ _) => apply evolves_bind; [try apply _|try apply _| |intros ?]
  | |- evolves _ _ (WithTx _) => first [solve [auto 2 with nocore] | apply evolves_WithTx; [try apply _|try apply _|]]
  | |- evolves _ _ (forEach _ _) => apply evolves_forEach; [try apply _|try apply _|intros ?]
  | |- evolves _ _ (onError _ _) => apply evolves_onError; [try apply _|try apply _| |intros ?]
  | |- evolves _ _ (attempt _) => apply evolves_attempt; [try apply _|try apply _|]
  | |- evolves _ _ (ignoreError _) => apply evolves_ignoreError; [try apply _|try apply _|]
  | |- evolves _ _ _ => solve [eauto 3 with frame typeclass_instances]
  end.
