(* ===== verification/Events.v ===== *)
(** * Billing events

    Models appendEvent of billing/events.go: the event row, addressed by a
    digest of its content, and its delivery to the ClickHouse sink, both
    written in the caller's transaction; and the job requests that
    billing/runtime.go adds to the caller's transaction. *)

From S2P Require Import Prelude GoFloat GoStd GoTime Json Types StripeApi Ids Charges Ledger Grants Store.

Definition clickHouseBillingEventsSink : string := "clickhouse.billing_events".

Record eventFact : Type := mkEvent {
  ev_EventType : string;
  ev_AggregateType : string;
  ev_AggregateID : string;
  ev_OrgID : string;
  ev_ProductID : string;
  ev_OccurredAt : time;
  ev_Payload : list (string * jval);
  ev_CorrelationID : string;
  ev_CausationID : string
}.

(** core.sql: InsertBillingEvent *)
Definition InsertBillingEvent (eid : string) (row : eventRow) (d : DB) : res (unit * DB) :=
  match db_events d !! eid with
  | Some _ => Ret (tt, d)
  | None => Ret (tt, set_events (<[eid := row]> (db_events d)) d)
  end.

Definition newDelivery (now : time) : deliveryRow := mkDeliveryRow DPending 0 now None None "" "" "" None "".

(** core.sql: InsertBillingEventDelivery.  The conflict target is the partial
    index on live deliveries; a dead-lettered first generation is a primary
    key violation. *)
Definition live_delivery (d : DB) (eid sink : string) : bool :=
  existsb (fun kv => bool_decide (kv.1.1 = (eid, sink)) && negb (bool_decide (dl_state kv.2 = DDeadLetter)))
    (map_to_list (db_deliveries d)).

Definition InsertBillingEventDelivery (eid sink : string) (now : time) (d : DB) : res (unit * DB) :=
  if live_delivery d eid sink then Ret (tt, d)
  else match db_deliveries d !! (eid, sink, 1) with
       | Some _ => errorf "duplicate key value violates unique constraint"
       | None => Ret (tt, set_deliveries (<[(eid, sink, 1) := newDelivery now]> (db_deliveries d)) d)
       end.

Definition InsertJob (job : jobRequest) (d : DB) : res (unit * DB) :=
  Ret (tt, set_jobs (db_jobs d ++ [job]) d).

Section Events.
Context {St : Type} `{Env} `{Digest}.

Definition appendEvent (event : eventFact) : B (St := St) unit :=
  do! occurredAt <- (if is_zero (ev_OccurredAt event) then timeNow else mret (ev_OccurredAt event));
  let payload := JObj (ev_Payload event) in
  let payloadHash := hex_encode (digest (bytes_of_string (json_marshal payload))) in
  let eid := eventID (ev_EventType event) (ev_AggregateID event) occurredAt payloadHash in
  do! created <- pgNow;
  do! occurred <- mlift (not_null (timestamptz occurredAt));
  exec! statement (InsertBillingEvent eid
    (mkEventRow (ev_EventType event) 1 (ev_AggregateType event) (ev_AggregateID event)
       (orgIDText (ev_OrgID event)) (ev_ProductID event) occurred payload payloadHash
       (ev_CorrelationID event) (ev_CausationID event) created));
  do! due <- pgNow;
  statement (InsertBillingEventDelivery eid clickHouseBillingEventsSink due).

Definition EnqueueMeteringProjectWindowTx (windowID : string) : B (St := St) unit :=
  statement (InsertJob (MeteringProjectWindowArgs windowID)).

Definition EnqueueFinalizationRunTx (finalizationID : string) : B (St := St) unit :=
  statement (InsertJob (FinalizationRunArgs finalizationID)).

Definition EnqueueContractUpgradePaymentTx (changeID : string) : B (St := St) unit :=
  statement (InsertJob (ContractUpgradePaymentArgs changeID)).

Definition EnqueueProviderEventApplyTx (eventID : string) : B (St := St) unit :=
  statement (InsertJob (ProviderEventApplyArgs eventID)).
End Events.

(** Appending an event touches the event tables only, enqueueing a job the
    job requests. *)
Definition events_only (d d' : DB) : Prop :=
  exists ev de jo, d' = set_jobs jo (set_deliveries de (set_events ev d)).

#[export] Instance events_only_preorder : PreOrder events_only.
Proof.
  split.
  - intros d. exists (db_events d), (db_deliveries d), (db_jobs d). by destruct d.
  - intros d1 d2 d3 (e1 & v1 & j1 & ->) (e2 & v2 & j2 & ->). by exists e2, v2, j2.
Qed.

Lemma InsertBillingEvent_frame eid row d a d' : InsertBillingEvent eid row d = Ret (a, d') -> events_only d d'.
Proof.
  unfold InsertBillingEvent. destruct (db_events d !! eid); intros [= _ <-]; [done|].
  exists (<[eid:=row]> (db_events d)), (db_deliveries d), (db_jobs d). by destruct d.
Qed.

Lemma InsertBillingEventDelivery_frame eid sink now d a d' :
  InsertBillingEventDelivery eid sink now d = Ret (a, d') -> events_only d d'.
Proof.
  unfold InsertBillingEventDelivery. destruct (live_delivery d eid sink); [by intros [= _ <-]|].
  destruct (db_deliveries d !! _); [done|]. intros [= _ <-].
  exists (db_events d), (<[(eid, sink, 1) := newDelivery now]> (db_deliveries d)), (db_jobs d). by destruct d.
Qed.

Lemma InsertJob_frame job d a d' : InsertJob job d = Ret (a, d') -> events_only d d'.
Proof.
  intros [= _ <-]. exists (db_events d), (db_deliveries d), (db_jobs d ++ [job]). by destruct d.
Qed.

Section EventFrames.
Context {St : Type} `{HE : Env} `{HD : Digest} (RD : relation DB) (RT : relation St) `{!PreOrder RD} `{!PreOrder RT}.
Context (RD_events : forall d d', events_only d d' -> RD d d').

Lemma appendEvent_evolves event : evolves RD RT (appendEvent event).
Proof using All.
  unfold appendEvent. frame; (apply evolves_statement; [apply _|apply _|]);
    eauto using InsertBillingEvent_frame, InsertBillingEventDelivery_frame.
Qed.

Lemma enqueue_evolves job : evolves RD RT (statement (InsertJob job)).
Proof using All. apply evolves_statement; [apply _..|]. eauto using InsertJob_frame. Qed.
End EventFrames.

#[export] Hint Resolve appendEvent_evolves : frame.
#[export] Hint Extern 1 (evolves _ _ (EnqueueMeteringProjectWindowTx _)) => apply enqueue_evolves : frame.
#[export] Hint Extern 1 (evolves _ _ (EnqueueFinalizationRunTx _)) => apply enqueue_evolves : frame.
#[export] Hint Extern 1 (evolves _ _ (EnqueueContractUpgradePaymentTx _)) => apply enqueue_evolves : frame.
#[export] Hint Extern 1 (evolves _ _ (EnqueueProviderEventApplyTx _)) => apply enqueue_evolves : frame.

(** * Delivery of billing events

    Models ProjectPendingBillingEventDeliveries of billing/events.go: pending
    deliveries are claimed with a lease, each event is written to ClickHouse
    and its delivery removed from the queue; a failure reschedules it, or
    retires it after 25 attempts. *)

(** event_id, sink, generation *)
Definition deliveryKey : Type := (string * string * Z)%type.

(** ** Statements (store/queries/core.sql) *)

Definition delivery_due (sink : string) (now : time) (kv : deliveryKey * deliveryRow) : bool :=
  bool_decide (kv.1.1.2 = sink) && bool_decide (dl_state kv.2 ∈ [DPending; DRetryableFailed])
  && (dl_next_attempt_at kv.2 <=? now).

(** ORDER BY next_attempt_at, event_id, generation *)
Definition deliveryLess : (deliveryKey * deliveryRow) -> (deliveryKey * deliveryRow) -> bool :=
  lex_key Z.eqb Z.ltb (fun kv => dl_next_attempt_at kv.2)
    (lex_key str_eqb str_ltb (fun kv => kv.1.1.1) (on_key Z.ltb (fun kv => kv.1.2))).

Definition due_deliveries (sink : string) (now : time) (d : DB) : list (deliveryKey * deliveryRow) :=
  sort_slice deliveryLess (filter (fun kv => delivery_due sink now kv = true) (map_to_list (db_deliveries d))).

Definition leased_delivery (now lease : time) (by_ attempt : string) (r : deliveryRow) : deliveryRow :=
  mkDeliveryRow DInProgress (dl_attempts r + 1) (dl_next_attempt_at r) (Some now) (Some (now + lease)) by_ attempt
    (dl_delivery_error r) (dl_dead_lettered_at r) (dl_dead_letter_reason r).

(** RETURNING the claimed keys; the order PostgreSQL returns them in is not
    specified, here it is the order of the selection. *)
Definition ClaimBillingEventDeliveries (lease : time) (by_ attempt sink : string) (limit : Z) (now : time) (d : DB)
    : res (list deliveryKey * DB) :=
  let rows := take (Z.to_nat limit) (due_deliveries sink now d) in
  Ret (rows.*1, set_deliveries (foldr (fun kv m => <[kv.1 := leased_delivery now lease by_ attempt kv.2]> m)
                                  (db_deliveries d) rows) d).

Definition MarkBillingEventDeliverySucceeded (key : deliveryKey) (d : DB) : res (unit * DB) :=
  Ret (tt, set_deliveries (delete key (db_deliveries d)) d).

Definition failed_delivery (now retryAfter : time) (err : string) (r : deliveryRow) : deliveryRow :=
  if 25 <=? dl_attempts r
  then mkDeliveryRow DDeadLetter (dl_attempts r) (dl_next_attempt_at r) (dl_last_attempt_at r) None "" (dl_last_attempt_id r)
         err (Some now) err
  else mkDeliveryRow DRetryableFailed (dl_attempts r) (now + retryAfter) (dl_last_attempt_at r) None ""
         (dl_last_attempt_id r) err None "".

Definition MarkBillingEventDeliveryFailed (retryAfter : time) (err : string) (key : deliveryKey) (now : time) (d : DB)
    : res (unit * DB) :=
  Ret (tt, set_deliveries (alter (failed_delivery now retryAfter err) key (db_deliveries d)) d).

(** ** Projection *)

(** payload[key].(string), of a decoded JSON object. *)
Definition stringPayload (payload : jval) (key : string) : string :=
  match payload with
  | JObj fields =>
      match list_find (fun kv => kv.1 = key) fields with
      | Some (_, (_, JStr s)) => s
      | _ => ""
      end
  | _ => ""
  end.

Definition projectionOfEvent (eid : string) (e : eventRow) : res billingEventProjectionRow :=
  let! version := checkedUint16FromInt32 (e_event_version e) in
  let field := stringPayload (e_payload e) in
  Ret (mkProjection eid (e_event_type e) version (e_aggregate_type e) (e_aggregate_id e) (field "contract_id"%string)
         (field "cycle_id"%string) (field "pricing_contract_id"%string) (field "pricing_phase_id"%string)
         (field "pricing_plan_id"%string) (field "finalization_id"%string) (field "document_id"%string)
         (field "document_kind"%string) (field "provider_event_id"%string) (e_org_id e) (e_product_id e)
         (e_occurred_at e) (e_payload e) (e_payload_hash e) (e_correlation_id e) (e_causation_event_id e)
         (e_created_at e)).

Definition deliveryLease : time := 30 * second.

Section EventDelivery.
Context {St : Type} `{Env} `{Digest}.
#[local] Abbreviation Bx A := (@B St A).

Definition projectBillingEventDelivery (key : deliveryKey) : Bx unit :=
  do! event <- query (fun d => db_events d !! key.1.1);
  match event with
  | None => mfail (Errorf "load billing event: no rows in result set")
  | Some e =>
      do! row <- mlift (projectionOfEvent key.1.1 e);
      exec! clickhouseInsert (BillingEventRow row);
      statement (MarkBillingEventDeliverySucceeded key)
  end.

(** The loop over the claimed deliveries: the first failure ends it.  The
    count the code returns next to the error is only logged. *)
Fixpoint projectDeliveries (claimed : list deliveryKey) (projected : Z) : Bx Z :=
  match claimed with
  | [] => mret projected
  | key :: rest =>
      do! result <- attempt (projectBillingEventDelivery key);
      match result with
      | inl _ => projectDeliveries rest (projected + 1)
      | inr e =>
          do! now <- pgNow;
          exec! ignoreError (statement (MarkBillingEventDeliveryFailed deliveryLease (errorText e) key now));
          mfail e
      end
  end.

Definition ProjectPendingBillingEventDeliveries (limit : Z) : Bx Z :=
  if negb clickhouse_configured then mret 0
  else
    let limit := if limit <=? 0 then 100 else limit in
    do! wall <- timeNow;
    let attemptID := textID "delivery_attempt" [format_rfc3339nano wall] in
    do! limit32 <- mlift (checkedInt32FromInt limit);
    do! now <- pgNow;
    do! claimed <- statement (ClaimBillingEventDeliveries deliveryLease "billing-service" attemptID
                                clickHouseBillingEventsSink limit32 now);
    projectDeliveries claimed 0.
End EventDelivery.
