(* ===== verification/LedgerCommands.v ===== *)
(** * Ledger commands

    Models billing/ledger_commands.go: the registry of operator accounts, the
    outbox of ledger commands (create, lease, dispatch, mark posted or
    failed).  The completion of a posted command and the dispatch loop call
    the grant and window components and are in Dispatcher.v. *)

From S2P Require Import Prelude GoFloat GoStd GoTime Json Types Ids Ledger Charges Grants Store Events.

Definition ledgerCommandMaxAttempts : Z := 12.

Record ledgerAccountRegistryRow : Type := mkRegistryRow {
  lr_AccountKey : string;
  lr_AccountID : ID;
  lr_Ledger : Z;
  lr_Code : Z;
  lr_Flags : Z
}.

Record ledgerCommandRow : Type := mkLedgerCommand {
  lc_CommandID : string;
  lc_Operation : string;
  lc_AggregateType : string;
  lc_AggregateID : string;
  lc_OrgID : string;
  lc_ProductID : string;
  lc_Payload : CommandPayload;
  lc_Attempts : Z
}.

(** ** Statements (store/queries/ledger.sql) *)

Definition InsertLedgerAccount (key : string) (row : ledgerAccountRow) (d : DB) : res (unit * DB) :=
  match db_accounts d !! key with
  | Some _ => Ret (tt, d)
  | None =>
      if existsb (fun kv => bool_decide (la_account_id kv.2 = la_account_id row)) (map_to_list (db_accounts d))
      then errorf "duplicate key value violates unique constraint"
      else
        let! _ := check_constraint ((0 <? la_ledger row) && (0 <? la_code row) && (la_code row <=? 65535)
                                    && (0 <=? la_flags row) && (la_flags row <=? 65535)) in
        Ret (tt, set_accounts (<[key := row]> (db_accounts d)) d)
  end.

Definition ListOperatorLedgerAccounts (d : DB) : list (string * ID) :=
  sort_slice field_less
    ((fun kv => (kv.1, la_account_id kv.2))
       <$> filter (fun kv => la_account_kind kv.2 = "operator") (map_to_list (db_accounts d))).

Definition command_by_key (d : DB) (key : string) : option (string * commandRow) :=
  head (filter (fun kv => c_idempotency_key kv.2 = key) (map_to_list (db_commands d))).

Definition InsertLedgerCommand (commandID : string) (row : commandRow) (d : DB) : res (unit * DB) :=
  match command_by_key d (c_idempotency_key row) with
  | Some _ => Ret (tt, d)
  | None =>
      match db_commands d !! commandID with
      | Some _ => errorf "duplicate key value violates unique constraint"
      | None => Ret (tt, set_commands (<[commandID := row]> (db_commands d)) d)
      end
  end.

(** WHERE state IN ('pending', 'retryable_failed', 'in_progress')
      AND (state <> 'in_progress' OR lease_expires_at IS NULL OR lease_expires_at < now()) *)
Definition leasable (now : time) (c : commandRow) : bool :=
  match c_state c with
  | CPending | CRetryableFailed => true
  | CInProgress => match c_lease_expires_at c with None => true | Some t => t <? now end
  | CPosted | CDeadLetter => false
  end.

Definition seconds (n : Z) : Z := n * 1000000000.

Definition leased (now : time) (attemptID : string) (c : commandRow) : commandRow :=
  mkCommandRow (c_operation c) (c_aggregate_type c) (c_aggregate_id c) (c_org_id c) (c_product_id c)
    (c_idempotency_key c) CInProgress (c_payload c) (c_attempts c + 1) (c_next_attempt_at c)
    (Some now) (Some (now + seconds 30)) "billing-service" attemptID (c_last_error c)
    (c_posted_at c) (c_dead_lettered_at c) (c_dead_letter_reason c) (c_created_at c).

(** LeaseLedgerCommand; [None] is pgx.ErrNoRows. *)
Definition LeaseLedgerCommand (commandID attemptID : string) (now : time) (d : DB)
    : res (option commandRow * DB) :=
  match db_commands d !! commandID with
  | Some c =>
      if leasable now c then
        let! _ := check_constraint (c_attempts c + 1 <=? i32_max) in
        let c' := leased now attemptID c in
        Ret (Some c', set_commands (<[commandID := c']> (db_commands d)) d)
      else Ret (None, d)
  | None => Ret (None, d)
  end.

Definition posted (now : time) (c : commandRow) : commandRow :=
  mkCommandRow (c_operation c) (c_aggregate_type c) (c_aggregate_id c) (c_org_id c) (c_product_id c)
    (c_idempotency_key c) CPosted (c_payload c) (c_attempts c) (c_next_attempt_at c)
    (c_last_attempt_at c) None "" (c_last_attempt_id c) ""
    (Some now) (c_dead_lettered_at c) (c_dead_letter_reason c) (c_created_at c).

Definition MarkLedgerCommandPosted (commandID : string) (now : time) (d : DB) : res (unit * DB) :=
  Ret (tt, set_commands (alter (posted now) commandID (db_commands d)) d).

Definition failed (state : commandState) (nextAttempt : time) (lastError : string)
    (deadLetteredAt : option time) (reason : string) (c : commandRow) : commandRow :=
  mkCommandRow (c_operation c) (c_aggregate_type c) (c_aggregate_id c) (c_org_id c) (c_product_id c)
    (c_idempotency_key c) state (c_payload c) (c_attempts c) nextAttempt
    (c_last_attempt_at c) None "" (c_last_attempt_id c) lastError (c_posted_at c)
    (match deadLetteredAt with Some t => Some t | None => c_dead_lettered_at c end)
    (if decide (reason = "") then c_dead_letter_reason c else reason) (c_created_at c).

Definition MarkLedgerCommandFailed (commandID : string) (state : commandState) (nextAttempt : option time)
    (lastError : string) (deadLetteredAt : option time) (reason : string) (d : DB) : res (unit * DB) :=
  match db_commands d !! commandID with
  | None => Ret (tt, d)
  | Some c =>
      let! next := not_null nextAttempt in
      Ret (tt, set_commands (<[commandID := failed state next lastError deadLetteredAt reason c]> (db_commands d)) d)
  end.

(** ** Handlers *)

Section LedgerCommands.
Context {St : Type} `{Env} `{Digest} `{HC : TBCodec} `{!TigerBeetle St}.
#[local] Abbreviation Bx A := (@B St A).

Definition requireLedger : Bx unit :=
  if ledger_configured then mret tt else mfail (LedgerErr ErrUnavailable).

Definition ledgerDispatch (payload : CommandPayload) : Bx unit :=
  on_ledger (Dispatch ledger_configured payload).

Definition ensureLedgerAccountTx (def : AccountDefinition) : Bx ledgerAccountRegistryRow :=
  do! generated <- NewID;
  exec! statement (InsertLedgerAccount (def_Key def)
    (mkLedgerAccountRow generated DefaultLedger (def_Code def) (def_Flags def) (def_Kind def) (def_Description def)));
  do! stored <- query (fun d => db_accounts d !! def_Key def);
  match stored with
  | None => mfail (Errorf "load ledger account registry")
  | Some stored =>
      do! accountID <- mlift (IDFromBytes (la_account_id stored));
      do! ledger <- mlift (checkedUint32FromInt32 (la_ledger stored));
      do! code <- mlift (checkedUint16FromInt32 (la_code stored));
      do! flags <- mlift (checkedUint16FromInt32 (la_flags stored));
      if negb (ledger =? DefaultLedger) || negb (code =? def_Code def) || negb (flags =? def_Flags def)
      then mfail (Errorf "ledger account registry drift")
      else mret (mkRegistryRow (def_Key def) accountID ledger code flags)
  end.

(** The loop of EnsureLedgerBootstrapped's first transaction. *)
Fixpoint bootstrapAccounts (defs : list AccountDefinition) : Bx (list AccountPayload) :=
  match defs with
  | [] => mret []
  | def :: defs' =>
      do! row <- ensureLedgerAccountTx def;
      do! rest <- bootstrapAccounts defs';
      mret (OperatorAccount (lr_AccountID row) def :: rest)
  end.

Definition EnsureLedgerBootstrapped : Bx unit :=
  exec! requireLedger;
  do! accounts <- WithTx (bootstrapAccounts OperatorAccountDefinitions);
  exec! ledgerDispatch (mkCommandPayload accounts []);
  WithTx (
    do! now <- timeNow;
    appendEvent (mkEvent "ledger_operator_accounts_bootstrapped" "ledger" "operator_accounts" "" "" now
      [("account_count"%string, JInt (Z.of_nat (length accounts)))] "" "")).

Definition operatorAccountStep (out : gmap string ID) (row : string * ID) : res (gmap string ID) :=
  let! id := IDFromBytes row.2 in Ret (<[row.1 := id]> out).

Definition operatorLedgerAccounts (d : DB) : res (gmap string ID) :=
  let! out := outcome_fold operatorAccountStep ∅ (ListOperatorLedgerAccounts d) in
  if forallb (fun def => bool_decide (is_Some (out !! def_Key def))) OperatorAccountDefinitions
  then Ret out else errorf "operator ledger account is not bootstrapped".

Definition operatorLedgerAccountsTx : Bx (gmap string ID) :=
  do! out <- query operatorLedgerAccounts; mlift out.

Definition createLedgerCommandTx (operation aggregateType aggregateID orgID productID idempotencyKey : string)
    (payload : CommandPayload) : Bx (string * CommandPayload) :=
  if bool_decide (operation = "") || bool_decide (aggregateType = "") || bool_decide (aggregateID = "")
     || bool_decide (idempotencyKey = "")
  then mfail (LedgerErr ErrInvalidCommand)
  else
    let commandID := textID "ledger_cmd" [idempotencyKey] in
    do! now <- pgNow;
    exec! statement (InsertLedgerCommand commandID
      (mkCommandRow operation aggregateType aggregateID (orgIDText orgID) productID idempotencyKey CPending payload
         0 now None None "" "" "" None None "" now));
    do! stored <- query (fun d => command_by_key d idempotencyKey);
    match stored with
    | None => mfail (Errorf "load ledger command")
    | Some (id, row) => mret (id, c_payload row)
    end.

Definition ledgerCommandFromStore (commandID : string) (c : commandRow) : res ledgerCommandRow :=
  let! org := (if decide (c_org_id c = "") then Ret "" else parseOrgID (c_org_id c)) in
  Ret (mkLedgerCommand commandID (c_operation c) (c_aggregate_type c) (c_aggregate_id c) org (c_product_id c)
         (c_payload c) (c_attempts c)).

Definition leaseLedgerCommand (commandID : string) : Bx (option ledgerCommandRow) :=
  do! row <- WithTx (
    do! attempt <- NewID;
    do! now <- pgNow;
    statement (LeaseLedgerCommand commandID (IDString attempt) now));
  match row with
  | None => mret None
  | Some c => do! command <- mlift (ledgerCommandFromStore commandID c); mret (Some command)
  end.

Definition markLedgerCommandPosted (command : ledgerCommandRow) : Bx unit :=
  WithTx (
    do! now <- pgNow;
    exec! statement (MarkLedgerCommandPosted (lc_CommandID command) now);
    do! occurred <- timeNow;
    appendEvent (mkEvent "ledger_command_posted" (lc_AggregateType command) (lc_AggregateID command)
      (lc_OrgID command) (lc_ProductID command) occurred
      [("command_id"%string, JStr (lc_CommandID command)); ("operation"%string, JStr (lc_Operation command));
       ("attempts"%string, JInt (lc_Attempts command));
       ("transfer_count"%string, JInt (Z.of_nat (length (cp_Transfers (lc_Payload command)))));
       ("account_count"%string, JInt (Z.of_nat (length (cp_Accounts (lc_Payload command)))))] "" "")).

Definition stateText (s : commandState) : string :=
  match s with
  | CPending => "pending" | CInProgress => "in_progress" | CPosted => "posted"
  | CRetryableFailed => "retryable_failed" | CDeadLetter => "dead_letter"
  end.

Definition markLedgerCommandFailed (command : ledgerCommandRow) (cause : goerr) : Bx unit :=
  do! now <- timeNow;
  let nextAttempt := now + seconds 1 in
  do! r <- (if ledgerCommandMaxAttempts <=? lc_Attempts command
            then do! dead <- timeNow; mret (CDeadLetter, timestamptz dead, errorText cause)
            else mret (CRetryableFailed, None, ""%string));
  let '(state, deadLetteredAt, deadLetterReason) := r in
  WithTx (
    exec! statement (MarkLedgerCommandFailed (lc_CommandID command) state (timestamptz nextAttempt)
                       (errorText cause) deadLetteredAt deadLetterReason);
    do! occurred <- timeNow;
    appendEvent (mkEvent "ledger_command_failed" (lc_AggregateType command) (lc_AggregateID command)
      (lc_OrgID command) (lc_ProductID command) occurred
      [("command_id"%string, JStr (lc_CommandID command)); ("operation"%string, JStr (lc_Operation command));
       ("attempts"%string, JInt (lc_Attempts command)); ("state"%string, JStr (stateText state));
       ("error"%string, JStr (errorText cause))] "" "")).

Definition dispatchLedgerCommand (commandID : string) : Bx unit :=
  exec! requireLedger;
  do! leasedCommand <- leaseLedgerCommand commandID;
  match leasedCommand with
  | None => mret tt
  | Some command =>
      exec! onError (ledgerDispatch (lc_Payload command))
        (fun e => exec! ignoreError (markLedgerCommandFailed command e); mfail e);
      markLedgerCommandPosted command
  end.

Definition loadLedgerCommand (commandID : string) : Bx ledgerCommandRow :=
  do! row <- query (fun d => db_commands d !! commandID);
  match row with
  | None => mfail (Errorf "load ledger command")
  | Some c => mlift (ledgerCommandFromStore commandID c)
  end.
End LedgerCommands.
