(* ===== verification/LedgerGrants.v ===== *)
(** * Grant deposits

    Models billing/ledger_grants.go: a grant becomes spendable by a deposit
    command that creates its ledger account and moves the granted amount into
    it, and the grant row records how far that got. *)

From S2P Require Import Prelude GoFloat GoStd GoTime Json Types Ids Ledger Charges Grants Store Events LedgerCommands.

Record grantLedgerRow : Type := mkGrantLedgerRow {
  gl_GrantID : string;
  gl_OrgID : string;
  gl_ProductID : string;
  gl_ScopeType : string;
  gl_ScopeProductID : string;
  gl_ScopeBucketID : string;
  gl_ScopeSKUID : string;
  gl_Amount : Z;
  gl_Source : string;
  gl_SourceReferenceID : string;
  gl_AccountID : ID;
  gl_DepositID : ID;
  gl_StartsAt : time
}.

(** ** Statements (store/queries/ledger.sql) *)

(** ($2 = '' OR COALESCE(scope_product_id, $2) = $2 OR scope_type = 'account') *)
Definition grant_in_product (productID : string) (g : grantRow) : bool :=
  bool_decide (productID = "") || bool_decide (g_scope_product_id g = "")
  || bool_decide (g_scope_product_id g = productID) || bool_decide (g_scope_type g = "account").

Definition deposit_pending (g : grantRow) : bool :=
  match g_ledger_posting_state g with GPending | GRetryableFailed => true | _ => false end.

(** ORDER BY starts_at, grant_id *)
Definition grantRowLess : (string * grantRow) -> (string * grantRow) -> bool :=
  lex_key Z.eqb Z.ltb (fun kv => g_starts_at kv.2) (on_key str_ltb fst).

Definition ListPendingGrantDeposits (org productID : string) (d : DB) : list string :=
  (sort_slice grantRowLess
    (filter (fun kv => g_org_id kv.2 = org /\ g_closed_at kv.2 = None
                       /\ deposit_pending kv.2 = true /\ grant_in_product productID kv.2 = true)
       (map_to_list (db_grants d)))).*1.

Definition with_posting (st : postingState) (postedAt : option time) (lastError : string) (g : grantRow) : grantRow :=
  mkGrantRow (g_org_id g) (g_scope_type g) (g_scope_product_id g) (g_scope_bucket_id g) (g_scope_sku_id g)
    (g_amount g) (g_source g) (g_source_reference_id g) (g_entitlement_period_id g) (g_policy_version g)
    (g_starts_at g) (g_period_start g) (g_period_end g) (g_expires_at g) (g_closed_at g) (g_closed_reason g)
    (g_account_id g) (g_deposit_transfer_id g) st postedAt lastError.

Definition MarkGrantLedgerPostingInProgress (grantID : string) (d : DB) : res (unit * DB) :=
  match db_grants d !! grantID with
  | Some g =>
      match g_ledger_posting_state g with
      | GPending | GRetryableFailed | GInProgress =>
          Ret (tt, set_grants (<[grantID := with_posting GInProgress (g_ledger_posted_at g) "" g]> (db_grants d)) d)
      | _ => Ret (tt, d)
      end
  | None => Ret (tt, d)
  end.

(** :one statements; [None] is pgx.ErrNoRows. *)
Definition MarkGrantLedgerPostingPosted (grantID : string) (now : time) (d : DB) : res (option grantRow * DB) :=
  match db_grants d !! grantID with
  | Some g =>
      if decide (g_ledger_posting_state g = GPosted) then Ret (None, d)
      else
        let g' := with_posting GPosted (Some now) "" g in
        Ret (Some g', set_grants (<[grantID := g']> (db_grants d)) d)
  | None => Ret (None, d)
  end.

Definition MarkGrantLedgerPostingFailed (grantID lastError : string) (d : DB) : res (option grantRow * DB) :=
  match db_grants d !! grantID with
  | Some g =>
      let g' := with_posting GRetryableFailed (g_ledger_posted_at g) lastError g in
      Ret (Some g', set_grants (<[grantID := g']> (db_grants d)) d)
  | None => Ret (None, d)
  end.

(** ** Handlers *)

(** time.Time.UnixNano: an int64. *)
Definition UnixNano (t : time) : Z := (t + 2 ^ 63) mod 2 ^ 64 - 2 ^ 63.

Section LedgerGrants.
Context {St : Type} `{Env} `{Digest} `{HC : TBCodec} `{!TigerBeetle St}.
#[local] Abbreviation Bx A := (@B St A).

Definition unixMillis (t : time) : Bx Z :=
  do! t <- (if is_zero t then timeNow else mret t);
  if t <? 0 then mret 0
  else mret (Z.quot (UnixNano t) 1000000 mod 2 ^ 64).

Definition loadGrantLedgerRowTx (grantID : string) : Bx grantLedgerRow :=
  do! stored <- query (fun d => db_grants d !! grantID);
  match stored with
  | None => mfail (Errorf "load grant ledger row")
  | Some g =>
      do! orgID <- mlift (parseOrgID (g_org_id g));
      do! accountID <- mlift (IDFromBytes (g_account_id g));
      do! depositID <- mlift (IDFromBytes (g_deposit_transfer_id g));
      do! amount <- mlift (checkedUint64FromInt64 (g_amount g));
      mret (mkGrantLedgerRow grantID orgID (g_scope_product_id g) (g_scope_type g) (g_scope_product_id g)
              (g_scope_bucket_id g) (g_scope_sku_id g) amount (g_source g) (g_source_reference_id g)
              accountID depositID (g_starts_at g))
  end.

Definition map_id (m : gmap string ID) (k : string) : ID := default zeroID (m !! k).

Definition grantDepositPayload (operators : gmap string ID) (grant : grantLedgerRow) : Bx CommandPayload :=
  do! account <- mlift (CustomerGrantAccount (gl_AccountID grant) (ledgerOrgKey (gl_OrgID grant)) (gl_Source grant));
  do! businessMS <- unixMillis (gl_StartsAt grant);
  if decide (gl_Source grant = "purchase") then
    let externalID := map_id operators "operator_stripe_external" in
    let holdingID := map_id operators "operator_stripe_holding" in
    do! stripeTransferID <- NewID;
    mret (mkCommandPayload [account]
      (LinkTransfers
        [StripePaymentInTransfer stripeTransferID externalID holdingID (gl_Amount grant) (gl_DepositID grant) businessMS;
         GrantDepositTransfer (gl_DepositID grant) holdingID (gl_AccountID grant) (gl_Amount grant) (gl_DepositID grant) businessMS]))
  else
    do! fundingKey <- mlift (GrantFundingAccountKey (gl_Source grant));
    match operators !! fundingKey with
    | None => mfail (Errorf "operator funding account is not bootstrapped")
    | Some fundingID =>
        mret (mkCommandPayload [account]
          [GrantDepositTransfer (gl_DepositID grant) fundingID (gl_AccountID grant) (gl_Amount grant) (gl_DepositID grant) businessMS])
    end.

Definition markGrantLedgerPostingPosted (grantID : string) : Bx unit :=
  WithTx (
    do! now <- pgNow;
    do! row <- statement (MarkGrantLedgerPostingPosted grantID now);
    match row with
    | None => mret tt
    | Some g =>
        do! orgID <- mlift (parseOrgID (g_org_id g));
        do! occurred <- timeNow;
        appendEvent (mkEvent "grant_ledger_posted" "credit_grant" grantID orgID (g_scope_product_id g) occurred
          [("grant_id"%string, JStr grantID); ("source"%string, JStr (g_source g)); ("amount"%string, JInt (g_amount g))] "" "")
    end).

Definition markGrantLedgerPostingFailed (grantID : string) (cause : goerr) : Bx unit :=
  WithTx (
    do! row <- statement (MarkGrantLedgerPostingFailed grantID (errorText cause));
    match row with
    | None => mfail (Errorf "mark grant ledger posting failed")
    | Some g =>
        do! orgID <- mlift (parseOrgID (g_org_id g));
        do! occurred <- timeNow;
        appendEvent (mkEvent "grant_ledger_failed" "credit_grant" grantID orgID (g_scope_product_id g) occurred
          [("grant_id"%string, JStr grantID); ("error"%string, JStr (errorText cause))] "" "")
    end).

(** The transaction that creates the deposit command. *)
Definition createGrantDepositTx (grantID : string) : Bx string :=
  do! grant <- loadGrantLedgerRowTx grantID;
  if IsZero (gl_AccountID grant) || IsZero (gl_DepositID grant)
  then mfail (Errorf "grant missing ledger account or deposit transfer id")
  else
    do! operators <- operatorLedgerAccountsTx;
    do! payload <- grantDepositPayload operators grant;
    do! cmd <- createLedgerCommandTx "grant_deposit" "credit_grant" (gl_GrantID grant) (gl_OrgID grant)
                 (gl_ProductID grant) ("grant_deposit:" +:+ gl_GrantID grant) payload;
    exec! statement (MarkGrantLedgerPostingInProgress (gl_GrantID grant));
    mret cmd.1.

Definition postGrantDeposit (grantID : string) : Bx unit :=
  do! commandID <- WithTx (createGrantDepositTx grantID);
  exec! onError (dispatchLedgerCommand commandID)
    (fun e => exec! ignoreError (markGrantLedgerPostingFailed grantID e); mfail e);
  markGrantLedgerPostingPosted grantID.

(** PostPendingGrantDeposits; the count of deposits is returned. *)
Fixpoint postDeposits (grantIDs : list string) (count : Z) : Bx Z :=
  match grantIDs with
  | [] => mret count
  | g :: rest => exec! postGrantDeposit g; postDeposits rest (count + 1)
  end.

Definition PostPendingGrantDeposits (orgID productID : string) : Bx Z :=
  exec! requireLedger;
  do! grantIDs <- query (ListPendingGrantDeposits (orgIDText orgID) productID);
  postDeposits grantIDs 0.
End LedgerGrants.
