(* ===== verification/Cycles.v ===== *)
(** * Billing cycles

    Models billing/cycles.go: the open cycle of an organisation and product,
    the rollover of due cycles, the split of a cycle at contract activation
    and the computation of cycle bounds.

    The rollover calls applyDueContractChangesTx (contracts.go) and the
    finalization operations (finalizations.go); [PeriodWork] is what those
    components promise to the ones modelled here. *)

From S2P Require Import Prelude GoFloat GoStd GoTime Json Types Ids Ledger Charges Grants Store Events.

Record billingCycle : Type := mkCycle {
  bc_CycleID : string;
  bc_Currency : string;
  bc_PredecessorCycleID : string;
  bc_AnchorAt : time;
  bc_CycleSeq : Z;
  bc_CadenceKind : string;
  bc_StartsAt : time;
  bc_EndsAt : time
}.

(** ** Cycle arithmetic *)

Definition cycleEndAfter (cadenceKind : string) (start : time) : time :=
  if decide (cadenceKind = "annual") then add_date start 1 0 0
  else if decide (cadenceKind = "anniversary_monthly") then add_date start 0 1 0
  else nextMonth start.

(** The loop of cycleBoundsContaining; [fuel] counts the iterations left
    before the bound [seq > 2400]. *)
Fixpoint cycleBoundsLoop (fuel : nat) (cadenceKind : string) (start t : time) (seq : Z) : time * time * Z :=
  let end_ := cycleEndAfter cadenceKind start in
  if negb (start <? end_) then (start, t, seq)
  else if (start <=? t) && (t <? end_) then (start, end_, seq)
  else match fuel with
       | O => (end_, cycleEndAfter cadenceKind end_, seq + 1)
       | S fuel' => cycleBoundsLoop fuel' cadenceKind end_ t (seq + 1)
       end.

Definition cycleBoundsContaining (cadenceKind : string) (anchorAt t : time) : time * time * Z :=
  if negb (bool_decide (cadenceKind = "anniversary_monthly")) then
    let start := monthStartUTC t in (start, nextMonth start, 0)
  else if is_zero anchorAt || (t <? anchorAt) then (t, cycleEndAfter cadenceKind t, 0)
  else cycleBoundsLoop (Z.to_nat 2400) cadenceKind anchorAt t 0.

(** ** Statements (store/queries/cycles.sql) *)

Definition cycle_open (c : cycleRow) : bool :=
  match cy_status c with CyOpen | CyClosing => true | _ => false end.

Definition cycle_voided (c : cycleRow) : bool := bool_decide (cy_status c = CyVoided).

Definition same_account (c c' : cycleRow) : bool :=
  bool_decide (cy_org_id c = cy_org_id c') && bool_decide (cy_product_id c = cy_product_id c').

(** tstzrange(starts_at, ends_at, '[)') && *)
Definition overlaps (c c' : cycleRow) : bool :=
  (cy_starts_at c <? cy_ends_at c') && (cy_starts_at c' <? cy_ends_at c).

(** The constraints of billing_cycles that relate a row to another. *)
Definition cycles_conflict (c c' : cycleRow) : bool :=
  same_account c c'
  && (bool_decide (cy_anchor_at c = cy_anchor_at c') && (cy_cycle_seq c =? cy_cycle_seq c')
      || cycle_open c && cycle_open c'
      || negb (cycle_voided c) && negb (cycle_voided c') && overlaps c c').

Definition cadence_ok (k : string) : bool :=
  bool_decide (k ∈ ["anniversary_monthly"; "calendar_monthly"; "annual"; "manual"]%string).

Definition put_cycle (id : string) (row : cycleRow) (d : DB) : res DB :=
  let! _ := check_constraint ((cy_starts_at row <? cy_ends_at row) && (0 <=? cy_cycle_seq row)
                              && cadence_ok (cy_cadence_kind row) && negb (bool_decide (cy_currency row = ""))) in
  if existsb (fun kv => negb (bool_decide (kv.1 = id)) && cycles_conflict row kv.2) (map_to_list (db_cycles d))
  then errorf "conflicting key value violates constraint"
  else Ret (set_cycles (<[id := row]> (db_cycles d)) d).

(** The three upserts: insert, or take over a voided row; the result is the
    number of rows affected.  [keepPredecessor] is UpsertOpenBillingCycle,
    whose DO UPDATE leaves predecessor_cycle_id alone. *)
Definition upsertCycle (keepPredecessor : bool) (id : string) (row : cycleRow) (d : DB) : res (Z * DB) :=
  match db_cycles d !! id with
  | None => let! d' := put_cycle id row d in Ret (1, d')
  | Some old =>
      if cycle_voided old then
        let row' := mkCycleRow (cy_org_id old) (cy_product_id old) (cy_currency row)
          (if keepPredecessor then cy_predecessor_cycle_id old else cy_predecessor_cycle_id row)
          (cy_anchor_at row) (cy_cycle_seq row) (cy_cadence_kind row) (cy_starts_at row) (cy_ends_at row)
          CyOpen (cy_finalization_due_at row) "" "" "" None None in
        let! d' := put_cycle id row' d in Ret (1, d')
      else Ret (0, d)
  end.

Definition newCycleRow (org productID : string) (c : billingCycle) (anchor startsAt endsAt : time) : cycleRow :=
  mkCycleRow org productID (bc_Currency c) (bc_PredecessorCycleID c) anchor (bc_CycleSeq c) (bc_CadenceKind c)
    startsAt endsAt CyOpen endsAt "" "" "" None None.

(** ORDER BY starts_at DESC, cycle_id DESC / ORDER BY ends_at, cycle_id *)
Definition latestStartFirst : (string * cycleRow) -> (string * cycleRow) -> bool :=
  fun a b => lex_key Z.eqb Z.ltb (fun kv => cy_starts_at kv.2) (on_key str_ltb fst) b a.

Definition earliestEndFirst : (string * cycleRow) -> (string * cycleRow) -> bool :=
  lex_key Z.eqb Z.ltb (fun kv => cy_ends_at kv.2) (on_key str_ltb fst).

Definition open_cycles (org productID : string) (d : DB) : list (string * cycleRow) :=
  filter (fun kv => cy_org_id kv.2 = org /\ cy_product_id kv.2 = productID /\ cycle_open kv.2 = true)
    (map_to_list (db_cycles d)).

Definition GetNextDueOpenCycleForUpdate (org productID : string) (now : time) (d : DB) : option (string * cycleRow) :=
  head (sort_slice earliestEndFirst (filter (fun kv => cy_ends_at kv.2 <= now) (open_cycles org productID d))).

Definition GetOpenBillingCycleContaining (org productID : string) (now : time) (d : DB) : option (string * cycleRow) :=
  head (sort_slice latestStartFirst
    (filter (fun kv => cy_starts_at kv.2 <= now /\ now < cy_ends_at kv.2) (open_cycles org productID d))).

Definition GetAnyOpenBillingCycle (org productID : string) (d : DB) : option (string * cycleRow) :=
  head (sort_slice latestStartFirst (open_cycles org productID d)).

Definition with_status (st : cycleStatus) (ends due : time) (reason : string) (closedAt : option time) (c : cycleRow) : cycleRow :=
  mkCycleRow (cy_org_id c) (cy_product_id c) (cy_currency c) (cy_predecessor_cycle_id c) (cy_anchor_at c)
    (cy_cycle_seq c) (cy_cadence_kind c) (cy_starts_at c) ends st due
    (cy_active_finalization_id c) (cy_successor_cycle_id c) reason closedAt (cy_finalized_at c).

Definition CloseCycleForUsage (id : string) (closedAt : option time) (d : DB) : res (Z * DB) :=
  match db_cycles d !! id with
  | Some c =>
      if cycle_open c then
        let! d' := put_cycle id (with_status CyClosedForUsage (cy_ends_at c) (cy_finalization_due_at c)
                                   (cy_closed_reason c) closedAt c) d in Ret (1, d')
      else Ret (0, d)
  | None => Ret (0, d)
  end.

Definition CloseFreeCycleAtActivation (id : string) (effectiveAt : option time) (d : DB) : res (unit * DB) :=
  match db_cycles d !! id with
  | Some c =>
      if cycle_open c then
        let! at_ := not_null effectiveAt in
        let! d' := put_cycle id (with_status CyClosedForUsage at_ at_ "free_to_paid_activation" (Some at_) c) d in
        Ret (tt, d')
      else Ret (tt, d)
  | None => Ret (tt, d)
  end.

Definition LinkSuccessorBillingCycle (id successor : string) (d : DB) : res (unit * DB) :=
  match db_cycles d !! id with
  | Some c =>
      if decide (cy_successor_cycle_id c = "") then
        Ret (tt, set_cycles (<[id := mkCycleRow (cy_org_id c) (cy_product_id c) (cy_currency c)
               (cy_predecessor_cycle_id c) (cy_anchor_at c) (cy_cycle_seq c) (cy_cadence_kind c) (cy_starts_at c)
               (cy_ends_at c) (cy_status c) (cy_finalization_due_at c) (cy_active_finalization_id c)
               successor (cy_closed_reason c) (cy_closed_for_usage_at c) (cy_finalized_at c)]> (db_cycles d)) d)
      else Ret (tt, d)
  | None => Ret (tt, d)
  end.

(** catalog.go: ensureDefaultOrgTx with InsertDefaultOrg. *)
Definition InsertDefaultOrg (org : string) (d : DB) : res (unit * DB) :=
  match db_orgs d !! org with
  | Some _ => Ret (tt, d)
  | None => Ret (tt, set_orgs (<[org := mkOrgRow ("Org " +:+ org) "" "active" "new" "block"]> (db_orgs d)) d)
  end.

Definition billingCycleFromStore (kv : string * cycleRow) : billingCycle :=
  let c := kv.2 in
  mkCycle kv.1 (cy_currency c) (cy_predecessor_cycle_id c) (cy_anchor_at c) (cy_cycle_seq c) (cy_cadence_kind c)
    (cy_starts_at c) (cy_ends_at c).

(** ** What contracts.go and finalizations.go promise

    They apply scheduled contract changes and issue documents; they do not
    write billing windows, their legs, ledger commands or the price list, and
    do not call the ledger. *)

Definition windows_untouched (d d' : DB) : Prop :=
  db_windows d' = db_windows d /\ db_legs d' = db_legs d.

Definition periods_frame (d d' : DB) : Prop :=
  windows_untouched d d' /\ db_commands d' = db_commands d /\ ca_rates (db_catalog d') = ca_rates (db_catalog d).

#[export] Instance windows_untouched_preorder : PreOrder windows_untouched.
Proof. split; [done|]. intros d1 d2 d3 [H1 H2] [H3 H4]. split; congruence. Qed.

#[export] Instance periods_frame_preorder : PreOrder periods_frame.
Proof.
  split; [done|]. intros d1 d2 d3 (H1 & H2 & H3) (H4 & H5 & H6). split; [by etrans|split; congruence].
Qed.

Class PeriodWork (St : Type) : Type := {
  applyDueContractChangesTx : string -> string -> billingCycle -> time -> B (St := St) Z;
  ensureCycleFinalizationTx : string -> string -> billingCycle -> time -> B (St := St) string;
  FinalizeBillingFinalization : string -> B (St := St) bool;
  applyDueContractChanges_frame : forall o p c t, evolves periods_frame eq (applyDueContractChangesTx o p c t);
  ensureCycleFinalization_frame : forall o p c t, evolves periods_frame eq (ensureCycleFinalizationTx o p c t);
  FinalizeBillingFinalization_frame : forall id, evolves periods_frame eq (FinalizeBillingFinalization id)
}.

(** ** Handlers *)

Section Cycles.
Context {St : Type} `{Env} `{Digest} `{!PeriodWork St}.
#[local] Abbreviation Bx A := (@B St A).

Definition ensureDefaultOrgTx (orgID : string) : Bx unit :=
  if decide (orgIDText orgID = "") then mfail (Errorf "org_id is required")
  else statement (InsertDefaultOrg (orgIDText orgID)).

(** A timestamp argument of a comparison: with NULL no row matches. *)
Definition queryAt {A} (t : time) (f : time -> DB -> option A) : Bx (option A) :=
  match timestamptz t with
  | Some t' => query (f t')
  | None => mret None
  end.

Definition nextDueOpenCycleTx (orgID productID : string) (now : time) : Bx (option billingCycle) :=
  do! row <- queryAt now (GetNextDueOpenCycleForUpdate (orgIDText orgID) productID);
  mret (billingCycleFromStore <$> row).

Definition openBillingCycleContainingTx (orgID productID : string) (now : time) : Bx (option billingCycle) :=
  do! row <- queryAt now (GetOpenBillingCycleContaining (orgIDText orgID) productID);
  mret (billingCycleFromStore <$> row).

Definition anyOpenBillingCycleTx (orgID productID : string) : Bx (option billingCycle) :=
  do! row <- query (GetAnyOpenBillingCycle (orgIDText orgID) productID);
  mret (billingCycleFromStore <$> row).

Definition upsertCycleTx (keepPredecessor : bool) (orgID productID : string) (cycle : billingCycle) : Bx Z :=
  do! anchor <- mlift (not_null (timestamptz (bc_AnchorAt cycle)));
  do! startsAt <- mlift (not_null (timestamptz (bc_StartsAt cycle)));
  do! endsAt <- mlift (not_null (timestamptz (bc_EndsAt cycle)));
  statement (upsertCycle keepPredecessor (bc_CycleID cycle)
    (newCycleRow (orgIDText orgID) productID cycle anchor startsAt endsAt)).

Definition rfc (t : time) : jval := JStr (format_rfc3339nano t).

Definition ensureOpenBillingCycleTx (orgID productID : string) (now : time) : Bx billingCycle :=
  exec! ensureDefaultOrgTx orgID;
  do! current <- openBillingCycleContainingTx orgID productID now;
  match current with
  | Some cycle => mret cycle
  | None =>
      do! other <- anyOpenBillingCycleTx orgID productID;
      match other with
      | Some _ => mfail (Errorf "open billing cycle does not cover business time")
      | None =>
          let start := monthStartUTC now in
          let end_ := nextMonth now in
          let cycle := mkCycle (cycleID orgID productID start) "usd" "" start 0 "calendar_monthly" start end_ in
          do! rowsAffected <- upsertCycleTx true orgID productID cycle;
          if rowsAffected =? 0 then
            do! existing <- openBillingCycleContainingTx orgID productID now;
            match existing with
            | Some c => mret c
            | None => mfail (Errorf "ensure open billing cycle: conflicting non-open cycle")
            end
          else
            exec! appendEvent (mkEvent "billing_cycle_opened" "billing_cycle" (bc_CycleID cycle) orgID productID now
              [("cycle_id"%string, JStr (bc_CycleID cycle)); ("cadence_kind"%string, JStr (bc_CadenceKind cycle));
               ("starts_at"%string, rfc start); ("ends_at"%string, rfc end_)] "" "");
            mret cycle
      end
  end.

Definition closeCycleForUsageTx (orgID productID : string) (cycle : billingCycle) (now : time) : Bx unit :=
  do! rowsAffected <- statement (CloseCycleForUsage (bc_CycleID cycle) (timestamptz now));
  if rowsAffected =? 0 then mret tt
  else appendEvent (mkEvent "billing_cycle_closed_for_usage" "billing_cycle" (bc_CycleID cycle) orgID productID
    (bc_EndsAt cycle)
    [("cycle_id"%string, JStr (bc_CycleID cycle)); ("starts_at"%string, rfc (bc_StartsAt cycle));
     ("ends_at"%string, rfc (bc_EndsAt cycle)); ("closed_at"%string, rfc now);
     ("status"%string, JStr "closed_for_usage"); ("cycle_seq"%string, JInt (bc_CycleSeq cycle));
     ("anchor_at"%string, rfc (bc_AnchorAt cycle)); ("currency"%string, JStr (bc_Currency cycle));
     ("cadence"%string, JStr (bc_CadenceKind cycle))] "" "").

Definition successorCycle (orgID productID : string) (predecessor : billingCycle) : billingCycle :=
  let start := bc_EndsAt predecessor in
  let anchor := if is_zero (bc_AnchorAt predecessor) then bc_StartsAt predecessor else bc_AnchorAt predecessor in
  mkCycle (cycleID orgID productID start) (cleanNonEmpty [bc_Currency predecessor; "usd"%string])
    (bc_CycleID predecessor) anchor (bc_CycleSeq predecessor + 1)
    (cleanNonEmpty [bc_CadenceKind predecessor; "calendar_monthly"%string]) start
    (cycleEndAfter (bc_CadenceKind predecessor) start).

Definition cycleEventPayload (c : billingCycle) : list (string * jval) :=
  [("cycle_id"%string, JStr (bc_CycleID c)); ("predecessor_cycle_id"%string, JStr (bc_PredecessorCycleID c));
   ("starts_at"%string, rfc (bc_StartsAt c)); ("ends_at"%string, rfc (bc_EndsAt c));
   ("anchor_at"%string, rfc (bc_AnchorAt c)); ("cycle_seq"%string, JInt (bc_CycleSeq c));
   ("cadence_kind"%string, JStr (bc_CadenceKind c))].

Definition openSuccessorCycleTx (orgID productID : string) (predecessor : billingCycle) (now : time) : Bx unit :=
  let successor := successorCycle orgID productID predecessor in
  do! rowsAffected <- upsertCycleTx false orgID productID successor;
  if rowsAffected =? 0 then mret tt
  else
    exec! statement (LinkSuccessorBillingCycle (bc_CycleID predecessor) (bc_CycleID successor));
    appendEvent (mkEvent "billing_cycle_opened" "billing_cycle" (bc_CycleID successor) orgID productID now
      (cycleEventPayload successor) "" "").

(** The transaction of one ApplyDueBillingWork iteration; [None] when no
    cycle is due. *)
Definition rollDueCycleTx (orgID productID : string) : Bx (option (Z * string)) :=
  do! now <- BusinessNow orgID productID;
  do! due <- nextDueOpenCycleTx orgID productID now;
  match due with
  | None => mret None
  | Some cycle =>
      exec! closeCycleForUsageTx orgID productID cycle now;
      do! applied <- applyDueContractChangesTx orgID productID cycle now;
      do! finalization <- ensureCycleFinalizationTx orgID productID cycle now;
      exec! openSuccessorCycleTx orgID productID cycle now;
      mret (Some (applied, finalization))
  end.

Record DueWorkSummary : Type := mkDueWork {
  CyclesRolledOver : Z;
  ContractChangesApplied : Z
}.

(** The loop of ApplyDueBillingWork. *)
Fixpoint applyDueLoop (fuel : nat) (orgID productID : string) (summary : DueWorkSummary) : Bx DueWorkSummary :=
  match fuel with
  | O => mfail OutOfFuel
  | S fuel' =>
      do! rolled <- WithTx (rollDueCycleTx orgID productID);
      match rolled with
      | None => mret summary
      | Some (applied, finalization) =>
          exec! (if negb (bool_decide (finalization = "")) && negb runtime_configured
                 then do! _ <- FinalizeBillingFinalization finalization; mret tt
                 else mret tt);
          applyDueLoop fuel' orgID productID
            (mkDueWork (CyclesRolledOver summary + 1) (ContractChangesApplied summary + applied))
      end
  end.

Definition ApplyDueBillingWork (fuel : nat) (orgID productID : string) : Bx DueWorkSummary :=
  applyDueLoop fuel orgID productID (mkDueWork 0 0).

Definition EnsureOpenBillingCycle (fuel : nat) (orgID productID : string) : Bx billingCycle :=
  exec! ApplyDueBillingWork fuel orgID productID;
  WithTx (do! now <- BusinessNow orgID productID; ensureOpenBillingCycleTx orgID productID now).

Definition insertActivationCycleTx (orgID productID predecessorCycleID : string) (anchor startsAt : time) : Bx billingCycle :=
  let cadence := "anniversary_monthly"%string in
  let cycle := mkCycle (cycleID orgID productID startsAt) "usd" predecessorCycleID anchor 0 cadence startsAt
                 (cycleEndAfter cadence startsAt) in
  do! rowsAffected <- upsertCycleTx false orgID productID cycle;
  if rowsAffected =? 0 then
    do! existing <- openBillingCycleContainingTx orgID productID startsAt;
    match existing with
    | Some c => if decide (bc_CycleID c = bc_CycleID cycle) then mret c
                else mfail (Errorf "insert activation billing cycle: conflicting non-open cycle")
    | None => mfail (Errorf "insert activation billing cycle: conflicting non-open cycle")
    end
  else
    exec! (if decide (predecessorCycleID = "") then mret tt
           else statement (LinkSuccessorBillingCycle predecessorCycleID (bc_CycleID cycle)));
    exec! appendEvent (mkEvent "billing_cycle_opened" "billing_cycle" (bc_CycleID cycle) orgID productID startsAt
      (cycleEventPayload cycle ++ [("reason"%string, JStr "free_to_paid_activation")]) "" "");
    mret cycle.

Definition splitCycleForContractActivationTx (orgID productID : string) (effectiveAt : time) : Bx (billingCycle * string) :=
  do! current <- openBillingCycleContainingTx orgID productID effectiveAt;
  match current with
  | Some cycle =>
      if negb (bc_StartsAt cycle <? effectiveAt) then mret (cycle, ""%string)
      else
        exec! statement (CloseFreeCycleAtActivation (bc_CycleID cycle) (timestamptz effectiveAt));
        let closed := mkCycle (bc_CycleID cycle) (bc_Currency cycle) (bc_PredecessorCycleID cycle) (bc_AnchorAt cycle)
                        (bc_CycleSeq cycle) (bc_CadenceKind cycle) (bc_StartsAt cycle) effectiveAt in
        do! finalization <- ensureCycleFinalizationTx orgID productID closed effectiveAt;
        do! successor <- insertActivationCycleTx orgID productID (bc_CycleID closed) effectiveAt effectiveAt;
        mret (successor, finalization)
  | None =>
      do! cycle <- insertActivationCycleTx orgID productID "" effectiveAt effectiveAt;
      mret (cycle, ""%string)
  end.
End Cycles.
