(* ===== verification/Entitlements.v ===== *)
(** * Entitlements and grant balances

    Models billing/entitlements.go (the materialisation of free-tier and
    contract entitlements as grants, manual deposits, proration) and the
    loading of grant balances: ListGrantBalances of billing/grants.go and
    grantBalancesTx of billing/windows.go, with the SQL they run. *)

From S2P Require Import Prelude GoFloat GoStd GoTime Json Types Ids Ledger Charges Grants Store Events LedgerCommands.
From S2P Require Import LedgerGrants Cycles.

Record entitlementInsert : Type := mkEntitlement {
  ei_PeriodID : string;
  ei_ProductID : string;
  ei_CycleID : string;
  ei_Source : string;
  ei_PolicyID : string;
  ei_ContractID : string;
  ei_PhaseID : string;
  ei_LineID : string;
  ei_ScopeType : string;
  ei_ScopeProductID : string;
  ei_ScopeBucketID : string;
  ei_ScopeSKUID : string;
  ei_PolicyVersion : string;
  ei_EntitlementState : string;
  ei_PaymentState : string;
  ei_CalculationKind : string;
  ei_PlanID : string;
  ei_SourceReferenceID : string;
  ei_GrantID : string;
  ei_OrgID : string;
  ei_Amount : Z;
  ei_PeriodStart : time;
  ei_PeriodEnd : time
}.

Fixpoint firstUint64 (values : list Z) : Z :=
  match values with
  | [] => 0
  | v :: vs => if v =? 0 then firstUint64 vs else v
  end.

(** uint64(f) *)
Definition u64_of_float `{Env} (f : f64) : Z := match f64_to_u64 f with Some z => z | None => float_overflow f end.

Definition prorateUnits `{Env} (full numerator denominator : Z) : Z :=
  if (denominator <=? 0) || (numerator <=? 0) || (full =? 0) then 0
  else u64_of_float (f64_ceil (f64_div (f64_mul (f64_of_Z full) (f64_of_Z numerator)) (f64_of_Z denominator))).

(** ** Statements (store/queries/entitlements.sql, windows.sql, reads.sql) *)

Definition active_at (now from : time) (until : option time) : bool :=
  (from <=? now) && match until with None => true | Some u => now <? u end.

Definition ListActiveFreeTierPolicies (productID : string) (now : time) (d : DB) : list (string * policyRow) :=
  sort_slice field_less
    (filter (fun kv => po_source kv.2 = "free_tier" /\ po_product_id kv.2 = productID
                       /\ active_at now (po_active_from kv.2) (po_active_until kv.2) = true)
       (map_to_list (ca_policies (db_catalog d)))).

Definition phase_live (now : time) (ph : phaseRow) : bool :=
  bool_decide (ph_state ph ∈ [PhActive; PhGrace]) && active_at now (ph_effective_start ph) (ph_effective_end ph).

Definition contract_live (c : contractRow) : bool :=
  bool_decide (ct_state c ∈ [KActive; KPastDue; KCancelScheduled]).

Definition line_live (org productID : string) (now : time) (d : DB) (l : lineRow) : bool :=
  bool_decide (li_org_id l = org) && bool_decide (li_product_id l = productID)
  && active_at now (li_active_from l) (li_active_until l)
  && match kt_phases (db_contracts d) !! li_phase_id l, kt_contracts (db_contracts d) !! li_contract_id l with
     | Some ph, Some c => phase_live now ph && contract_live c
     | _, _ => false
     end.

(** Each line with the plan of its phase. *)
Definition ListActiveContractEntitlementLines (org productID : string) (now : time) (d : DB)
    : list (string * (lineRow * string)) :=
  sort_slice field_less
    ((fun kv => (kv.1, (kv.2, match kt_phases (db_contracts d) !! li_phase_id kv.2 with
                              | Some ph => ph_plan_id ph
                              | None => ""%string
                              end)))
       <$> filter (fun kv => line_live org productID now d kv.2 = true) (map_to_list (kt_lines (db_contracts d)))).

(** The scope CHECK of entitlement_periods and credit_grants. *)
Definition scope_ok (scopeType product bucket sku : string) : bool :=
  let set s := negb (bool_decide (s = "")) in
  if decide (scopeType = "sku") then set product && set bucket && set sku
  else if decide (scopeType = "bucket") then set product && set bucket && negb (set sku)
  else if decide (scopeType = "product") then set product && negb (set bucket) && negb (set sku)
  else if decide (scopeType = "account") then negb (set product) && negb (set bucket) && negb (set sku)
  else false.

Definition grant_source_ok (source : string) : bool :=
  bool_decide (source ∈ ["free_tier"; "contract"; "purchase"; "promo"; "refund"]%string).

Definition same_period_reference (r r' : periodRow) : bool :=
  bool_decide (p_org_id r = p_org_id r') && bool_decide (p_source r = p_source r')
  && bool_decide (p_source_reference_id r = p_source_reference_id r').

Definition InsertEntitlementPeriod (periodID : string) (row : periodRow) (d : DB) : res (unit * DB) :=
  if existsb (fun kv => same_period_reference row kv.2) (map_to_list (db_periods d)) then Ret (tt, d)
  else match db_periods d !! periodID with
       | Some _ => errorf "duplicate key value violates unique constraint"
       | None =>
           let! _ := check_constraint ((p_period_start row <? p_period_end row)
             && scope_ok (p_scope_type row) (p_scope_product_id row) (p_scope_bucket_id row) (p_scope_sku_id row)
             && grant_source_ok (p_source row) && negb (bool_decide (p_policy_version row = ""))
             && negb (bool_decide (p_source_reference_id row = ""))) in
           Ret (tt, set_periods (<[periodID := row]> (db_periods d)) d)
       end.

(** The unique index credit_grants_source_reference_idx. *)
Definition same_grant_reference (r r' : grantRow) : bool :=
  bool_decide (g_org_id r = g_org_id r') && bool_decide (g_source r = g_source r')
  && bool_decide (g_scope_type r = g_scope_type r') && bool_decide (g_scope_product_id r = g_scope_product_id r')
  && bool_decide (g_scope_bucket_id r = g_scope_bucket_id r') && bool_decide (g_scope_sku_id r = g_scope_sku_id r')
  && bool_decide (g_source_reference_id r = g_source_reference_id r').

(** InsertCreditGrantForEntitlement and InsertManualCreditGrant: the number of
    rows inserted. *)
Definition InsertCreditGrant (grantID : string) (row : grantRow) (d : DB) : res (Z * DB) :=
  if existsb (fun kv => same_grant_reference row kv.2) (map_to_list (db_grants d)) then Ret (0, d)
  else match db_grants d !! grantID with
       | Some _ => errorf "duplicate key value violates unique constraint"
       | None =>
           let! _ := check_constraint (negb (bool_decide (grantID = ""))
             && scope_ok (g_scope_type row) (g_scope_product_id row) (g_scope_bucket_id row) (g_scope_sku_id row)
             && grant_source_ok (g_source row) && (0 <=? g_amount row)
             && negb (bool_decide (g_source_reference_id row = "")) && negb (bool_decide (g_policy_version row = ""))
             && match g_expires_at row with None => true | Some e => g_starts_at row <? e end
             && match g_period_start row, g_period_end row with
                | None, None => true
                | Some s, Some e => s <? e
                | _, _ => false
                end) in
           Ret (1, set_grants (<[grantID := row]> (db_grants d)) d)
       end.

Definition reopened_period (cycleID : string) (amount : Z) (start end_ : time)
    (version payment state kind : string) (r : periodRow) : periodRow :=
  mkPeriodRow (p_org_id r) (p_product_id r) cycleID (p_source r) (p_policy_id r) (p_contract_id r) (p_phase_id r)
    (p_line_id r) (p_scope_type r) (p_scope_product_id r) (p_scope_bucket_id r) (p_scope_sku_id r) amount start end_
    version payment state kind (p_source_reference_id r) "".

Definition ReopenMaterializedEntitlementPeriod (in_ : entitlementInsert) (org : string) (amount : Z) (start end_ : time)
    (d : DB) : res (unit * DB) :=
  Ret (tt, set_periods
    ((fun r => if bool_decide (p_org_id r = org) && bool_decide (p_source r = ei_Source in_)
                  && bool_decide (p_source_reference_id r = ei_SourceReferenceID in_)
                  && bool_decide (p_entitlement_state r = "voided")
               then reopened_period (ei_CycleID in_) amount start end_ (ei_PolicyVersion in_) (ei_PaymentState in_)
                      (ei_EntitlementState in_) (ei_CalculationKind in_) r
               else r) <$> db_periods d) d).

Definition reopened_grant (periodID version : string) (start end_ : time) (g : grantRow) : grantRow :=
  mkGrantRow (g_org_id g) (g_scope_type g) (g_scope_product_id g) (g_scope_bucket_id g) (g_scope_sku_id g)
    (g_amount g) (g_source g) (g_source_reference_id g) periodID version start (Some start) (Some end_) (Some end_)
    None "" (g_account_id g) (g_deposit_transfer_id g) (g_ledger_posting_state g) (g_ledger_posted_at g)
    (g_ledger_last_error g).

Definition ReopenMaterializedCreditGrant (in_ : entitlementInsert) (org : string) (start end_ : time) (d : DB)
    : res (unit * DB) :=
  Ret (tt, set_grants
    ((fun g => if bool_decide (g_org_id g = org) && bool_decide (g_source g = ei_Source in_)
                  && bool_decide (g_scope_type g = ei_ScopeType in_)
                  && bool_decide (g_scope_product_id g = ei_ScopeProductID in_)
                  && bool_decide (g_scope_bucket_id g = ei_ScopeBucketID in_)
                  && bool_decide (g_scope_sku_id g = ei_ScopeSKUID in_)
                  && bool_decide (g_source_reference_id g = ei_SourceReferenceID in_)
                  && bool_decide (is_Some (g_closed_at g))
               then reopened_grant (ei_PeriodID in_) (ei_PolicyVersion in_) start end_ g
               else g) <$> db_grants d) d).

(** CASE g.source WHEN 'free_tier' THEN 1 ... ELSE 6 END *)
Definition sqlSourceOrder (source : string) : Z :=
  if decide (source = "free_tier") then 1
  else if decide (source = "contract") then 2
  else if decide (source = "promo") then 3
  else if decide (source = "refund") then 4
  else if decide (source = "purchase") then 5
  else 6.

Definition grantListLess : (string * grantRow) -> (string * grantRow) -> bool :=
  lex_key Z.eqb Z.ltb (fun kv => sqlSourceOrder (g_source kv.2)) grantRowLess.

Definition grant_open (org productID : string) (now : time) (g : grantRow) : bool :=
  bool_decide (g_org_id g = org) && bool_decide (g_closed_at g = None) && grant_in_product productID g
  && match g_expires_at g with None => true | Some e => now <? e end.

Definition ListGrantBalanceRows (org productID : string) (now : time) (d : DB) : list (string * grantRow) :=
  sort_slice grantListLess (filter (fun kv => grant_open org productID now kv.2 = true) (map_to_list (db_grants d))).

Definition ListGrantBalancesForReservation (org productID : string) (now : time) (d : DB) : list (string * grantRow) :=
  sort_slice grantListLess
    (filter (fun kv => grant_open org productID now kv.2 = true /\ g_starts_at kv.2 <= now) (map_to_list (db_grants d))).

(** The joins to entitlement_periods, contract_phases and plans: plan id, tier
    and display name. *)
Definition grant_plan (d : DB) (g : grantRow) : string * string * string :=
  let phase :=
    match db_periods d !! g_entitlement_period_id g with
    | Some p => kt_phases (db_contracts d) !! p_phase_id p
    | None => None
    end in
  match phase with
  | None => ("", "", "")%string
  | Some ph =>
      match ca_plans (db_catalog d) !! ph_plan_id ph with
      | Some pl => (ph_plan_id ph, pl_tier pl, pl_display_name pl)
      | None => (ph_plan_id ph, "", "")%string
      end
  end.

(** The amount a leg holds: what is posted while its window settles, what was
    reserved before that. *)
Definition leg_hold (w : windowRow) (l : legRow) : Z :=
  if decide (w_state w = WSettling) then l_amount_posted l else l_amount_reserved l.

Definition window_holds (w : windowRow) : bool :=
  match w_state w with WReserved | WActive | WSettling => true | _ => false end.

Definition hold_step (org : string) (d : DB) (sums : gmap string Z) (kv : (string * Z) * legRow) : gmap string Z :=
  match db_windows d !! kv.1.1 with
  | Some w =>
      if bool_decide (w_org_id w = org) && window_holds w && negb (bool_decide (l_grant_id kv.2 = ""))
      then <[l_grant_id kv.2 := map_u64 sums (l_grant_id kv.2) + leg_hold w kv.2]> sums
      else sums
  | None => sums
  end.

Definition ListAuthorizedGrantUsage (org : string) (d : DB) : res (gmap string Z) :=
  let sums := foldl (hold_step org d) ∅ (map_to_list (db_legs d)) in
  if forallb (fun kv => kv.2 <=? i64_max) (map_to_list sums) then Ret sums
  else errorf "bigint out of range".

(** ** Grant balances *)

Section Entitlements.
Context {St : Type} `{Env} `{Digest} `{HC : TBCodec} `{!TigerBeetle St} `{!PeriodWork St}.
#[local] Abbreviation Bx A := (@B St A).

(** One row of a balance query as a GrantBalance. *)
Definition grantBalanceOfRow (d : DB) (orgID : string) (kv : string * grantRow) : res GrantBalance :=
  let g := kv.2 in
  let! accountID := IDFromBytes (g_account_id g) in
  let! amount := checkedUint64FromInt64 (g_amount g) in
  let '(planID, tier, display) := grant_plan d g in
  Ret (mkGrant orgID kv.1 (g_scope_type g) (g_scope_product_id g) (g_scope_bucket_id g) (g_scope_sku_id g)
         (g_source g) (g_source_reference_id g) (g_entitlement_period_id g) (g_policy_version g) planID tier display
         (g_starts_at g) (g_period_start g) (g_period_end g) (g_expires_at g) amount amount 0 0 0 accountID).

(** The write-back loop of hydrateGrantLedgerBalances, for one grant. *)
Definition hydrateOne (balances : gmap ID Balance) (g : GrantBalance) : res GrantBalance :=
  match balances !! gb_ledgerAccountID g with
  | None => Err (LedgerErr ErrAccountNotFound)
  | Some b => Ret (set_balances g (bal_Available b) (bal_Pending b) (bal_Spent b))
  end.

Definition hydrateGrantLedgerBalances (grants : list GrantBalance) : Bx (list GrantBalance) :=
  match grants with
  | [] => mret []
  | _ =>
      exec! requireLedger;
      if existsb (fun g => IsZero (gb_ledgerAccountID g)) grants
      then mfail (Errorf "grant missing ledger account id")
      else
        do! balances <- ledger_query (LookupBalances ledger_configured (gb_ledgerAccountID <$> grants));
        mlift (outcome_map (hydrateOne balances) grants)
  end.

(** grantAuthorizedUsage and grantAuthorizedUsageTx *)
Definition grantAuthorizedUsage (orgID : string) : Bx (gmap string Z) :=
  do! rows <- query (ListAuthorizedGrantUsage (orgIDText orgID));
  do! sums <- mlift rows;
  mret (filter (fun kv => 0 < kv.2) sums).

(** The common tail of ListGrantBalances and grantBalancesTx. *)
Definition balancesOfRows (orgID : string) (rows : list (string * grantRow)) : Bx (list GrantBalance) :=
  do! d <- query id;
  do! grants <- mlift (outcome_map (grantBalanceOfRow d orgID) rows);
  do! hydrated <- hydrateGrantLedgerBalances grants;
  do! authorized <- grantAuthorizedUsage orgID;
  mret (grantsByFundingPriority (holdAuthorized authorized <$> hydrated)).

Definition rowsAt (t : time) (f : time -> DB -> list (string * grantRow)) : Bx (list (string * grantRow)) :=
  match timestamptz t with
  | Some t' => query (f t')
  | None => mret []
  end.

Definition grantBalancesTx (orgID productID : string) : Bx (list GrantBalance) :=
  do! now <- BusinessNow orgID productID;
  do! rows <- rowsAt now (ListGrantBalancesForReservation (orgIDText orgID) productID);
  balancesOfRows orgID rows.

(** ** Materialisation *)

Definition reopenMaterializedEntitlementAndGrantTx (in_ : entitlementInsert) : Bx unit :=
  do! amount <- mlift (checkedInt64FromUint64 (ei_Amount in_));
  do! start <- mlift (not_null (timestamptz (ei_PeriodStart in_)));
  do! end_ <- mlift (not_null (timestamptz (ei_PeriodEnd in_)));
  exec! statement (ReopenMaterializedEntitlementPeriod in_ (orgIDText (ei_OrgID in_)) amount start end_);
  statement (ReopenMaterializedCreditGrant in_ (orgIDText (ei_OrgID in_)) start end_).

Definition insertEntitlementAndGrantTx (in_ : entitlementInsert) : Bx unit :=
  do! accountID <- NewID;
  do! depositID <- NewID;
  do! amount <- mlift (checkedInt64FromUint64 (ei_Amount in_));
  do! start <- mlift (not_null (timestamptz (ei_PeriodStart in_)));
  do! end_ <- mlift (not_null (timestamptz (ei_PeriodEnd in_)));
  exec! statement (InsertEntitlementPeriod (ei_PeriodID in_)
    (mkPeriodRow (orgIDText (ei_OrgID in_)) (ei_ProductID in_) (ei_CycleID in_) (ei_Source in_) (ei_PolicyID in_)
       (ei_ContractID in_) (ei_PhaseID in_) (ei_LineID in_) (ei_ScopeType in_) (ei_ScopeProductID in_)
       (ei_ScopeBucketID in_) (ei_ScopeSKUID in_) amount start end_ (ei_PolicyVersion in_) (ei_PaymentState in_)
       (ei_EntitlementState in_) (ei_CalculationKind in_) (ei_SourceReferenceID in_) ""));
  do! rowsAffected <- statement (InsertCreditGrant (ei_GrantID in_)
    (mkGrantRow (orgIDText (ei_OrgID in_)) (ei_ScopeType in_) (ei_ScopeProductID in_) (ei_ScopeBucketID in_)
       (ei_ScopeSKUID in_) amount (ei_Source in_) (ei_SourceReferenceID in_) (ei_PeriodID in_) (ei_PolicyVersion in_)
       start (Some start) (Some end_) (Some end_) None "" accountID depositID GPending None ""));
  if rowsAffected =? 0 then reopenMaterializedEntitlementAndGrantTx in_
  else appendEvent (mkEvent "grant_issued" "credit_grant" (ei_GrantID in_) (ei_OrgID in_) (ei_ProductID in_)
    (ei_PeriodStart in_)
    [("grant_id"%string, JStr (ei_GrantID in_)); ("period_id"%string, JStr (ei_PeriodID in_));
     ("cycle_id"%string, JStr (ei_CycleID in_)); ("source"%string, JStr (ei_Source in_));
     ("source_reference_id"%string, JStr (ei_SourceReferenceID in_)); ("amount"%string, JInt (ei_Amount in_));
     ("scope_type"%string, JStr (ei_ScopeType in_)); ("scope_product_id"%string, JStr (ei_ScopeProductID in_));
     ("scope_bucket_id"%string, JStr (ei_ScopeBucketID in_)); ("scope_sku_id"%string, JStr (ei_ScopeSKUID in_));
     ("period_start"%string, rfc (ei_PeriodStart in_)); ("period_end"%string, rfc (ei_PeriodEnd in_));
     ("pricing_contract_id"%string, JStr (ei_ContractID in_)); ("pricing_phase_id"%string, JStr (ei_PhaseID in_));
     ("pricing_plan_id"%string, JStr (ei_PlanID in_)); ("entitlement_policy_id"%string, JStr (ei_PolicyID in_))] "" "").

Definition periodRef (prefix id : string) (cycle : billingCycle) : string :=
  prefix +:+ ":" +:+ id +:+ ":" +:+ format_rfc3339nano (bc_StartsAt cycle) +:+ ":" +:+ format_rfc3339nano (bc_EndsAt cycle).

Definition freeTierInsert (orgID productID : string) (cycle : billingCycle) (kv : string * policyRow) : res entitlementInsert :=
  let '(policyID, row) := kv in
  let sourceRef := periodRef "free_tier" policyID cycle in
  let! amount := checkedUint64FromInt64 (po_amount_units row) in
  Ret (mkEntitlement (freeTierPeriodID orgID policyID (bc_StartsAt cycle) (bc_EndsAt cycle)) productID (bc_CycleID cycle)
         "free_tier" policyID "" "" "" (po_scope_type row) (po_scope_product_id row) (po_scope_bucket_id row)
         (po_scope_sku_id row) (po_policy_version row) "active" "not_required" "recurrence" "" sourceRef
         (grantID orgID "free_tier" (po_scope_type row) (po_scope_product_id row) (po_scope_bucket_id row)
            (po_scope_sku_id row) sourceRef)
         orgID amount (bc_StartsAt cycle) (bc_EndsAt cycle)).

Definition materializeFreeTierTx (orgID productID : string) (cycle : billingCycle) (now : time) : Bx unit :=
  do! rows <- match timestamptz now with
              | Some t => query (ListActiveFreeTierPolicies productID t)
              | None => mret []
              end;
  do! inserts <- mlift (outcome_map (freeTierInsert orgID productID cycle) rows);
  forEach insertEntitlementAndGrantTx inserts.

Definition contractInsert (orgID productID : string) (cycle : billingCycle) (kv : string * (lineRow * string))
    : res entitlementInsert :=
  let '(lineID, (row, planID)) := kv in
  let sourceRef := periodRef "contract" lineID cycle in
  let! amount := checkedUint64FromInt64 (li_amount_units row) in
  Ret (mkEntitlement (contractPeriodID orgID lineID (bc_CycleID cycle) (bc_StartsAt cycle) (bc_EndsAt cycle)) productID
         (bc_CycleID cycle) "contract" (li_policy_id row) (li_contract_id row) (li_phase_id row) lineID
         (li_scope_type row) (li_scope_product_id row) (li_scope_bucket_id row) (li_scope_sku_id row)
         (li_policy_version row) "active" "paid" "recurrence" planID sourceRef
         (grantID orgID "contract" (li_scope_type row) (li_scope_product_id row) (li_scope_bucket_id row)
            (li_scope_sku_id row) sourceRef)
         orgID amount (bc_StartsAt cycle) (bc_EndsAt cycle)).

Definition materializeActiveContractTx (orgID productID : string) (cycle : billingCycle) (now : time) : Bx unit :=
  do! rows <- match timestamptz now with
              | Some t => query (ListActiveContractEntitlementLines (orgIDText orgID) productID t)
              | None => mret []
              end;
  do! inserts <- mlift (outcome_map (contractInsert orgID productID cycle) rows);
  forEach insertEntitlementAndGrantTx inserts.

Definition ensureCurrentEntitlements (orgID productID : string) : Bx unit :=
  WithTx (
    do! now <- BusinessNow orgID productID;
    do! cycle <- ensureOpenBillingCycleTx orgID productID now;
    exec! materializeFreeTierTx orgID productID cycle now;
    materializeActiveContractTx orgID productID cycle now).

Definition EnsureCurrentEntitlements (fuel : nat) (orgID productID : string) : Bx unit :=
  exec! ApplyDueBillingWork fuel orgID productID;
  exec! ensureCurrentEntitlements orgID productID;
  exec! PostPendingGrantDeposits orgID productID;
  mret tt.

Definition ListGrantBalances (fuel : nat) (orgID productID : string) : Bx (list GrantBalance) :=
  do! now <- BusinessNow orgID productID;
  exec! (if decide (productID = "") then exec! PostPendingGrantDeposits orgID ""; mret tt
         else EnsureCurrentEntitlements fuel orgID productID);
  do! rows <- rowsAt now (ListGrantBalanceRows (orgIDText orgID) productID);
  balancesOfRows orgID rows.

(** ** Manual deposits *)

Definition with_identity (g : GrantBalance) (grantID source scopeType sourceRef : string) (startsAt : time) : GrantBalance :=
  mkGrant (gb_OrgID g) grantID scopeType (gb_ScopeProductID g) (gb_ScopeBucketID g)
    (gb_ScopeSKUID g) source sourceRef (gb_EntitlementPeriodID g) (gb_PolicyVersion g)
    (gb_PlanID g) (gb_PlanTier g) (gb_PlanDisplayName g) startsAt (gb_PeriodStart g) (gb_PeriodEnd g)
    (gb_ExpiresAt g) (gb_OriginalAmount g) (gb_Amount g) (gb_Available g) (gb_Pending g) (gb_Spent g) (gb_ledgerAccountID g).

Definition DepositCredits (grant : GrantBalance) : Bx GrantBalance :=
  let source := if decide (gb_Source grant = "") then "purchase"%string else gb_Source grant in
  let scopeType := if decide (gb_ScopeType grant = "") then "account"%string else gb_ScopeType grant in
  let orgID := gb_OrgID grant in
  if decide (orgIDText orgID = "") then mfail (Errorf "org_id is required")
  else if firstUint64 [gb_OriginalAmount grant; gb_Amount grant] =? 0 then mfail (Errorf "amount is required")
  else
    do! sourceRef <- (if decide (gb_SourceReferenceID grant = "")
                      then do! now <- timeNow;
                           mret (textID "deposit_ref" [orgIDText orgID; gb_GrantID grant; format_rfc3339nano now])
                      else mret (gb_SourceReferenceID grant));
    let gid := if decide (gb_GrantID grant = "")
               then grantID orgID source scopeType (gb_ScopeProductID grant) (gb_ScopeBucketID grant)
                      (gb_ScopeSKUID grant) sourceRef
               else gb_GrantID grant in
    do! startsAt <- (if is_zero (gb_StartsAt grant) then timeNow else mret (gb_StartsAt grant));
    do! accountID <- NewID;
    do! depositID <- NewID;
    exec! WithTx (
      do! amount <- mlift (checkedInt64FromUint64 (firstUint64 [gb_OriginalAmount grant; gb_Amount grant]));
      do! start <- mlift (not_null (timestamptz startsAt));
      exec! statement (InsertCreditGrant gid
        (mkGrantRow (orgIDText orgID) scopeType (gb_ScopeProductID grant) (gb_ScopeBucketID grant)
           (gb_ScopeSKUID grant) amount source sourceRef (gb_EntitlementPeriodID grant)
           (cleanNonEmpty [gb_PolicyVersion grant; "v1"%string]) start None None
           (match gb_ExpiresAt grant with Some e => timestamptz e | None => None end)
           None "" accountID depositID GPending None ""));
      appendEvent (mkEvent "grant_issued" "credit_grant" gid orgID (gb_ScopeProductID grant) startsAt
        [("grant_id"%string, JStr gid); ("source"%string, JStr source);
         ("amount"%string, JInt (firstUint64 [gb_OriginalAmount grant; gb_Amount grant]))] "" ""));
    exec! postGrantDeposit gid;
    mret (with_identity grant gid source scopeType sourceRef startsAt).
End Entitlements.
