(* ===== verification/ContractStore.v ===== *)
(** * Contracts: tables and statements

    The constraints of contracts, contract_phases, contract_entitlement_lines
    and contract_changes (migrations/001_initial_schema.up.sql) and the
    statements of store/queries/contracts.sql.  A timestamp argument is an
    [option]: NULL when the Go time is zero. *)

From S2P Require Import Prelude GoFloat GoStd GoTime Json Types Ids Ledger Charges Grants Store Events.
From S2P Require Import Cycles Entitlements.

(** ** Constraints *)

Definition is_none {A} (o : option A) : bool := match o with None => true | Some _ => false end.

(** A nullable timestamp column compared with a NOT NULL one. *)
Definition after_opt (a : time) (o : option time) : bool :=
  match o with None => true | Some b => a <? b end.

Definition live_contract (c : contractRow) : bool :=
  bool_decide (ct_state c ∈ [KPendingActivation; KActive; KPastDue; KSuspended; KCancelScheduled]).

Definition contract_checks (c : contractRow) : bool :=
  after_opt (ct_starts_at c) (ct_ends_at c)
  && (is_none (ct_closed_at c) || bool_decide (ct_state c ∈ [KEnded; KVoided]))
  && (is_none (ct_cancel_at c) || bool_decide (ct_state c ∈ [KCancelScheduled; KEnded; KVoided])).

(** contracts_one_live_per_org_product_idx *)
Definition contracts_conflict (c c' : contractRow) : bool :=
  live_contract c && live_contract c' && bool_decide (ct_org_id c = ct_org_id c')
  && bool_decide (ct_product_id c = ct_product_id c').

Definition set_kt_contracts (x : gmap string contractRow) (d : DB) : DB :=
  set_contracts (mkContractTables x (kt_phases (db_contracts d)) (kt_lines (db_contracts d)) (kt_changes (db_contracts d))) d.
Definition set_kt_phases (x : gmap string phaseRow) (d : DB) : DB :=
  set_contracts (mkContractTables (kt_contracts (db_contracts d)) x (kt_lines (db_contracts d)) (kt_changes (db_contracts d))) d.
Definition set_kt_lines (x : gmap string lineRow) (d : DB) : DB :=
  set_contracts (mkContractTables (kt_contracts (db_contracts d)) (kt_phases (db_contracts d)) x (kt_changes (db_contracts d))) d.
Definition set_kt_changes (x : gmap string changeRow) (d : DB) : DB :=
  set_contracts (mkContractTables (kt_contracts (db_contracts d)) (kt_phases (db_contracts d)) (kt_lines (db_contracts d)) x) d.

Definition conflicts {A} (conflict : A -> A -> bool) (id : string) (row : A) (m : gmap string A) : bool :=
  existsb (fun kv => negb (bool_decide (kv.1 = id)) && conflict row kv.2) (map_to_list m).

(** Write a row that satisfies its checks and the unique indexes. *)
Definition put_row {A} (checks : A -> bool) (conflict : A -> A -> bool) (set : gmap string A -> DB -> DB)
    (m : gmap string A) (id : string) (row : A) (d : DB) : res DB :=
  let! _ := check_constraint (negb (bool_decide (id = "")) && checks row) in
  if conflicts conflict id row m then errorf "duplicate key value violates unique constraint"
  else Ret (set (<[id := row]> m) d).

Definition put_contract (id : string) (c : contractRow) (d : DB) : res DB :=
  put_row contract_checks contracts_conflict set_kt_contracts (kt_contracts (db_contracts d)) id c d.

Definition phase_current (p : phaseRow) : bool := bool_decide (ph_state p ∈ [PhActive; PhGrace]).

(** active, grace or scheduled *)
Definition phase_open (p : phaseRow) : bool := bool_decide (ph_state p ∈ [PhActive; PhGrace; PhScheduled]).

Definition phase_checks (p : phaseRow) : bool :=
  after_opt (ph_effective_start p) (ph_effective_end p)
  && Bool.eqb (bool_decide (ph_phase_kind p = "catalog_plan")) (negb (bool_decide (ph_plan_id p = "")))
  && (is_none (ph_closed_at p) || bool_decide (ph_state p ∈ [PhSuperseded; PhClosed; PhVoided]))
  && (0 <=? ph_recurring_amount_units p) && negb (bool_decide (ph_currency p = "")).

(** tstzrange(effective_start, COALESCE(effective_end, 'infinity'), '[)') && *)
Definition phases_overlap (p p' : phaseRow) : bool :=
  after_opt (ph_effective_start p) (ph_effective_end p') && after_opt (ph_effective_start p') (ph_effective_end p).

(** contract_phases_no_active_overlap *)
Definition phases_conflict (p p' : phaseRow) : bool :=
  phase_current p && phase_current p' && bool_decide (ph_org_id p = ph_org_id p')
  && bool_decide (ph_product_id p = ph_product_id p') && phases_overlap p p'.

Definition put_phase (id : string) (p : phaseRow) (d : DB) : res DB :=
  put_row phase_checks phases_conflict set_kt_phases (kt_phases (db_contracts d)) id p d.

Definition line_checks (l : lineRow) : bool :=
  scope_ok (li_scope_type l) (li_scope_product_id l) (li_scope_bucket_id l) (li_scope_sku_id l)
  && (0 <=? li_amount_units l) && after_opt (li_active_from l) (li_active_until l)
  && bool_decide (li_recurrence_anchor_kind l ∈ ["billing_cycle"; "anniversary"]%string)
  && bool_decide (li_proration_mode l ∈ ["none"; "prorate_by_time_left"]%string)
  && negb (bool_decide (li_policy_version l = "")).

Definition put_line (id : string) (l : lineRow) (d : DB) : res DB :=
  put_row line_checks (fun _ _ => false) set_kt_lines (kt_lines (db_contracts d)) id l d.

(** state = 'scheduled' AND timing = 'period_end' AND change_type IN ('downgrade', 'cancel') *)
Definition scheduled_period_end (c : changeRow) : bool :=
  bool_decide (ch_state c = ChScheduled) && bool_decide (ch_timing c = "period_end")
  && bool_decide (ch_change_type c ∈ ["downgrade"; "cancel"]%string).

Definition change_checks (c : changeRow) : bool :=
  match ch_actual_effective_at c with None => true | Some t => ch_requested_effective_at c <=? t end
  && ((ch_proration_denominator c =? 0) && (ch_proration_numerator c =? 0) || (0 <? ch_proration_denominator c))
  && (0 <=? ch_proration_numerator c) && (0 <=? ch_proration_denominator c)
  && (ch_proration_numerator c <=? ch_proration_denominator c) && (0 <=? ch_price_delta_units c)
  && negb (bool_decide (ch_idempotency_key c = "")).

(** The unique indexes of contract_changes. *)
Definition same_change_key (c c' : changeRow) : bool :=
  bool_decide (ch_contract_id c = ch_contract_id c') && bool_decide (ch_idempotency_key c = ch_idempotency_key c').

Definition changes_conflict (c c' : changeRow) : bool :=
  same_change_key c c'
  || scheduled_period_end c && scheduled_period_end c' && bool_decide (ch_contract_id c = ch_contract_id c')
  || negb (bool_decide (ch_provider c = "")) && negb (bool_decide (ch_provider_request_id c = ""))
     && bool_decide (ch_provider c = ch_provider c') && bool_decide (ch_provider_request_id c = ch_provider_request_id c').

Definition put_change (id : string) (c : changeRow) (d : DB) : res DB :=
  put_row change_checks changes_conflict set_kt_changes (kt_changes (db_contracts d)) id c d.

(** ** Updates by key and by predicate *)

(** UPDATE .. WHERE key = id AND where: the number of rows. *)
Definition update_row {A} (m : DB -> gmap string A) (put : string -> A -> DB -> res DB) (id : string)
    (where_ : A -> bool) (f : A -> A) (d : DB) : res (Z * DB) :=
  match m d !! id with
  | Some row => if where_ row then let! d' := put id (f row) d in Ret (1, d') else Ret (0, d)
  | None => Ret (0, d)
  end.

(** UPDATE .. WHERE where, row by row. *)
Fixpoint update_rows {A} (m : DB -> gmap string A) (put : string -> A -> DB -> res DB)
    (f : A -> A) (ids : list string) (d : DB) : res DB :=
  match ids with
  | [] => Ret d
  | id :: rest => let! nd := update_row m put id (fun _ => true) f d in update_rows m put f rest nd.2
  end.

Definition rows_where {A} (where_ : A -> bool) (m : gmap string A) : list string :=
  (filter (fun kv => where_ kv.2 = true) (map_to_list m)).*1.

Definition exec_rows (r : res (Z * DB)) : res (unit * DB) := let! nd := r in Ret (tt, nd.2).

Definition contracts_of (d : DB) := kt_contracts (db_contracts d).
Definition phases_of (d : DB) := kt_phases (db_contracts d).
Definition changes_of (d : DB) := kt_changes (db_contracts d).

(** ** contracts *)

(** The columns the statements set. *)
Definition contract_with (name kind : string) (st : contractState) (pay ent : string)
    (ends cancel closed : option time) (c : contractRow) : contractRow :=
  mkContractRow (ct_org_id c) (ct_product_id c) name kind st pay ent (ct_overage_policy c) (ct_starts_at c) ends cancel closed.

Definition GetContract_row (id org : string) (d : DB) : option contractRow :=
  match contracts_of d !! id with
  | Some c => if decide (ct_org_id c = org) then Some c else None
  | None => None
  end.

Definition update_contract (id org : string) (where_ : contractState -> bool) (f : contractRow -> contractRow) (d : DB) : res (unit * DB) :=
  exec_rows (update_row contracts_of put_contract id (fun c => bool_decide (ct_org_id c = org) && where_ (ct_state c)) f d).

Definition ScheduleContractCancellation (id org : string) (cancelAt : option time) : DB -> res (unit * DB) :=
  update_contract id org (fun st => bool_decide (st ∈ [KActive; KPastDue]))
    (fun c => contract_with (ct_display_name c) (ct_contract_kind c) KCancelScheduled (ct_payment_state c)
                (ct_entitlement_state c) cancelAt cancelAt (ct_closed_at c) c).

(** state IN ('active', 'past_due', 'suspended', 'cancel_scheduled') *)
Definition running (st : contractState) : bool := bool_decide (st ∈ [KActive; KPastDue; KSuspended; KCancelScheduled]).

Definition RestoreContractDuringResume (id org : string) : DB -> res (unit * DB) :=
  update_contract id org running
    (fun c => contract_with (ct_display_name c) (ct_contract_kind c)
                (if decide (ct_state c = KCancelScheduled) then KActive else ct_state c) (ct_payment_state c)
                (ct_entitlement_state c) None None None c).

Definition UpdateUpgradedContract (id org name : string) : DB -> res (unit * DB) :=
  update_contract id org (fun _ => true)
    (fun c => contract_with name (ct_contract_kind c) KActive "paid" "active" None None (ct_closed_at c) c).

Definition coalesce {A} (o o' : option A) : option A := match o with Some _ => o | None => o' end.

Definition CloseCanceledContract (id org : string) (endedAt : option time) : DB -> res (unit * DB) :=
  update_contract id org running
    (fun c => contract_with (ct_display_name c) (ct_contract_kind c) KEnded (ct_payment_state c) "closed"
                (coalesce (ct_ends_at c) endedAt) (coalesce (ct_cancel_at c) endedAt) endedAt c).

Definition UpdateDowngradedContract (id org name : string) : DB -> res (unit * DB) :=
  update_contract id org running
    (fun c => contract_with name (ct_contract_kind c) KActive "paid" "active" None None None c).

(** INSERT .. ON CONFLICT (contract_id) DO UPDATE; the update leaves
    closed_at as it is. *)
Definition upsertContract (id : string) (row : contractRow) (kind : contractRow -> string) (d : DB) : res (unit * DB) :=
  match contracts_of d !! id with
  | None => let! d' := put_contract id row d in Ret (tt, d')
  | Some c =>
      let! d' := put_contract id (contract_with (ct_display_name row) (kind c) KActive (ct_payment_state row) "active"
                                    None None (ct_closed_at c) c) d in
      Ret (tt, d')
  end.

Definition UpsertContract (id org product name : string) (startsAt : option time) (d : DB) : res (unit * DB) :=
  let! starts := not_null startsAt in
  upsertContract id (mkContractRow org product name "self_serve" KActive "paid" "active" "bill_published_rate" starts
                       None None None) ct_contract_kind d.

Definition UpsertInternalContract (id org product name : string) (startsAt : option time) (d : DB) : res (unit * DB) :=
  let! starts := not_null startsAt in
  upsertContract id (mkContractRow org product name "internal" KActive "not_required" "active" "block" starts
                       None None None) (fun _ => "internal"%string) d.

Definition GetContractKind (id org : string) (d : DB) : option string := ct_contract_kind <$> GetContract_row id org d.

(** ** contract_phases *)

Definition phase_with (st : phaseState) (pay ent : string) (end_ activated closed : option time) (by_ : string)
    (p : phaseRow) : phaseRow :=
  mkPhaseRow (ph_contract_id p) (ph_org_id p) (ph_product_id p) (ph_plan_id p) (ph_phase_kind p) st pay ent
    (ph_currency p) (ph_recurring_amount_units p) (ph_effective_start p) end_ activated closed by_.

Definition of_contract (id org : string) (p : phaseRow) : bool :=
  bool_decide (ph_contract_id p = id) && bool_decide (ph_org_id p = org).

(** ORDER BY CASE state .., effective_start DESC, phase_id DESC *)
Definition currentPhaseRank (p : phaseRow) : Z :=
  match ph_state p with PhActive => 1 | PhGrace => 2 | _ => 3 end.

Definition latestPhaseFirst : (string * phaseRow) -> (string * phaseRow) -> bool :=
  fun a b => lex_key Z.eqb Z.ltb (fun kv => ph_effective_start kv.2) (on_key str_ltb fst) b a.

Definition currentPhaseLess : (string * phaseRow) -> (string * phaseRow) -> bool :=
  lex_key Z.eqb Z.ltb (fun kv => currentPhaseRank kv.2) latestPhaseFirst.

Definition GetCurrentContractPhase (id : string) (now : time) (d : DB) : option (string * phaseRow) :=
  head (sort_slice currentPhaseLess
    (filter (fun kv => ph_contract_id kv.2 = id /\ ph_state kv.2 ∈ [PhActive; PhGrace; PhPendingPayment; PhScheduled]
                       /\ active_at now (ph_effective_start kv.2) (ph_effective_end kv.2) = true)
       (map_to_list (phases_of d)))).

Definition update_phases (where_ : phaseRow -> bool) (f : phaseRow -> phaseRow) (d : DB) : res (unit * DB) :=
  let! d' := update_rows phases_of put_phase f (rows_where where_ (phases_of d)) d in Ret (tt, d').

Definition ScheduleContractPhaseCancellation (id org : string) (cancelAt : option time) : DB -> res (unit * DB) :=
  update_phases (fun p => of_contract id org p && phase_open p)
    (fun p => phase_with (ph_state p) (ph_payment_state p) (ph_entitlement_state p) (coalesce (ph_effective_end p) cancelAt)
                (ph_activated_at p) (ph_closed_at p) (ph_superseded_by_phase_id p) p).

Definition RestorePhaseBoundaryDuringCancelResume (id org product : string) (at_ : option time) : DB -> res (unit * DB) :=
  update_phases (fun p => of_contract id org p && bool_decide (ph_product_id p = product) && phase_open p
                          && match at_, ph_effective_end p with Some t, Some e => e =? t | _, _ => false end)
    (fun p => phase_with (ph_state p) (ph_payment_state p) (ph_entitlement_state p) None
                (ph_activated_at p) (ph_closed_at p) (ph_superseded_by_phase_id p) p).

(** RETURNING effective_start, entitlement_state; [None] when no row matched. *)
Definition SupersedeContractPhaseForUpgrade (phaseID id : string) (at_ : option time) (d : DB)
    : res (option (time * string) * DB) :=
  match phases_of d !! phaseID with
  | Some p =>
      if bool_decide (ph_contract_id p = id) && phase_current p then
        let before := match at_ with Some t => ph_effective_start p <? t | None => false end in
        let ent := (if before then "closed" else "voided")%string in
        let! d' := put_phase phaseID (phase_with PhSuperseded (ph_payment_state p) ent (if before then at_ else None)
                                        (ph_activated_at p) at_ (ph_superseded_by_phase_id p) p) d in
        Ret (Some (ph_effective_start p, ent), d')
      else Ret (None, d)
  | None => Ret (None, d)
  end.

Definition LinkSupersededContractPhase (phaseID id by_ : string) (d : DB) : res (unit * DB) :=
  exec_rows (update_row phases_of put_phase phaseID
    (fun p => bool_decide (ph_contract_id p = id) && bool_decide (ph_state p = PhSuperseded))
    (fun p => phase_with (ph_state p) (ph_payment_state p) (ph_entitlement_state p) (ph_effective_end p)
                (ph_activated_at p) (ph_closed_at p) by_ p) d).

(** ORDER BY effective_start, phase_id *)
Definition earliestPhaseFirst : (string * phaseRow) -> (string * phaseRow) -> bool :=
  lex_key Z.eqb Z.ltb (fun kv => ph_effective_start kv.2) (on_key str_ltb fst).

Definition ListCancelableContractPhases (id org product : string) (before : time) (d : DB) : list (string * string) :=
  (fun kv => (kv.1, ph_plan_id kv.2)) <$>
    sort_slice earliestPhaseFirst
      (filter (fun kv => of_contract id org kv.2 = true /\ ph_product_id kv.2 = product /\ phase_open kv.2 = true
                         /\ ph_effective_start kv.2 < before) (map_to_list (phases_of d))).

Definition CloseContractPhase (phaseID id : string) (end_ : option time) : DB -> res (Z * DB) :=
  update_row phases_of put_phase phaseID (fun p => bool_decide (ph_contract_id p = id) && phase_open p)
    (fun p => phase_with PhClosed (ph_payment_state p) "closed" (coalesce (ph_effective_end p) end_)
                (ph_activated_at p) end_ (ph_superseded_by_phase_id p) p).

Definition GetActivePhaseAtBoundary (id org product : string) (at_ : time) (d : DB) : option string :=
  fst <$> head (sort_slice latestPhaseFirst
    (filter (fun kv => of_contract id org kv.2 = true /\ ph_product_id kv.2 = product /\ phase_current kv.2 = true
                       /\ ph_effective_start kv.2 < at_ /\ after_opt at_ (ph_effective_end kv.2) = true)
       (map_to_list (phases_of d)))).

Definition GetPhasePlanID (phaseID : string) (d : DB) : option string := ph_plan_id <$> phases_of d !! phaseID.

Definition ContractPhaseAlreadyActive (phaseID id : string) (d : DB) : bool :=
  match phases_of d !! phaseID with
  | Some p => bool_decide (ph_contract_id p = id) && bool_decide (ph_state p = PhActive)
              && bool_decide (ph_payment_state p = "paid")
  | None => false
  end.

(** INSERT .. ON CONFLICT (phase_id) DO UPDATE *)
Definition upsertPhase (phaseID : string) (row : phaseRow) (d : DB) : res (unit * DB) :=
  let row' := match phases_of d !! phaseID with
              | None => row
              | Some p => phase_with (ph_state row) (ph_payment_state row) "active" None
                            (coalesce (ph_activated_at p) (ph_activated_at row)) (ph_closed_at p)
                            (ph_superseded_by_phase_id p) p
              end in
  let! d' := put_phase phaseID row' d in Ret (tt, d').

Definition UpsertInternalContractPhase (phaseID id org product plan currency : string) (start : option time) (d : DB)
    : res (unit * DB) :=
  let! from := not_null start in
  upsertPhase phaseID (mkPhaseRow id org product plan "internal" PhActive "not_required" "active" currency 0 from None
                         (Some from) None "") d.

Definition UpsertContractPhase (phaseID id org product plan : string) (st : phaseState) (pay currency : string) (units : Z)
    (start : option time) (d : DB) : res (unit * DB) :=
  let! from := not_null start in
  upsertPhase phaseID (mkPhaseRow id org product plan "catalog_plan" st pay "active" currency units from None
                         (Some from) None "") d.

(** ** contract_entitlement_lines *)

Definition UpsertContractEntitlementLine (lineID : string) (row : lineRow) (d : DB) : res (unit * DB) :=
  let row' := match kt_lines (db_contracts d) !! lineID with
              | None => row
              | Some l => mkLineRow (li_org_id l) (li_product_id l) (li_phase_id l) (li_contract_id l) (li_policy_id l)
                            (li_scope_type l) (li_scope_product_id l) (li_scope_bucket_id l) (li_scope_sku_id l)
                            (li_amount_units row) (li_recurrence_anchor_kind l) (li_proration_mode l)
                            (li_policy_version row) (li_active_from row) (li_active_until l)
              end in
  let! d' := put_line lineID row' d in Ret (tt, d').

(** ** contract_changes *)

Definition change_with (st : changeState) (actual : option time) (attempts : Z) (request invoice : string) (c : changeRow)
    : changeRow :=
  mkChangeRow (ch_contract_id c) (ch_org_id c) (ch_product_id c) (ch_change_type c) (ch_timing c)
    (ch_requested_effective_at c) actual (ch_from_phase_id c) (ch_to_phase_id c) (ch_target_plan_id c) st (ch_provider c)
    request invoice (ch_idempotency_key c) (ch_requested_at c) attempts (ch_proration_basis_cycle_id c)
    (ch_price_delta_units c) (ch_proration_numerator c) (ch_proration_denominator c) (ch_payload c).

(** The row with the conflict target (contract_id, idempotency_key). *)
Definition change_by_key (row : changeRow) (d : DB) : option (string * changeRow) :=
  head (filter (fun kv => same_change_key row kv.2 = true) (map_to_list (changes_of d))).

(** INSERT .. ON CONFLICT (contract_id, idempotency_key): [onConflict] updates
    the existing row. *)
Definition insertChange (onConflict : changeRow -> changeRow) (id : string) (row : changeRow) (d : DB) : res (unit * DB) :=
  match change_by_key row d with
  | Some (id', c) => let! d' := put_change id' (onConflict c) d in Ret (tt, d')
  | None =>
      match changes_of d !! id with
      | Some _ => errorf "duplicate key value violates unique constraint"
      | None => let! d' := put_change id row d in Ret (tt, d')
      end
  end.

(** DO NOTHING writes no row at all. *)
Definition insertChangeOrNothing (id : string) (row : changeRow) (d : DB) : res (unit * DB) :=
  match change_by_key row d with
  | Some _ => Ret (tt, d)
  | None => insertChange (fun c => c) id row d
  end.

Definition InsertCancellationContractChange (id contract org product : string) (at_ requested : option time) (d : DB)
    : res (unit * DB) :=
  let! effective := not_null at_ in
  let! requestedAt := not_null requested in
  insertChangeOrNothing id (mkChangeRow contract org product "cancel" "period_end" effective None "" "" "" ChScheduled
    "" "" "" id requestedAt 0 "" 0 0 0 None) d.

Definition InsertScheduledDowngrade (id contract org product from_ to_ plan : string) (at_ requested : option time) (d : DB)
    : res (unit * DB) :=
  let! effective := not_null at_ in
  let! requestedAt := not_null requested in
  insertChangeOrNothing id (mkChangeRow contract org product "downgrade" "period_end" effective None from_ to_ plan
    ChScheduled "" "" "" id requestedAt 0 "" 0 0 0 None) d.

Definition InsertUpgradeContractChange (id : string) (row : changeRow) (d : DB) : res (unit * DB) :=
  insertChange (fun c => change_with (ch_state c) (ch_actual_effective_at c) (ch_attempts c)
                           (if decide (ch_provider_request_id c = "") then ch_provider_request_id row
                            else ch_provider_request_id c) (ch_provider_invoice_id c) c) id row d.

Definition earliestChangeFirst : (string * changeRow) -> (string * changeRow) -> bool :=
  lex_key Z.eqb Z.ltb (fun kv => ch_requested_effective_at kv.2) (on_key str_ltb fst).

Definition change_of (contract org product : string) (c : changeRow) : bool :=
  bool_decide (ch_contract_id c = contract) && bool_decide (ch_org_id c = org) && bool_decide (ch_product_id c = product).

Definition ListScheduledContractChangesForResume (contract org product : string) (d : DB) : list (string * changeRow) :=
  sort_slice earliestChangeFirst
    (filter (fun kv => change_of contract org product kv.2 = true /\ scheduled_period_end kv.2 = true)
       (map_to_list (changes_of d))).

Definition GetPendingScheduledContractChange (contract org product : string) (d : DB) : option (string * changeRow) :=
  head (ListScheduledContractChangesForResume contract org product d).

Definition CancelScheduledContractChangesForResume (contract org product : string) (d : DB) : res (unit * DB) :=
  let! d' := update_rows changes_of put_change
    (fun c => change_with ChCanceled (ch_actual_effective_at c) (ch_attempts c) (ch_provider_request_id c)
                (ch_provider_invoice_id c) c)
    (rows_where (fun c => change_of contract org product c && scheduled_period_end c) (changes_of d)) d in
  Ret (tt, d').

Definition GetContractChangeStatus (id : string) (d : DB) : option (changeState * string) :=
  (fun c => (ch_state c, ch_change_type c)) <$> changes_of d !! id.

Definition GetContractChangeStateForUpdate (id : string) (d : DB) : option changeState := ch_state <$> changes_of d !! id.

Definition GetContractChangeProviderRequestID (id : string) (d : DB) : option string :=
  ch_provider_request_id <$> changes_of d !! id.

Definition MarkUpgradeContractChangeApplied (id : string) (at_ : option time) (invoice : string) (d : DB) : res (unit * DB) :=
  exec_rows (update_row changes_of put_change id (fun _ => true)
    (fun c => change_with ChApplied at_ (ch_attempts c) (ch_provider_request_id c) invoice c) d).

Definition ListDueContractChanges (org product : string) (at_ : time) (d : DB) : list (string * changeRow) :=
  sort_slice earliestChangeFirst
    (filter (fun kv => ch_org_id kv.2 = org /\ ch_product_id kv.2 = product /\ ch_state kv.2 = ChScheduled
                       /\ ch_requested_effective_at kv.2 <= at_) (map_to_list (changes_of d))).

Definition MarkContractChangeApplying (id : string) (d : DB) : res (unit * DB) :=
  exec_rows (update_row changes_of put_change id (fun c => bool_decide (ch_state c = ChScheduled))
    (fun c => change_with ChApplying (ch_actual_effective_at c) (ch_attempts c + 1) (ch_provider_request_id c)
                (ch_provider_invoice_id c) c) d).

Definition MarkContractChangeApplied (id : string) (at_ : option time) (d : DB) : res (unit * DB) :=
  exec_rows (update_row changes_of put_change id (fun _ => true)
    (fun c => change_with ChApplied at_ (ch_attempts c) (ch_provider_request_id c) (ch_provider_invoice_id c) c) d).

(** ** Plans *)

Definition planEntitlementLess : (planEntitlementRow * policyRow) -> (planEntitlementRow * policyRow) -> bool :=
  lex_key Z.eqb Z.ltb (fun r => pe_sort_order r.1) (on_key str_ltb (fun r => pe_policy_id r.1)).

Definition ListPlanEntitlementPolicies (plan : string) (d : DB) : list (planEntitlementRow * policyRow) :=
  sort_slice planEntitlementLess
    (omap (fun pe => (fun po => (pe, po)) <$> ca_policies (db_catalog d) !! pe_policy_id pe)
       (filter (fun pe => pe_plan_id pe = plan) (ca_plan_entitlements (db_catalog d)))).

Definition GetActivePlan (plan : string) (d : DB) : option planRow :=
  match ca_plans (db_catalog d) !! plan with
  | Some pl => if pl_active pl then Some pl else None
  | None => None
  end.

(** ** Frames *)

(** The statements above write the contract tables only. *)
Definition contracts_only (d d' : DB) : Prop := exists kt, d' = set_contracts kt d.

#[export] Instance contracts_only_preorder : PreOrder contracts_only.
Proof.
  split.
  - intros d. exists (db_contracts d). by destruct d.
  - intros d1 d2 d3 (k1 & ->) (k2 & ->). by exists k2.
Qed.

(** [writes R f]: the statement [f] changes the database along [R]. *)
Definition writes {A} (R : relation DB) (f : DB -> res (A * DB)) : Prop := forall d a d', f d = Ret (a, d') -> R d d'.

Section Writes.
Context (R : relation DB) `{!PreOrder R}.

Lemma put_row_writes {A} checks conflict set (m : gmap string A) id row d d' :
  (forall x, R d (set x d)) -> put_row checks conflict set m id row d = Ret d' -> R d d'.
Proof using All. intros Hs H. unfold put_row, check_constraint in H. repeat case_match; by simplify_eq/=. Qed.

Lemma update_row_writes {A} m (put : string -> A -> DB -> res DB) id where_ f d nd :
  (forall i c d d', put i c d = Ret d' -> R d d') -> update_row m put id where_ f d = Ret nd -> R d nd.2.
Proof using All. intros Hp H. unfold update_row in H. repeat case_match; inv_ret; simplify_eq; try reflexivity; simpl; eauto. Qed.

Lemma update_rows_writes {A} m (put : string -> A -> DB -> res DB) f ids d d' :
  (forall i c d d', put i c d = Ret d' -> R d d') -> update_rows m put f ids d = Ret d' -> R d d'.
Proof using All.
  intros Hp. revert d. induction ids as [|i ids IH]; intros d H; simpl in H; [by inv_ret|].
  inv_ret. etrans; [by eapply update_row_writes|by apply IH].
Qed.
End Writes.

Create HintDb writes.

Lemma put_contract_only id c d d' : put_contract id c d = Ret d' -> contracts_only d d'.
Proof. apply put_row_writes; [apply _|]. intros x. by eexists. Qed.

Lemma put_phase_only id c d d' : put_phase id c d = Ret d' -> contracts_only d d'.
Proof. apply put_row_writes; [apply _|]. intros x. by eexists. Qed.

Lemma put_line_only id c d d' : put_line id c d = Ret d' -> contracts_only d d'.
Proof. apply put_row_writes; [apply _|]. intros x. by eexists. Qed.

Lemma put_change_only id c d d' : put_change id c d = Ret d' -> contracts_only d d'.
Proof. apply put_row_writes; [apply _|]. intros x. by eexists. Qed.

#[export] Hint Resolve put_contract_only put_phase_only put_line_only put_change_only : writes.
#[export] Hint Extern 1 (PreOrder _) => apply _ : writes.

(** A statement whose row writers are in the hint database. *)
Ltac writes_rows :=
  let H := fresh "Hs" in
  intros ? ? ? H; repeat case_match; inv_ret; repeat case_match; inv_ret; simplify_eq/=; try reflexivity;
  first [ solve [eauto with writes]
        | match goal with
          | Hu : update_row _ _ _ _ _ _ = Ret ?nd |- ?R _ _ =>
              refine (update_row_writes R _ _ _ _ _ _ nd _ Hu); solve [eauto with writes]
          end
        | eapply update_rows_writes; [| |eassumption]; solve [eauto with writes typeclass_instances] ].

Lemma update_contract_only id org where_ f : writes contracts_only (update_contract id org where_ f).
Proof. unfold update_contract, exec_rows. writes_rows. Qed.

Lemma update_phases_only where_ f : writes contracts_only (update_phases where_ f).
Proof. unfold update_phases. writes_rows. Qed.

Lemma upsertContract_only id row kind : writes contracts_only (upsertContract id row kind).
Proof. unfold upsertContract. writes_rows. Qed.

Lemma upsertPhase_only id row : writes contracts_only (upsertPhase id row).
Proof. unfold upsertPhase. writes_rows. Qed.

Lemma insertChange_only onConflict id row : writes contracts_only (insertChange onConflict id row).
Proof. unfold insertChange. writes_rows. Qed.

Lemma insertChangeOrNothing_only id row : writes contracts_only (insertChangeOrNothing id row).
Proof. unfold insertChangeOrNothing. intros d a d' H. case_match; [by inv_ret|]. by eapply insertChange_only. Qed.

#[export] Hint Extern 1 (contracts_only _ _) => eapply update_contract_only; eassumption : writes.
#[export] Hint Extern 1 (contracts_only _ _) => eapply update_phases_only; eassumption : writes.
#[export] Hint Extern 1 (contracts_only _ _) => eapply upsertContract_only; eassumption : writes.
#[export] Hint Extern 1 (contracts_only _ _) => eapply upsertPhase_only; eassumption : writes.
#[export] Hint Extern 1 (contracts_only _ _) => eapply insertChange_only; eassumption : writes.
#[export] Hint Extern 1 (contracts_only _ _) => eapply insertChangeOrNothing_only; eassumption : writes.

(** Every other statement, by its definition. *)
Ltac head_of t := match t with ?f _ => head_of f | _ => t end.

(** A statement that its caller issues in a state where [g] holds. *)
Definition guarded {A} (g : DB -> bool) (f : DB -> res (A * DB)) (d : DB) : res (A * DB) :=
  if g d then f d else errorf "guard".

Lemma guarded_writes {A} (R : relation DB) g (f : DB -> res (A * DB)) : writes R f -> writes R (guarded g f).
Proof. intros Hf d a d' H. unfold guarded in H. destruct (g d); [by eapply Hf|done]. Qed.

Ltac by_definition :=
  try apply guarded_writes;
  match goal with |- writes _ ?f => let h := head_of f in unfold h, exec_rows; writes_rows end.

Section StatementFrames.
Context {St : Type} `{HE : Env} (RD : relation DB) (RT : relation St) `{!PreOrder RD} `{!PreOrder RT}.

Lemma evolves_writes {A} (R : relation DB) (f : DB -> res (A * DB)) :
  (forall d d', R d d' -> RD d d') -> writes R f -> evolves RD RT (statement f).
Proof using All. intros HR Hf. apply evolves_statement; [apply _..|]. eauto. Qed.
End StatementFrames.

(** ** What the period work may touch *)

Lemma contracts_periods d d' : contracts_only d d' -> periods_frame d d'.
Proof. by intros (kt & ->). Qed.

Lemma events_periods d d' : events_only d d' -> periods_frame d d'.
Proof. by intros (ev & de & jo & ->). Qed.

Section PeriodFrames.
Context {St : Type} `{HE : Env} `{HD : Digest}.

Lemma contracts_evolves {A} (f : DB -> res (A * DB)) : writes contracts_only f -> evolves (St := St) periods_frame eq (statement f).
Proof. apply evolves_writes; [apply _..|]. apply contracts_periods. Qed.

Lemma appendEvent_periods ev : evolves (St := St) periods_frame eq (appendEvent ev).
Proof. apply appendEvent_evolves; [apply _..|]. apply events_periods. Qed.

Lemma enqueue_periods job : evolves (St := St) periods_frame eq (statement (InsertJob job)).
Proof. apply enqueue_evolves; [apply _..|]. apply events_periods. Qed.
End PeriodFrames.

#[export] Hint Resolve appendEvent_periods enqueue_periods : frame.
#[export] Hint Extern 2 (evolves periods_frame eq (statement _)) => apply contracts_evolves; by_definition : frame.
