(* ===== verification/DocumentStore.v ===== *)
(** * Finalizations and documents: tables and statements

    The constraints of billing_finalizations, billing_documents,
    billing_document_line_items and document_number_allocators
    (migrations/001_initial_schema.up.sql), and the statements on them of
    store/queries/finalizations.sql, contracts.sql and reads.sql. *)

From S2P Require Import Prelude GoFloat GoStd GoTime Json Types Ids Ledger Charges Grants Store Events.
From S2P Require Import Cycles Entitlements ContractStore.

Definition set_dt_finalizations (x : gmap string finalizationRow) (d : DB) : DB :=
  let t := db_documents d in set_documents (mkDocumentTables x (dt_documents t) (dt_line_items t) (dt_allocators t)) d.
Definition set_dt_documents (x : gmap string documentRow) (d : DB) : DB :=
  let t := db_documents d in set_documents (mkDocumentTables (dt_finalizations t) x (dt_line_items t) (dt_allocators t)) d.
Definition set_dt_line_items (x : gmap string documentLineRow) (d : DB) : DB :=
  let t := db_documents d in set_documents (mkDocumentTables (dt_finalizations t) (dt_documents t) x (dt_allocators t)) d.
Definition set_dt_allocators (x : gmap Z Z) (d : DB) : DB :=
  let t := db_documents d in set_documents (mkDocumentTables (dt_finalizations t) (dt_documents t) (dt_line_items t) x) d.

Definition finalizations_of (d : DB) := dt_finalizations (db_documents d).
Definition documents_of (d : DB) := dt_documents (db_documents d).

(** ** billing_finalizations *)

Definition finalization_checks (f : finalizationRow) : bool :=
  match f_completed_at f with None => true | Some t => f_started_at f <=? t end
  && Bool.eqb (bool_decide (f_subject_type f = "cycle"))
       (negb (bool_decide (f_cycle_id f = "")) && bool_decide (f_contract_change_id f = ""))
  && (negb (bool_decide (f_subject_type f = "contract_change")) || negb (bool_decide (f_contract_change_id f = "")))
  && negb (bool_decide (f_subject_id f = "")) && negb (bool_decide (f_idempotency_key f = "")).

(** UNIQUE (subject_type, subject_id, idempotency_key) *)
Definition same_subject (f f' : finalizationRow) : bool :=
  bool_decide (f_subject_type f = f_subject_type f') && bool_decide (f_subject_id f = f_subject_id f')
  && bool_decide (f_idempotency_key f = f_idempotency_key f').

(** billing_finalizations_active_cycle_idx *)
Definition active_for_cycle (f : finalizationRow) : bool :=
  bool_decide (f_subject_type f = "cycle") && negb (bool_decide (f_state f = FVoided)).

Definition finalizations_conflict (f f' : finalizationRow) : bool :=
  same_subject f f'
  || active_for_cycle f && active_for_cycle f' && bool_decide (f_cycle_id f = f_cycle_id f').

Definition put_finalization (id : string) (f : finalizationRow) (d : DB) : res DB :=
  put_row finalization_checks finalizations_conflict set_dt_finalizations (finalizations_of d) id f d.

Definition finalization_with (st : finalizationState) (doc kind : string) (visible : bool) (policy : string)
    (usage activity : bool) (completed : option time) (blocked : string) (attempts : Z) (err : string)
    (f : finalizationRow) : finalizationRow :=
  mkFinalizationRow (f_subject_type f) (f_subject_id f) (f_cycle_id f) (f_contract_change_id f) (f_org_id f)
    (f_product_id f) (f_reason f) doc kind st visible policy usage activity (f_started_at f) completed blocked attempts
    (f_idempotency_key f) err.

(** INSERT .. ON CONFLICT (subject_type, subject_id, idempotency_key) DO
    NOTHING: the number of rows. *)
Definition insertFinalization (id : string) (row : finalizationRow) (d : DB) : res (Z * DB) :=
  if existsb (fun kv => same_subject row kv.2) (map_to_list (finalizations_of d)) then Ret (0, d)
  else match finalizations_of d !! id with
       | Some _ => errorf "duplicate key value violates unique constraint"
       | None => let! d' := put_finalization id row d in Ret (1, d')
       end.

Definition InsertCycleFinalization (id cycle org product : string) (startedAt : option time) (d : DB) : res (Z * DB) :=
  let! started := not_null startedAt in
  insertFinalization id (mkFinalizationRow "cycle" cycle cycle "" org product "scheduled_period_end" "" "statement"
    FPending false "never" false false started None "" 0 id "") d.

Definition InsertUpgradeFinalization (id change cycle org product : string) (requestedAt : option time) (d : DB)
    : res (unit * DB) :=
  let! started := not_null requestedAt in
  exec_rows (insertFinalization id (mkFinalizationRow "contract_change" change cycle change org product
    "immediate_upgrade_delta" "" "invoice" FCollectionPending true "always" false true started (Some started) "" 0 id "") d).

(** ORDER BY started_at, finalization_id *)
Definition finalizationLess : (string * finalizationRow) -> (string * finalizationRow) -> bool :=
  lex_key Z.eqb Z.ltb (fun kv => f_started_at kv.2) (on_key str_ltb fst).

(** state IN ('pending', 'failed') *)
Definition finalization_due (f : finalizationRow) : bool := bool_decide (f_state f ∈ [FPending; FFailed]).

Definition ListPendingBillingFinalizations (limit : Z) (d : DB) : list string :=
  take (Z.to_nat limit) (sort_slice finalizationLess
    (filter (fun kv => finalization_due kv.2 = true /\ f_subject_type kv.2 = "cycle") (map_to_list (finalizations_of d)))).*1.

Definition ClaimBillingFinalization (id : string) (d : DB) : res (option finalizationRow * DB) :=
  match finalizations_of d !! id with
  | Some f =>
      if finalization_due f then
        let f' := finalization_with FCollectingFacts (f_document_id f) (f_document_kind f) (f_customer_visible f)
                    (f_notification_policy f) (f_has_usage f) (f_has_financial_activity f) (f_completed_at f)
                    (f_blocked_reason f) (f_attempts f + 1) "" f in
        let! d' := put_finalization id f' d in Ret (Some f', d')
      else Ret (None, d)
  | None => Ret (None, d)
  end.

Definition FailBillingFinalization (id err : string) (d : DB) : res (unit * DB) :=
  exec_rows (update_row finalizations_of put_finalization id (fun f => bool_decide (f_state f = FCollectingFacts))
    (fun f => let spent := 25 <=? f_attempts f in
              finalization_with (if spent then FBlocked else FFailed) (f_document_id f) (f_document_kind f)
                (f_customer_visible f) (f_notification_policy f) (f_has_usage f) (f_has_financial_activity f)
                (f_completed_at f) (if spent then err else f_blocked_reason f) (f_attempts f) err f) d).

Definition UpdateBillingFinalizationIssued (id : string) (st : finalizationState) (doc kind : string) (visible : bool)
    (policy : string) (usage activity : bool) (completed : option time) (d : DB) : res (unit * DB) :=
  exec_rows (update_row finalizations_of put_finalization id (fun _ => true)
    (fun f => finalization_with st doc kind visible policy usage activity completed (f_blocked_reason f) (f_attempts f)
                (f_last_error f) f) d).

Definition LinkUpgradeDocumentFinalization (id doc : string) (d : DB) : res (unit * DB) :=
  exec_rows (update_row finalizations_of put_finalization id (fun f => bool_decide (f_document_id f = ""))
    (fun f => finalization_with (f_state f) doc (f_document_kind f) (f_customer_visible f) (f_notification_policy f)
                (f_has_usage f) (f_has_financial_activity f) (f_completed_at f) (f_blocked_reason f) (f_attempts f)
                (f_last_error f) f) d).

Definition MarkUpgradeFinalizationPaid (id doc : string) (completed : option time) (d : DB) : res (unit * DB) :=
  exec_rows (update_row finalizations_of put_finalization id (fun _ => true)
    (fun f => finalization_with FPaid doc (f_document_kind f) (f_customer_visible f) (f_notification_policy f)
                (f_has_usage f) (f_has_financial_activity f) (coalesce (f_completed_at f) completed)
                (f_blocked_reason f) (f_attempts f) (f_last_error f) f) d).

(** ** billing_cycles *)

Definition LinkCycleFinalization (cycle finalization : string) (d : DB) : res (unit * DB) :=
  match db_cycles d !! cycle with
  | Some c =>
      if decide (cy_active_finalization_id c = "") then
        Ret (tt, set_cycles (<[cycle := mkCycleRow (cy_org_id c) (cy_product_id c) (cy_currency c)
               (cy_predecessor_cycle_id c) (cy_anchor_at c) (cy_cycle_seq c) (cy_cadence_kind c) (cy_starts_at c)
               (cy_ends_at c) (cy_status c) (cy_finalization_due_at c) finalization (cy_successor_cycle_id c)
               (cy_closed_reason c) (cy_closed_for_usage_at c) (cy_finalized_at c)]> (db_cycles d)) d)
      else Ret (tt, d)
  | None => Ret (tt, d)
  end.

Definition MarkBillingCycleFinalized (cycle finalization : string) (at_ : option time) (d : DB) : res (unit * DB) :=
  match db_cycles d !! cycle with
  | Some c =>
      if decide (cy_status c = CyClosedForUsage \/ cy_status c = CyFinalized) then
        let! d' := put_cycle cycle (mkCycleRow (cy_org_id c) (cy_product_id c) (cy_currency c)
               (cy_predecessor_cycle_id c) (cy_anchor_at c) (cy_cycle_seq c) (cy_cadence_kind c) (cy_starts_at c)
               (cy_ends_at c) CyFinalized (cy_finalization_due_at c) finalization (cy_successor_cycle_id c)
               (cy_closed_reason c) (cy_closed_for_usage_at c) at_) d in
        Ret (tt, d')
      else Ret (tt, d)
  | None => Ret (tt, d)
  end.

(** ** billing_documents *)

Definition document_checks (o : documentRow) : bool :=
  (do_period_start o <? do_period_end o)
  && (is_none (do_issued_at o) || bool_decide (do_status o ∈ ["issued"; "paid"; "payment_failed"; "voided"]%string))
  && (negb (bool_decide (do_document_number o = "")) || bool_decide (do_status o ∈ ["draft"; "finalizing"; "blocked"]%string))
  && negb (bool_decide (do_currency o = "")).

(** billing_documents_number_idx, billing_documents_finalization_idx *)
Definition documents_conflict (o o' : documentRow) : bool :=
  negb (bool_decide (do_document_number o = "")) && bool_decide (do_document_number o = do_document_number o')
  || negb (bool_decide (do_finalization_id o = "")) && negb (bool_decide (do_status o = "voided"))
     && negb (bool_decide (do_status o' = "voided")) && bool_decide (do_finalization_id o = do_finalization_id o').

Definition put_document (id : string) (o : documentRow) (d : DB) : res DB :=
  put_row document_checks documents_conflict set_dt_documents (documents_of d) id o d.

(** INSERT .. ON CONFLICT (document_id) DO NOTHING *)
Definition InsertBillingDocument (id : string) (row : documentRow) (d : DB) : res (unit * DB) :=
  match documents_of d !! id with
  | Some _ => Ret (tt, d)
  | None => let! d' := put_document id row d in Ret (tt, d')
  end.

Definition MarkUpgradeDocumentPaid (id invoice : string) (issuedAt : option time) (d : DB) : res (unit * DB) :=
  exec_rows (update_row documents_of put_document id (fun _ => true)
    (fun o => mkDocumentRow (do_document_number o) (do_document_kind o) (do_finalization_id o) (do_org_id o)
                (do_product_id o) (do_cycle_id o) (do_change_id o) "paid" "paid" (do_period_start o) (do_period_end o)
                (coalesce (do_issued_at o) issuedAt) (do_currency o) (do_subtotal_units o) (do_adjustment_units o)
                (do_tax_units o) (do_total_due_units o) (do_rendered_html o) invoice (do_stripe_hosted_invoice_url o)
                (do_stripe_invoice_pdf_url o) (do_stripe_payment_intent_id o)) d).

(** ORDER BY period_start DESC, issued_at DESC NULLS LAST, document_id DESC *)
Definition issuedKey (o : documentRow) : Z * Z :=
  match do_issued_at o with Some t => (1, t) | None => (0, 0) end.

Definition documentLess : (string * documentRow) -> (string * documentRow) -> bool :=
  fun a b => lex_key Z.eqb Z.ltb (fun kv => do_period_start kv.2)
               (lex_key Z.eqb Z.ltb (fun kv => (issuedKey kv.2).1)
                  (lex_key Z.eqb Z.ltb (fun kv => (issuedKey kv.2).2) (on_key str_ltb fst))) b a.

Definition ListBillingDocuments (org productID : string) (d : DB) : list (string * documentRow) :=
  sort_slice documentLess
    (filter (fun kv => do_org_id kv.2 = org /\ (productID = ""%string \/ do_product_id kv.2 = productID)
                       /\ do_status kv.2 <> "voided"%string) (map_to_list (documents_of d))).

(** ** billing_document_line_items *)

Definition document_line_checks (l : documentLineRow) : bool :=
  (0 <=? dli_free_tier_units l) && (0 <=? dli_contract_units l) && (0 <=? dli_purchase_units l)
  && (0 <=? dli_promo_units l) && (0 <=? dli_refund_units l) && (0 <=? dli_receivable_units l).

Definition InsertBillingDocumentLineItem (id : string) (row : documentLineRow) (d : DB) : res (unit * DB) :=
  match dt_line_items (db_documents d) !! id with
  | Some _ => Ret (tt, d)
  | None =>
      let! d' := put_row document_line_checks (fun _ _ => false) set_dt_line_items (dt_line_items (db_documents d)) id row d in
      Ret (tt, d')
  end.

(** ** document_number_allocators *)

Definition EnsureDocumentNumberAllocator (year : Z) (d : DB) : res (unit * DB) :=
  match dt_allocators (db_documents d) !! year with
  | Some _ => Ret (tt, d)
  | None =>
      let! _ := check_constraint (2000 <=? year) in
      Ret (tt, set_dt_allocators (<[year := 1]> (dt_allocators (db_documents d))) d)
  end.

Definition LockDocumentNumberAllocator (year : Z) (d : DB) : option Z := dt_allocators (db_documents d) !! year.

(** next_number is a BIGINT *)
Definition AdvanceDocumentNumberAllocator (year : Z) (d : DB) : res (unit * DB) :=
  match dt_allocators (db_documents d) !! year with
  | Some n => if i64_max <? n + 1 then errorf "bigint out of range"
              else Ret (tt, set_dt_allocators (<[year := n + 1]> (dt_allocators (db_documents d))) d)
  | None => Ret (tt, d)
  end.

(** ** Frames *)

(** The statements above write the document tables and the cycles. *)
Definition documents_only (d d' : DB) : Prop := exists dt cy, d' = set_cycles cy (set_documents dt d).

#[export] Instance documents_only_preorder : PreOrder documents_only.
Proof.
  split.
  - intros d. exists (db_documents d), (db_cycles d). by destruct d.
  - intros d1 d2 d3 (k1 & c1 & ->) (k2 & c2 & ->). by exists k2, c2.
Qed.

Lemma set_documents_only dt d : documents_only d (set_documents dt d).
Proof. exists dt, (db_cycles d). by destruct d. Qed.

Lemma set_cycles_only cy d : documents_only d (set_cycles cy d).
Proof. exists (db_documents d), cy. by destruct d. Qed.

Lemma put_finalization_only id c d d' : put_finalization id c d = Ret d' -> documents_only d d'.
Proof. apply put_row_writes; [apply _|]. intros x. apply set_documents_only. Qed.

Lemma put_document_only id c d d' : put_document id c d = Ret d' -> documents_only d d'.
Proof. apply put_row_writes; [apply _|]. intros x. apply set_documents_only. Qed.

Lemma put_document_line_only id c d d' :
  put_row document_line_checks (fun _ _ => false) set_dt_line_items (dt_line_items (db_documents d)) id c d = Ret d' ->
  documents_only d d'.
Proof. apply put_row_writes; [apply _|]. intros x. apply set_documents_only. Qed.

Lemma put_cycle_only id c d d' : put_cycle id c d = Ret d' -> documents_only d d'.
Proof. intros H. unfold put_cycle, check_constraint in H. repeat case_match; simplify_eq/=. apply set_cycles_only. Qed.

Lemma insertFinalization_only id row d nd : insertFinalization id row d = Ret nd -> documents_only d nd.2.
Proof.
  unfold insertFinalization. intros H. repeat case_match; inv_ret; try done. by eapply put_finalization_only.
Qed.

#[export] Hint Resolve put_finalization_only put_document_only put_document_line_only put_cycle_only
  set_documents_only set_cycles_only : writes.
#[export] Hint Extern 1 (documents_only _ _) => match goal with
  | Hu : insertFinalization _ _ _ = Ret ?nd |- _ => exact (insertFinalization_only _ _ _ nd Hu) end : writes.

Lemma documents_periods d d' : documents_only d d' -> periods_frame d d'.
Proof. by intros (dt & cy & ->). Qed.

Lemma documents_evolves {St A} `{HE : Env} (f : DB -> res (A * DB)) :
  writes documents_only f -> evolves (St := St) periods_frame eq (statement f).
Proof. apply evolves_writes; [apply _..|]. apply documents_periods. Qed.

#[export] Hint Extern 2 (evolves periods_frame eq (statement _)) => apply documents_evolves; by_definition : frame.
