(* ===== verification/DueChanges.v ===== *)
(** * Contract changes that fall due

    Models the part of billing/contracts.go that the rollover of a cycle runs:
    applyDueContractChangesTx with the scheduled cancellation and downgrade,
    and the phase and entitlement-line helpers it shares with the activation
    and the upgrade of a contract (Contracts.v). *)

From S2P Require Import Prelude GoFloat GoStd GoTime Json Types Ids Ledger Charges Grants Store Events.
From S2P Require Import Cycles Entitlements ContractStore.

(** types.go: PlanRecord *)
Record PlanRecord : Type := mkPlanRecord {
  pn_PlanID : string;
  pn_ProductID : string;
  pn_DisplayName : string;
  pn_BillingMode : string;
  pn_Tier : string;
  pn_Currency : string;
  pn_MonthlyAmountCents : Z;
  pn_AnnualAmountCents : Z;
  pn_Active : bool;
  pn_IsDefault : bool
}.

Record dueContractChange : Type := mkDueChange {
  dc_ChangeID : string;
  dc_ContractID : string;
  dc_ChangeType : string;
  dc_FromPhaseID : string;
  dc_ToPhaseID : string;
  dc_TargetPlanID : string;
  dc_RequestedEffectiveAt : time
}.

Definition planEntitlementPolicyOfRow (row : planEntitlementRow * policyRow) : res planEntitlementPolicy :=
  let e := row.2 in
  let! amount := checkedUint64FromInt64 (po_amount_units e) in
  Ret (mkPolicy (pe_policy_id row.1) (po_product_id e) (po_scope_type e) (po_scope_product_id e) (po_scope_bucket_id e)
         (po_scope_sku_id e) amount (po_cadence e) (po_proration_mode e) (po_policy_version e)
         (if decide (po_anchor_kind e = "calendar_month") then "billing_cycle" else po_anchor_kind e)).

Definition planRecordOfRow (planID : string) (row : planRow) : res PlanRecord :=
  let! monthly := checkedUint64FromInt64 (pl_monthly_amount_cents row) in
  let! annual := checkedUint64FromInt64 (pl_annual_amount_cents row) in
  Ret (mkPlanRecord planID (pl_product_id row) (pl_display_name row) (pl_billing_mode row) (pl_tier row) (pl_currency row)
         monthly annual (pl_active row) (pl_is_default row)).

Definition dueChangeOfRow (kv : string * changeRow) : dueContractChange :=
  mkDueChange kv.1 (ch_contract_id kv.2) (ch_change_type kv.2) (ch_from_phase_id kv.2) (ch_to_phase_id kv.2)
    (ch_target_plan_id kv.2) (ch_requested_effective_at kv.2).

Section DueChanges.
Context {St : Type} `{Env} `{Digest}.
#[local] Abbreviation Bx A := (@B St A).

(** A list query with a timestamp argument: with NULL no row matches. *)
Definition listAt {A} (t : time) (f : time -> DB -> list A) : Bx (list A) :=
  match timestamptz t with
  | Some t' => query (f t')
  | None => mret []
  end.

Definition planEntitlementPolicies (planID : string) : Bx (list planEntitlementPolicy) :=
  do! rows <- query (ListPlanEntitlementPolicies planID);
  mlift (outcome_map planEntitlementPolicyOfRow rows).

Definition loadPlan (planID : string) : Bx PlanRecord :=
  do! row <- query (GetActivePlan planID);
  match row with
  | Some pl => mlift (planRecordOfRow planID pl)
  | None => mfail (Errorf ("plan " +:+ planID +:+ " not found"))
  end.

Definition insertContractPhaseTx (orgID productID contractID phaseID planID : string) (state : phaseState)
    (paymentState : string) (effectiveAt : time) : Bx unit :=
  do! plan <- loadPlan planID;
  do! cents <- mlift (checkedInt64FromUint64 (pn_MonthlyAmountCents plan));
  do! units <- mlift (moneyUnitsFromCents cents);
  do! recurring <- mlift (checkedInt64FromUint64 units);
  statement (UpsertContractPhase phaseID contractID (orgIDText orgID) productID planID state paymentState
    (pn_Currency plan) recurring (timestamptz effectiveAt)).

Definition contractLineID (phaseID : string) (policy : planEntitlementPolicy) : string :=
  textID "contract_line" [phaseID; pp_PolicyID policy].

Definition copyPlanEntitlementLine (orgID productID contractID phaseID : string) (activeFrom : time)
    (policy : planEntitlementPolicy) : Bx unit :=
  do! amount <- mlift (checkedInt64FromUint64 (pp_AmountUnits policy));
  do! from <- mlift (not_null (timestamptz activeFrom));
  statement (UpsertContractEntitlementLine (contractLineID phaseID policy)
    (mkLineRow (orgIDText orgID) productID phaseID contractID (pp_PolicyID policy) (pp_ScopeType policy)
       (pp_ScopeProductID policy) (pp_ScopeBucketID policy) (pp_ScopeSKUID policy) amount
       (cleanNonEmpty [pp_RecurrenceAnchorKind policy; "billing_cycle"%string])
       (cleanNonEmpty [pp_ProrationMode policy; "none"%string]) (pp_PolicyVersion policy) from None)).

Definition copyPlanEntitlementLinesTx (orgID productID contractID phaseID : string) (policies : list planEntitlementPolicy)
    (activeFrom : time) : Bx unit :=
  forEach (copyPlanEntitlementLine orgID productID contractID phaseID activeFrom) policies.

Definition markContractChangeApplyingTx (changeID : string) : Bx unit :=
  statement (MarkContractChangeApplying changeID).

Definition markContractChangeAppliedTx (changeID : string) (effectiveAt : time) : Bx unit :=
  statement (MarkContractChangeApplied changeID (timestamptz effectiveAt)).

Definition phaseClosedEvent (orgID productID : string) (cycle : billingCycle) (change : dueContractChange)
    (phaseID planID reason : string) : eventFact :=
  mkEvent "contract_phase_closed" "contract_phase" phaseID orgID productID (bc_EndsAt cycle)
    [("contract_id"%string, JStr (dc_ContractID change)); ("change_id"%string, JStr (dc_ChangeID change));
     ("cycle_id"%string, JStr (bc_CycleID cycle)); ("pricing_phase_id"%string, JStr phaseID);
     ("pricing_plan_id"%string, JStr planID); ("effective_at"%string, rfc (bc_EndsAt cycle));
     ("reason"%string, JStr reason)] "" "".

Definition closeContractPhaseTx (orgID productID : string) (cycle : billingCycle) (change : dueContractChange)
    (phaseID planID reason : string) : Bx unit :=
  if decide (phaseID = "") then mret tt
  else
    do! rowsAffected <- statement (CloseContractPhase phaseID (dc_ContractID change) (timestamptz (bc_EndsAt cycle)));
    if rowsAffected =? 0 then mret tt
    else appendEvent (phaseClosedEvent orgID productID cycle change phaseID planID reason).

Definition activePhaseAtTx (contractID orgID productID : string) (effectiveAt : time) : Bx string :=
  do! phase <- queryAt effectiveAt (GetActivePhaseAtBoundary contractID (orgIDText orgID) productID);
  match phase with
  | Some id => mret id
  | None => mfail (Errorf "load active phase at boundary: no rows in result set")
  end.

Definition phasePlanIDTx (phaseID : string) : Bx string :=
  if decide (phaseID = "") then mret ""%string
  else do! plan <- query (GetPhasePlanID phaseID); mret (default ""%string plan).

Definition applyScheduledCancelTx (orgID productID : string) (cycle : billingCycle) (now : time)
    (change : dueContractChange) : Bx unit :=
  exec! markContractChangeApplyingTx (dc_ChangeID change);
  do! phases <- listAt (bc_EndsAt cycle) (ListCancelableContractPhases (dc_ContractID change) (orgIDText orgID) productID);
  exec! forEach (fun p => closeContractPhaseTx orgID productID cycle change p.1 p.2 "cancel") phases;
  exec! statement (CloseCanceledContract (dc_ContractID change) (orgIDText orgID) (timestamptz (bc_EndsAt cycle)));
  exec! markContractChangeAppliedTx (dc_ChangeID change) (bc_EndsAt cycle);
  appendEvent (mkEvent "contract_change_applied" "contract_change" (dc_ChangeID change) orgID productID (bc_EndsAt cycle)
    [("contract_id"%string, JStr (dc_ContractID change)); ("change_id"%string, JStr (dc_ChangeID change));
     ("change_type"%string, JStr "cancel"); ("cycle_id"%string, JStr (bc_CycleID cycle));
     ("effective_at"%string, rfc (bc_EndsAt cycle)); ("applied_at"%string, rfc now)] "" "").

Definition downgradeEvents (orgID productID : string) (cycle : billingCycle) (now : time)
    (change : dueContractChange) (fromPhaseID toPhaseID : string) : Bx unit :=
  exec! appendEvent (mkEvent "contract_phase_started" "contract_phase" toPhaseID orgID productID (bc_EndsAt cycle)
    [("contract_id"%string, JStr (dc_ContractID change)); ("change_id"%string, JStr (dc_ChangeID change));
     ("cycle_id"%string, JStr (bc_CycleID cycle)); ("pricing_phase_id"%string, JStr toPhaseID);
     ("pricing_plan_id"%string, JStr (dc_TargetPlanID change)); ("effective_at"%string, rfc (bc_EndsAt cycle));
     ("reason"%string, JStr "downgrade")] "" "");
  appendEvent (mkEvent "contract_change_applied" "contract_change" (dc_ChangeID change) orgID productID (bc_EndsAt cycle)
    [("contract_id"%string, JStr (dc_ContractID change)); ("change_id"%string, JStr (dc_ChangeID change));
     ("change_type"%string, JStr "downgrade"); ("cycle_id"%string, JStr (bc_CycleID cycle));
     ("from_phase_id"%string, JStr fromPhaseID); ("to_phase_id"%string, JStr toPhaseID);
     ("pricing_plan_id"%string, JStr (dc_TargetPlanID change)); ("effective_at"%string, rfc (bc_EndsAt cycle));
     ("applied_at"%string, rfc now)] "" "").

Definition applyScheduledDowngradeTx (orgID productID : string) (cycle : billingCycle) (now : time)
    (change : dueContractChange) : Bx unit :=
  if decide (dc_TargetPlanID change = "") then mfail (Errorf "scheduled downgrade missing target_plan_id")
  else
    do! targetPolicies <- planEntitlementPolicies (dc_TargetPlanID change);
    let toPhaseID := if decide (dc_ToPhaseID change = "")
                     then phaseID (dc_ContractID change) (dc_TargetPlanID change) (bc_EndsAt cycle)
                     else dc_ToPhaseID change in
    do! fromPhaseID <- (if decide (dc_FromPhaseID change = "")
                        then activePhaseAtTx (dc_ContractID change) orgID productID (bc_EndsAt cycle)
                        else mret (dc_FromPhaseID change));
    exec! markContractChangeApplyingTx (dc_ChangeID change);
    do! fromPlanID <- phasePlanIDTx fromPhaseID;
    exec! closeContractPhaseTx orgID productID cycle change fromPhaseID fromPlanID "downgrade";
    exec! insertContractPhaseTx orgID productID (dc_ContractID change) toPhaseID (dc_TargetPlanID change) PhActive "paid"
      (bc_EndsAt cycle);
    exec! copyPlanEntitlementLinesTx orgID productID (dc_ContractID change) toPhaseID targetPolicies (bc_EndsAt cycle);
    exec! statement (UpdateDowngradedContract (dc_ContractID change) (orgIDText orgID) (dc_TargetPlanID change));
    exec! markContractChangeAppliedTx (dc_ChangeID change) (bc_EndsAt cycle);
    downgradeEvents orgID productID cycle now change fromPhaseID toPhaseID.

Definition applyDueChangeTx (orgID productID : string) (cycle : billingCycle) (now : time) (change : dueContractChange)
    : Bx unit :=
  if decide (dc_ChangeType change = "cancel") then applyScheduledCancelTx orgID productID cycle now change
  else if decide (dc_ChangeType change = "downgrade") then applyScheduledDowngradeTx orgID productID cycle now change
  else mfail (Errorf "unsupported scheduled contract change").

(** An error rolls the transaction back, so the count of a failed loop is
    never seen. *)
Definition applyDueContractChanges (orgID productID : string) (cycle : billingCycle) (now : time) : Bx Z :=
  do! rows <- listAt (bc_EndsAt cycle) (ListDueContractChanges (orgIDText orgID) productID);
  let changes := dueChangeOfRow <$> rows in
  exec! forEach (applyDueChangeTx orgID productID cycle now) changes;
  mret (Z.of_nat (length changes)).
End DueChanges.

(** ** Frames *)

Section DueChangesFrame.
Context {St : Type} `{HE : Env} `{HD : Digest}.
#[local] Abbreviation ok m := (evolves (St := St) periods_frame eq m).

Lemma listAt_periods {A} t (f : time -> DB -> list A) : ok (listAt t f).
Proof. unfold listAt. frame. Qed.

Lemma queryAt_periods {A} t (f : time -> DB -> option A) : ok (queryAt t f).
Proof. unfold queryAt. frame. Qed.

#[local] Hint Resolve listAt_periods queryAt_periods : frame.

Lemma loadPlan_ok p : ok (loadPlan p).
Proof. unfold loadPlan. frame. Qed.

#[local] Hint Resolve loadPlan_ok : frame.

Lemma insertContractPhaseTx_ok o p c ph pl st pay t : ok (insertContractPhaseTx o p c ph pl st pay t).
Proof. unfold insertContractPhaseTx. frame. Qed.

Lemma copyPlanEntitlementLinesTx_ok o p c ph ps t : ok (copyPlanEntitlementLinesTx o p c ph ps t).
Proof. unfold copyPlanEntitlementLinesTx, copyPlanEntitlementLine. frame. Qed.

Lemma closeContractPhaseTx_ok o p cy ch ph pl r : ok (closeContractPhaseTx o p cy ch ph pl r).
Proof. unfold closeContractPhaseTx. frame. Qed.

#[local] Hint Resolve insertContractPhaseTx_ok copyPlanEntitlementLinesTx_ok closeContractPhaseTx_ok : frame.

Lemma applyScheduledCancelTx_ok o p cy t ch : ok (applyScheduledCancelTx o p cy t ch).
Proof. unfold applyScheduledCancelTx, markContractChangeApplyingTx, markContractChangeAppliedTx. frame. Qed.

Lemma applyScheduledDowngradeTx_ok o p cy t ch : ok (applyScheduledDowngradeTx o p cy t ch).
Proof.
  unfold applyScheduledDowngradeTx, markContractChangeApplyingTx, markContractChangeAppliedTx, downgradeEvents,
    planEntitlementPolicies, activePhaseAtTx, phasePlanIDTx. frame.
Qed.

#[local] Hint Resolve applyScheduledCancelTx_ok applyScheduledDowngradeTx_ok : frame.

Lemma applyDueContractChanges_ok o p cy t : ok (applyDueContractChanges o p cy t).
Proof. unfold applyDueContractChanges, applyDueChangeTx. frame. Qed.
End DueChangesFrame.
