(* ===== verification/WindowStore.v ===== *)
(** * Billing windows: records and SQL

    The in-memory window of billing/windows.go with its views
    (WindowReservation, SettleResult), the statements of
    store/queries/windows.sql, and the loading of windows and prices. *)

From S2P Require Import Prelude GoFloat GoStd GoTime GoFormat Json Types Ids Ledger Charges Grants Store Events.
From S2P Require Import LedgerCommands LedgerGrants Cycles Entitlements.

Definition defaultWindowMillis : Z := 5 * 60 * 1000.
Definition defaultRenewBefore : Z := 30 * 1000.
Definition minCustomWindowMillis : Z := 30 * 1000.
Definition minRenewBeforeMillis : Z := 5 * 1000.
Definition pricingPhaseIncluded : string := "included".

Record persistedWindow : Type := mkWindow {
  pw_WindowID : string;
  pw_CycleID : string;
  pw_OrgID : string;
  pw_ActorID : string;
  pw_ProductID : string;
  pw_PricingContractID : string;
  pw_PricingPhaseID : string;
  pw_PricingPlanID : string;
  pw_SourceType : string;
  pw_SourceRef : string;
  pw_SourceFingerprint : string;
  pw_WindowSeq : Z;
  pw_State : windowState;
  pw_ReservationShape : string;
  pw_ReservedQuantity : Z;
  pw_ActualQuantity : Z;
  pw_BillableQuantity : Z;
  pw_WriteoffQuantity : Z;
  pw_ReservedChargeUnits : Z;
  pw_BilledChargeUnits : Z;
  pw_WriteoffChargeUnits : Z;
  pw_PricingPhase : string;
  pw_Allocation : gmap string f64;
  pw_RateContext : pricingContext;
  pw_UsageSummary : gmap string goAny;
  pw_FundingLegs : list fundingLeg;
  pw_WindowStart : time;
  pw_ActivatedAt : option time;
  pw_ExpiresAt : time;
  pw_RenewBy : option time;
  pw_SettledAt : option time;
  pw_CreatedAt : time
}.

(** types.go *)
Record WindowReservation : Type := mkReservation {
  wr_WindowID : string;
  wr_OrgID : string;
  wr_ProductID : string;
  wr_PlanID : string;
  wr_ActorID : string;
  wr_SourceType : string;
  wr_SourceRef : string;
  wr_WindowSeq : Z;
  wr_ReservationShape : string;
  wr_ReservedQuantity : Z;
  wr_ReservedChargeUnits : Z;
  wr_PricingPhase : string;
  wr_Allocation : gmap string f64;
  wr_SKURates : gmap string Z;
  wr_CostPerUnit : Z;
  wr_WindowStart : time;
  wr_ActivatedAt : option time;
  wr_ExpiresAt : time;
  wr_RenewBy : option time
}.

Record ReserveRequest : Type := mkRequest {
  rq_OrgID : string;
  rq_ProductID : string;
  rq_ActorID : string;
  rq_ConcurrentCount : Z;
  rq_SourceType : string;
  rq_SourceRef : string;
  rq_WindowSeq : Z;
  rq_ReservationShape : string;
  rq_ReservedQuantity : Z;
  rq_Allocation : gmap string f64;
  rq_BillingJobID : Z
}.

Record SettleResult : Type := mkSettleResult {
  sr_WindowID : string;
  sr_ActualQuantity : Z;
  sr_BillableQuantity : Z;
  sr_WriteoffQuantity : Z;
  sr_BilledChargeUnits : Z;
  sr_WriteoffChargeUnits : Z;
  sr_SettledAt : time
}.

Definition reservation (w : persistedWindow) : WindowReservation :=
  mkReservation (pw_WindowID w) (pw_OrgID w) (pw_ProductID w) (pw_PricingPlanID w) (pw_ActorID w) (pw_SourceType w)
    (pw_SourceRef w) (pw_WindowSeq w) (pw_ReservationShape w) (pw_ReservedQuantity w) (pw_ReservedChargeUnits w)
    (pw_PricingPhase w) (pw_Allocation w) (SKURates (pw_RateContext w)) (CostPerUnit (pw_RateContext w))
    (pw_WindowStart w) (pw_ActivatedAt w) (pw_ExpiresAt w) (pw_RenewBy w).

Definition settleResult (w : persistedWindow) : SettleResult :=
  mkSettleResult (pw_WindowID w) (pw_ActualQuantity w) (pw_BillableQuantity w) (pw_WriteoffQuantity w)
    (pw_BilledChargeUnits w) (pw_WriteoffChargeUnits w)
    (match pw_SettledAt w with Some t => t | None => zero_time end).

(** What json.Marshal and json.Unmarshal make of a usage summary: numbers come
    back as float64; a NaN or infinite value cannot be marshalled. *)
Definition json_any (v : goAny) : option goAny :=
  match v with
  | AnyUint64 z | AnyUint32 z | AnyInt z | AnyInt64 z => Some (AnyFloat64 (f64_of_Z z))
  | AnyFloat64 f => if f64_is_nan f || f64_is_inf f then None else Some (AnyFloat64 f)
  | AnyString s => Some (AnyString s)
  | AnyOther v => Some (AnyOther v)
  end.

Definition json_summary (m : gmap string goAny) : res (gmap string goAny) :=
  if forallb (fun kv => bool_decide (is_Some (json_any kv.2))) (map_to_list m)
  then Ret (omap json_any m) else errorf "marshal usage summary".

(** ** Statements (store/queries/windows.sql) *)

Definition same_source (w w' : windowRow) : bool :=
  bool_decide (w_org_id w = w_org_id w') && bool_decide (w_product_id w = w_product_id w')
  && bool_decide (w_source_type w = w_source_type w') && bool_decide (w_source_ref w = w_source_ref w')
  && (w_window_seq w =? w_window_seq w').

(** The unique constraints of billing_windows besides the primary key. *)
Definition windows_conflict (w w' : windowRow) : bool :=
  same_source w w'
  || bool_decide (w_source_fingerprint w = w_source_fingerprint w')
  || negb (bool_decide (w_billing_job_id w = "")) && bool_decide (w_billing_job_id w = w_billing_job_id w')
     && (w_window_seq w =? w_window_seq w').

Definition window_checks (w : windowRow) : bool :=
  (w_window_start w <? w_expires_at w)
  && bool_decide (w_reservation_shape w ∈ ["time"; "count"]%string)
  && (0 <=? w_window_seq w) && (0 <=? w_reserved_quantity w) && (0 <=? w_reserved_charge_units w)
  && negb (bool_decide (w_source_type w = "")) && negb (bool_decide (w_source_ref w = ""))
  && negb (bool_decide (w_source_fingerprint w = "")).

Definition InsertBillingWindow (windowID : string) (row : windowRow) (d : DB) : res (unit * DB) :=
  match db_windows d !! windowID with
  | Some _ => errorf "duplicate key value violates unique constraint"
  | None =>
      if existsb (fun kv => windows_conflict row kv.2) (map_to_list (db_windows d))
      then errorf "duplicate key value violates unique constraint"
      else
        let! _ := check_constraint (negb (bool_decide (windowID = "")) && window_checks row) in
        Ret (tt, set_windows (<[windowID := row]> (db_windows d)) d)
  end.

(** Field updates of a window row. *)
Definition activated (at_ expires : time) (renew : option time) (w : windowRow) : windowRow :=
  mkWindowRow (w_cycle_id w) (w_org_id w) (w_actor_id w) (w_product_id w) (w_pricing_contract_id w) (w_pricing_phase_id w)
    (w_pricing_plan_id w) (w_source_type w) (w_source_ref w) (w_source_fingerprint w) (w_billing_job_id w) (w_window_seq w)
    WActive (w_reservation_shape w) (w_reserved_quantity w) (w_actual_quantity w) (w_billable_quantity w)
    (w_writeoff_quantity w) (w_reserved_charge_units w) (w_billed_charge_units w) (w_writeoff_charge_units w)
    (w_writeoff_reason w) (w_pricing_phase w) (w_allocation w) (w_rate_context w) (w_usage_summary w) (w_funding_legs w)
    (w_ledger_correlation_id w) at_ (Some at_) expires renew (w_settled_at w) (w_metering_projected_at w)
    (w_last_projection_error w) (w_created_at w).

Definition settlingRow (actual billable writeoff billed writeoffUnits : Z) (reason : string)
    (usage : gmap string goAny) (legs : list fundingLeg) (settledAt : option time) (w : windowRow) : windowRow :=
  mkWindowRow (w_cycle_id w) (w_org_id w) (w_actor_id w) (w_product_id w) (w_pricing_contract_id w) (w_pricing_phase_id w)
    (w_pricing_plan_id w) (w_source_type w) (w_source_ref w) (w_source_fingerprint w) (w_billing_job_id w) (w_window_seq w)
    WSettling (w_reservation_shape w) (w_reserved_quantity w) actual billable writeoff (w_reserved_charge_units w)
    billed writeoffUnits reason (w_pricing_phase w) (w_allocation w) (w_rate_context w) usage legs
    (w_ledger_correlation_id w) (w_window_start w) (w_activated_at w) (w_expires_at w) (w_renew_by w) settledAt
    (w_metering_projected_at w) (w_last_projection_error w) (w_created_at w).

Definition with_state (st : windowState) (projectedAt : option time) (projectionError : string) (w : windowRow) : windowRow :=
  mkWindowRow (w_cycle_id w) (w_org_id w) (w_actor_id w) (w_product_id w) (w_pricing_contract_id w) (w_pricing_phase_id w)
    (w_pricing_plan_id w) (w_source_type w) (w_source_ref w) (w_source_fingerprint w) (w_billing_job_id w) (w_window_seq w)
    st (w_reservation_shape w) (w_reserved_quantity w) (w_actual_quantity w) (w_billable_quantity w)
    (w_writeoff_quantity w) (w_reserved_charge_units w) (w_billed_charge_units w) (w_writeoff_charge_units w)
    (w_writeoff_reason w) (w_pricing_phase w) (w_allocation w) (w_rate_context w) (w_usage_summary w) (w_funding_legs w)
    (w_ledger_correlation_id w) (w_window_start w) (w_activated_at w) (w_expires_at w) (w_renew_by w) (w_settled_at w)
    projectedAt projectionError (w_created_at w).

Definition in_reserved_or_active (st : windowState) : bool :=
  match st with WReserved | WActive => true | _ => false end.

(** The execrows statements return the number of rows they changed. *)
Definition ActivateBillingWindow (windowID : string) (activatedAt expiresAt renewBy : option time) (d : DB) : res (Z * DB) :=
  match db_windows d !! windowID with
  | Some w =>
      if bool_decide (w_state w = WReserved) && bool_decide (w_activated_at w = None) then
        let! at_ := not_null activatedAt in
        let! expires := not_null expiresAt in
        let! _ := check_constraint (at_ <? expires) in
        Ret (1, set_windows (<[windowID := activated at_ expires renewBy w]> (db_windows d)) d)
      else Ret (0, d)
  | None => Ret (0, d)
  end.

Definition PrepareBillingWindowSettlement (windowID : string) (actual billable writeoff billed writeoffUnits : Z)
    (reason : string) (usage : gmap string goAny) (legs : list fundingLeg) (settledAt : option time) (d : DB)
    : res (Z * DB) :=
  match db_windows d !! windowID with
  | Some w =>
      if in_reserved_or_active (w_state w) then
        Ret (1, set_windows (<[windowID := settlingRow actual billable writeoff billed writeoffUnits reason usage legs
                                             settledAt w]> (db_windows d)) d)
      else Ret (0, d)
  | None => Ret (0, d)
  end.

Definition UpdateWindowProjectionError (windowID err : string) (d : DB) : res (unit * DB) :=
  Ret (tt, set_windows (alter (fun w => with_state (w_state w) (w_metering_projected_at w) err w) windowID (db_windows d)) d).

Definition MarkMeteringProjected (windowID : string) (projectedAt : option time) (d : DB) : res (unit * DB) :=
  Ret (tt, set_windows (alter (fun w => with_state (w_state w) projectedAt "" w) windowID (db_windows d)) d).

Definition VoidBillingWindow (windowID : string) (d : DB) : res (Z * DB) :=
  match db_windows d !! windowID with
  | Some w =>
      if in_reserved_or_active (w_state w) then
        let! _ := check_constraint (bool_decide (w_settled_at w = None)) in
        Ret (1, set_windows (<[windowID := with_state WVoided (w_metering_projected_at w) (w_last_projection_error w) w]>
                               (db_windows d)) d)
      else Ret (0, d)
  | None => Ret (0, d)
  end.

Definition MarkWindowSettled (windowID : string) (d : DB) : res (Z * DB) :=
  match db_windows d !! windowID with
  | Some w =>
      if decide (w_state w = WSettling) then
        Ret (1, set_windows (<[windowID := with_state WSettled (w_metering_projected_at w) (w_last_projection_error w) w]>
                               (db_windows d)) d)
      else Ret (0, d)
  | None => Ret (0, d)
  end.

(** ORDER BY settled_at, window_id; settled windows have a settled_at. *)
Definition ListPendingMeteringWindowIDs (limit : Z) (d : DB) : list string :=
  take (Z.to_nat limit)
    (sort_slice (lex_key Z.eqb Z.ltb (fun kv => default 0 (w_settled_at kv.2)) (on_key str_ltb fst))
       (filter (fun kv => w_state kv.2 = WSettled /\ w_metering_projected_at kv.2 = None)
          (map_to_list (db_windows d)))).*1.

Definition GetWindowIDBySource (org productID sourceType sourceRef : string) (seq : Z) (d : DB) : option string :=
  head (filter (fun kv => w_org_id kv.2 = org /\ w_product_id kv.2 = productID /\ w_source_type kv.2 = sourceType
                          /\ w_source_ref kv.2 = sourceRef /\ w_window_seq kv.2 = seq)
          (map_to_list (db_windows d))).*1.

(** *** Legs *)

Definition leg_source_ok (source : string) : bool :=
  bool_decide (source ∈ ["free_tier"; "contract"; "purchase"; "promo"; "refund"; "receivable"; "adjustment"]%string).

Definition InsertWindowLedgerLeg (windowID : string) (seq : Z) (row : legRow) (d : DB) : res (unit * DB) :=
  match db_legs d !! (windowID, seq) with
  | Some _ => Ret (tt, d)
  | None =>
      let! _ := check_constraint ((0 <=? seq) && leg_source_ok (l_source row) && (0 <=? l_amount_reserved row)) in
      Ret (tt, set_legs (<[(windowID, seq) := row]> (db_legs d)) d)
  end.

Definition leg_with (settlement : option ID) (posted_ voided : Z) (st : legState) (l : legRow) : legRow :=
  mkLegRow (l_grant_id l) (l_grant_account_id l) settlement (l_component_sku_id l) (l_component_bucket_id l) (l_source l)
    (l_scope_type l) (l_scope_product_id l) (l_scope_bucket_id l) (l_scope_sku_id l) (l_plan_id l) (l_amount_reserved l)
    posted_ voided st.

Definition legs_of_window (windowID : string) (d : DB) : list (Z * legRow) :=
  sort_slice (on_key Z.ltb fst)
    ((fun kv => (kv.1.2, kv.2)) <$> filter (fun kv => kv.1.1 = windowID) (map_to_list (db_legs d))).

Definition ListPendingWindowLedgerLegsForUpdate (windowID : string) (d : DB) : list (Z * legRow) :=
  filter (fun kv => l_state kv.2 = LPending) (legs_of_window windowID d).

Definition StoreWindowSettlementAmounts (windowID : string) (seq : Z) (settlement : option ID) (posted_ voided : Z)
    (d : DB) : res (unit * DB) :=
  Ret (tt, set_legs (alter (fun l => leg_with settlement posted_ voided (l_state l) l) (windowID, seq) (db_legs d)) d).

(** UPDATE of every pending leg of a window. *)
Definition update_pending_legs (windowID : string) (f : legRow -> legRow) (d : DB) : DB :=
  set_legs (map_imap (fun k l => Some (if decide (k.1 = windowID /\ l_state l = LPending) then f l else l)) (db_legs d)) d.

Definition VoidPendingWindowLedgerLegs (windowID : string) (d : DB) : res (unit * DB) :=
  Ret (tt, update_pending_legs windowID
             (fun l => leg_with (l_settlement_transfer_id l) 0 (l_amount_reserved l) LVoided l) d).

Definition MarkPendingWindowLedgerLegsPostedOrVoided (windowID : string) (d : DB) : res (unit * DB) :=
  Ret (tt, update_pending_legs windowID
             (fun l => leg_with (l_settlement_transfer_id l) (l_amount_posted l) (l_amount_voided l)
                         (if 0 <? l_amount_posted l then LPosted else LVoided) l) d).

(** *** Prices *)

Definition phaseLess : (string * phaseRow) -> (string * phaseRow) -> bool :=
  fun a b => lex_key Z.eqb Z.ltb (fun kv => ph_effective_start kv.2) (on_key str_ltb fst) b a.

(** The active_phase CTE: the phase with its contract's overage policy. *)
Definition active_phase (org productID : string) (now : time) (d : DB) : option (string * phaseRow * string) :=
  let rows := filter (fun kv => ph_org_id kv.2 = org /\ ph_product_id kv.2 = productID /\ phase_live now kv.2 = true
                /\ (match kt_contracts (db_contracts d) !! ph_contract_id kv.2 with
                    | Some c => contract_live c
                    | None => false
                    end) = true) (map_to_list (kt_phases (db_contracts d))) in
  match head (sort_slice phaseLess rows) with
  | None => None
  | Some (id, ph) =>
      Some (id, ph, match kt_contracts (db_contracts d) !! ph_contract_id ph with
                    | Some c => ct_overage_policy c
                    | None => ""%string
                    end)
  end.

Definition default_plan (productID : string) (d : DB) : option string :=
  head (sort_slice field_less
    (filter (fun kv => pl_product_id kv.2 = productID /\ pl_active kv.2 = true /\ pl_is_default kv.2 = true)
       (map_to_list (ca_plans (db_catalog d))))).*1.

(** LoadPricingContext: plan id, plan, contract id, phase id, overage policy. *)
Definition LoadPricingContext (org productID : string) (now : time) (d : DB)
    : option (string * planRow * string * string * string) :=
  let phase := active_phase org productID now d in
  let planID := match phase with
                | Some (_, ph, _) => if decide (ph_plan_id ph = "") then default_plan productID d else Some (ph_plan_id ph)
                | None => default_plan productID d
                end in
  match planID with
  | None => None
  | Some id =>
      match ca_plans (db_catalog d) !! id with
      | None => None
      | Some pl =>
          match phase with
          | Some (phaseID, ph, policy) => Some (id, pl, ph_contract_id ph, phaseID, policy)
          | None => Some (id, pl, ""%string, ""%string, "block"%string)
          end
      end
  end.

Record skuRate : Type := mkSkuRate {
  sk_SkuID : string;
  sk_UnitRate : Z;
  sk_BucketID : string;
  sk_SkuDisplayName : string;
  sk_QuantityUnit : string;
  sk_BucketDisplayName : string;
  sk_SortOrder : Z
}.

Definition rate_row (d : DB) (r : rateRow) : option skuRate :=
  match ca_skus (db_catalog d) !! r_sku_id r with
  | None => None
  | Some s =>
      match ca_buckets (db_catalog d) !! s_bucket_id s with
      | None => None
      | Some b => Some (mkSkuRate (r_sku_id r) (r_unit_rate r) (s_bucket_id s) (s_display_name s) (s_quantity_unit s)
                          (b_display_name b) (b_sort_order b))
      end
  end.

Definition ListActivePlanSKURates (planID : string) (now : time) (d : DB) : list skuRate :=
  sort_slice (on_key str_ltb sk_SkuID)
    (omap (rate_row d)
       (filter (fun r => r_plan_id r = planID /\ r_active r = true /\ active_at now (r_active_from r) (r_active_until r) = true)
          (ca_rates (db_catalog d)))).
