(* ===== verification/Windows.v ===== *)
(** * Billing windows: operations

    Models the handlers of billing/windows.go: reserve, activate, settle and
    void a window, and project a settled window to ClickHouse.

    The advisory and row locks taken by the handlers serialise concurrent
    transactions; here every transaction is atomic. *)

From S2P Require Import Prelude GoFloat GoStd GoTime GoFormat Json Types Ids Ledger Charges Grants Store Events.
From S2P Require Import LedgerCommands LedgerGrants Cycles Entitlements WindowStore.

(** ** Request validation and timing *)

Definition normalizeReservationShape (shape : string) : res string :=
  let s := trim_space shape in
  if decide (s = ReservationShapeTime) then Ret ReservationShapeTime
  else if decide (s = ReservationShapeCount) then Ret ReservationShapeCount
  else if decide (s = "") then errorf "reserve reservation_shape is required"
  else errorf "reserve reservation_shape must be time or count".

Definition reserveWindowQuantity (shape : string) (requested : Z) : res Z :=
  if decide (shape = ReservationShapeTime) then
    if requested =? 0 then Ret defaultWindowMillis
    else if requested <? minCustomWindowMillis then errorf "reserve time reserved_quantity is too small"
    else Ret requested
  else if decide (shape = ReservationShapeCount) then
    if requested =? 0 then errorf "reserve count reserved_quantity must be greater than 0" else Ret requested
  else errorf "reserve reservation_shape must be time or count".

Definition windowRenewBeforeMillis (quantity : Z) : Z :=
  let lead := quantity / 3 in
  let lead := if lead <? minRenewBeforeMillis then minRenewBeforeMillis else lead in
  let lead := if defaultRenewBefore <? lead then defaultRenewBefore else lead in
  if quantity <=? lead then 0 else lead.

Definition reserveWindowTiming (shape : string) (now : time) (quantity : Z) : time * time :=
  let authorizationMillis := if decide (shape = ReservationShapeCount) then defaultWindowMillis else quantity in
  let expiresAt := now + authorizationMillis * millisecond in
  let renewBy := expiresAt - windowRenewBeforeMillis authorizationMillis * millisecond in
  (expiresAt, if now <? renewBy then renewBy else expiresAt).

Definition writeoffReason (writeoff : Z) (w : persistedWindow) : string :=
  if writeoff =? 0 then ""
  else if decide (pw_PricingContractID w = "") then "free_tier_overage_absorbed"
  else "paid_hard_cap_overage_absorbed".

Definition stateName (s : windowState) : string :=
  match s with
  | WReserved => "reserved" | WActive => "active" | WSettling => "settling"
  | WSettled => "settled" | WVoided => "voided"
  end.

(** ** Metering rows *)

Definition usage_step `{Env} (out : gmap string Z) (kv : string * goAny) : gmap string Z :=
  match kv.2 with
  | AnyUint64 z | AnyUint32 z => <[kv.1 := z]> out
  | AnyInt z | AnyInt64 z => if 0 <=? z then <[kv.1 := z]> out else out
  | AnyFloat64 f =>
      if f64_ge f f64_zero
      then <[kv.1 := match f64_to_u64 f with Some z => z | None => float_overflow f end]> out
      else out
  | AnyString _ | AnyOther _ => out
  end.

Definition usageEvidence `{Env} (summary : gmap string goAny) : gmap string Z :=
  foldl usage_step ∅ (map_to_list summary).

Record meteringCharges : Type := mkMeteringCharges {
  mc_quantities : gmap string f64;
  mc_components : gmap string Z;
  mc_buckets : gmap string Z
}.

(** The allocation loop of meteringRowForWindow. *)
Definition metering_step (w : persistedWindow) (st : meteringCharges) (kv : string * f64) : res meteringCharges :=
  let '(skuID, units) := kv in
  let quantities := <[skuID := f64_mul units (f64_of_Z (pw_BillableQuantity w))]> (mc_quantities st) in
  match SKURates (pw_RateContext w) !! skuID with
  | None => errorf "no active rate for sku"
  | Some rate =>
      let! charge := chargeUnitsForQuantity units rate (pw_BillableQuantity w) in
      let bucketID := map_str (SKUBuckets (pw_RateContext w)) skuID in
      let! nextBucketCharge := addChargeUnits (map_u64 (mc_buckets st) bucketID) charge in
      Ret (mkMeteringCharges quantities (<[skuID := charge]> (mc_components st))
             (<[bucketID := nextBucketCharge]> (mc_buckets st)))
  end.

Definition by_source (legs : list fundingLeg) : gmap string Z :=
  foldl (fun m leg => bump m (fl_Source leg) (fl_Amount leg)) ∅ legs.

Definition component_by_source (legs : list fundingLeg) : gmap string (gmap string Z) :=
  foldl (fun m leg =>
    if decide (fl_ComponentSKUID leg = "") then m
    else <[fl_Source leg := bump (default ∅ (m !! fl_Source leg)) (fl_ComponentSKUID leg) (fl_Amount leg)]> m) ∅ legs.

Definition meteringRowForWindow `{Env} (w : persistedWindow) (recordedAt : time) : res meteringRow :=
  let! charges := outcome_fold (metering_step w) (mkMeteringCharges ∅ ∅ ∅) (map_to_list (pw_Allocation w)) in
  let bySource := by_source (pw_FundingLegs w) in
  let componentBySource := component_by_source (pw_FundingLegs w) in
  let comp s := default ∅ (componentBySource !! s) in
  let isCount := bool_decide (pw_ReservationShape w = ReservationShapeCount) in
  let endedAt := pw_WindowStart w + pw_ActualQuantity w * millisecond in
  let endedAt := if isCount then pw_WindowStart w else endedAt in
  let endedAt := match pw_SettledAt w with
                 | Some t => if (pw_ActualQuantity w =? 0) || isCount then t else endedAt
                 | None => endedAt
                 end in
  Ret (mkMeteringRow (pw_WindowID w) (orgIDText (pw_OrgID w)) (pw_ActorID w) (pw_ProductID w) (pw_SourceType w)
    (pw_SourceRef w) (pw_WindowSeq w) (pw_ReservationShape w) (pw_WindowStart w) endedAt (pw_ReservedQuantity w)
    (pw_ActualQuantity w) (pw_BillableQuantity w) (pw_WriteoffQuantity w) (pw_CycleID w) (pw_PricingContractID w)
    (pw_PricingPhaseID w) (pw_PricingPlanID w) (pw_PricingPhase w) (pw_Allocation w) (mc_quantities charges)
    (mc_components charges) (mc_buckets charges) (pw_BilledChargeUnits w) (pw_WriteoffChargeUnits w)
    (map_u64 bySource "free_tier") (map_u64 bySource "contract") (map_u64 bySource "purchase") (map_u64 bySource "promo")
    (map_u64 bySource "refund") (map_u64 bySource "receivable") (map_u64 bySource "adjustment") ""
    (comp "free_tier"%string) (comp "contract"%string) (comp "purchase"%string) (comp "promo"%string)
    (comp "refund"%string) (comp "receivable"%string) (comp "adjustment"%string)
    (usageEvidence (pw_UsageSummary w)) (CostPerUnit (pw_RateContext w)) recordedAt "").

Section Windows.
Context {St : Type} `{Env} `{Digest} `{HC : TBCodec} `{!TigerBeetle St} `{!PeriodWork St}.
#[local] Abbreviation Bx A := (@B St A).

Definition reserveSourceFingerprint (req : ReserveRequest) (shape : string) (quantity : Z) : string :=
  let skus := sort_slice field_less (map_to_list (rq_Allocation req)) in
  textID "winfp"
    ([orgIDText (rq_OrgID req); rq_ProductID req; rq_ActorID req; rq_SourceType req; rq_SourceRef req;
      format_uint (rq_WindowSeq req); shape; format_uint quantity; format_uint (rq_ConcurrentCount req);
      format_int (rq_BillingJobID req)]
     ++ flat_map (fun kv => [kv.1; format_float kv.2]) skus).

(** ** Loading *)

Definition windowOfRow (windowID : string) (row : windowRow) : res persistedWindow :=
  let! parsedOrg := parseOrgID (w_org_id row) in
  let! seq := checkedUint32FromInt64 (w_window_seq row) in
  let! reserved := checkedUint32FromInt64 (w_reserved_quantity row) in
  let! actual := checkedUint32FromInt64 (w_actual_quantity row) in
  let! billable := checkedUint32FromInt64 (w_billable_quantity row) in
  let! writeoff := checkedUint32FromInt64 (w_writeoff_quantity row) in
  let! reservedUnits := checkedUint64FromInt64 (w_reserved_charge_units row) in
  let! billedUnits := checkedUint64FromInt64 (w_billed_charge_units row) in
  let! writeoffUnits := checkedUint64FromInt64 (w_writeoff_charge_units row) in
  Ret (mkWindow windowID (w_cycle_id row) parsedOrg (w_actor_id row) (w_product_id row) (w_pricing_contract_id row)
         (w_pricing_phase_id row) (w_pricing_plan_id row) (w_source_type row) (w_source_ref row)
         (w_source_fingerprint row) seq (w_state row) (w_reservation_shape row) reserved actual billable writeoff
         reservedUnits billedUnits writeoffUnits (w_pricing_phase row) (w_allocation row) (w_rate_context row)
         (w_usage_summary row) (w_funding_legs row) (w_window_start row) (w_activated_at row) (w_expires_at row)
         (w_renew_by row) (w_settled_at row) (w_created_at row)).

Definition loadWindow (windowID : string) : Bx persistedWindow :=
  do! row <- query (fun d => db_windows d !! windowID);
  match row with
  | None => mfail ErrWindowNotFound
  | Some row => mlift (windowOfRow windowID row)
  end.

Definition loadReservation (windowID : string) : Bx WindowReservation :=
  do! w <- loadWindow windowID; mret (reservation w).

Definition loadWindowBySource (orgID productID sourceType sourceRef : string) (seq : Z) : Bx (option persistedWindow) :=
  do! id <- query (GetWindowIDBySource (orgIDText orgID) productID sourceType sourceRef seq);
  match id with
  | None => mret None
  | Some windowID => do! w <- loadWindow windowID; mret (Some w)
  end.

Definition lockWindowStateTx (windowID : string) : Bx windowState :=
  do! row <- query (fun d => db_windows d !! windowID);
  match row with
  | None => mfail ErrWindowNotFound
  | Some w => mret (w_state w)
  end.

Definition orgBillingStateTx (orgID : string) : Bx (string * string) :=
  do! row <- query (fun d => db_orgs d !! orgIDText orgID);
  match row with
  | None => exec! ensureDefaultOrgTx orgID; mret ("active"%string, "block"%string)
  | Some o => mret (o_state o, o_overage_policy o)
  end.

(** The row loop of loadPricingContextTx. *)
Definition pricing_step (out : pricingContext) (sku : skuRate) : res pricingContext :=
  let! rate := checkedUint64FromInt64 (sk_UnitRate sku) in
  Ret (mkPricing (PlanID out) (BillingMode out) (ContractID out) (PhaseID out) (OveragePolicy out) (Currency out)
         (<[sk_SkuID sku := rate]> (SKURates out)) (<[sk_SkuID sku := sk_BucketID sku]> (SKUBuckets out))
         (<[sk_SkuID sku := sk_SortOrder sku]> (SKUBucketOrders out))
         (<[sk_SkuID sku := sk_SkuDisplayName sku]> (SKUDisplayNames out))
         (<[sk_SkuID sku := sk_QuantityUnit sku]> (SKUQuantityUnits out))
         (<[sk_BucketID sku := sk_BucketDisplayName sku]> (BucketDisplayNames out)) (CostPerUnit out)).

Definition loadPricingContextTx (orgID productID : string) (now : time) : Bx pricingContext :=
  do! row <- queryAt now (LoadPricingContext (orgIDText orgID) productID);
  match row with
  | None => mfail (Errorf "no active/default plan for product")
  | Some (planID, pl, contractID, phaseID, policy) =>
      do! rows <- match timestamptz now with
                  | Some t => query (ListActivePlanSKURates planID t)
                  | None => mret []
                  end;
      mlift (outcome_fold pricing_step
        (mkPricing planID (pl_billing_mode pl) contractID phaseID policy (pl_currency pl) ∅ ∅ ∅ ∅ ∅ ∅ 0) rows)
  end.

Definition with_cost (p : pricingContext) (cost : Z) : pricingContext :=
  mkPricing (PlanID p) (BillingMode p) (ContractID p) (PhaseID p) (OveragePolicy p) (Currency p) (SKURates p)
    (SKUBuckets p) (SKUBucketOrders p) (SKUDisplayNames p) (SKUQuantityUnits p) (BucketDisplayNames p) cost.

(** ** Reserve *)

Definition fundReservationTx (orgID productID : string) (componentCharges : gmap string Z) (pricing : pricingContext)
    : Bx (list fundingLeg) :=
  do! grants <- grantBalancesTx orgID productID;
  mret (fundReservation productID componentCharges pricing grants).2.

Definition legRowOf (leg : fundingLeg) (accountID : option ID) (amount : Z) : legRow :=
  mkLegRow (fl_GrantID leg) accountID None (fl_ComponentSKUID leg) (fl_ComponentBucketID leg) (fl_Source leg)
    (fl_ScopeType leg) (fl_ScopeProductID leg) (fl_ScopeBucketID leg) (fl_ScopeSKUID leg) (fl_PlanID leg)
    amount 0 0 LPending.

(** The loop body of insertWindowLedgerLegsTx. *)
Definition insertLeg (windowID : string) (i : Z) (leg : fundingLeg) : Bx unit :=
  do! accountID <- (if decide (fl_GrantAccountID leg = "") then mret None
                    else do! parsed <- mlift (ParseID (fl_GrantAccountID leg)); mret (Some parsed));
  do! amount <- mlift (checkedInt64FromUint64 (fl_Amount leg));
  statement (InsertWindowLedgerLeg windowID i (legRowOf leg accountID amount)).

Fixpoint insertLegsFrom (windowID : string) (i : Z) (legs : list fundingLeg) : Bx unit :=
  match legs with
  | [] => mret tt
  | leg :: rest => exec! insertLeg windowID i leg; insertLegsFrom windowID (i + 1) rest
  end.

Definition insertWindowLedgerLegsTx (windowID : string) (legs : list fundingLeg) : Bx unit :=
  insertLegsFrom windowID 0 legs.

Definition reserveEventPayload (req : ReserveRequest) (windowID : string) (cycle : billingCycle)
    (pricing : pricingContext) (shape fingerprint : string) (quantity chargeUnits : Z) (charges : windowCharges)
    : list (string * jval) :=
  [("window_id"%string, JStr windowID); ("cycle_id"%string, JStr (bc_CycleID cycle));
   ("pricing_plan_id"%string, JStr (PlanID pricing)); ("pricing_phase_id"%string, JStr (PhaseID pricing));
   ("pricing_contract_id"%string, JStr (ContractID pricing)); ("source_type"%string, JStr (rq_SourceType req));
   ("source_ref"%string, JStr (rq_SourceRef req)); ("source_fingerprint"%string, JStr fingerprint);
   ("window_seq"%string, JInt (rq_WindowSeq req)); ("reservation_shape"%string, JStr shape);
   ("reserved_quantity"%string, JInt quantity); ("charge_units"%string, JInt chargeUnits);
   ("component_charge_units"%string, JUintMap (components charges));
   ("bucket_charge_units"%string, JUintMap (buckets charges))].

(** The row ReserveWindow inserts. *)
Definition reservedRow (req : ReserveRequest) (shape fingerprint : string) (cycle : billingCycle)
    (pricing : pricingContext) (quantity chargeUnits : Z) (legs : list fundingLeg) (correlation : ID)
    (start expires : time) (renew : option time) (created : time) : windowRow :=
  mkWindowRow (bc_CycleID cycle) (orgIDText (rq_OrgID req)) (rq_ActorID req) (rq_ProductID req) (ContractID pricing)
    (PhaseID pricing) (PlanID pricing) (rq_SourceType req) (rq_SourceRef req) fingerprint
    (if 0 <? rq_BillingJobID req then format_int (rq_BillingJobID req) else "") (rq_WindowSeq req) WReserved shape
    quantity 0 0 0 chargeUnits 0 0 "" pricingPhaseIncluded (rq_Allocation req) pricing ∅ legs correlation start None
    expires renew None None "" created.

(** The transaction of ReserveWindow. *)
Definition reserveWindowTx (req : ReserveRequest) (shape : string) (quantity : Z) (fingerprint : string)
    : Bx persistedWindow :=
  let orgID := rq_OrgID req in
  let productID := rq_ProductID req in
  do! now <- BusinessNow orgID productID;
  do! orgState <- orgBillingStateTx orgID;
  if bool_decide (orgState.1 = "suspended") || bool_decide (orgState.1 = "closed") then mfail ErrOrgSuspended
  else
    do! cycle <- ensureOpenBillingCycleTx orgID productID now;
    do! pricing0 <- loadPricingContextTx orgID productID now;
    do! charges <- mlift (computeWindowCharges (rq_Allocation req) (SKURates pricing0) (SKUBuckets pricing0) quantity);
    let pricing := with_cost pricing0 (costPerUnit charges) in
    let chargeUnits := sumUint64Map (components charges) in
    do! granted <- fundReservationTx orgID productID (components charges) pricing;
    do! legs <- mlift (authorizeLegs (components charges) pricing granted);
    let windowID := billingWindowID orgID productID (rq_SourceType req) (rq_SourceRef req) (rq_WindowSeq req) in
    do! correlation <- NewID;
    let '(expiresAt, renewBy) := reserveWindowTiming shape now quantity in
    do! quantityColumn <- mlift (checkedInt64FromUint64 quantity);
    do! chargeColumn <- mlift (checkedInt64FromUint64 chargeUnits);
    do! start <- mlift (not_null (timestamptz now));
    do! expires <- mlift (not_null (timestamptz expiresAt));
    do! created <- pgNow;
    exec! statement (InsertBillingWindow windowID
      (reservedRow req shape fingerprint cycle pricing quantityColumn chargeColumn legs correlation start expires
         (timestamptz renewBy) created));
    exec! insertWindowLedgerLegsTx windowID legs;
    let payload := reserveEventPayload req windowID cycle pricing shape fingerprint quantity chargeUnits charges in
    exec! appendEvent (mkEvent "billing_window_reserve_requested" "billing_window" windowID orgID productID now payload "" "");
    exec! appendEvent (mkEvent "billing_window_reserved" "billing_window" windowID orgID productID now
      (payload ++ [("authorization_committed"%string, JBool true)]) "" "");
    mret (mkWindow windowID (bc_CycleID cycle) orgID (rq_ActorID req) productID (ContractID pricing) (PhaseID pricing)
            (PlanID pricing) (rq_SourceType req) (rq_SourceRef req) fingerprint (rq_WindowSeq req) WReserved shape
            quantity 0 0 0 chargeUnits 0 0 pricingPhaseIncluded (rq_Allocation req) pricing ∅ legs now None expiresAt
            (Some renewBy) None zero_time).

Definition ReserveWindow (fuel : nat) (req : ReserveRequest) : Bx WindowReservation :=
  if bool_decide (orgIDText (rq_OrgID req) = "") || bool_decide (rq_ProductID req = "") || bool_decide (rq_ActorID req = "")
     || bool_decide (rq_SourceType req = "") || bool_decide (rq_SourceRef req = "")
  then mfail (Errorf "reserve requires org_id, product_id, actor_id, source_type, and source_ref")
  else if bool_decide (rq_Allocation req = ∅) then mfail (Errorf "reserve allocation is required")
  else
    do! shape <- mlift (normalizeReservationShape (rq_ReservationShape req));
    do! quantity <- mlift (reserveWindowQuantity shape (rq_ReservedQuantity req));
    let fingerprint := reserveSourceFingerprint req shape quantity in
    do! existing <- loadWindowBySource (rq_OrgID req) (rq_ProductID req) (rq_SourceType req) (rq_SourceRef req) (rq_WindowSeq req);
    match existing with
    | Some w =>
        if negb (str_eqb (pw_SourceFingerprint w) fingerprint) then mfail ErrWindowSourceConflict
        else match pw_State w with
             | WReserved | WActive | WSettling | WSettled => mret (reservation w)
             | WVoided => mfail ErrWindowAlreadyVoided
             end
    | None =>
        exec! EnsureCurrentEntitlements fuel (rq_OrgID req) (rq_ProductID req);
        do! reserved <- WithTx (reserveWindowTx req shape quantity fingerprint);
        mret (reservation reserved)
    end.

(** ** Activate *)

Definition windowEventPayload (w : persistedWindow) : list (string * jval) :=
  [("window_id"%string, JStr (pw_WindowID w)); ("cycle_id"%string, JStr (pw_CycleID w));
   ("pricing_plan_id"%string, JStr (pw_PricingPlanID w)); ("pricing_phase_id"%string, JStr (pw_PricingPhaseID w));
   ("pricing_contract_id"%string, JStr (pw_PricingContractID w))].

Definition activateWindowTx (windowID : string) (w : persistedWindow) (activatedAt expiresAt renewBy : time) : Bx unit :=
  do! rowsAffected <- statement (ActivateBillingWindow windowID (timestamptz activatedAt) (timestamptz expiresAt) (timestamptz renewBy));
  if rowsAffected =? 0 then mret tt
  else appendEvent (mkEvent "billing_window_activated" "billing_window" windowID (pw_OrgID w) (pw_ProductID w) activatedAt
    (windowEventPayload w) "" "").

Definition ActivateWindow (windowID : string) (activatedAt : time) : Bx WindowReservation :=
  if decide (windowID = "") then mfail ErrWindowNotFound
  else
    do! w <- loadWindow windowID;
    match pw_State w with
    | WSettled => mfail ErrWindowAlreadySettled
    | WVoided => mfail ErrWindowAlreadyVoided
    | WSettling => mfail ErrWindowNotReserved
    | WReserved | WActive =>
        match pw_ActivatedAt w with
        | Some _ => mret (reservation w)
        | None =>
            do! activatedAt <- (if is_zero activatedAt then timeNow else mret activatedAt);
            if pw_ExpiresAt w <? activatedAt then mfail ErrWindowNotReserved
            else
              let '(expiresAt, renewBy) := reserveWindowTiming (pw_ReservationShape w) activatedAt (pw_ReservedQuantity w) in
              let renewBy := if activatedAt <? renewBy then renewBy else expiresAt in
              exec! WithTx (activateWindowTx windowID w activatedAt expiresAt renewBy);
              loadReservation windowID
        end
    end.

(** ** Settle *)

Definition existingOrNewLedgerID (raw : ID) : Bx ID :=
  do! id <- mlift (IDFromBytes raw);
  if IsZero id then NewID else mret id.

Record settleState : Type := mkSettle {
  st_remaining : gmap string Z;
  st_transfers : list TransferPayload;
  st_legs : list fundingLeg
}.

Definition settledLeg (leg : legRow) (posted_ : Z) (accountID settlementID : string) : fundingLeg :=
  mkLeg (l_grant_id leg) accountID settlementID posted_ (l_source leg) (l_scope_type leg) (l_scope_product_id leg)
    (l_scope_bucket_id leg) (l_scope_sku_id leg) (l_plan_id leg) (l_component_sku_id leg) (l_component_bucket_id leg).

(** The loop body of settleWindowLedgerPayloadTx. *)
Definition settleLeg (windowID : string) (revenueID correlationID : ID) (businessTime : time)
    (st : settleState) (entry : Z * legRow) : Bx settleState :=
  let '(seq, leg) := entry in
  if l_amount_reserved leg <? 0 then mfail (Errorf "window leg has negative reserved amount")
  else
    let sku := l_component_sku_id leg in
    let postedAmount := minUint64 (map_u64 (st_remaining st) sku) (l_amount_reserved leg) in
    let remaining := <[sku := map_u64 (st_remaining st) sku - postedAmount]> (st_remaining st) in
    let voidedAmount := l_amount_reserved leg - postedAmount in
    do! r <- (if decide (l_grant_id leg = "") then mret (None, settledLeg leg postedAmount "" "", [])
              else
                do! accountID <- mlift (IDFromBytes (default zeroID (l_grant_account_id leg)));
                if 0 <? postedAmount then
                  do! settlementID <- existingOrNewLedgerID (default zeroID (l_settlement_transfer_id leg));
                  do! ms <- unixMillis businessTime;
                  mret (Some settlementID, settledLeg leg postedAmount (IDString accountID) (IDString settlementID),
                        [UsageSpendTransfer settlementID accountID revenueID postedAmount correlationID ms])
                else mret (None, settledLeg leg postedAmount (IDString accountID) "", []));
    let '(settlement, settled, transfer) := r in
    let legs := if 0 <? postedAmount then st_legs st ++ [settled] else st_legs st in
    do! posted_ <- mlift (checkedInt64FromUint64 postedAmount);
    do! voided <- mlift (checkedInt64FromUint64 voidedAmount);
    exec! statement (StoreWindowSettlementAmounts windowID seq settlement posted_ voided);
    mret (mkSettle remaining (st_transfers st ++ transfer) legs).

Fixpoint settleLegs (windowID : string) (revenueID correlationID : ID) (businessTime : time)
    (st : settleState) (legs : list (Z * legRow)) : Bx settleState :=
  match legs with
  | [] => mret st
  | leg :: rest =>
      do! st' <- settleLeg windowID revenueID correlationID businessTime st leg;
      settleLegs windowID revenueID correlationID businessTime st' rest
  end.

Definition settleWindowLedgerPayloadTx (windowID : string) (componentBilled : gmap string Z) (businessTime : time)
    : Bx (CommandPayload * list fundingLeg) :=
  do! row <- query (fun d => db_windows d !! windowID);
  match row with
  | None => mfail (Errorf "load window ledger correlation id")
  | Some w =>
      do! correlationID <- mlift (IDFromBytes (w_ledger_correlation_id w));
      do! operators <- operatorLedgerAccountsTx;
      match operators !! "operator_revenue"%string with
      | None => mfail (Errorf "operator revenue ledger account is not bootstrapped")
      | Some revenueID =>
          do! pending <- query (ListPendingWindowLedgerLegsForUpdate windowID);
          do! st <- settleLegs windowID revenueID correlationID businessTime (mkSettle componentBilled [] []) pending;
          if existsb (fun kv => 0 <? kv.2) (map_to_list (st_remaining st))
          then mfail (Errorf "settlement exceeds authorized funding")
          else mret (mkCommandPayload [] (LinkTransfers (st_transfers st)), st_legs st)
      end
  end.

(** The transaction that prepares a settlement; it returns the id of the
    ledger command, empty when there is none to dispatch. *)
Definition prepareSettlementTx (w : persistedWindow) (windowID : string) (actual billable writeoff : Z)
    (componentBilled : gmap string Z) (billedUnits writeoffUnits : Z) (usage : gmap string goAny) (settledAt : time)
    : Bx string :=
  do! currentState <- lockWindowStateTx windowID;
  if negb (in_reserved_or_active currentState) then mret ""%string
  else
    do! r <- settleWindowLedgerPayloadTx windowID componentBilled settledAt;
    let '(payload, settledLegs) := r in
    do! billedColumn <- mlift (checkedInt64FromUint64 billedUnits);
    do! writeoffColumn <- mlift (checkedInt64FromUint64 writeoffUnits);
    do! rowsAffected <- statement (PrepareBillingWindowSettlement windowID actual billable writeoff billedColumn
      writeoffColumn (writeoffReason writeoff w) usage settledLegs (timestamptz settledAt));
    if rowsAffected =? 0 then mret ""%string
    else
      do! commandID <- match cp_Transfers payload with
                       | [] => mret ""%string
                       | _ =>
                           do! cmd <- createLedgerCommandTx "settle_window" "billing_window" windowID (pw_OrgID w)
                             (pw_ProductID w) ("settle_window:" +:+ windowID) payload;
                           mret cmd.1
                       end;
      exec! appendEvent (mkEvent "billing_window_settle_requested" "billing_window" windowID (pw_OrgID w) (pw_ProductID w)
        settledAt
        [("window_id"%string, JStr windowID); ("cycle_id"%string, JStr (pw_CycleID w));
         ("actual_quantity"%string, JInt actual); ("billable_quantity"%string, JInt billable);
         ("billed_charge_units"%string, JInt billedUnits); ("ledger_command_id"%string, JStr commandID)] "" "");
      mret commandID.

(** The transaction of markWindowSettlementPosted. *)
Definition windowSettledTx (w : persistedWindow) (windowID : string) (occurredAt : time) : Bx unit :=
  do! rowsAffected <- statement (MarkWindowSettled windowID);
  if rowsAffected =? 0 then mret tt
  else
    exec! statement (MarkPendingWindowLedgerLegsPostedOrVoided windowID);
    let '(componentBilled, bucketBilled) := chargeMapsFromFundingLegs (pw_FundingLegs w) in
    exec! appendEvent (mkEvent "billing_window_settled" "billing_window" windowID (pw_OrgID w) (pw_ProductID w) occurredAt
      (windowEventPayload w ++
       [("actual_quantity"%string, JInt (pw_ActualQuantity w)); ("billable_quantity"%string, JInt (pw_BillableQuantity w));
        ("writeoff_quantity"%string, JInt (pw_WriteoffQuantity w));
        ("billed_charge_units"%string, JInt (pw_BilledChargeUnits w));
        ("writeoff_charge_units"%string, JInt (pw_WriteoffChargeUnits w));
        ("component_charge_units"%string, JUintMap componentBilled);
        ("bucket_charge_units"%string, JUintMap bucketBilled); ("ledger_settlement_posted"%string, JBool true)]) "" "");
    if runtime_configured then EnqueueMeteringProjectWindowTx windowID else mret tt.

Definition markWindowSettlementPosted (windowID : string) : Bx unit :=
  do! w <- loadWindow windowID;
  match pw_State w with
  | WSettling =>
      do! occurredAt <- match pw_SettledAt w with Some t => mret t | None => timeNow end;
      WithTx (windowSettledTx w windowID occurredAt)
  | _ => mret tt
  end.

(** ** Metering projection *)

Definition projectMeteringForWindow (w : persistedWindow) : Bx time :=
  if negb clickhouse_configured || negb (bool_decide (pw_State w = WSettled)) then mret zero_time
  else
    do! now <- timeNow;
    do! row <- mlift (meteringRowForWindow w now);
    exec! clickhouseInsert (MeteringRow row);
    mret (m_RecordedAt row).

(** The transaction of ProjectMeteringWindow.  A projection failure is
    recorded on the row and committed; [inr] carries it to the caller. *)
Definition projectMeteringTx (windowID : string) : Bx (bool + goerr) :=
  do! row <- query (fun d => db_windows d !! windowID);
  match row with
  | None => mfail ErrWindowNotFound
  | Some row =>
      if negb (bool_decide (w_state row = WSettled)) || bool_decide (is_Some (w_metering_projected_at row))
      then mret (inl false)
      else
        do! settled <- loadWindow windowID;
        do! result <- attempt (projectMeteringForWindow settled);
        match result with
        | inr e => exec! statement (UpdateWindowProjectionError windowID (errorText e)); mret (inr e)
        | inl recordedAt => exec! statement (MarkMeteringProjected windowID (timestamptz recordedAt)); mret (inl true)
        end
  end.

Definition ProjectMeteringWindow (windowID : string) : Bx bool :=
  if negb clickhouse_configured then mret false
  else
    do! r <- WithTx (projectMeteringTx windowID);
    match r with
    | inl b => mret b
    | inr e => mfail e
    end.

Fixpoint projectAll (windowIDs : list string) (projected : Z) : Bx Z :=
  match windowIDs with
  | [] => mret projected
  | id :: rest => do! ok <- ProjectMeteringWindow id; projectAll rest (if (ok : bool) then projected + 1 else projected)
  end.

Definition ProjectPendingMeteringWindows (limit : Z) : Bx Z :=
  if negb clickhouse_configured then mret 0
  else
    let limit := if limit <=? 0 then 100 else limit in
    do! limit32 <- mlift (checkedInt32FromInt limit);
    do! windowIDs <- query (ListPendingMeteringWindowIDs limit32);
    projectAll windowIDs 0.

(** ** SettleWindow and VoidWindow *)

(** The best-effort projection at the end of SettleWindow. *)
Definition projectAfterSettle (windowID : string) : Bx unit :=
  if runtime_configured then mret tt
  else
    do! result <- attempt (ProjectMeteringWindow windowID);
    match result with
    | inl _ => mret tt
    | inr e => ignoreError (statement (UpdateWindowProjectionError windowID (errorText e)))
    end.

Definition settleQuantities (reserved actual : Z) : Z * Z :=
  if reserved <? actual then (reserved, actual - reserved) else (actual, 0).

Definition SettleWindow (windowID : string) (actualQuantity : Z) (usageSummary : gmap string goAny) : Bx SettleResult :=
  do! w <- loadWindow windowID;
  match pw_State w with
  | WVoided => mfail ErrWindowAlreadyVoided
  | WSettled => mret (settleResult w)
  | WSettling => mfail ErrWindowNotReserved
  | WReserved | WActive =>
      if bool_decide (pw_State w = WActive) && bool_decide (pw_ActivatedAt w = None) then mfail ErrWindowNotActivated
      else
        let '(billable, writeoff) := settleQuantities (pw_ReservedQuantity w) actualQuantity in
        let rates := SKURates (pw_RateContext w) in
        let skuBuckets := SKUBuckets (pw_RateContext w) in
        do! billed <- mlift (computeWindowCharges (pw_Allocation w) rates skuBuckets billable);
        do! absorbed <- mlift (computeWindowCharges (pw_Allocation w) rates skuBuckets writeoff);
        let billedUnits := sumUint64Map (components billed) in
        let writeoffUnits := sumUint64Map (components absorbed) in
        do! settledAt <- timeNow;
        do! usage <- mlift (json_summary usageSummary);
        do! commandID <- WithTx (prepareSettlementTx w windowID actualQuantity billable writeoff (components billed)
                                   billedUnits writeoffUnits usage settledAt);
        exec! (if decide (commandID = "") then mret tt else dispatchLedgerCommand commandID);
        exec! markWindowSettlementPosted windowID;
        do! settled <- loadWindow windowID;
        exec! projectAfterSettle (pw_WindowID settled);
        mret (settleResult settled)
  end.

Definition voidWindowTx (w : persistedWindow) (windowID : string) (now : time) : Bx unit :=
  do! rowsAffected <- statement (VoidBillingWindow windowID);
  if rowsAffected =? 0 then mret tt
  else
    exec! statement (VoidPendingWindowLedgerLegs windowID);
    appendEvent (mkEvent "billing_window_voided" "billing_window" windowID (pw_OrgID w) (pw_ProductID w) now
      (windowEventPayload w ++ [("authorization_released"%string, JBool true)]) "" "").

Definition VoidWindow (windowID : string) : Bx unit :=
  do! w <- loadWindow windowID;
  match pw_State w with
  | WVoided => mret tt
  | WSettled => mfail ErrWindowAlreadySettled
  | WSettling => mfail ErrWindowNotReserved
  | WReserved | WActive =>
      do! now <- timeNow;
      WithTx (voidWindowTx w windowID now)
  end.
End Windows.
