(* ===== verification/Statements.v ===== *)
(** * Statements

    Models billing/statement.go: the statement of a cycle is computed from its
    windows, one line per priced SKU, with totals by funding source, and from
    the balances of the grants when a preview asks for them.

    The lines and the grant summaries are Go maps of pointers keyed by a
    struct; here they are finite maps keyed by the tuple of its fields, and
    the order of a range over a map is the order of [map_to_list]. *)

From S2P Require Import Prelude GoFloat GoStd GoTime Json Types Ids Ledger Charges Grants Store Events.
From S2P Require Import LedgerCommands LedgerGrants Cycles Entitlements WindowStore Windows.

Record StatementLineItem : Type := mkLineItem {
  si_ProductID : string;
  si_PlanID : string;
  si_BucketID : string;
  si_BucketOrder : Z;
  si_BucketDisplayName : string;
  si_SKUID : string;
  si_SKUDisplayName : string;
  si_QuantityUnit : string;
  si_PricingPhase : string;
  si_Quantity : f64;
  si_UnitRate : Z;
  si_ChargeUnits : Z;
  si_FreeTierUnits : Z;
  si_ContractUnits : Z;
  si_PurchaseUnits : Z;
  si_PromoUnits : Z;
  si_RefundUnits : Z;
  si_ReceivableUnits : Z;
  si_ReservedUnits : Z
}.

Record StatementGrantSummary : Type := mkSummary {
  sg_ScopeType : string;
  sg_ScopeProductID : string;
  sg_ScopeBucketID : string;
  sg_Source : string;
  sg_Available : Z;
  sg_Pending : Z
}.

Record StatementTotals : Type := mkTotals {
  st_ChargeUnits : Z;
  st_FreeTierUnits : Z;
  st_ContractUnits : Z;
  st_PurchaseUnits : Z;
  st_PromoUnits : Z;
  st_RefundUnits : Z;
  st_ReceivableUnits : Z;
  st_ReservedUnits : Z;
  st_TotalDueUnits : Z
}.

Record Statement : Type := mkStatement {
  sm_OrgID : string;
  sm_ProductID : string;
  sm_PeriodStart : time;
  sm_PeriodEnd : time;
  sm_PeriodSource : string;
  sm_GeneratedAt : time;
  sm_Currency : string;
  sm_UnitLabel : string;
  sm_LineItems : list StatementLineItem;
  sm_GrantSummaries : list StatementGrantSummary;
  sm_Totals : StatementTotals
}.

(** ProductID, PlanID, BucketID, SKUID, PricingPhase, UnitRate *)
Definition statementLineKey : Type := (string * string * string * string * string * Z)%type.

(** ScopeType, ScopeProductID, ScopeBucketID, Source *)
Definition statementGrantKey : Type := (string * string * string * string)%type.

Definition statementLines : Type := gmap statementLineKey StatementLineItem.

(** ** Sums over funding legs *)

Definition sourceTotal (legs : list fundingLeg) (source : string) : Z :=
  foldl (fun out leg => if decide (fl_Source leg = source) then u64_add out (fl_Amount leg) else out) 0 legs.

Definition componentSourceTotal (legs : list fundingLeg) (skuID source : string) : Z :=
  foldl (fun out leg => if decide (fl_Source leg = source /\ fl_ComponentSKUID leg = skuID)
                        then u64_add out (fl_Amount leg) else out) 0 legs.

(** ** Lines *)

Definition lineKey (w : persistedWindow) (skuID : string) (rate : Z) : statementLineKey :=
  (pw_ProductID w, pw_PricingPlanID w, map_str (SKUBuckets (pw_RateContext w)) skuID, skuID, pw_PricingPhase w, rate).

Definition newLine (w : persistedWindow) (skuID : string) (rate : Z) : StatementLineItem :=
  let bucketID := map_str (SKUBuckets (pw_RateContext w)) skuID in
  let unit_ := map_str (SKUQuantityUnits (pw_RateContext w)) skuID in
  mkLineItem (pw_ProductID w) (pw_PricingPlanID w) bucketID (skuBucketOrder (pw_RateContext w) skuID)
    (map_str (BucketDisplayNames (pw_RateContext w)) bucketID) skuID (map_str (SKUDisplayNames (pw_RateContext w)) skuID)
    (if decide (unit_ = "") then "unit" else unit_) (pw_PricingPhase w) f64_zero rate 0 0 0 0 0 0 0 0.

Definition with_order (order : Z) (i : StatementLineItem) : StatementLineItem :=
  mkLineItem (si_ProductID i) (si_PlanID i) (si_BucketID i) order (si_BucketDisplayName i) (si_SKUID i)
    (si_SKUDisplayName i) (si_QuantityUnit i) (si_PricingPhase i) (si_Quantity i) (si_UnitRate i) (si_ChargeUnits i)
    (si_FreeTierUnits i) (si_ContractUnits i) (si_PurchaseUnits i) (si_PromoUnits i) (si_RefundUnits i)
    (si_ReceivableUnits i) (si_ReservedUnits i).

(** The item a window adds to, created when the key is new. *)
Definition statementLine (lines : statementLines) (w : persistedWindow) (skuID : string) (rate : Z) : StatementLineItem :=
  let order := skuBucketOrder (pw_RateContext w) skuID in
  let item := default (newLine w skuID rate) (lines !! lineKey w skuID rate) in
  if order <? si_BucketOrder item then with_order order item else item.

Definition settledLine (w : persistedWindow) (skuID : string) (charge : Z) (i : StatementLineItem) : StatementLineItem :=
  let legs := pw_FundingLegs w in
  let units := default f64_zero (pw_Allocation w !! skuID) in
  mkLineItem (si_ProductID i) (si_PlanID i) (si_BucketID i) (si_BucketOrder i) (si_BucketDisplayName i) (si_SKUID i)
    (si_SKUDisplayName i) (si_QuantityUnit i) (si_PricingPhase i)
    (f64_add (si_Quantity i) (f64_mul (f64_of_Z (pw_BillableQuantity w)) units)) (si_UnitRate i)
    (u64_add (si_ChargeUnits i) charge)
    (u64_add (si_FreeTierUnits i) (componentSourceTotal legs skuID "free_tier"))
    (u64_add (si_ContractUnits i) (componentSourceTotal legs skuID "contract"))
    (u64_add (si_PurchaseUnits i) (componentSourceTotal legs skuID "purchase"))
    (u64_add (si_PromoUnits i) (componentSourceTotal legs skuID "promo"))
    (u64_add (si_RefundUnits i) (componentSourceTotal legs skuID "refund"))
    (u64_add (si_ReceivableUnits i) (componentSourceTotal legs skuID "receivable"))
    (si_ReservedUnits i).

Definition reservedLine (amount : Z) (i : StatementLineItem) : StatementLineItem :=
  mkLineItem (si_ProductID i) (si_PlanID i) (si_BucketID i) (si_BucketOrder i) (si_BucketDisplayName i) (si_SKUID i)
    (si_SKUDisplayName i) (si_QuantityUnit i) (si_PricingPhase i) (si_Quantity i) (si_UnitRate i) (si_ChargeUnits i)
    (si_FreeTierUnits i) (si_ContractUnits i) (si_PurchaseUnits i) (si_PromoUnits i) (si_RefundUnits i)
    (si_ReceivableUnits i) (u64_add (si_ReservedUnits i) amount).

Definition settledTotals (w : persistedWindow) (t : StatementTotals) : StatementTotals :=
  let legs := pw_FundingLegs w in
  mkTotals (u64_add (st_ChargeUnits t) (pw_BilledChargeUnits w))
    (u64_add (st_FreeTierUnits t) (sourceTotal legs "free_tier"))
    (u64_add (st_ContractUnits t) (sourceTotal legs "contract"))
    (u64_add (st_PurchaseUnits t) (sourceTotal legs "purchase"))
    (u64_add (st_PromoUnits t) (sourceTotal legs "promo"))
    (u64_add (st_RefundUnits t) (sourceTotal legs "refund"))
    (u64_add (st_ReceivableUnits t) (sourceTotal legs "receivable"))
    (u64_add (st_ReservedUnits t) 0)
    (u64_add (st_TotalDueUnits t) (sourceTotal legs "receivable")).

(** The body of the loop over the rates of a settled window. *)
Definition settledSKU (w : persistedWindow) (lines : statementLines) (kv : string * Z) : res statementLines :=
  let '(skuID, rate) := kv in
  let! charge := chargeUnitsForQuantity (default f64_zero (pw_Allocation w !! skuID)) rate (pw_BillableQuantity w) in
  if charge =? 0 then Ret lines
  else Ret (<[lineKey w skuID rate := settledLine w skuID charge (statementLine lines w skuID rate)]> lines).

Definition addSettledStatementWindow (totals : StatementTotals) (lines : statementLines) (w : persistedWindow)
    : res (StatementTotals * statementLines) :=
  let! lines' := outcome_fold (settledSKU w) lines (map_to_list (SKURates (pw_RateContext w))) in
  Ret (settledTotals w totals, lines').

Definition addReserved (amount : Z) (t : StatementTotals) : StatementTotals :=
  mkTotals (st_ChargeUnits t) (st_FreeTierUnits t) (st_ContractUnits t) (st_PurchaseUnits t) (st_PromoUnits t)
    (st_RefundUnits t) (st_ReceivableUnits t) (u64_add (st_ReservedUnits t) amount) (st_TotalDueUnits t).

Definition reservedLeg (w : persistedWindow) (acc : StatementTotals * statementLines) (leg : fundingLeg)
    : StatementTotals * statementLines :=
  let '(totals, lines) := acc in
  let totals := addReserved (fl_Amount leg) totals in
  let skuID := fl_ComponentSKUID leg in
  if decide (skuID = "") then (totals, lines)
  else
    let rate := map_u64 (SKURates (pw_RateContext w)) skuID in
    (totals, <[lineKey w skuID rate := reservedLine (fl_Amount leg) (statementLine lines w skuID rate)]> lines).

Definition addReservedStatementWindow (totals : StatementTotals) (lines : statementLines) (w : persistedWindow)
    : StatementTotals * statementLines :=
  foldl (reservedLeg w) (totals, lines) (pw_FundingLegs w).

Definition addStatementWindow (acc : StatementTotals * statementLines) (w : persistedWindow)
    : res (StatementTotals * statementLines) :=
  match pw_State w with
  | WSettled => addSettledStatementWindow acc.1 acc.2 w
  | WReserved | WActive | WSettling => Ret (addReservedStatementWindow acc.1 acc.2 w)
  | WVoided => Ret acc
  end.

(** ** Sorting *)

Definition statementLineLess : (statementLineKey * StatementLineItem) -> (statementLineKey * StatementLineItem) -> bool :=
  lex_key Z.eqb Z.ltb (fun kv => si_BucketOrder kv.2)
    (lex_key str_eqb str_ltb (fun kv => kv.1.1.1.1.2) (on_key str_ltb (fun kv => kv.1.1.1.2))).

Definition sortedStatementLines (lines : statementLines) : list StatementLineItem :=
  (sort_slice statementLineLess (map_to_list lines)).*2.

Definition statementSummaryLess : (statementGrantKey * StatementGrantSummary) -> (statementGrantKey * StatementGrantSummary) -> bool :=
  lex_key Z.eqb Z.ltb (fun kv => sourcePriority kv.1.2)
    (lex_key str_eqb str_ltb (fun kv => kv.1.1.1.1) (on_key str_ltb (fun kv => kv.1.1.2))).

Definition sortedStatementSummaries (summaries : gmap statementGrantKey StatementGrantSummary) : list StatementGrantSummary :=
  (sort_slice statementSummaryLess (map_to_list summaries)).*2.

(** The body of the loop over the grants. *)
Definition addGrantSummary (summaries : gmap statementGrantKey StatementGrantSummary) (g : GrantBalance)
    : gmap statementGrantKey StatementGrantSummary :=
  let key := (gb_ScopeType g, gb_ScopeProductID g, gb_ScopeBucketID g, gb_Source g) in
  let s := default (mkSummary (gb_ScopeType g) (gb_ScopeProductID g) (gb_ScopeBucketID g) (gb_Source g) 0 0) (summaries !! key) in
  <[key := mkSummary (sg_ScopeType s) (sg_ScopeProductID s) (sg_ScopeBucketID s) (sg_Source s)
             (u64_add (sg_Available s) (gb_Available g)) (u64_add (sg_Pending s) (gb_Pending g))]> summaries.

Definition noTotals : StatementTotals := mkTotals 0 0 0 0 0 0 0 0 0.

(** reads.sql: ListStatementWindowIDs *)
Definition statementWindowLess : (string * windowRow) -> (string * windowRow) -> bool :=
  lex_key Z.eqb Z.ltb (fun kv => w_window_start kv.2)
    (lex_key Z.eqb Z.ltb (fun kv => w_window_seq kv.2) (on_key str_ltb fst)).

Definition ListStatementWindowIDs (cycleID org productID : string) (d : DB) : list string :=
  (sort_slice statementWindowLess
    (filter (fun kv => w_cycle_id kv.2 = cycleID /\ w_org_id kv.2 = org /\ w_product_id kv.2 = productID
                       /\ w_state kv.2 <> WVoided) (map_to_list (db_windows d)))).*1.

(** ** The statement of a cycle *)

Section Statements.
Context {St : Type} `{Env} `{Digest}.
#[local] Abbreviation Bx A := (@B St A).

Fixpoint loadWindows (windowIDs : list string) : Bx (list persistedWindow) :=
  match windowIDs with
  | [] => mret []
  | id :: rest => do! w <- loadWindow id; do! ws <- loadWindows rest; mret (w :: ws)
  end.

Definition statementWindows (orgID productID : string) (cycle : billingCycle) : Bx (list persistedWindow) :=
  do! windowIDs <- query (ListStatementWindowIDs (bc_CycleID cycle) (orgIDText orgID) productID);
  loadWindows windowIDs.

(** [balances] is the call includeGrantSummaries guards: absent when the flag
    is false. *)
Definition statementForCycle (orgID productID : string) (cycle : billingCycle) (generatedAt : time)
    (balances : option (Bx (list GrantBalance))) : Bx Statement :=
  do! windows <- statementWindows orgID productID cycle;
  do! grants <- match balances with Some m => m | None => mret [] end;
  let summaries := foldl addGrantSummary ∅ grants in
  do! acc <- mlift (outcome_fold addStatementWindow (noTotals, ∅) windows);
  mret (mkStatement orgID productID (bc_StartsAt cycle) (bc_EndsAt cycle) "billing_cycle" generatedAt
          (cleanNonEmpty [bc_Currency cycle; "usd"%string]) "ledger_units" (sortedStatementLines acc.2)
          (sortedStatementSummaries summaries) acc.1).
End Statements.

Section Preview.
Context {St : Type} `{Env} `{Digest} `{TBCodec} `{!TigerBeetle St} `{!PeriodWork St}.

Definition PreviewStatement (fuel : nat) (orgID productID : string) : @B St Statement :=
  if decide (productID = "") then mfail (Errorf "product_id is required")
  else
    do! cycle <- EnsureOpenBillingCycle fuel orgID productID;
    do! now <- BusinessNow orgID productID;
    statementForCycle orgID productID cycle now (Some (ListGrantBalances fuel orgID productID)).
End Preview.
