(* ===== verification/Finalizations.v ===== *)
(** * Finalizations

    Models billing/finalizations.go and billing/documents.go: a closed cycle
    is finalized by computing its statement and issuing a document for it;
    allocateDocumentNumberTx of billing/contracts.go.

    With DueChanges.v this discharges [PeriodWork], the interface through
    which the rollover of cycles calls the period work. *)

From S2P Require Import Prelude GoFloat GoStd GoTime Json Types Ids Ledger Charges Grants Store Events.
From S2P Require Import LedgerCommands LedgerGrants Cycles Entitlements WindowStore Windows.
From S2P Require Import ContractStore DocumentStore DueChanges Statements.

Record billingFinalization : Type := mkFinalization {
  bf_FinalizationID : string;
  bf_SubjectType : string;
  bf_SubjectID : string;
  bf_CycleID : string;
  bf_OrgID : string;
  bf_ProductID : string;
  bf_Reason : string;
  bf_DocumentKind : string;
  bf_StartedAt : time
}.

(** finalizations.sql: CycleHasPaidContractOverlap *)
Definition phase_was_paid (p : phaseRow) : bool :=
  bool_decide (ph_payment_state p = "paid") && bool_decide (ph_state p ∈ [PhActive; PhGrace; PhClosed; PhSuperseded]).

Definition CycleHasPaidContractOverlap (org productID : string) (from until : time) (d : DB) : bool :=
  existsb (fun kv => let p := kv.2 in
             bool_decide (ph_org_id p = org) && bool_decide (ph_product_id p = productID) && phase_was_paid p
             && (ph_effective_start p <? until) && (from <? default until (ph_effective_end p))
             && match contracts_of d !! ph_contract_id p with
                | Some c => bool_decide (ct_payment_state c = "paid")
                | None => false
                end) (map_to_list (phases_of d)).

(** What json.Marshal refuses in a statement: a quantity that is not finite,
    a time whose year has not four digits. *)
Definition json_time_ok (t : time) : bool := let '(y, _, _) := date_of t in (0 <=? y) && (y <=? 9999).

Definition marshalStatement (s : Statement) : res unit :=
  if forallb (fun i => negb (f64_is_nan (si_Quantity i)) && negb (f64_is_inf (si_Quantity i))) (sm_LineItems s)
     && json_time_ok (sm_PeriodStart s) && json_time_ok (sm_PeriodEnd s) && json_time_ok (sm_GeneratedAt s)
  then Ret tt else errorf "marshal document snapshot".

Definition renderDocumentHTML (s : Statement) : string :=
  "<h1>Verself billing " +:+ format_rfc3339nano (sm_PeriodStart s) +:+ " to " +:+ format_rfc3339nano (sm_PeriodEnd s)
  +:+ "</h1><p>Total due units: " +:+ format_uint (st_TotalDueUnits (sm_Totals s)) +:+ "</p>".

(** The choices issueFinalizationDocument makes before its transaction. *)
Record documentPlan : Type := mkDocumentPlan {
  dp_documentKind : string;
  dp_paymentStatus : string;
  dp_finalizationState : finalizationState;
  dp_notificationPolicy : string
}.

Definition planDocument (totals : StatementTotals) (customerVisible : bool) : documentPlan :=
  let due := 0 <? st_TotalDueUnits totals in
  mkDocumentPlan
    (if customerVisible then if due then "invoice" else "statement" else "internal_statement")
    (if due then "pending" else "n_a")
    (if due then FCollectionPending else FClosed)
    (if customerVisible then "send_if_activity" else "never").

Definition finalizationStateName (s : finalizationState) : string :=
  match s with FCollectionPending => "collection_pending" | _ => "closed" end.

(** hasUsage, hasFinancialActivity, customerVisible *)
Definition statementUsage (t : StatementTotals) : bool := (0 <? st_ChargeUnits t) || (0 <? st_ReservedUnits t).

Definition financialActivity (t : StatementTotals) (paidContract : bool) : bool :=
  statementUsage t || paidContract || (0 <? st_TotalDueUnits t) || (0 <? st_PurchaseUnits t) || (0 <? st_PromoUnits t)
  || (0 <? st_RefundUnits t) || (0 <? st_ReceivableUnits t).

Definition customerVisibleFor (t : StatementTotals) (paidContract : bool) : bool :=
  statementUsage t || paidContract || (0 <? st_TotalDueUnits t) || (0 <? st_ReceivableUnits t).

Section Finalizations.
Context {St : Type} `{Env} `{Digest}.
#[local] Abbreviation Bx A := (@B St A).

(** contracts.go *)
Definition allocateDocumentNumberTx (issuedAt : time) : Bx string :=
  let '(year, _, _) := date_of issuedAt in
  do! documentYear <- mlift (checkedInt32FromInt year);
  exec! statement (EnsureDocumentNumberAllocator documentYear);
  do! next <- query (LockDocumentNumberAllocator documentYear);
  match next with
  | None => mfail (Errorf "lock document allocator: no rows in result set")
  | Some n =>
      exec! statement (AdvanceDocumentNumberAllocator documentYear);
      mret ("VS-" +:+ format_int year +:+ "-" +:+ pad_uint 6 n)
  end.

Definition ensureCycleFinalization (orgID productID : string) (cycle : billingCycle) (now : time) : Bx string :=
  let id := finalizationID "cycle" (bc_CycleID cycle) in
  do! rowsAffected <- statement (InsertCycleFinalization id (bc_CycleID cycle) (orgIDText orgID) productID (timestamptz now));
  exec! statement (LinkCycleFinalization (bc_CycleID cycle) id);
  if rowsAffected =? 0 then mret id
  else
    exec! appendEvent (mkEvent "billing_finalization_started" "billing_finalization" id orgID productID now
      [("finalization_id"%string, JStr id); ("subject_type"%string, JStr "cycle");
       ("subject_id"%string, JStr (bc_CycleID cycle)); ("cycle_id"%string, JStr (bc_CycleID cycle));
       ("reason"%string, JStr "scheduled_period_end"); ("document_kind"%string, JStr "statement")] "" "");
    exec! (if runtime_configured then EnqueueFinalizationRunTx id else mret tt);
    mret id.

Definition claimBillingFinalization (id : string) : Bx (option billingFinalization) :=
  do! row <- statement (ClaimBillingFinalization id);
  match row with
  | None => mret None
  | Some f =>
      do! parsed <- mlift (parseOrgID (f_org_id f));
      mret (Some (mkFinalization id (f_subject_type f) (f_subject_id f) (f_cycle_id f) parsed (f_product_id f) (f_reason f)
                    (f_document_kind f) (f_started_at f)))
  end.

Definition failBillingFinalization (id : string) (cause : goerr) : Bx unit :=
  statement (FailBillingFinalization id (errorText cause)).

Definition loadBillingCycle (cycleID : string) : Bx billingCycle :=
  do! row <- query (fun d => db_cycles d !! cycleID);
  match row with
  | None => mfail (Errorf ("billing cycle " +:+ cycleID +:+ " not found"))
  | Some c => mret (billingCycleFromStore (cycleID, c))
  end.

(** A NULL bound compares to nothing. *)
Definition cycleHasPaidContractOverlap (orgID productID : string) (cycle : billingCycle) : Bx bool :=
  match timestamptz (bc_StartsAt cycle), timestamptz (bc_EndsAt cycle) with
  | Some from, Some until => query (CycleHasPaidContractOverlap (orgIDText orgID) productID from until)
  | _, _ => mret false
  end.

Definition documentLineID (documentID : string) (line : StatementLineItem) : string :=
  textID "document_line" [documentID; si_ProductID line; si_BucketID line; si_SKUID line; si_PricingPhase line;
                          format_uint (si_UnitRate line)].

Definition documentLineRowOf (documentID : string) (l : StatementLineItem) : res documentLineRow :=
  let! rate := checkedInt64FromUint64 (si_UnitRate l) in
  let! charge := checkedInt64FromUint64 (si_ChargeUnits l) in
  let! freeTier := checkedInt64FromUint64 (si_FreeTierUnits l) in
  let! contract := checkedInt64FromUint64 (si_ContractUnits l) in
  let! purchase := checkedInt64FromUint64 (si_PurchaseUnits l) in
  let! promo := checkedInt64FromUint64 (si_PromoUnits l) in
  let! refund := checkedInt64FromUint64 (si_RefundUnits l) in
  let! receivable := checkedInt64FromUint64 (si_ReceivableUnits l) in
  Ret (mkDocumentLineRow documentID (si_ProductID l) (si_BucketID l) (si_SKUID l) (si_SKUDisplayName l) (si_Quantity l)
         (si_QuantityUnit l) rate charge freeTier contract purchase promo refund receivable).

Definition insertDocumentLineItem (documentID : string) (line : StatementLineItem) : Bx unit :=
  do! row <- mlift (documentLineRowOf documentID line);
  statement (InsertBillingDocumentLineItem (documentLineID documentID line) row).

Definition insertDocumentLineItemsTx (documentID : string) (s : Statement) : Bx unit :=
  forEach (insertDocumentLineItem documentID) (sm_LineItems s).

(** The document of a customer-visible finalization: its id and number. *)
Definition insertFinalizationDocument (f : billingFinalization) (cycle : billingCycle) (s : Statement) (completedAt : time)
    (plan : documentPlan) : Bx (string * string) :=
  let id := documentID (bf_SubjectType f) (bf_SubjectID f) in
  do! number <- allocateDocumentNumberTx completedAt;
  do! subtotal <- mlift (checkedInt64FromUint64 (st_ChargeUnits (sm_Totals s)));
  do! total <- mlift (checkedInt64FromUint64 (st_TotalDueUnits (sm_Totals s)));
  do! from <- mlift (not_null (timestamptz (bc_StartsAt cycle)));
  do! until <- mlift (not_null (timestamptz (bc_EndsAt cycle)));
  exec! statement (InsertBillingDocument id
    (mkDocumentRow number (dp_documentKind plan) (bf_FinalizationID f) (orgIDText (bf_OrgID f)) (bf_ProductID f)
       (bc_CycleID cycle) "" "issued" (dp_paymentStatus plan) from until (timestamptz completedAt) (sm_Currency s)
       subtotal 0 0 total (renderDocumentHTML s) "" "" "" ""));
  exec! insertDocumentLineItemsTx id s;
  mret (id, number).

Definition finalizationEvents (f : billingFinalization) (cycle : billingCycle) (s : Statement) (completedAt : time)
    (plan : documentPlan) (doc number : string) (hasUsage hasFinancialActivity customerVisible : bool) : Bx unit :=
  exec! (if customerVisible then
    appendEvent (mkEvent "billing_document_issued" "billing_document" doc (bf_OrgID f) (bf_ProductID f) completedAt
      [("finalization_id"%string, JStr (bf_FinalizationID f)); ("document_id"%string, JStr doc);
       ("document_number"%string, JStr number); ("document_kind"%string, JStr (dp_documentKind plan));
       ("cycle_id"%string, JStr (bc_CycleID cycle));
       ("total_due_units"%string, JInt (st_TotalDueUnits (sm_Totals s)));
       ("payment_status"%string, JStr (dp_paymentStatus plan))] "" "")
   else mret tt);
  exec! appendEvent (mkEvent "billing_finalization_closed" "billing_finalization" (bf_FinalizationID f) (bf_OrgID f)
    (bf_ProductID f) completedAt
    [("finalization_id"%string, JStr (bf_FinalizationID f)); ("document_id"%string, JStr doc);
     ("document_kind"%string, JStr (dp_documentKind plan)); ("cycle_id"%string, JStr (bc_CycleID cycle));
     ("state"%string, JStr (finalizationStateName (dp_finalizationState plan)));
     ("customer_visible"%string, JBool customerVisible); ("has_usage"%string, JBool hasUsage);
     ("has_financial_activity"%string, JBool hasFinancialActivity)] "" "");
  appendEvent (mkEvent "billing_cycle_finalized" "billing_cycle" (bc_CycleID cycle) (bf_OrgID f) (bf_ProductID f) completedAt
    [("finalization_id"%string, JStr (bf_FinalizationID f)); ("document_id"%string, JStr doc);
     ("document_kind"%string, JStr (dp_documentKind plan)); ("cycle_id"%string, JStr (bc_CycleID cycle));
     ("starts_at"%string, rfc (bc_StartsAt cycle)); ("ends_at"%string, rfc (bc_EndsAt cycle))] "" "").

Definition issueDocumentTx (f : billingFinalization) (cycle : billingCycle) (s : Statement) (completedAt : time)
    (plan : documentPlan) (hasUsage hasFinancialActivity customerVisible : bool) : Bx unit :=
  do! issued <- (if customerVisible then insertFinalizationDocument f cycle s completedAt plan
                 else mret (""%string, ""%string));
  exec! statement (UpdateBillingFinalizationIssued (bf_FinalizationID f) (dp_finalizationState plan) issued.1
    (dp_documentKind plan) customerVisible (dp_notificationPolicy plan) hasUsage hasFinancialActivity
    (timestamptz completedAt));
  exec! statement (MarkBillingCycleFinalized (bc_CycleID cycle) (bf_FinalizationID f) (timestamptz completedAt));
  finalizationEvents f cycle s completedAt plan issued.1 issued.2 hasUsage hasFinancialActivity customerVisible.

Definition issueFinalizationDocument (f : billingFinalization) (cycle : billingCycle) (s : Statement) (completedAt : time)
    (hasUsage hasFinancialActivity customerVisible : bool) : Bx unit :=
  exec! mlift (marshalStatement s);
  WithTx (issueDocumentTx f cycle s completedAt (planDocument (sm_Totals s) customerVisible) hasUsage hasFinancialActivity
            customerVisible).

(** What FinalizeBillingFinalization does once it holds the claim. *)
Definition finalizeClaimed (f : billingFinalization) : Bx unit :=
  do! cycle <- loadBillingCycle (bf_CycleID f);
  do! completedAt <- BusinessNow (bf_OrgID f) (bf_ProductID f);
  do! s <- statementForCycle (bf_OrgID f) (bf_ProductID f) cycle completedAt None;
  do! paidContract <- cycleHasPaidContractOverlap (bf_OrgID f) (bf_ProductID f) cycle;
  let t := sm_Totals s in
  issueFinalizationDocument f cycle s completedAt (statementUsage t) (financialActivity t paidContract)
    (customerVisibleFor t paidContract).

Definition FinalizeFinalization (id : string) : Bx bool :=
  do! claim <- claimBillingFinalization id;
  match claim with
  | None => mret false
  | Some f =>
      do! result <- attempt (finalizeClaimed f);
      match result with
      | inl _ => mret true
      | inr e => exec! ignoreError (failBillingFinalization id e); mret true
      end
  end.

Fixpoint finalizeAll (ids : list string) (finalized : Z) : Bx Z :=
  match ids with
  | [] => mret finalized
  | id :: rest => do! ok <- FinalizeFinalization id; finalizeAll rest (if (ok : bool) then finalized + 1 else finalized)
  end.

Definition FinalizePendingBillingFinalizations (limit : Z) : Bx Z :=
  let limit := if limit <=? 0 then 100 else limit in
  do! limit32 <- mlift (checkedInt32FromInt limit);
  do! ids <- query (ListPendingBillingFinalizations limit32);
  finalizeAll ids 0.
End Finalizations.

(** ** Listing documents *)

Record DocumentRecord : Type := mkDocumentRecord {
  dr_DocumentID : string;
  dr_DocumentNumber : string;
  dr_DocumentKind : string;
  dr_FinalizationID : string;
  dr_ProductID : string;
  dr_CycleID : string;
  dr_Status : string;
  dr_PaymentStatus : string;
  dr_PeriodStart : time;
  dr_PeriodEnd : time;
  dr_IssuedAt : option time;
  dr_Currency : string;
  dr_SubtotalUnits : Z;
  dr_AdjustmentUnits : Z;
  dr_TaxUnits : Z;
  dr_TotalDueUnits : Z;
  dr_StripeHostedInvoiceURL : string;
  dr_StripeInvoicePDFURL : string;
  dr_StripePaymentIntentID : string
}.

Definition documentRecordOfRow (kv : string * documentRow) : res DocumentRecord :=
  let o := kv.2 in
  let! subtotal := checkedUint64FromInt64 (do_subtotal_units o) in
  let! tax := checkedUint64FromInt64 (do_tax_units o) in
  let! total := checkedUint64FromInt64 (do_total_due_units o) in
  Ret (mkDocumentRecord kv.1 (do_document_number o) (do_document_kind o) (do_finalization_id o) (do_product_id o)
         (do_cycle_id o) (do_status o) (do_payment_status o) (do_period_start o) (do_period_end o) (do_issued_at o)
         (do_currency o) subtotal (do_adjustment_units o) tax total (do_stripe_hosted_invoice_url o)
         (do_stripe_invoice_pdf_url o) (do_stripe_payment_intent_id o)).

Definition ListDocuments {St} `{Env} (orgID productID : string) : @B St (list DocumentRecord) :=
  do! rows <- query (ListBillingDocuments (orgIDText orgID) productID);
  mlift (outcome_map documentRecordOfRow rows).

(** ** The interface of the rollover *)

Section PeriodWorkFrames.
Context {St : Type} `{HE : Env} `{HD : Digest}.
#[local] Abbreviation ok m := (evolves (St := St) periods_frame eq m).

Lemma ensureCycleFinalization_ok o p c t : ok (ensureCycleFinalization o p c t).
Proof. unfold ensureCycleFinalization. frame. Qed.

Lemma allocateDocumentNumberTx_ok t : ok (allocateDocumentNumberTx t).
Proof. unfold allocateDocumentNumberTx. frame. Qed.

#[local] Hint Resolve allocateDocumentNumberTx_ok : frame.

Lemma insertFinalizationDocument_ok f c s t pl : ok (insertFinalizationDocument f c s t pl).
Proof. unfold insertFinalizationDocument, insertDocumentLineItemsTx, insertDocumentLineItem. frame. Qed.

#[local] Hint Resolve insertFinalizationDocument_ok : frame.

Lemma issueFinalizationDocument_ok f c s t u a v : ok (issueFinalizationDocument f c s t u a v).
Proof. unfold issueFinalizationDocument, issueDocumentTx, finalizationEvents. frame. Qed.

Lemma loadWindows_ok ids : ok (loadWindows ids).
Proof. induction ids; simpl; unfold loadWindow; frame. Qed.

#[local] Hint Resolve issueFinalizationDocument_ok loadWindows_ok : frame.

Lemma finalizeClaimed_ok f : ok (finalizeClaimed f).
Proof.
  unfold finalizeClaimed, loadBillingCycle, statementForCycle, statementWindows, cycleHasPaidContractOverlap. frame.
Qed.

#[local] Hint Resolve finalizeClaimed_ok : frame.

Lemma FinalizeFinalization_ok id : ok (FinalizeFinalization id).
Proof. unfold FinalizeFinalization, claimBillingFinalization, failBillingFinalization. frame. Qed.
End PeriodWorkFrames.

#[export] Instance period_work {St} `{Env} `{Digest} : PeriodWork St := {|
  applyDueContractChangesTx := applyDueContractChanges;
  ensureCycleFinalizationTx := ensureCycleFinalization;
  FinalizeBillingFinalization := FinalizeFinalization;
  applyDueContractChanges_frame := applyDueContractChanges_ok;
  ensureCycleFinalization_frame := ensureCycleFinalization_ok;
  FinalizeBillingFinalization_frame := FinalizeFinalization_ok
|}.
