(* ===== verification/Dispatcher.v ===== *)
(** * The ledger command dispatcher and the ledger reconciler

    Models the end of billing/ledger_commands.go (completing a posted command
    on its aggregate, the dispatch loop of the background worker) and
    billing/ledger_reconcile.go (comparing PostgreSQL with the ledger and
    recording drift). *)

From S2P Require Import Prelude GoFloat GoStd GoTime GoFormat Json Types Ids Ledger Charges Grants Store Events.
From S2P Require Import LedgerCommands LedgerGrants Cycles Entitlements WindowStore Windows.

(** ** ListPendingLedgerCommands (store/queries/ledger.sql) *)

(** A posted command whose aggregate has not been completed. *)
Definition completion_due (d : DB) (c : commandRow) : bool :=
  bool_decide (c_operation c = "grant_deposit")
    && match db_grants d !! c_aggregate_id c with
       | Some g => negb (bool_decide (g_ledger_posting_state g = GPosted))
       | None => false
       end
  || bool_decide (c_operation c = "settle_window")
    && match db_windows d !! c_aggregate_id c with
       | Some w => bool_decide (w_state w = WSettling)
       | None => false
       end.

Definition command_due (now : time) (d : DB) (c : commandRow) : bool :=
  match c_state c with
  | CPending | CRetryableFailed => c_next_attempt_at c <=? now
  | CInProgress => match c_lease_expires_at c with None => true | Some t => t <? now end
  | CPosted => completion_due d c
  | CDeadLetter => false
  end.

(** ORDER BY next_attempt_at, created_at, command_id LIMIT $1 *)
Definition commandLess : (string * commandRow) -> (string * commandRow) -> bool :=
  lex_key Z.eqb Z.ltb (fun kv => c_next_attempt_at kv.2)
    (lex_key Z.eqb Z.ltb (fun kv => c_created_at kv.2) (on_key str_ltb fst)).

Definition ListPendingLedgerCommands (limit : Z) (now : time) (d : DB) : list (string * commandState) :=
  (fun kv => (kv.1, c_state kv.2))
    <$> take (Z.to_nat limit)
          (sort_slice commandLess (filter (fun kv => command_due now d kv.2 = true) (map_to_list (db_commands d)))).

(** ** Reconciliation queries *)

Definition ListPostedGrantSnapshotsForReconcile (limit : Z) (d : DB) : list (string * grantRow) :=
  take (Z.to_nat limit)
    (sort_slice grantRowLess
       (filter (fun kv => g_closed_at kv.2 = None /\ g_ledger_posting_state kv.2 = GPosted)
          (map_to_list (db_grants d)))).

Definition settled_step (grantIDs : list string) (d : DB) (sums : gmap string Z) (kv : (string * Z) * legRow) : gmap string Z :=
  match db_windows d !! kv.1.1 with
  | Some w =>
      if bool_decide (w_state w = WSettled) && bool_decide (l_state kv.2 = LPosted)
         && negb (bool_decide (l_grant_id kv.2 = "")) && bool_decide (l_grant_id kv.2 ∈ grantIDs)
      then <[l_grant_id kv.2 := map_u64 sums (l_grant_id kv.2) + l_amount_posted kv.2]> sums
      else sums
  | None => sums
  end.

Definition ListSettledGrantUsage (grantIDs : list string) (d : DB) : res (gmap string Z) :=
  let sums := foldl (settled_step grantIDs d) ∅ (map_to_list (db_legs d)) in
  if forallb (fun kv => kv.2 <=? i64_max) (map_to_list sums) then Ret sums
  else errorf "bigint out of range".

Definition InsertLedgerDriftEvent (driftID : string) (row : driftRow) (d : DB) : res (unit * DB) :=
  match db_drifts d !! driftID with
  | Some _ => Ret (tt, d)
  | None => Ret (tt, set_drifts (<[driftID := row]> (db_drifts d)) d)
  end.

(** What reconciliation finds wrong with one posted grant: kind, severity and
    the ledger side of the snapshot. *)
Inductive driftKind : Type :=
| GrantAccountMissing
| GrantBalanceMismatch
| GrantPendingBalanceUnexpected
| GrantSpendMismatch.

Definition grantDrifts (amount expectedSpent : Z) (balance : option Balance) : list driftKind :=
  match balance with
  | None => [GrantAccountMissing]
  | Some b =>
      let total := u64_add (u64_add (bal_Available b) (bal_Pending b)) (bal_Spent b) in
      (if total =? amount then [] else [GrantBalanceMismatch])
      ++ (if bal_Pending b =? 0 then [] else [GrantPendingBalanceUnexpected])
      ++ (if bal_Spent b =? expectedSpent then [] else [GrantSpendMismatch])
  end.

Record grantSnapshot : Type := mkSnapshot {
  gs_GrantID : string;
  gs_OrgText : string;
  gs_ProductID : string;
  gs_Amount : Z;
  gs_AccountID : ID
}.

Section Dispatcher.
Context {St : Type} `{Env} `{Digest} `{HC : TBCodec} `{!TigerBeetle St} `{!PeriodWork St}.
#[local] Abbreviation Bx A := (@B St A).

Definition completePostedLedgerCommand (commandID : string) : Bx unit :=
  do! command <- loadLedgerCommand commandID;
  if decide (lc_Operation command = "grant_deposit") then markGrantLedgerPostingPosted (lc_AggregateID command)
  else if decide (lc_Operation command = "settle_window") then markWindowSettlementPosted (lc_AggregateID command)
  else mret tt.

(** The loop of DispatchPendingLedgerCommands. *)
Fixpoint dispatchAll (commands : list (string * commandState)) (count : Z) : Bx Z :=
  match commands with
  | [] => mret count
  | (id, state) :: rest =>
      exec! (if decide (state = CPosted) then mret tt else dispatchLedgerCommand id);
      exec! completePostedLedgerCommand id;
      dispatchAll rest (count + 1)
  end.

Definition DispatchPendingLedgerCommands (limit : Z) : Bx Z :=
  let limit := if limit <=? 0 then 100 else limit in
  do! limit32 <- mlift (checkedInt32FromInt limit);
  do! now <- pgNow;
  do! commands <- query (ListPendingLedgerCommands limit32 now);
  dispatchAll commands 0.

(** ** Reconciliation *)

Definition recordLedgerDrift (kind severity aggregateType aggregateID : string) (pg tb : jval) : Bx unit :=
  WithTx (
    do! now <- timeNow;
    let driftID := textID "ledger_drift" [kind; aggregateType; aggregateID; format_rfc3339nano now] in
    exec! statement (InsertLedgerDriftEvent driftID (mkDriftRow kind severity aggregateType aggregateID pg tb));
    do! occurred <- timeNow;
    appendEvent (mkEvent "ledger_drift_detected" aggregateType aggregateID "" "" occurred
      [("drift_id"%string, JStr driftID); ("drift_kind"%string, JStr kind); ("severity"%string, JStr severity);
       ("pg"%string, pg); ("tigerbeetle"%string, tb)] "" "")).

(** The map is ranged over in an unspecified order; [order] is the order of
    this run. *)
Definition reconcileOperatorLedgerAccounts (order : gmap string ID -> list ID) : Bx unit :=
  do! ids <- WithTx (do! operators <- operatorLedgerAccountsTx; mret (order operators));
  do! found <- ledger_query (LookupAccountIDs ledger_configured ids);
  match filter (fun id => id ∉ found) ids with
  | [] => mret tt
  | id :: _ =>
      recordLedgerDrift "operator_account_missing" "critical" "ledger_account" (IDString id)
        (JObj [("account_id"%string, JStr (IDString id))]) (JObj [])
  end.

Definition settledGrantUsage (grantIDs : list string) : Bx (gmap string Z) :=
  match grantIDs with
  | [] => mret ∅
  | _ =>
      do! rows <- query (ListSettledGrantUsage grantIDs);
      do! sums <- mlift rows;
      mret (filter (fun kv => 0 < kv.2) sums)
  end.

Definition snapshotOfRow (kv : string * grantRow) : res grantSnapshot :=
  let! id := IDFromBytes (g_account_id kv.2) in
  let! amount := checkedUint64FromInt64 (g_amount kv.2) in
  Ret (mkSnapshot kv.1 (g_org_id kv.2) (g_scope_product_id kv.2) amount id).

Definition recordGrantDrift (grant : grantSnapshot) (expectedSpent : Z) (balance : option Balance) (kind : driftKind) : Bx unit :=
  let gid := ("grant_id"%string, JStr (gs_GrantID grant)) in
  let acct := ("account_id"%string, JStr (IDString (gs_AccountID grant))) in
  let b := default (mkBalance (gs_AccountID grant) 0 0 0) balance in
  match kind with
  | GrantAccountMissing =>
      recordLedgerDrift "grant_account_missing" "critical" "credit_grant" (gs_GrantID grant) (JObj [gid; acct]) (JObj [])
  | GrantBalanceMismatch =>
      recordLedgerDrift "grant_balance_mismatch" "warning" "credit_grant" (gs_GrantID grant)
        (JObj [gid; ("amount"%string, JInt (gs_Amount grant))])
        (JObj [("available"%string, JInt (bal_Available b)); ("pending"%string, JInt (bal_Pending b));
               ("spent"%string, JInt (bal_Spent b));
               ("total"%string, JInt (u64_add (u64_add (bal_Available b) (bal_Pending b)) (bal_Spent b)))])
  | GrantPendingBalanceUnexpected =>
      recordLedgerDrift "grant_pending_balance_unexpected" "critical" "credit_grant" (gs_GrantID grant) (JObj [gid])
        (JObj [acct; ("pending"%string, JInt (bal_Pending b))])
  | GrantSpendMismatch =>
      recordLedgerDrift "grant_spend_mismatch" "critical" "credit_grant" (gs_GrantID grant)
        (JObj [gid; ("settled_usage"%string, JInt expectedSpent)]) (JObj [acct; ("spent"%string, JInt (bal_Spent b))])
  end.

Fixpoint reconcileGrants (balances : gmap ID Balance) (settledUsage : gmap string Z) (grants : list grantSnapshot)
    (drifts : Z) : Bx Z :=
  match grants with
  | [] => mret drifts
  | grant :: rest =>
      let expectedSpent := map_u64 settledUsage (gs_GrantID grant) in
      let balance := balances !! gs_AccountID grant in
      let found := grantDrifts (gs_Amount grant) expectedSpent balance in
      exec! forEach (recordGrantDrift grant expectedSpent balance) found;
      reconcileGrants balances settledUsage rest (drifts + Z.of_nat (length found))
  end.

Definition reconcileGrantLedgerBalances (limit : Z) : Bx Z :=
  do! limit32 <- mlift (checkedInt32FromInt limit);
  do! rows <- query (ListPostedGrantSnapshotsForReconcile limit32);
  do! grants <- mlift (outcome_map snapshotOfRow rows);
  match grants with
  | [] => mret 0
  | _ =>
      do! balances <- ledger_query (LookupBalances ledger_configured (gs_AccountID <$> grants));
      do! settledUsage <- settledGrantUsage (gs_GrantID <$> grants);
      reconcileGrants balances settledUsage grants 0
  end.

Definition ReconcileLedger (order : gmap string ID -> list ID) (limit : Z) : Bx Z :=
  let limit := if limit <=? 0 then 1000 else limit in
  exec! requireLedger;
  exec! reconcileOperatorLedgerAccounts order;
  reconcileGrantLedgerBalances limit.
End Dispatcher.
