(* ===== verification/Contracts.v ===== *)
(** * Contracts

    Models billing/contracts.go: reading, cancelling, resuming, downgrading,
    upgrading and activating a contract.  What the rollover of a cycle applies
    is in DueChanges.v; CreateContract, CreateContractChange and
    CollectContractUpgradePayment, which choose between these operations and
    talk to Stripe, are in ContractRequests.v.  lockOrgProductTx takes an
    advisory lock and here every transaction is atomic. *)

From S2P Require Import Prelude GoFloat GoStd GoTime Json Types Ids Ledger Charges Grants Store Events.
From S2P Require Import LedgerCommands LedgerGrants Cycles Entitlements WindowStore Windows.
From S2P Require Import ContractStore DocumentStore DueChanges Statements Finalizations.

Record ContractRecord : Type := mkContractRecord {
  cr_ContractID : string;
  cr_ProductID : string;
  cr_PlanID : string;
  cr_PhaseID : string;
  cr_CadenceKind : string;
  cr_Status : contractState;
  cr_PaymentState : string;
  cr_EntitlementState : string;
  cr_PendingChangeID : string;
  cr_PendingChangeType : string;
  cr_PendingChangeTargetPlanID : string;
  cr_PendingChangeEffectiveAt : option time;
  cr_StartsAt : time;
  cr_EndsAt : option time;
  cr_PhaseStart : option time;
  cr_PhaseEnd : option time
}.

(** ** Upgrade arithmetic *)

Definition entitlementPolicyScopeKey (p : planEntitlementPolicy) : string :=
  pp_ScopeType p +:+ ":" +:+ pp_ScopeProductID p +:+ ":" +:+ pp_ScopeBucketID p +:+ ":" +:+ pp_ScopeSKUID p.

Definition prorateCents `{Env} (cents remaining period : Z) : Z :=
  if (cents =? 0) || (remaining <=? 0) || (period <=? 0) then 0
  else u64_of_float (f64_ceil (f64_div (f64_mul (f64_of_Z cents) (f64_of_Z remaining)) (f64_of_Z period))).

(** What the current plan grants in a scope: the last policy wins. *)
Definition currentByScope (current : list planEntitlementPolicy) : gmap string Z :=
  foldl (fun m p => <[entitlementPolicyScopeKey p := pp_AmountUnits p]> m) ∅ current.

Definition entitlementDeltas `{Env} (current target : list planEntitlementPolicy) (now : time) (cycle : billingCycle)
    : list contractEntitlementDelta :=
  omap (fun p =>
    let have := map_u64 (currentByScope current) (entitlementPolicyScopeKey p) in
    let delta := if have <? pp_AmountUnits p then pp_AmountUnits p - have else 0 in
    if delta =? 0 then None
    else Some (mkDelta p (prorateUnits delta (time_sub (bc_EndsAt cycle) now) (time_sub (bc_EndsAt cycle) (bc_StartsAt cycle)))))
    target.

(** What json.Marshal refuses in a quote. *)
Definition marshalQuote (q : contractChangeQuote) : res unit :=
  if json_time_ok (qt_CycleStart q) && json_time_ok (qt_CycleEnd q) && json_time_ok (qt_EffectiveAt q)
     && json_time_ok (qt_RequestedAt q)
  then Ret tt else errorf "json: error calling MarshalJSON for type time.Time".

Definition with_request_id (id : string) (q : contractChangeQuote) : contractChangeQuote :=
  mkQuote (qt_ChangeID q) (qt_ContractID q) (qt_OrgID q) (qt_ProductID q) (qt_FromPlanID q) (qt_TargetPlanID q)
    (qt_FromPhaseID q) (qt_ToPhaseID q) (qt_CycleID q) (qt_CycleStart q) (qt_CycleEnd q) (qt_EffectiveAt q)
    (qt_RequestedAt q) id (qt_PriceDeltaCents q) (qt_PriceDeltaUnits q) (qt_Deltas q) (qt_TargetPolicies q).

Section Contracts.
Context {St : Type} `{Env} `{Digest} `{TBCodec} `{!TigerBeetle St} `{!PeriodWork St}.
#[local] Abbreviation Bx A := (@B St A).

(** ** Reading *)

Definition GetContract (fuel : nat) (orgID contractID : string) : Bx ContractRecord :=
  do! row <- query (GetContract_row contractID (orgIDText orgID));
  match row with
  | None => mfail ErrContractNotFound
  | Some c =>
      exec! ApplyDueBillingWork fuel orgID (ct_product_id c);
      do! now <- BusinessNow orgID (ct_product_id c);
      do! phase <- queryAt now (GetCurrentContractPhase contractID);
      do! pending <- (if decide (contractID = "") then mret None
                      else query (GetPendingScheduledContractChange contractID (orgIDText orgID) (ct_product_id c)));
      let plan := match phase with Some (id, p) => (ph_plan_id p, id) | None => (""%string, ""%string) end in
      let change := match pending with
                    | Some (id, ch) => (id, ch_change_type ch, ch_target_plan_id ch)
                    | None => (""%string, ""%string, ""%string)
                    end in
      mret (mkContractRecord contractID (ct_product_id c) plan.1 plan.2 "anniversary_monthly" (ct_state c)
              (ct_payment_state c) (ct_entitlement_state c) change.1.1 change.1.2 change.2
              ((fun kv => ch_requested_effective_at kv.2) <$> pending) (ct_starts_at c) (ct_ends_at c)
              ((fun kv => ph_effective_start kv.2) <$> phase) (phase ≫= fun kv => ph_effective_end kv.2))
  end.

(** ** Cancelling *)

Definition cancelChangeID (contractID : string) (effectiveAt : time) : string :=
  textID "contract_change" [contractID; "cancel"%string; format_rfc3339nano effectiveAt].

Definition cancelContractTx (orgID productID contractID : string) (cycle : billingCycle) (now : time) : Bx unit :=
  let cancelAt := timestamptz (bc_EndsAt cycle) in
  exec! statement (ScheduleContractCancellation contractID (orgIDText orgID) cancelAt);
  exec! statement (ScheduleContractPhaseCancellation contractID (orgIDText orgID) cancelAt);
  exec! statement (InsertCancellationContractChange (cancelChangeID contractID (bc_EndsAt cycle)) contractID
    (orgIDText orgID) productID cancelAt (timestamptz now));
  appendEvent (mkEvent "contract_cancel_scheduled" "contract" contractID orgID productID now
    [("contract_id"%string, JStr contractID); ("cycle_id"%string, JStr (bc_CycleID cycle));
     ("cancel_at"%string, rfc (bc_EndsAt cycle))] "" "").

Definition CancelContract (fuel : nat) (orgID contractID : string) : Bx ContractRecord :=
  do! record <- GetContract fuel orgID contractID;
  do! cycle <- EnsureOpenBillingCycle fuel orgID (cr_ProductID record);
  do! now <- BusinessNow orgID (cr_ProductID record);
  exec! WithTx (cancelContractTx orgID (cr_ProductID record) contractID cycle now);
  GetContract fuel orgID contractID.

(** ** Resuming *)

Definition cancelScheduledChange (orgID : string) (existing : ContractRecord) (now : time) (kv : string * changeRow) : Bx unit :=
  let '(id, ch) := kv in
  exec! (if decide (ch_change_type ch = "cancel")
         then statement (RestorePhaseBoundaryDuringCancelResume (cr_ContractID existing) (orgIDText orgID)
                           (cr_ProductID existing) (timestamptz (ch_requested_effective_at ch)))
         else mret tt);
  appendEvent (mkEvent "contract_change_canceled" "contract_change" id orgID (cr_ProductID existing) now
    [("contract_id"%string, JStr (cr_ContractID existing)); ("change_id"%string, JStr id);
     ("change_type"%string, JStr (ch_change_type ch)); ("target_plan_id"%string, JStr (ch_target_plan_id ch));
     ("pricing_plan_id"%string, JStr (cr_PlanID existing));
     ("requested_effective_at"%string, rfc (ch_requested_effective_at ch));
     ("reason"%string, JStr "resume_current_plan")] "" "").

Definition resumeTx (orgID : string) (existing : ContractRecord) (now : time) : Bx bool :=
  let id := cr_ContractID existing in
  let product := cr_ProductID existing in
  do! changes <- query (ListScheduledContractChangesForResume id (orgIDText orgID) product);
  match changes with
  | [] => mret false
  | _ =>
      exec! statement (CancelScheduledContractChangesForResume id (orgIDText orgID) product);
      exec! statement (RestoreContractDuringResume id (orgIDText orgID));
      exec! forEach (cancelScheduledChange orgID existing now) changes;
      exec! appendEvent (mkEvent "contract_resume_applied" "contract" id orgID product now
        [("contract_id"%string, JStr id); ("pricing_plan_id"%string, JStr (cr_PlanID existing));
         ("canceled_changes"%string, JInt (Z.of_nat (length changes))); ("reason"%string, JStr "resume_current_plan")] "" "");
      mret true
  end.

Definition resumeCurrentPlan (orgID : string) (existing : ContractRecord) : Bx bool :=
  if decide (cr_ContractID existing = "" \/ cr_PlanID existing = "") then mret false
  else
    do! now <- BusinessNow orgID (cr_ProductID existing);
    WithTx (resumeTx orgID existing now).

(** ** Downgrading *)

Definition scheduleDowngrade (fuel : nat) (orgID : string) (existing : ContractRecord) (targetPlanID : string)
    : Bx (string * time) :=
  do! cycle <- EnsureOpenBillingCycle fuel orgID (cr_ProductID existing);
  do! now <- BusinessNow orgID (cr_ProductID existing);
  let id := changeID (cr_ContractID existing) targetPlanID (bc_EndsAt cycle) in
  let toPhaseID := phaseID (cr_ContractID existing) targetPlanID (bc_EndsAt cycle) in
  exec! WithTx (
    exec! statement (InsertScheduledDowngrade id (cr_ContractID existing) (orgIDText orgID) (cr_ProductID existing)
      (cr_PhaseID existing) toPhaseID targetPlanID (timestamptz (bc_EndsAt cycle)) (timestamptz now));
    appendEvent (mkEvent "contract_change_scheduled" "contract_change" id orgID (cr_ProductID existing) now
      [("contract_id"%string, JStr (cr_ContractID existing)); ("change_id"%string, JStr id);
       ("cycle_id"%string, JStr (bc_CycleID cycle)); ("from_phase_id"%string, JStr (cr_PhaseID existing));
       ("to_phase_id"%string, JStr toPhaseID); ("target_plan_id"%string, JStr targetPlanID)] "" ""));
  mret (id, bc_EndsAt cycle).

(** ** Upgrading *)

Definition prepareUpgradeQuote (fuel : nat) (orgID : string) (existing : ContractRecord) (current target : PlanRecord)
    : Bx contractChangeQuote :=
  do! cycle <- EnsureOpenBillingCycle fuel orgID (cr_ProductID existing);
  do! now <- BusinessNow orgID (cr_ProductID existing);
  if negb (now <? bc_EndsAt cycle) then mfail ErrUnsupportedChange
  else
    do! currentPolicies <- planEntitlementPolicies (pn_PlanID current);
    do! targetPolicies <- planEntitlementPolicies (pn_PlanID target);
    let deltas := entitlementDeltas currentPolicies targetPolicies now cycle in
    let cents := prorateCents (u64_sub (pn_MonthlyAmountCents target) (pn_MonthlyAmountCents current))
                   (time_sub (bc_EndsAt cycle) now) (time_sub (bc_EndsAt cycle) (bc_StartsAt cycle)) in
    do! cents64 <- mlift (checkedInt64FromUint64 cents);
    do! units <- mlift (moneyUnitsFromCents cents64);
    let toPhaseID := phaseID (cr_ContractID existing) (pn_PlanID target) now in
    let id := changeID (cr_ContractID existing) (pn_PlanID target) now in
    do! wall <- timeNow;
    mret (mkQuote id (cr_ContractID existing) orgID (cr_ProductID existing) (pn_PlanID current) (pn_PlanID target)
            (cr_PhaseID existing) toPhaseID (bc_CycleID cycle) (bc_StartsAt cycle) (bc_EndsAt cycle) now now
            (textID "stripe_upgrade_request" [id; format_rfc3339nano wall]) cents units deltas targetPolicies).

Definition upgradeChangeRow (q : contractChangeQuote) (effective requested : time) (units : Z) : changeRow :=
  mkChangeRow (qt_ContractID q) (orgIDText (qt_OrgID q)) (qt_ProductID q) "upgrade" "immediate" effective None
    (qt_FromPhaseID q) (qt_ToPhaseID q) (qt_TargetPlanID q) ChAwaitingPayment "stripe" (qt_ProviderRequestID q) ""
    (qt_ChangeID q) requested 0 (qt_CycleID q) units (time_sub (qt_CycleEnd q) (qt_EffectiveAt q))
    (time_sub (qt_CycleEnd q) (qt_CycleStart q)) (Some q).

Definition requestUpgradeTx (q : contractChangeQuote) : Bx unit :=
  let finalization := finalizationID "contract_change" (qt_ChangeID q) in
  let document := documentID "contract_change" (qt_ChangeID q) in
  do! number <- allocateDocumentNumberTx (qt_RequestedAt q);
  do! units <- mlift (checkedInt64FromUint64 (qt_PriceDeltaUnits q));
  do! effective <- mlift (not_null (timestamptz (qt_EffectiveAt q)));
  do! requested <- mlift (not_null (timestamptz (qt_RequestedAt q)));
  exec! statement (InsertUpgradeContractChange (qt_ChangeID q) (upgradeChangeRow q effective requested units));
  exec! statement (InsertUpgradeFinalization finalization (qt_ChangeID q) (qt_CycleID q) (orgIDText (qt_OrgID q))
    (qt_ProductID q) (Some requested));
  do! until <- mlift (not_null (timestamptz (qt_CycleEnd q)));
  exec! statement (InsertBillingDocument document
    (mkDocumentRow number "invoice" finalization (orgIDText (qt_OrgID q)) (qt_ProductID q) (qt_CycleID q) (qt_ChangeID q)
       "issued" "pending" effective until (Some requested) "usd" units 0 0 units "" "" "" "" ""));
  exec! statement (LinkUpgradeDocumentFinalization finalization document);
  exec! appendEvent (mkEvent "contract_change_requested" "contract_change" (qt_ChangeID q) (qt_OrgID q) (qt_ProductID q)
    (qt_RequestedAt q)
    [("contract_id"%string, JStr (qt_ContractID q)); ("change_id"%string, JStr (qt_ChangeID q));
     ("cycle_id"%string, JStr (qt_CycleID q)); ("from_phase_id"%string, JStr (qt_FromPhaseID q));
     ("to_phase_id"%string, JStr (qt_ToPhaseID q)); ("target_plan_id"%string, JStr (qt_TargetPlanID q));
     ("finalization_id"%string, JStr finalization); ("document_id"%string, JStr document);
     ("document_kind"%string, JStr "invoice"); ("price_delta_units"%string, JInt (qt_PriceDeltaUnits q))] "" "");
  if runtime_configured && stripe_configured then EnqueueContractUpgradePaymentTx (qt_ChangeID q) else mret tt.

Definition insertPendingUpgrade (q : contractChangeQuote) : Bx contractChangeQuote :=
  exec! mlift (marshalQuote q);
  exec! WithTx (requestUpgradeTx q);
  do! request <- query (GetContractChangeProviderRequestID (qt_ChangeID q));
  match request with
  | None => mfail (Errorf "load upgrade provider request id: no rows in result set")
  | Some id => if decide (id = "") then mfail (Errorf "upgrade change missing provider_request_id")
               else mret (with_request_id id q)
  end.

Definition supersedeContractPhaseForUpgradeTx (q : contractChangeQuote) : Bx bool :=
  do! row <- statement (SupersedeContractPhaseForUpgrade (qt_FromPhaseID q) (qt_ContractID q) (timestamptz (qt_EffectiveAt q)));
  match row with
  | None => mret false
  | Some (start, entitlement) =>
      if negb (start <? qt_EffectiveAt q) && negb (bool_decide (entitlement = "voided"))
      then mfail (Errorf "zero-duration upgrade phase did not void entitlement state")
      else mret true
  end.

Definition upgradeSourceRef (q : contractChangeQuote) (p : planEntitlementPolicy) : string :=
  "upgrade_delta:" +:+ qt_ChangeID q +:+ ":" +:+ pp_PolicyID p.

Definition upgradeGrantID (q : contractChangeQuote) (p : planEntitlementPolicy) : string :=
  grantID (qt_OrgID q) "contract" (pp_ScopeType p) (pp_ScopeProductID p) (pp_ScopeBucketID p) (pp_ScopeSKUID p)
    (upgradeSourceRef q p).

Definition insertUpgradeDeltaGrantTx (q : contractChangeQuote) (delta : contractEntitlementDelta) : Bx unit :=
  if de_Amount delta =? 0 then mret tt
  else
    do! accountID <- NewID;
    do! depositID <- NewID;
    let p := de_Policy delta in
    let ref := upgradeSourceRef q p in
    let org := orgIDText (qt_OrgID q) in
    let periodID := textID "period" [org; ref] in
    do! amount <- mlift (checkedInt64FromUint64 (de_Amount delta));
    do! start <- mlift (not_null (timestamptz (qt_EffectiveAt q)));
    do! end_ <- mlift (not_null (timestamptz (qt_CycleEnd q)));
    exec! statement (InsertEntitlementPeriod periodID
      (mkPeriodRow org (qt_ProductID q) (qt_CycleID q) "contract" (pp_PolicyID p) (qt_ContractID q) (qt_ToPhaseID q)
         (contractLineID (qt_ToPhaseID q) p) (pp_ScopeType p) (pp_ScopeProductID p) (pp_ScopeBucketID p) (pp_ScopeSKUID p)
         amount start end_ (pp_PolicyVersion p) "paid" "active" "upgrade_delta" ref ""));
    exec! statement (InsertCreditGrant (upgradeGrantID q p)
      (mkGrantRow org (pp_ScopeType p) (pp_ScopeProductID p) (pp_ScopeBucketID p) (pp_ScopeSKUID p) amount "contract" ref
         periodID (pp_PolicyVersion p) start (Some start) (Some end_) (Some end_) None "" accountID depositID GPending
         None ""));
    appendEvent (mkEvent "grant_issued" "credit_grant" (upgradeGrantID q p) (qt_OrgID q) (qt_ProductID q) (qt_EffectiveAt q)
      [("grant_id"%string, JStr (upgradeGrantID q p)); ("contract_id"%string, JStr (qt_ContractID q));
       ("pricing_contract_id"%string, JStr (qt_ContractID q)); ("phase_id"%string, JStr (qt_ToPhaseID q));
       ("pricing_phase_id"%string, JStr (qt_ToPhaseID q)); ("pricing_plan_id"%string, JStr (qt_TargetPlanID q));
       ("change_id"%string, JStr (qt_ChangeID q)); ("cycle_id"%string, JStr (qt_CycleID q));
       ("source"%string, JStr "contract"); ("amount"%string, JInt (de_Amount delta))] "" "").

Definition upgradePhaseEvent (kind phase plan : string) (q : contractChangeQuote) : eventFact :=
  mkEvent kind "contract_phase" phase (qt_OrgID q) (qt_ProductID q) (qt_EffectiveAt q)
    [("contract_id"%string, JStr (qt_ContractID q)); ("change_id"%string, JStr (qt_ChangeID q));
     ("cycle_id"%string, JStr (qt_CycleID q)); ("pricing_phase_id"%string, JStr phase);
     ("pricing_plan_id"%string, JStr plan); ("effective_at"%string, rfc (qt_EffectiveAt q));
     ("reason"%string, JStr "upgrade")] "" "".

(** The phases of an upgrade: the old one closes and the new one starts. *)
Definition upgradePhasesTx (q : contractChangeQuote) : Bx unit :=
  do! closed <- supersedeContractPhaseForUpgradeTx q;
  exec! (if closed : bool then appendEvent (upgradePhaseEvent "contract_phase_closed" (qt_FromPhaseID q) (qt_FromPlanID q) q)
         else mret tt);
  exec! insertContractPhaseTx (qt_OrgID q) (qt_ProductID q) (qt_ContractID q) (qt_ToPhaseID q) (qt_TargetPlanID q) PhActive
    "paid" (qt_EffectiveAt q);
  exec! appendEvent (upgradePhaseEvent "contract_phase_started" (qt_ToPhaseID q) (qt_TargetPlanID q) q);
  statement (LinkSupersededContractPhase (qt_FromPhaseID q) (qt_ContractID q) (qt_ToPhaseID q)).

(** What the payment of an upgrade brings about. *)
Definition upgradeEffectsTx (q : contractChangeQuote) (providerInvoiceID : string) : Bx unit :=
  let finalization := finalizationID "contract_change" (qt_ChangeID q) in
  let document := documentID "contract_change" (qt_ChangeID q) in
  exec! upgradePhasesTx q;
  exec! copyPlanEntitlementLinesTx (qt_OrgID q) (qt_ProductID q) (qt_ContractID q) (qt_ToPhaseID q)
    (qt_TargetPolicies q) (qt_CycleEnd q);
  exec! forEach (insertUpgradeDeltaGrantTx q) (qt_Deltas q);
  exec! statement (UpdateUpgradedContract (qt_ContractID q) (orgIDText (qt_OrgID q)) (qt_TargetPlanID q));
  exec! statement (MarkUpgradeContractChangeApplied (qt_ChangeID q) (timestamptz (qt_EffectiveAt q)) providerInvoiceID);
  exec! statement (MarkUpgradeDocumentPaid document providerInvoiceID (timestamptz (qt_EffectiveAt q)));
  exec! statement (MarkUpgradeFinalizationPaid finalization document (timestamptz (qt_EffectiveAt q)));
  appendEvent (mkEvent "contract_change_applied" "contract_change" (qt_ChangeID q) (qt_OrgID q) (qt_ProductID q)
    (qt_EffectiveAt q)
    [("contract_id"%string, JStr (qt_ContractID q)); ("change_id"%string, JStr (qt_ChangeID q));
     ("cycle_id"%string, JStr (qt_CycleID q)); ("from_phase_id"%string, JStr (qt_FromPhaseID q));
     ("to_phase_id"%string, JStr (qt_ToPhaseID q)); ("pricing_plan_id"%string, JStr (qt_TargetPlanID q));
     ("finalization_id"%string, JStr finalization); ("document_id"%string, JStr document);
     ("document_kind"%string, JStr "invoice"); ("provider_invoice_id"%string, JStr providerInvoiceID)] "" "").

Definition applyUpgradeTx (q : contractChangeQuote) (providerInvoiceID : string) : Bx unit :=
  do! state <- query (GetContractChangeStateForUpdate (qt_ChangeID q));
  match state with
  | None => mfail (Errorf "lock upgrade change: no rows in result set")
  | Some ChApplied => mret tt
  | Some (ChAwaitingPayment | ChProviderPending) => upgradeEffectsTx q providerInvoiceID
  | Some _ => mfail ErrUnsupportedChange
  end.

Definition applyPaidUpgrade (q : contractChangeQuote) (providerInvoiceID : string) : Bx unit :=
  exec! WithTx (applyUpgradeTx q providerInvoiceID);
  exec! PostPendingGrantDeposits (qt_OrgID q) (qt_ProductID q);
  mret tt.

(** ** Activation *)

Definition insertContractTx (orgID productID contractID planID : string) (startsAt : time) : Bx unit :=
  statement (UpsertContract contractID (orgIDText orgID) productID planID (timestamptz startsAt)).

Definition insertInternalContractTx (orgID productID contractID planID : string) (startsAt : time) : Bx unit :=
  statement (UpsertInternalContract contractID (orgIDText orgID) productID planID (timestamptz startsAt)).

Definition insertInternalPromotionalContractPhaseTx (orgID productID contractID phaseID planID : string) (effectiveAt : time)
    : Bx unit :=
  do! plan <- loadPlan planID;
  statement (UpsertInternalContractPhase phaseID contractID (orgIDText orgID) productID planID (pn_Currency plan)
    (timestamptz effectiveAt)).

(** The finalization of the free cycle the activation closed, or "". *)
Definition activateContractTx (orgID productID planID contractID phaseID : string) (policies : list planEntitlementPolicy)
    (effectiveAt lineActiveFrom : time) : Bx string :=
  do! alreadyActive <- query (ContractPhaseAlreadyActive phaseID contractID);
  do! finalization <- (if alreadyActive : bool then mret ""%string
                       else do! split <- splitCycleForContractActivationTx orgID productID effectiveAt; mret split.2);
  exec! insertContractTx orgID productID contractID planID effectiveAt;
  exec! insertContractPhaseTx orgID productID contractID phaseID planID PhActive "paid" effectiveAt;
  exec! copyPlanEntitlementLinesTx orgID productID contractID phaseID policies lineActiveFrom;
  exec! (if alreadyActive : bool then mret tt
         else appendEvent (mkEvent "contract_activated" "contract" contractID orgID productID effectiveAt
           [("contract_id"%string, JStr contractID); ("pricing_phase_id"%string, JStr phaseID);
            ("pricing_plan_id"%string, JStr planID)] "" ""));
  mret finalization.

(** if freeFinalizationID != "" && c.runtime == nil *)
Definition finalizeFreeCycle (finalization : string) : Bx unit :=
  if negb (bool_decide (finalization = "")) && negb runtime_configured
  then do! _ <- FinalizeBillingFinalization finalization; mret tt
  else mret tt.

Definition activateCatalogContract (orgID productID planID contractID phaseID : string) (effectiveAt lineActiveFrom : time)
    : Bx unit :=
  do! policies <- planEntitlementPolicies planID;
  do! finalization <- WithTx (activateContractTx orgID productID planID contractID phaseID policies effectiveAt lineActiveFrom);
  finalizeFreeCycle finalization.

Definition closePhaseForPromotion (orgID productID contractID phaseID : string) (effectiveAt : time) (phase : string * string)
    : Bx unit :=
  if decide (phase.1 = phaseID) then mret tt
  else
    do! closed <- statement (CloseContractPhase phase.1 contractID (timestamptz effectiveAt));
    if 0 <? closed then
      appendEvent (mkEvent "contract_phase_closed" "contract_phase" phase.1 orgID productID effectiveAt
        [("contract_id"%string, JStr contractID); ("pricing_phase_id"%string, JStr phase.1);
         ("pricing_plan_id"%string, JStr phase.2); ("effective_at"%string, rfc effectiveAt);
         ("reason"%string, JStr "internal_promotion")] "" "")
    else mret tt.

Definition activatePromotionTx (orgID productID planID contractID phaseID : string) (policies : list planEntitlementPolicy)
    (effectiveAt lineActiveFrom : time) : Bx (string * bool) :=
  do! alreadyActive <- query (ContractPhaseAlreadyActive phaseID contractID);
  do! finalization <- (if alreadyActive : bool then mret ""%string
    else
      do! split <- splitCycleForContractActivationTx orgID productID effectiveAt;
      do! phases <- listAt effectiveAt (ListCancelableContractPhases contractID (orgIDText orgID) productID);
      exec! forEach (closePhaseForPromotion orgID productID contractID phaseID effectiveAt) phases;
      exec! statement (CancelScheduledContractChangesForResume contractID (orgIDText orgID) productID);
      mret split.2);
  exec! insertInternalContractTx orgID productID contractID planID effectiveAt;
  exec! insertInternalPromotionalContractPhaseTx orgID productID contractID phaseID planID effectiveAt;
  exec! copyPlanEntitlementLinesTx orgID productID contractID phaseID policies lineActiveFrom;
  if alreadyActive : bool then mret (finalization, false)
  else
    exec! appendEvent (mkEvent "contract_activated" "contract" contractID orgID productID effectiveAt
      [("contract_id"%string, JStr contractID); ("pricing_phase_id"%string, JStr phaseID);
       ("pricing_plan_id"%string, JStr planID); ("contract_kind"%string, JStr "internal");
       ("promotion_percent_off"%string, JInt 100)] "" "");
    mret (finalization, true).

Definition activateInternalPromotionalContract (orgID productID planID contractID phaseID : string)
    (effectiveAt lineActiveFrom : time) : Bx bool :=
  do! policies <- planEntitlementPolicies planID;
  do! result <- WithTx (activatePromotionTx orgID productID planID contractID phaseID policies effectiveAt lineActiveFrom);
  exec! finalizeFreeCycle result.1;
  mret result.2.
End Contracts.
