(* ===== verification/Catalog.v ===== *)
(** * Organisations, plans and promotions

    Models billing/catalog.go (organisations, the plan catalogue, internal
    plan promotions, the list of contracts) and ApplyPendingDueBillingWork of
    billing/cycles.go, which runs the due work of every account. *)

From S2P Require Import Prelude GoFloat GoStd GoTime Json Types Ids Ledger Charges Grants Store Events.
From S2P Require Import LedgerCommands LedgerGrants Cycles Entitlements WindowStore Windows.
From S2P Require Import ContractStore DocumentStore DueChanges Statements Finalizations Contracts.

Record OrgRecord : Type := mkOrgRecord {
  or_OrgID : string;
  or_DisplayName : string;
  or_State : string;
  or_TrustTier : string
}.

Record PlanPromotionRecord : Type := mkPromotion {
  pm_OrgID : string;
  pm_ProductID : string;
  pm_PlanID : string;
  pm_ContractID : string;
  pm_PercentOff : Z;
  pm_Reason : string
}.

Record PlanPromotionCancellationRecord : Type := mkPromotionCancellation {
  pc_OrgID : string;
  pc_ProductID : string;
  pc_ContractID : string;
  pc_CancelAt : option time;
  pc_Reason : string
}.

Definition validateTrustTier (value : string) : res unit :=
  if decide (trim_space value ∈ ["new"; "established"; "enterprise"; "platform"]%string) then Ret tt
  else Err ErrUnsupportedTrustTier.

Definition orgRecordFromFields (orgID displayName state trustTier : string) : OrgRecord :=
  mkOrgRecord orgID displayName state trustTier.

(** ** Statements (store/queries/core.sql, cycles.sql, reads.sql) *)

Definition org_checks (o : orgRow) : bool :=
  bool_decide (o_trust_tier o ∈ ["new"; "established"; "enterprise"; "platform"]%string).

(** orgs_single_platform_trust_tier_idx *)
Definition orgs_conflict (o o' : orgRow) : bool :=
  bool_decide (o_trust_tier o = "platform") && bool_decide (o_trust_tier o' = "platform").

Definition put_org (org : string) (o : orgRow) (d : DB) : res DB :=
  put_row org_checks orgs_conflict set_orgs (db_orgs d) org o d.

Definition UpsertOrgReturning (org displayName trustTier : string) (d : DB) : res (orgRow * DB) :=
  let row := match db_orgs d !! org with
             | None => mkOrgRow displayName "" "active" trustTier "block"
             | Some o => mkOrgRow displayName (o_billing_email o) (o_state o) (o_trust_tier o) (o_overage_policy o)
             end in
  let! d' := put_org org row d in Ret (row, d').

Definition SetOrgTrustTier (org trustTier : string) (d : DB) : res (option orgRow * DB) :=
  match db_orgs d !! org with
  | None => Ret (None, d)
  | Some o =>
      let row := mkOrgRow (o_display_name o) (o_billing_email o) (o_state o) trustTier (o_overage_policy o) in
      let! d' := put_org org row d in Ret (Some row, d')
  end.

Definition ListProductIDs (d : DB) : list string :=
  sort_slice str_ltb (filter (fun kv => pr_active kv.2 = true) (map_to_list (ca_products (db_catalog d)))).*1.

Definition planLess : (string * planRow) -> (string * planRow) -> bool :=
  lex_key Z.eqb Z.ltb (fun kv => pl_monthly_amount_cents kv.2) (on_key str_ltb fst).

Definition ListActivePlans (productID : string) (d : DB) : list (string * planRow) :=
  sort_slice planLess
    (filter (fun kv => pl_product_id kv.2 = productID /\ pl_active kv.2 = true /\ pl_is_default kv.2 = false)
       (map_to_list (ca_plans (db_catalog d)))).

Definition ListContractProductIDs (org : string) (d : DB) : list string :=
  sort_slice str_ltb (remove_dups
    ((fun kv => ct_product_id kv.2) <$> filter (fun kv => ct_org_id kv.2 = org) (map_to_list (contracts_of d)))).

(** DISTINCT ON (contract_id) .. ORDER BY effective_start DESC, phase_id DESC *)
Definition contractPhaseAt (org id : string) (at_ : time) (d : DB) : option (string * phaseRow) :=
  head (sort_slice latestPhaseFirst
    (filter (fun kv => of_contract id org kv.2 = true /\ ph_state kv.2 ∈ [PhActive; PhGrace; PhPendingPayment; PhScheduled]
                       /\ active_at at_ (ph_effective_start kv.2) (ph_effective_end kv.2) = true)
       (map_to_list (phases_of d)))).

(** ORDER BY starts_at DESC, contract_id DESC *)
Definition contractLess : (string * contractRow) -> (string * contractRow) -> bool :=
  fun a b => lex_key Z.eqb Z.ltb (fun kv => ct_starts_at kv.2) (on_key str_ltb fst) b a.

Definition contractRecordOfRow (org : string) (now : time) (d : DB) (kv : string * contractRow) : ContractRecord :=
  let '(id, c) := kv in
  let at_ := default now (business_clock d org (ct_product_id c)) in
  let phase := contractPhaseAt org id at_ d in
  let pending := GetPendingScheduledContractChange id org (ct_product_id c) d in
  mkContractRecord id (ct_product_id c) (default "" ((fun kv => ph_plan_id kv.2) <$> phase)) (default "" (fst <$> phase))
    "anniversary_monthly" (ct_state c) (ct_payment_state c) (ct_entitlement_state c)
    (default "" (fst <$> pending)) (default "" ((fun kv => ch_change_type kv.2) <$> pending))
    (default "" ((fun kv => ch_target_plan_id kv.2) <$> pending))
    ((fun kv => ch_requested_effective_at kv.2) <$> pending) (ct_starts_at c) (ct_ends_at c)
    ((fun kv => ph_effective_start kv.2) <$> phase) (phase ≫= fun kv => ph_effective_end kv.2).

Definition ListContractsForOrg (org : string) (now : time) (d : DB) : list ContractRecord :=
  contractRecordOfRow org now d <$>
    sort_slice contractLess (filter (fun kv => ct_org_id kv.2 = org) (map_to_list (contracts_of d))).

Definition targetLess : (string * string) -> (string * string) -> bool :=
  lex_key str_eqb str_ltb fst (on_key str_ltb snd).

Definition ListPendingDueBillingWorkTargets (limit : Z) (now : time) (d : DB) : list (string * string) :=
  take (Z.to_nat limit) (sort_slice targetLess (remove_dups
    ((fun kv => (cy_org_id kv.2, cy_product_id kv.2)) <$>
       filter (fun kv => cycle_open kv.2 = true /\ cy_ends_at kv.2 <= now) (map_to_list (db_cycles d))))).

Section Catalog.
Context {St : Type} `{Env} `{Digest} `{TBCodec} `{!TigerBeetle St} `{!PeriodWork St}.
#[local] Abbreviation Bx A := (@B St A).

(** ** Organisations *)

Definition ensureOrgTx (orgID displayName trustTier : string) : Bx OrgRecord :=
  let org := orgIDText orgID in
  do! row <- statement (UpsertOrgReturning org (cleanNonEmpty [displayName; "Org " +:+ org]) trustTier);
  do! now <- timeNow;
  exec! appendEvent (mkEvent "billing.organization.ensured" "organization" org org "" now
    [("display_name"%string, JStr (o_display_name row)); ("trust_tier"%string, JStr (o_trust_tier row))] "" "");
  mret (orgRecordFromFields org (o_display_name row) (o_state row) (o_trust_tier row)).

Definition bootstrapProduct (fuel : nat) (orgID productID : string) : Bx unit :=
  exec! EnsureCurrentEntitlements fuel orgID productID;
  do! _ <- EnsureOpenBillingCycle fuel orgID productID;
  mret tt.

Definition EnsureOrgRecord (fuel : nat) (orgID displayName trustTier : string) : Bx OrgRecord :=
  let trustTier := if decide (trustTier = "") then "new"%string else trustTier in
  exec! mlift (validateTrustTier trustTier);
  do! record <- WithTx (ensureOrgTx orgID displayName trustTier);
  do! products <- query ListProductIDs;
  exec! forEach (bootstrapProduct fuel orgID) products;
  mret record.

Definition EnsureOrg (fuel : nat) (orgID displayName trustTier : string) : Bx unit :=
  do! _ <- EnsureOrgRecord fuel orgID displayName trustTier; mret tt.

Definition setTrustTierTx (orgID trustTier : string) : Bx OrgRecord :=
  do! row <- statement (SetOrgTrustTier (orgIDText orgID) trustTier);
  match row with
  | None => mfail ErrOrgNotFound
  | Some o =>
      do! now <- timeNow;
      exec! appendEvent (mkEvent "billing.organization.trust_tier_set" "organization" (orgIDText orgID) (orgIDText orgID) "" now
        [("trust_tier"%string, JStr (o_trust_tier o))] "" "");
      mret (orgRecordFromFields (orgIDText orgID) (o_display_name o) (o_state o) (o_trust_tier o))
  end.

Definition SetOrganizationTrustTier (orgID trustTier : string) : Bx OrgRecord :=
  exec! mlift (validateTrustTier trustTier);
  WithTx (setTrustTierTx orgID trustTier).

(** ** Promotions *)

Definition requireOrg (orgID : string) : Bx unit :=
  do! row <- query (fun d => db_orgs d !! orgIDText orgID);
  match row with Some _ => mret tt | None => mfail ErrOrgNotFound end.

Definition ApplyPlanPromotion (orgID productID planID : string) (percentOff : Z) (reason : string) : Bx PlanPromotionRecord :=
  let productID := trim_space productID in
  let planID := trim_space planID in
  let reason := trim_space reason in
  if decide (productID = "" \/ planID = "" \/ reason = "") then mfail (Errorf "product_id, plan_id, and reason are required")
  else if negb (percentOff =? 100) then mfail ErrUnsupportedChange
  else
    exec! requireOrg orgID;
    do! plan <- loadPlan planID;
    if negb (bool_decide (pn_ProductID plan = productID)) then mfail ErrUnsupportedChange
    else
      do! now <- BusinessNow orgID productID;
      let contract := contractID orgID productID in
      let phase := internalPromotionPhaseID contract planID in
      do! activated <- activateInternalPromotionalContract orgID productID planID contract phase now now;
      let record := mkPromotion orgID productID planID contract percentOff reason in
      if negb activated then mret record
      else
        exec! WithTx (appendEvent (mkEvent "billing.plan_promotion.applied" "contract" contract orgID productID now
          [("contract_id"%string, JStr contract); ("pricing_phase_id"%string, JStr phase);
           ("pricing_plan_id"%string, JStr planID); ("percent_off"%string, JInt percentOff);
           ("reason"%string, JStr reason)] "" ""));
        mret record.

Definition CancelPlanPromotion (fuel : nat) (orgID productID reason : string) : Bx PlanPromotionCancellationRecord :=
  let productID := trim_space productID in
  let reason := trim_space reason in
  if decide (productID = "" \/ reason = "") then mfail (Errorf "product_id and reason are required")
  else
    exec! requireOrg orgID;
    let contract := contractID orgID productID in
    do! kind <- query (GetContractKind contract (orgIDText orgID));
    match kind with
    | None => mfail ErrContractNotFound
    | Some k =>
        if negb (bool_decide (k = "internal")) then mfail ErrUnsupportedChange
        else
          do! canceled <- CancelContract fuel orgID contract;
          let cancelAt := cr_PendingChangeEffectiveAt canceled in
          do! now <- BusinessNow orgID productID;
          exec! WithTx (appendEvent (mkEvent "billing.plan_promotion.canceled" "contract" contract orgID productID now
            ([("contract_id"%string, JStr contract); ("reason"%string, JStr reason)] ++
             match cancelAt with Some t => [("cancel_at"%string, rfc t)] | None => [] end) "" ""));
          mret (mkPromotionCancellation orgID productID contract cancelAt reason)
    end.

(** ** Lists *)

Definition ListPlans (productID : string) : Bx (list PlanRecord) :=
  do! rows <- query (ListActivePlans productID);
  mlift (outcome_map (fun kv => planRecordOfRow kv.1 kv.2) rows).

Definition ListContracts (fuel : nat) (orgID : string) : Bx (list ContractRecord) :=
  do! productIDs <- query (ListContractProductIDs (orgIDText orgID));
  exec! forEach (fun p => do! _ <- ApplyDueBillingWork fuel orgID p; mret tt) productIDs;
  do! now <- pgNow;
  query (ListContractsForOrg (orgIDText orgID) now).

(** ** Due work of every account (cycles.go) *)

Definition applyTarget (fuel : nat) (target : string * string) : Bx unit :=
  do! orgID <- mlift (parseOrgID target.1);
  exec! ApplyDueBillingWork fuel orgID target.2;
  exec! ensureCurrentEntitlements orgID target.2;
  do! _ <- PostPendingGrantDeposits orgID target.2;
  mret tt.

(** The count the code returns next to an error is only logged. *)
Definition ApplyPendingDueBillingWork (fuel : nat) (limit : Z) : Bx Z :=
  let limit := if limit <=? 0 then 100 else limit in
  do! limit32 <- mlift (checkedInt32FromInt limit);
  do! now <- pgNow;
  do! targets <- query (ListPendingDueBillingWorkTargets limit32 now);
  exec! forEach (applyTarget fuel) targets;
  mret (Z.of_nat (length targets)).
End Catalog.
