(* ===== verification/EntitlementsView.v ===== *)
(** * The entitlements view and storage entitlements

    Models billing/entitlements_view.go, the read model of what an
    organisation is entitled to, slot by slot, and
    billing/storage_entitlements.go, the durable storage quota of its plan.

    The Go code fills the slots of one view in place, through pointers into
    its slices; here each step returns the updated view. *)

From S2P Require Import Prelude GoFloat GoStd GoTime Json Types Ids Ledger Charges Grants Store Events.
From S2P Require Import LedgerCommands LedgerGrants Cycles Entitlements WindowStore Windows.
From S2P Require Import ContractStore DocumentStore DueChanges.

(** ** Storage quotas *)

Definition SandboxProductID : string := "sandbox".
Definition durableStorageFreeQuotaBytes : Z := Z.shiftl 20 30.
Definition durableStorageProQuotaBytes : Z := Z.shiftl 200 30.
Definition durableStorageEnterpriseQuotaBytes : Z := Z.shiftl 500 30.

Record StorageEntitlement : Type := mkStorage {
  se_OrgID : string;
  se_ProductID : string;
  se_PlanID : string;
  se_PlanTier : string;
  se_DurableStorageQuotaBytes : Z
}.

Fixpoint firstNonEmptyStoragePlanValue (values : list string) : string :=
  match values with
  | [] => ""
  | value :: values' =>
      let trimmed := trim_space value in
      if decide (trimmed = "") then firstNonEmptyStoragePlanValue values' else trimmed
  end.

Definition durableStorageQuotaBytesForPlan (planID tier : string) : Z :=
  let key := to_lower (trim_space (firstNonEmptyStoragePlanValue [tier; planID])) in
  if decide (key ∈ ["free"; "sandbox-free"; "starter"]%string) then durableStorageFreeQuotaBytes
  else if decide (key ∈ ["pro"; "sandbox-pro"; "sandbox-default"; "default"; "payg"; "metered"]%string)
  then durableStorageProQuotaBytes
  else if decide (key ∈ ["enterprise"; "sandbox-enterprise"]%string) then durableStorageEnterpriseQuotaBytes
  else if contains key "enterprise" then durableStorageEnterpriseQuotaBytes
  else if contains key "pro" || contains key "default" || contains key "payg" || contains key "metered"
  then durableStorageProQuotaBytes
  else durableStorageFreeQuotaBytes.

(** ** The view *)

Record EntitlementSourceTotal : Type := mkSourceTotal {
  st_Source : string;
  st_PlanID : string;
  st_Label : string;
  st_PeriodStartUnits : Z;
  st_AvailableUnits : Z;
  st_PendingUnits : Z;
  st_InlineExpiresAt : option time
}.

Record EntitlementSlot : Type := mkSlot {
  sl_ScopeType : string;
  sl_ProductID : string;
  sl_ProductDisplay : string;
  sl_BucketID : string;
  sl_BucketDisplay : string;
  sl_SKUID : string;
  sl_SKUDisplay : string;
  sl_CoverageLabel : string;
  sl_PeriodStartUnits : Z;
  sl_SpentUnits : Z;
  sl_PendingUnits : Z;
  sl_AvailableUnits : Z;
  sl_Sources : list EntitlementSourceTotal
}.

Record EntitlementBucketSection : Type := mkBucketSection {
  bs_BucketID : string;
  bs_DisplayName : string;
  bs_BucketSlot : option EntitlementSlot;
  bs_SKUSlots : list EntitlementSlot
}.

Record EntitlementProductSection : Type := mkProductSection {
  ps_ProductID : string;
  ps_DisplayName : string;
  ps_ProductSlot : option EntitlementSlot;
  ps_Buckets : list EntitlementBucketSection
}.

Record EntitlementsView : Type := mkView {
  ev_DurableStorageQuotaBytes : Z;
  ev_OrgID : string;
  ev_Universal : EntitlementSlot;
  ev_Products : list EntitlementProductSection
}.

Record entitlementCatalogSKU : Type := mkCatalogSKU {
  ks_SKUID : string;
  ks_DisplayName : string
}.

Record entitlementCatalogBucket : Type := mkCatalogBucket {
  kb_BucketID : string;
  kb_DisplayName : string;
  kb_SortOrder : Z;
  kb_SKUs : list entitlementCatalogSKU
}.

Record entitlementCatalogProduct : Type := mkCatalogProduct {
  kp_ProductID : string;
  kp_DisplayName : string;
  kp_Buckets : list entitlementCatalogBucket
}.

Abbreviation entitlementCatalog := (list entitlementCatalogProduct).

(** *** The catalogue (store/queries/reads.sql) *)

(** A row of ListEntitlementCatalogRows: the product, and the SKU with its
    bucket when the product has an active SKU. *)
Record catalogRow : Type := mkCatalogRow {
  kr_product_id : string;
  kr_product_display_name : string;
  kr_sku : option (string * string * Z * string * string)
}.

Definition catalogRowsOfProduct (d : DB) (kv : string * productRow) : list catalogRow :=
  let skus := filter (fun s => s_product_id s.2 = kv.1 /\ s_active s.2 = true) (map_to_list (ca_skus (db_catalog d))) in
  let joined := omap (fun s =>
    match ca_buckets (db_catalog d) !! s_bucket_id s.2 with
    | Some b => Some (s_bucket_id s.2, b_display_name b, b_sort_order b, s.1, s_display_name s.2)
    | None => None
    end) skus in
  match joined with
  | [] => [mkCatalogRow kv.1 (pr_display_name kv.2) None]
  | _ => (fun s => mkCatalogRow kv.1 (pr_display_name kv.2) (Some s)) <$> joined
  end.

Definition catalogOrder (r : catalogRow) : Z := match kr_sku r with Some (_, _, order, _, _) => order | None => 0 end.
Definition catalogBucketKey (r : catalogRow) : string := match kr_sku r with Some (b, _, _, _, _) => b | None => "" end.
Definition catalogSKUName (r : catalogRow) : string := match kr_sku r with Some (_, _, _, _, n) => n | None => "" end.
Definition catalogSKUKey (r : catalogRow) : string := match kr_sku r with Some (_, _, _, s, _) => s | None => "" end.

Definition catalogRowLess : catalogRow -> catalogRow -> bool :=
  lex_key str_eqb str_ltb kr_product_display_name (lex_key str_eqb str_ltb kr_product_id
    (lex_key Z.eqb Z.ltb catalogOrder (lex_key str_eqb str_ltb catalogBucketKey
      (lex_key str_eqb str_ltb catalogSKUName (on_key str_ltb catalogSKUKey))))).

Definition ListEntitlementCatalogRows (d : DB) : list catalogRow :=
  sort_slice catalogRowLess
    (filter (fun kv => pr_active kv.2 = true) (map_to_list (ca_products (db_catalog d))) ≫= catalogRowsOfProduct d).

(** Update the element [key] selects, appended by [new] when there is none:
    what the code does through its index maps. *)
Fixpoint upsertBy {A} (key : A -> string) (id : string) (new : A) (f : A -> A) (l : list A) : list A :=
  match l with
  | [] => [f new]
  | x :: l' => if decide (key x = id) then f x :: l' else x :: upsertBy key id new f l'
  end.

Definition addCatalogSKU (sku : entitlementCatalogSKU) (b : entitlementCatalogBucket) : entitlementCatalogBucket :=
  mkCatalogBucket (kb_BucketID b) (kb_DisplayName b) (kb_SortOrder b) (kb_SKUs b ++ [sku]).

Definition addCatalogRow (r : catalogRow) (p : entitlementCatalogProduct) : entitlementCatalogProduct :=
  match kr_sku r with
  | None => p
  | Some (bucketID, bucketName, order, skuID, skuName) =>
      mkCatalogProduct (kp_ProductID p) (kp_DisplayName p)
        (upsertBy kb_BucketID bucketID (mkCatalogBucket bucketID bucketName order [])
           (addCatalogSKU (mkCatalogSKU skuID skuName)) (kp_Buckets p))
  end.

Definition catalogOfRows (rows : list catalogRow) : entitlementCatalog :=
  foldl (fun ps r => upsertBy kp_ProductID (kr_product_id r)
                       (mkCatalogProduct (kr_product_id r) (kr_product_display_name r) []) (addCatalogRow r) ps) [] rows.

(** *** Slots *)

Definition entitlementSourceLabel (source planDisplay : string) : string :=
  if decide (source = "contract" /\ planDisplay <> "") then planDisplay
  else if decide (source = "free_tier") then "Free tier"
  else if decide (source = "contract") then "Subscription"
  else if decide (source = "purchase") then "Purchased credits"
  else if decide (source = "promo") then "Promo credits"
  else if decide (source = "refund") then "Refund credits"
  else source.

Definition earlierExpiry (grant : GrantBalance) (periodStart : Z) (inline : option time) : option time :=
  match gb_ExpiresAt grant with
  | Some e => if (periodStart =? 0) && match inline with None => true | Some i => e <? i end then Some e else inline
  | None => inline
  end.

Definition addToSource (grant : GrantBalance) (periodStart : Z) (s : EntitlementSourceTotal) : EntitlementSourceTotal :=
  mkSourceTotal (st_Source s) (st_PlanID s) (st_Label s) (u64_add (st_PeriodStartUnits s) periodStart)
    (u64_add (st_AvailableUnits s) (gb_Available grant)) (u64_add (st_PendingUnits s) (gb_Pending grant))
    (earlierExpiry grant periodStart (st_InlineExpiresAt s)).

Definition newSourceTotal (grant : GrantBalance) (periodStart : Z) : EntitlementSourceTotal :=
  mkSourceTotal (gb_Source grant) (gb_PlanID grant) (entitlementSourceLabel (gb_Source grant) (gb_PlanDisplayName grant))
    periodStart (gb_Available grant) (gb_Pending grant) (earlierExpiry grant periodStart None).

Fixpoint addSourceTotal (grant : GrantBalance) (periodStart : Z) (sources : list EntitlementSourceTotal)
    : list EntitlementSourceTotal :=
  match sources with
  | [] => [newSourceTotal grant periodStart]
  | s :: sources' =>
      if decide (st_Source s = gb_Source grant /\ st_PlanID s = gb_PlanID grant)
      then addToSource grant periodStart s :: sources'
      else s :: addSourceTotal grant periodStart sources'
  end.

Definition with_totals (s : EntitlementSlot) (periodStart spent pending available : Z) (sources : list EntitlementSourceTotal)
    : EntitlementSlot :=
  mkSlot (sl_ScopeType s) (sl_ProductID s) (sl_ProductDisplay s) (sl_BucketID s) (sl_BucketDisplay s) (sl_SKUID s)
    (sl_SKUDisplay s) (sl_CoverageLabel s) periodStart spent pending available sources.

(** add := func(slot *EntitlementSlot) *)
Definition addToSlot (grant : GrantBalance) (periodStart : Z) (s : EntitlementSlot) : EntitlementSlot :=
  with_totals s (u64_add (sl_PeriodStartUnits s) periodStart) (u64_add (sl_SpentUnits s) (gb_Spent grant))
    (u64_add (sl_PendingUnits s) (gb_Pending grant)) (u64_add (sl_AvailableUnits s) (gb_Available grant))
    (addSourceTotal grant periodStart (sl_Sources s)).

Definition emptySlot (scopeType productID productDisplay bucketID bucketDisplay skuID skuDisplay label : string) : EntitlementSlot :=
  mkSlot scopeType productID productDisplay bucketID bucketDisplay skuID skuDisplay label 0 0 0 0 [].

Definition skuSlotOf (p : entitlementCatalogProduct) (b : entitlementCatalogBucket) (s : entitlementCatalogSKU) : EntitlementSlot :=
  emptySlot "sku" (kp_ProductID p) (kp_DisplayName p) (kb_BucketID b) (kb_DisplayName b) (ks_SKUID s) (ks_DisplayName s)
    (ks_DisplayName s).

Definition bucketSectionOf (p : entitlementCatalogProduct) (b : entitlementCatalogBucket) : EntitlementBucketSection :=
  mkBucketSection (kb_BucketID b) (kb_DisplayName b) None (skuSlotOf p b <$> kb_SKUs b).

Definition productSectionOf (p : entitlementCatalogProduct) : EntitlementProductSection :=
  mkProductSection (kp_ProductID p) (kp_DisplayName p) None (bucketSectionOf p <$> kp_Buckets p).

(** productIndex and bucketIndex: the last section with an id. *)
Fixpoint index_from {A} (key : A -> string) (i : nat) (l : list A) (m : gmap string nat) : gmap string nat :=
  match l with
  | [] => m
  | x :: l' => index_from key (S i) l' (<[key x := i]> m)
  end.

Definition index_of {A} (key : A -> string) (l : list A) : gmap string nat := index_from key 0 l ∅.

Definition grantBusinessNow (defaultNow : time) (nowByProduct : gmap string time) (grant : GrantBalance) : time :=
  if decide (gb_ScopeProductID grant = "") then defaultNow
  else default defaultNow (nowByProduct !! gb_ScopeProductID grant).

Definition periodStartUnits (now : time) (grant : GrantBalance) : Z :=
  match gb_PeriodStart grant, gb_PeriodEnd grant with
  | Some s, Some e => if negb (now <? s) && (now <? e) then gb_OriginalAmount grant else 0
  | _, _ => 0
  end.

(** The first SKU slot with the id. *)
Fixpoint addToSKU (grant : GrantBalance) (periodStart : Z) (slots : list EntitlementSlot) : list EntitlementSlot :=
  match slots with
  | [] => []
  | s :: slots' => if decide (sl_SKUID s = gb_ScopeSKUID grant) then addToSlot grant periodStart s :: slots'
                   else s :: addToSKU grant periodStart slots'
  end.

Definition addToProduct (grant : GrantBalance) (periodStart : Z) (p : EntitlementProductSection) : EntitlementProductSection :=
  let slot := default (emptySlot "product" (gb_ScopeProductID grant) (ps_DisplayName p) "" "" "" "" (ps_DisplayName p))
                (ps_ProductSlot p) in
  mkProductSection (ps_ProductID p) (ps_DisplayName p) (Some (addToSlot grant periodStart slot)) (ps_Buckets p).

Definition addToBucket (grant : GrantBalance) (periodStart : Z) (productDisplay : string) (b : EntitlementBucketSection)
    : EntitlementBucketSection :=
  let slot := default (emptySlot "bucket" (gb_ScopeProductID grant) productDisplay (gb_ScopeBucketID grant) (bs_DisplayName b)
                         "" "" (bs_DisplayName b)) (bs_BucketSlot b) in
  mkBucketSection (bs_BucketID b) (bs_DisplayName b) (Some (addToSlot grant periodStart slot)) (bs_SKUSlots b).

Definition addToBucketSKU (grant : GrantBalance) (periodStart : Z) (b : EntitlementBucketSection) : EntitlementBucketSection :=
  mkBucketSection (bs_BucketID b) (bs_DisplayName b) (bs_BucketSlot b) (addToSKU grant periodStart (bs_SKUSlots b)).

Definition alterBucket (f : EntitlementProductSection -> EntitlementBucketSection -> EntitlementBucketSection)
    (bucketID : string) (p : EntitlementProductSection) : EntitlementProductSection :=
  match index_of bs_BucketID (ps_Buckets p) !! bucketID with
  | Some bi => mkProductSection (ps_ProductID p) (ps_DisplayName p) (ps_ProductSlot p) (alter (f p) bi (ps_Buckets p))
  | None => p
  end.

Definition addToSection (grant : GrantBalance) (periodStart : Z) (p : EntitlementProductSection) : EntitlementProductSection :=
  if decide (gb_ScopeType grant = "product") then addToProduct grant periodStart p
  else if decide (gb_ScopeType grant = "bucket")
  then alterBucket (fun p => addToBucket grant periodStart (ps_DisplayName p)) (gb_ScopeBucketID grant) p
  else alterBucket (fun _ => addToBucketSKU grant periodStart) (gb_ScopeBucketID grant) p.

(** The body of the loop over the grants. *)
Definition addGrant (defaultNow : time) (nowByProduct : gmap string time) (view : EntitlementsView) (grant : GrantBalance)
    : EntitlementsView :=
  let periodStart := periodStartUnits (grantBusinessNow defaultNow nowByProduct grant) grant in
  if decide (gb_ScopeType grant = "account")
  then mkView (ev_DurableStorageQuotaBytes view) (ev_OrgID view) (addToSlot grant periodStart (ev_Universal view)) (ev_Products view)
  else if decide (gb_ScopeType grant ∈ ["product"; "bucket"; "sku"]%string) then
    match index_of ps_ProductID (ev_Products view) !! gb_ScopeProductID grant with
    | Some pi => mkView (ev_DurableStorageQuotaBytes view) (ev_OrgID view) (ev_Universal view)
                   (alter (addToSection grant periodStart) pi (ev_Products view))
    | None => view
    end
  else view.

Definition sourceTotalLess : EntitlementSourceTotal -> EntitlementSourceTotal -> bool :=
  lex_key Z.eqb Z.ltb (fun s => sourcePriority (st_Source s)) (on_key str_ltb st_PlanID).

Definition sortEntitlementSources (s : EntitlementSlot) : EntitlementSlot :=
  with_totals s (sl_PeriodStartUnits s) (sl_SpentUnits s) (sl_PendingUnits s) (sl_AvailableUnits s)
    (sort_slice sourceTotalLess (sl_Sources s)).

Definition sortBucketSection (b : EntitlementBucketSection) : EntitlementBucketSection :=
  mkBucketSection (bs_BucketID b) (bs_DisplayName b) (sortEntitlementSources <$> bs_BucketSlot b)
    (sortEntitlementSources <$> bs_SKUSlots b).

Definition sortProductSection (p : EntitlementProductSection) : EntitlementProductSection :=
  mkProductSection (ps_ProductID p) (ps_DisplayName p) (sortEntitlementSources <$> ps_ProductSlot p)
    (sortBucketSection <$> ps_Buckets p).

Definition sortView (v : EntitlementsView) : EntitlementsView :=
  mkView (ev_DurableStorageQuotaBytes v) (ev_OrgID v) (sortEntitlementSources (ev_Universal v)) (sortProductSection <$> ev_Products v).

Definition initialView (orgID : string) (catalog : entitlementCatalog) : EntitlementsView :=
  mkView 0 orgID (emptySlot "account" "" "" "" "" "" "" "All products") (productSectionOf <$> catalog).

Definition buildEntitlementsView (orgID : string) (defaultNow : time) (nowByProduct : gmap string time)
    (catalog : entitlementCatalog) (grants : list GrantBalance) : EntitlementsView :=
  sortView (foldl (addGrant defaultNow nowByProduct) (initialView orgID catalog) grants).

Definition viewGrantLess : GrantBalance -> GrantBalance -> bool :=
  lex_key Z.eqb Z.ltb gb_StartsAt (on_key str_ltb gb_GrantID).

Section View.
Context {St : Type} `{Env} `{Digest} `{HC : TBCodec} `{!TigerBeetle St} `{!PeriodWork St}.
#[local] Abbreviation Bx A := (@B St A).

Definition loadEntitlementCatalog : Bx entitlementCatalog :=
  do! rows <- query ListEntitlementCatalogRows;
  mret (catalogOfRows rows).

Definition GetStorageEntitlement (fuel : nat) (orgID productID : string) : Bx StorageEntitlement :=
  let productID := trim_space productID in
  let productID := if decide (productID = "") then SandboxProductID else productID in
  exec! ApplyDueBillingWork fuel orgID productID;
  do! now <- BusinessNow orgID productID;
  do! pricing <- queryAt now (LoadPricingContext (orgIDText orgID) productID);
  match pricing with
  | None => mfail (Errorf "no rows in result set")
  | Some (planID, _, _, _, _) =>
      do! plan <- loadPlan planID;
      mret (mkStorage orgID productID (pn_PlanID plan) (firstNonEmptyStoragePlanValue [pn_Tier plan; pn_PlanID plan])
              (durableStorageQuotaBytesForPlan (pn_PlanID plan) (pn_Tier plan)))
  end.

(** The loop over the products: business times and balances by grant id. *)
Fixpoint viewGrants (fuel : nat) (orgID : string) (catalog : entitlementCatalog) (nows : gmap string time)
    (grants : gmap string GrantBalance) : Bx (gmap string time * gmap string GrantBalance) :=
  match catalog with
  | [] => mret (nows, grants)
  | p :: catalog' =>
      do! now <- BusinessNow orgID (kp_ProductID p);
      do! balances <- ListGrantBalances fuel orgID (kp_ProductID p);
      viewGrants fuel orgID catalog' (<[kp_ProductID p := now]> nows)
        (foldl (fun m g => <[gb_GrantID g := g]> m) grants balances)
  end.

Definition with_quota (quota : Z) (v : EntitlementsView) : EntitlementsView :=
  mkView quota (ev_OrgID v) (ev_Universal v) (ev_Products v).

Definition ListEntitlementsView (fuel : nat) (orgID : string) : Bx EntitlementsView :=
  do! catalog <- loadEntitlementCatalog;
  exec! forEach (fun p => EnsureCurrentEntitlements fuel orgID (kp_ProductID p)) catalog;
  do! loaded <- viewGrants fuel orgID catalog ∅ ∅;
  let grants := sort_slice viewGrantLess (map_to_list loaded.2).*2 in
  do! defaultNow <- BusinessNow orgID "";
  let view := buildEntitlementsView orgID defaultNow loaded.1 catalog grants in
  do! storage <- GetStorageEntitlement fuel orgID SandboxProductID;
  mret (with_quota (se_DurableStorageQuotaBytes storage) view).
End View.
