(* ===== verification/Clock.v ===== *)
(** * The business clock

    Models billing/clock.go with store/queries/clock.sql: reading, setting,
    advancing and clearing the business clock of an organisation and product,
    and the reset to the wall clock, which repairs cycles, entitlements and
    windows around the current time.

    The wall clock is never Go's zero time, so the timestamps the reset passes
    to its statements are not NULL.  PostgreSQL does not say in which order
    UPDATE .. RETURNING lists the rows; here it is the order of the table. *)

From S2P Require Import Prelude GoFloat GoStd GoTime Json Types StripeApi Ids Ledger Charges Grants Store Events.
From S2P Require Import LedgerCommands LedgerGrants Cycles Entitlements WindowStore Windows.
From S2P Require Import ContractStore DocumentStore DueChanges.

(** types.go *)
Record BusinessClockRepairSummary : Type := mkRepair {
  rp_PreviousBusinessNow : option time;
  rp_VoidedCycleIDs : list string;
  rp_ClosedGrantIDs : list string;
  rp_ReassignedWindowIDs : list string;
  rp_CurrentCycleID : string
}.

Definition noRepair : BusinessClockRepairSummary := mkRepair None [] [] [] "".

Record BusinessClockState : Type := mkClockState {
  bk_OrgID : string;
  bk_ProductID : string;
  bk_ScopeKind : string;
  bk_ScopeID : string;
  bk_BusinessNow : time;
  bk_HasOverride : bool;
  bk_Generation : Z;
  (** DueWork, with its EntitlementsEnsured *)
  bk_DueWork : DueWorkSummary;
  bk_EntitlementsEnsured : Z;
  bk_Repair : BusinessClockRepairSummary
}.

Definition orgProductClockScope (orgID productID : string) : string * string :=
  ("org_product"%string, orgIDText orgID +:+ ":" +:+ productID).

(** ** Statements (store/queries/clock.sql) *)

Definition GetBusinessClockOverride (scope : string * string) (d : DB) : option clockRow := db_clock d !! scope.

Definition LockBusinessClockOverride (scope : string * string) (d : DB) : option time := clk_business_now <$> db_clock d !! scope.

(** Returns the new generation. *)
Definition UpsertBusinessClockOverride (scope : string * string) (businessNow : option time) (d : DB) : res (Z * DB) :=
  let! now := not_null businessNow in
  let generation := match db_clock d !! scope with Some r => clk_generation r + 1 | None => 1 end in
  if i64_max <? generation then errorf "bigint out of range"
  else
    let! _ := check_constraint ((0 <? generation) && negb (bool_decide (scope.2 = ""))) in
    Ret (generation, set_clock (<[scope := mkClockRow now generation]> (db_clock d)) d).

Definition DeleteBusinessClockOverride (scope : string * string) (d : DB) : res (unit * DB) :=
  Ret (tt, set_clock (delete scope (db_clock d)) d).

(** UPDATE .. WHERE, on rows whose constraints do not mention what is set. *)
Definition update_where {A} (where_ : A -> bool) (f : A -> A) (m : gmap string A) : gmap string A :=
  (fun x => if where_ x then f x else x) <$> m.

Definition coversWallClock (now : time) (p : phaseRow) : bool :=
  (ph_effective_start p <=? now) && after_opt now (ph_effective_end p).

(** ORDER BY CASE .., effective_start DESC, phase_id DESC *)
Definition resetPhaseLess (now : time) : (string * phaseRow) -> (string * phaseRow) -> bool :=
  lex_key Z.eqb Z.ltb (fun kv => if coversWallClock now kv.2 then 0 else 1) latestPhaseFirst.

Definition resetPhase (org productID : string) (d : DB) (p : phaseRow) : bool :=
  phase_current p
  && match contracts_of d !! ph_contract_id p with
     | Some c => bool_decide (ct_org_id c = org) && bool_decide (ct_product_id c = productID)
                 && bool_decide (ct_state c ∈ [KActive; KPastDue; KCancelScheduled])
     | None => false
     end.

(** The phase, and when its contract started. *)
Definition GetActivePaidPhaseForWallClockReset (org productID : string) (now : time) (d : DB)
    : option (string * phaseRow * time) :=
  match head (sort_slice (resetPhaseLess now)
          (filter (fun kv => resetPhase org productID d kv.2 = true) (map_to_list (phases_of d)))) with
  | Some (id, p) =>
      match contracts_of d !! ph_contract_id p with
      | Some c => Some (id, p, ct_starts_at c)
      | None => None
      end
  | None => None
  end.

Definition ShiftActiveContractToWallClock (id : string) (now : time) (d : DB) : res (unit * DB) :=
  exec_rows (update_row contracts_of put_contract id (fun _ => true)
    (fun c => mkContractRow (ct_org_id c) (ct_product_id c) (ct_display_name c) (ct_contract_kind c) (ct_state c)
                (ct_payment_state c) (ct_entitlement_state c) (ct_overage_policy c) (Z.min (ct_starts_at c) now)
                (ct_ends_at c) (ct_cancel_at c) (ct_closed_at c)) d).

Definition ShiftActiveContractPhaseToWallClock (id : string) (now : time) (d : DB) : res (unit * DB) :=
  exec_rows (update_row phases_of put_phase id (fun _ => true)
    (fun p => mkPhaseRow (ph_contract_id p) (ph_org_id p) (ph_product_id p) (ph_plan_id p) (ph_phase_kind p) (ph_state p)
                (ph_payment_state p) (ph_entitlement_state p) (ph_currency p) (ph_recurring_amount_units p)
                (Z.min (ph_effective_start p) now)
                (match ph_effective_end p with Some e => if e <=? now then None else Some e | None => None end)
                (coalesce (ph_activated_at p) (Some now)) (ph_closed_at p) (ph_superseded_by_phase_id p)) d).

Definition resetCycle (org productID : string) (startsAt endsAt : time) (c : cycleRow) : bool :=
  bool_decide (cy_org_id c = org) && bool_decide (cy_product_id c = productID) && negb (cycle_voided c)
  && (cycle_open c || (cy_starts_at c <? endsAt) && (startsAt <? cy_ends_at c)).

Definition voidedCycle (now : time) (c : cycleRow) : cycleRow :=
  mkCycleRow (cy_org_id c) (cy_product_id c) (cy_currency c) (cy_predecessor_cycle_id c) (cy_anchor_at c)
    (cy_cycle_seq c) (cy_cadence_kind c) (cy_starts_at c) (cy_ends_at c) CyVoided (cy_finalization_due_at c)
    (cy_active_finalization_id c) (cy_successor_cycle_id c)
    (if decide (cy_closed_reason c = "") then "wall_clock_reset" else cy_closed_reason c)
    (cy_closed_for_usage_at c) (coalesce (cy_finalized_at c) (Some now)).

Definition VoidCyclesForWallClockReset (org productID : string) (startsAt endsAt now : time) (d : DB) : res (list string * DB) :=
  let where_ := resetCycle org productID startsAt endsAt in
  Ret (rows_where where_ (db_cycles d), set_cycles (update_where where_ (voidedCycle now) (db_cycles d)) d).

Definition recurring_source (source : string) : bool := bool_decide (source ∈ ["free_tier"; "contract"]%string).

(** NOT (period_start = starts_at AND period_end = ends_at), when it is true *)
Definition other_period (startsAt endsAt : time) (start end_ : option time) : bool :=
  match start, end_ with
  | Some s, Some e => negb ((s =? startsAt) && (e =? endsAt))
  | Some s, None => negb (s =? startsAt)
  | None, Some e => negb (e =? endsAt)
  | None, None => false
  end.

(** scope_product_id = product OR entitlement_period_id IN (SELECT ..) *)
Definition grant_of_product (org productID : string) (d : DB) (g : grantRow) : bool :=
  bool_decide (g_scope_product_id g = productID)
  || match db_periods d !! g_entitlement_period_id g with
     | Some p => bool_decide (p_org_id p = org) && bool_decide (p_product_id p = productID)
     | None => false
     end.

Definition with_closed (closedAt : option time) (reason : string) (g : grantRow) : grantRow :=
  mkGrantRow (g_org_id g) (g_scope_type g) (g_scope_product_id g) (g_scope_bucket_id g) (g_scope_sku_id g) (g_amount g)
    (g_source g) (g_source_reference_id g) (g_entitlement_period_id g) (g_policy_version g) (g_starts_at g)
    (g_period_start g) (g_period_end g) (g_expires_at g) closedAt reason (g_account_id g) (g_deposit_transfer_id g)
    (g_ledger_posting_state g) (g_ledger_posted_at g) (g_ledger_last_error g).

Definition closableGrant (org productID : string) (startsAt endsAt : time) (d : DB) (g : grantRow) : bool :=
  bool_decide (g_org_id g = org) && is_none (g_closed_at g) && recurring_source (g_source g)
  && grant_of_product org productID d g && other_period startsAt endsAt (g_period_start g) (g_period_end g).

Definition CloseCurrentEntitlementGrantsForWallClockReset (org productID : string) (startsAt endsAt now : time) (d : DB)
    : res (list string * DB) :=
  let where_ := closableGrant org productID startsAt endsAt d in
  Ret (rows_where where_ (db_grants d),
       set_grants (update_where where_ (with_closed (Some now) "wall_clock_reset") (db_grants d)) d).

Definition with_entitlement (state voidedBy : string) (p : periodRow) : periodRow :=
  mkPeriodRow (p_org_id p) (p_product_id p) (p_cycle_id p) (p_source p) (p_policy_id p) (p_contract_id p) (p_phase_id p)
    (p_line_id p) (p_scope_type p) (p_scope_product_id p) (p_scope_bucket_id p) (p_scope_sku_id p) (p_amount_units p)
    (p_period_start p) (p_period_end p) (p_policy_version p) (p_payment_state p) state (p_calculation_kind p)
    (p_source_reference_id p) voidedBy.

Definition same_period (startsAt endsAt start end_ : time) : bool := (start =? startsAt) && (end_ =? endsAt).

Definition voidablePeriod (org productID : string) (startsAt endsAt : time) (p : periodRow) : bool :=
  bool_decide (p_org_id p = org) && bool_decide (p_product_id p = productID) && recurring_source (p_source p)
  && bool_decide (p_entitlement_state p ∈ ["scheduled"; "active"; "grace"]%string)
  && negb (same_period startsAt endsAt (p_period_start p) (p_period_end p)).

Definition VoidCurrentEntitlementPeriodsForWallClockReset (org productID : string) (startsAt endsAt : time) (d : DB)
    : res (unit * DB) :=
  Ret (tt, set_periods (update_where (voidablePeriod org productID startsAt endsAt)
                          (with_entitlement "voided" "billing-wall-clock") (db_periods d)) d).

Definition reopenablePeriod (org productID : string) (startsAt endsAt : time) (p : periodRow) : bool :=
  bool_decide (p_org_id p = org) && bool_decide (p_product_id p = productID) && recurring_source (p_source p)
  && same_period startsAt endsAt (p_period_start p) (p_period_end p)
  && bool_decide (p_entitlement_state p = "voided") && bool_decide (p_voided_by p = "billing-wall-clock").

Definition ReopenWallClockTargetEntitlementPeriods (org productID : string) (startsAt endsAt : time) (d : DB) : res (unit * DB) :=
  Ret (tt, set_periods (update_where (reopenablePeriod org productID startsAt endsAt) (with_entitlement "active" "") (db_periods d)) d).

Definition reopenableGrant (org productID : string) (startsAt endsAt : time) (d : DB) (g : grantRow) : bool :=
  bool_decide (g_org_id g = org) && recurring_source (g_source g)
  && match g_period_start g, g_period_end g with Some s, Some e => same_period startsAt endsAt s e | _, _ => false end
  && bool_decide (g_closed_reason g = "wall_clock_reset") && grant_of_product org productID d g.

Definition ReopenWallClockTargetCreditGrants (org productID : string) (startsAt endsAt : time) (d : DB) : res (unit * DB) :=
  Ret (tt, set_grants (update_where (reopenableGrant org productID startsAt endsAt d) (with_closed None "") (db_grants d)) d).

Definition with_cycle (cycleID : string) (w : windowRow) : windowRow :=
  mkWindowRow cycleID (w_org_id w) (w_actor_id w) (w_product_id w) (w_pricing_contract_id w) (w_pricing_phase_id w)
    (w_pricing_plan_id w) (w_source_type w) (w_source_ref w) (w_source_fingerprint w) (w_billing_job_id w) (w_window_seq w)
    (w_state w) (w_reservation_shape w) (w_reserved_quantity w) (w_actual_quantity w) (w_billable_quantity w)
    (w_writeoff_quantity w) (w_reserved_charge_units w) (w_billed_charge_units w) (w_writeoff_charge_units w)
    (w_writeoff_reason w) (w_pricing_phase w) (w_allocation w) (w_rate_context w) (w_usage_summary w) (w_funding_legs w)
    (w_ledger_correlation_id w) (w_window_start w) (w_activated_at w) (w_expires_at w) (w_renew_by w) (w_settled_at w)
    (w_metering_projected_at w) (w_last_projection_error w) (w_created_at w).

Definition reassignableWindow (org productID cycleID : string) (startsAt endsAt : time) (w : windowRow) : bool :=
  bool_decide (w_org_id w = org) && bool_decide (w_product_id w = productID)
  && negb (bool_decide (w_state w = WVoided))
  && (startsAt <=? w_window_start w) && (w_window_start w <? endsAt) && negb (bool_decide (w_cycle_id w = cycleID)).

Definition ReassignWallClockWindows (org productID cycleID : string) (startsAt endsAt : time) (d : DB) : res (list string * DB) :=
  let where_ := reassignableWindow org productID cycleID startsAt endsAt in
  Ret (rows_where where_ (db_windows d), set_windows (update_where where_ (with_cycle cycleID) (db_windows d)) d).

(** ** Handlers *)

Record wallClockPaidPhase : Type := mkPaidPhase {
  wp_ok : bool;
  wp_contractID : string;
  wp_phaseID : string;
  wp_planID : string;
  wp_anchorAt : time
}.

Section Clock.
Context {St : Type} `{Env} `{Digest} `{HC : TBCodec} `{!TigerBeetle St} `{!PeriodWork St}.
#[local] Abbreviation Bx A := (@B St A).

Definition GetBusinessClock (orgID productID : string) : Bx BusinessClockState :=
  if decide (productID = "") then mfail (Errorf "product_id is required")
  else
    let scope := orgProductClockScope orgID productID in
    do! businessNow <- BusinessNow orgID productID;
    do! row <- query (GetBusinessClockOverride scope);
    match row with
    | None => mret (mkClockState orgID productID scope.1 scope.2 businessNow false 0 (mkDueWork 0 0) 0 noRepair)
    | Some r =>
        do! generation <- mlift (checkedUint64FromInt64 (clk_generation r));
        mret (mkClockState orgID productID scope.1 scope.2 (clk_business_now r) true generation (mkDueWork 0 0) 0 noRepair)
    end.

Definition with_due_work (due : DueWorkSummary) (ensured : Z) (s : BusinessClockState) : BusinessClockState :=
  mkClockState (bk_OrgID s) (bk_ProductID s) (bk_ScopeKind s) (bk_ScopeID s) (bk_BusinessNow s) (bk_HasOverride s)
    (bk_Generation s) due ensured (bk_Repair s).

(** Its callers pass an empty summary. *)
Definition reconcileClockTarget (fuel : nat) (orgID productID : string) : Bx BusinessClockState :=
  do! due <- ApplyDueBillingWork fuel orgID productID;
  exec! ensureCurrentEntitlements orgID productID;
  exec! PostPendingGrantDeposits orgID productID;
  do! state <- GetBusinessClock orgID productID;
  mret (with_due_work due 1 state).

Definition clockEvent (kind : string) (scope : string * string) (orgID productID : string) (at_ : time)
    (payload : list (string * jval)) : eventFact :=
  mkEvent kind "billing_clock" scope.2 orgID productID at_
    ([("scope_kind"%string, JStr scope.1); ("scope_id"%string, JStr scope.2)] ++ payload) "" "".

Definition setClockTx (orgID productID : string) (businessNow : time) (reason : string) : Bx unit :=
  let scope := orgProductClockScope orgID productID in
  do! generation <- statement (UpsertBusinessClockOverride scope (timestamptz businessNow));
  do! now <- timeNow;
  appendEvent (clockEvent "billing_clock_set" scope orgID productID now
    [("business_now"%string, rfc businessNow); ("generation"%string, JInt generation); ("reason"%string, JStr reason)]).

Definition SetBusinessClock (fuel : nat) (orgID productID : string) (businessNow : time) (reason : string) : Bx BusinessClockState :=
  if is_zero businessNow then mfail (Errorf "business_now is required")
  else if decide (productID = "") then mfail (Errorf "product_id is required")
  else
    exec! WithTx (setClockTx orgID productID businessNow reason);
    reconcileClockTarget fuel orgID productID.

(** [delta] is a time.Duration. *)
Definition advanceClockTx (orgID productID : string) (delta : Z) (reason : string) : Bx unit :=
  let scope := orgProductClockScope orgID productID in
  do! base <- BusinessNow orgID productID;
  do! locked <- query (LockBusinessClockOverride scope);
  let businessNow := default base locked + delta in
  do! generation <- statement (UpsertBusinessClockOverride scope (timestamptz businessNow));
  do! now <- timeNow;
  appendEvent (clockEvent "billing_clock_advanced" scope orgID productID now
    [("business_now"%string, rfc businessNow); ("advance_seconds"%string, JInt (Z.quot delta second));
     ("generation"%string, JInt generation); ("reason"%string, JStr reason)]).

Definition AdvanceBusinessClock (fuel : nat) (orgID productID : string) (delta : Z) (reason : string) : Bx BusinessClockState :=
  if delta <=? 0 then mfail (Errorf "advance duration must be positive")
  else if decide (productID = "") then mfail (Errorf "product_id is required")
  else
    exec! WithTx (advanceClockTx orgID productID delta reason);
    reconcileClockTarget fuel orgID productID.

Definition clearClockTx (orgID productID reason : string) : Bx unit :=
  let scope := orgProductClockScope orgID productID in
  exec! statement (DeleteBusinessClockOverride scope);
  do! now <- timeNow;
  appendEvent (clockEvent "billing_clock_cleared" scope orgID productID now [("reason"%string, JStr reason)]).

Definition ClearBusinessClock (fuel : nat) (orgID productID reason : string) : Bx BusinessClockState :=
  if decide (productID = "") then mfail (Errorf "product_id is required")
  else
    exec! WithTx (clearClockTx orgID productID reason);
    reconcileClockTarget fuel orgID productID.

(** ** The reset to the wall clock *)

Definition activePaidPhaseForWallClockResetTx (orgID productID : string) (wallNow : time) : Bx wallClockPaidPhase :=
  do! row <- query (GetActivePaidPhaseForWallClockReset (orgIDText orgID) productID (pg_timestamptz wallNow));
  match row with
  | None => mret (mkPaidPhase false "" "" "" zero_time)
  | Some (id, p, startsAt) =>
      mret (mkPaidPhase (negb (bool_decide (ph_plan_id p = ""))) (ph_contract_id p) id (ph_plan_id p) startsAt)
  end.

Definition shiftActiveContractToWallClockTx (paid : wallClockPaidPhase) (wallNow : time) : Bx unit :=
  exec! statement (ShiftActiveContractToWallClock (wp_contractID paid) (pg_timestamptz wallNow));
  statement (ShiftActiveContractPhaseToWallClock (wp_phaseID paid) (pg_timestamptz wallNow)).

(** The target cycle: anchor, start, end, sequence number and cadence. *)
Record resetTarget : Type := mkTarget {
  rt_anchor : time;
  rt_starts : time;
  rt_ends : time;
  rt_seq : Z;
  rt_cadence : string
}.

Definition resetTargetOf (paid : wallClockPaidPhase) (wallNow : time) : resetTarget :=
  if wp_ok paid then
    let anchor := if is_zero (wp_anchorAt paid) || (wallNow <? wp_anchorAt paid) then wallNow else wp_anchorAt paid in
    let '(start, end_, seq) := cycleBoundsContaining "anniversary_monthly" anchor wallNow in
    mkTarget anchor start end_ seq "anniversary_monthly"
  else mkTarget (monthStartUTC wallNow) (monthStartUTC wallNow) (nextMonth wallNow) 0 "calendar_monthly".

Definition insertWallClockResetCycleTx (orgID productID : string) (t : resetTarget) (wallNow : time) : Bx billingCycle :=
  let cycle := mkCycle (cycleID orgID productID (rt_starts t)) "usd" "" (rt_anchor t) (rt_seq t) (rt_cadence t)
                 (rt_starts t) (rt_ends t) in
  do! rowsAffected <- upsertCycleTx true orgID productID cycle;
  if rowsAffected =? 0 then
    do! existing <- openBillingCycleContainingTx orgID productID wallNow;
    match existing with
    | Some c => mret c
    | None => mfail (Errorf "insert wall-clock reset billing cycle: conflicting cycle")
    end
  else
    exec! appendEvent (mkEvent "billing_cycle_opened" "billing_cycle" (bc_CycleID cycle) orgID productID wallNow
      [("cycle_id"%string, JStr (bc_CycleID cycle)); ("starts_at"%string, rfc (bc_StartsAt cycle));
       ("ends_at"%string, rfc (bc_EndsAt cycle)); ("anchor_at"%string, rfc (bc_AnchorAt cycle));
       ("cycle_seq"%string, JInt (bc_CycleSeq cycle)); ("cadence_kind"%string, JStr (bc_CadenceKind cycle));
       ("reason"%string, JStr "wall_clock_reset")] "" "");
    mret cycle.

Definition resetEvent (scope : string * string) (orgID productID reason : string) (wallNow : time) (paid : bool)
    (repair : BusinessClockRepairSummary) : eventFact :=
  let ids name l := (name%string, JArr (JStr <$> l)) in
  let count l := JInt (Z.of_nat (length l)) in
  clockEvent "billing_clock_reset_to_wall_clock" scope orgID productID wallNow
    ([("reset_at"%string, rfc wallNow); ("reason"%string, JStr reason);
      ids "voided_cycle_ids"%string (rp_VoidedCycleIDs repair); ("voided_cycle_count"%string, count (rp_VoidedCycleIDs repair));
      ids "closed_entitlement_grant_ids"%string (rp_ClosedGrantIDs repair);
      ("closed_entitlement_grants"%string, count (rp_ClosedGrantIDs repair));
      ids "reassigned_window_ids"%string (rp_ReassignedWindowIDs repair);
      ("reassigned_window_count"%string, count (rp_ReassignedWindowIDs repair));
      ("current_cycle_id"%string, JStr (rp_CurrentCycleID repair)); ("preserved_paid_plan"%string, JBool paid);
      ("preserved_purchase_balances"%string, JBool true); ("fixture_repair"%string, JBool true);
      ("closed_grant_ledger_sweep"%string, JBool false)]
     ++ match rp_PreviousBusinessNow repair with Some t => [("previous_business_now"%string, rfc t)] | None => [] end).

(** The repair of cycles, entitlements and windows around the target. *)
Definition repairTargetTx (orgID productID : string) (t : resetTarget) (wallNow : time) (previous : option time)
    : Bx BusinessClockRepairSummary :=
  let org := orgIDText orgID in
  let startsAt := pg_timestamptz (rt_starts t) in
  let endsAt := pg_timestamptz (rt_ends t) in
  let now := pg_timestamptz wallNow in
  do! voided <- statement (VoidCyclesForWallClockReset org productID startsAt endsAt now);
  do! closed <- statement (CloseCurrentEntitlementGrantsForWallClockReset org productID startsAt endsAt now);
  exec! statement (VoidCurrentEntitlementPeriodsForWallClockReset org productID startsAt endsAt);
  exec! statement (ReopenWallClockTargetEntitlementPeriods org productID startsAt endsAt);
  exec! statement (ReopenWallClockTargetCreditGrants org productID startsAt endsAt);
  do! cycle <- insertWallClockResetCycleTx orgID productID t wallNow;
  do! reassigned <- statement (ReassignWallClockWindows org productID (bc_CycleID cycle) startsAt endsAt);
  mret (mkRepair previous voided closed reassigned (bc_CycleID cycle)).

Definition resetClockTx (orgID productID reason : string) (wallNow : time) : Bx BusinessClockRepairSummary :=
  let scope := orgProductClockScope orgID productID in
  do! previous <- query (LockBusinessClockOverride scope);
  exec! statement (DeleteBusinessClockOverride scope);
  do! paid <- activePaidPhaseForWallClockResetTx orgID productID wallNow;
  exec! (if wp_ok paid then shiftActiveContractToWallClockTx paid wallNow else mret tt);
  do! repair <- repairTargetTx orgID productID (resetTargetOf paid wallNow) wallNow previous;
  exec! appendEvent (resetEvent scope orgID productID reason wallNow (wp_ok paid) repair);
  mret repair.

Definition with_repair (r : BusinessClockRepairSummary) (s : BusinessClockState) : BusinessClockState :=
  mkClockState (bk_OrgID s) (bk_ProductID s) (bk_ScopeKind s) (bk_ScopeID s) (bk_BusinessNow s) (bk_HasOverride s)
    (bk_Generation s) (bk_DueWork s) (bk_EntitlementsEnsured s) r.

Definition ResetBusinessClockToWallClock (fuel : nat) (orgID productID reason : string) : Bx BusinessClockState :=
  if decide (productID = "") then mfail (Errorf "product_id is required")
  else
    do! wallNow <- timeNow;
    do! repair <- WithTx (resetClockTx orgID productID reason wallNow);
    do! state <- reconcileClockTarget fuel orgID productID;
    mret (with_repair repair state).
End Clock.
