(* ===== verification/StripeStore.v ===== *)
(** * Stripe: tables and statements

    The constraints of provider_bindings, payment_methods and
    billing_provider_events (migrations/001_initial_schema.up.sql) and the
    statements of store/queries/stripe.sql.  A statement that reads now() or
    fires the updated_at trigger takes that time.  The payload column is the
    text the webhook carried.  Rows that tie in an ORDER BY come in the order
    of their ids; PostgreSQL leaves that order open. *)

From S2P Require Import Prelude GoFloat GoStd GoTime Json Types StripeApi Ids Ledger Charges Grants Store Events.
From S2P Require Import Cycles Entitlements ContractStore DocumentStore.

Definition bindings_of (d : DB) := pt_bindings (db_providers d).
Definition payment_methods_of (d : DB) := pt_payment_methods (db_providers d).
Definition provider_events_of (d : DB) := pt_events (db_providers d).

Definition set_pt_bindings (x : gmap string bindingRow) (d : DB) : DB :=
  set_providers (mkProviderTables x (payment_methods_of d) (provider_events_of d)) d.
Definition set_pt_payment_methods (x : gmap string paymentMethodRow) (d : DB) : DB :=
  set_providers (mkProviderTables (bindings_of d) x (provider_events_of d)) d.
Definition set_pt_events (x : gmap string providerEventRow) (d : DB) : DB :=
  set_providers (mkProviderTables (bindings_of d) (payment_methods_of d) x) d.

(** ** Constraints *)

Definition binding_checks (b : bindingRow) : bool :=
  negb (bool_decide (bi_aggregate_id b = "")) && negb (bool_decide (bi_provider_object_type b = ""))
  && negb (bool_decide (bi_provider_object_id b = "")).

(** provider_bindings_provider_object_idx *)
Definition bindings_conflict (b b' : bindingRow) : bool :=
  bool_decide (bi_provider b = bi_provider b') && bool_decide (bi_provider_object_type b = bi_provider_object_type b')
  && bool_decide (bi_provider_object_id b = bi_provider_object_id b').

Definition put_binding (id : string) (b : bindingRow) (d : DB) : res DB :=
  put_row binding_checks bindings_conflict set_pt_bindings (bindings_of d) id b d.

Definition payment_method_checks (p : paymentMethodRow) : bool :=
  negb (bool_decide (pmr_provider_customer_id p = "")) && negb (bool_decide (pmr_provider_payment_method_id p = ""))
  && match pmr_expires_month p with Some m => (1 <=? m) && (m <=? 12) | None => true end
  && match pmr_expires_year p with Some y => 2000 <=? y | None => true end.

Definition active_default (p : paymentMethodRow) : bool := pmr_is_default p && bool_decide (pmr_status p = "active").

Definition same_payment_method (p p' : paymentMethodRow) : bool :=
  bool_decide (pmr_provider p = pmr_provider p')
  && bool_decide (pmr_provider_payment_method_id p = pmr_provider_payment_method_id p').

(** payment_methods_default_per_org_idx, payment_methods_provider_object_idx *)
Definition payment_methods_conflict (p p' : paymentMethodRow) : bool :=
  active_default p && active_default p' && bool_decide (pmr_org_id p = pmr_org_id p') || same_payment_method p p'.

Definition put_payment_method (id : string) (p : paymentMethodRow) (d : DB) : res DB :=
  put_row payment_method_checks payment_methods_conflict set_pt_payment_methods (payment_methods_of d) id p d.

(** attempts is an INTEGER *)
Definition provider_event_checks (e : providerEventRow) : bool :=
  negb (bool_decide (pv_provider_event_id e = "")) && negb (bool_decide (pv_event_type e = ""))
  && (0 <=? pv_attempts e) && (pv_attempts e <=? i32_max).

(** UNIQUE (provider, provider_event_id) *)
Definition provider_events_conflict (e e' : providerEventRow) : bool :=
  bool_decide (pv_provider e = pv_provider e') && bool_decide (pv_provider_event_id e = pv_provider_event_id e').

Definition put_provider_event (id : string) (e : providerEventRow) (d : DB) : res DB :=
  put_row provider_event_checks provider_events_conflict set_pt_events (provider_events_of d) id e d.

(** The row that the ON CONFLICT target of a table matches. *)
Definition conflicting {A} (same : A -> A -> bool) (row : A) (m : gmap string A) : option (string * A) :=
  head (filter (fun kv => same row kv.2 = true) (map_to_list m)).

(** INSERT .. ON CONFLICT (..) DO ..: the row is checked before the conflict
    is looked up, and a taken primary key that is not the conflict is an
    error.  [update] is [None] for DO NOTHING. *)
Definition upsert_row {A} (m : DB -> gmap string A) (checks : A -> bool) (put : string -> A -> DB -> res DB)
    (same : A -> A -> bool) (update : option (A -> A)) (id : string) (row : A) (d : DB) : res (unit * DB) :=
  let! _ := check_constraint (negb (bool_decide (id = "")) && checks row) in
  match conflicting same row (m d) with
  | Some (id', old) =>
      match update with
      | Some f => let! d' := put id' (f old) d in Ret (tt, d')
      | None => Ret (tt, d)
      end
  | None =>
      match m d !! id with
      | Some _ => errorf "duplicate key value violates unique constraint"
      | None => let! d' := put id row d in Ret (tt, d')
      end
  end.

(** ** Products and organisations *)

Definition GetProductDisplayName (productID : string) (d : DB) : option string :=
  pr_display_name <$> ca_products (db_catalog d) !! productID.

Definition GetOrgBillingEmail (org : string) (d : DB) : option string := o_billing_email <$> db_orgs d !! org.

(** ** provider_bindings *)

Definition customerBinding (org customerID : string) (now : time) : bindingRow :=
  mkBindingRow "customer" org "stripe" "customer" customerID customerID "synced" now.

Definition UpsertStripeCustomerBinding (bindingID org customerID : string) (now : time) (d : DB) : res (unit * DB) :=
  upsert_row bindings_of binding_checks put_binding bindings_conflict
    (Some (fun old => mkBindingRow (bi_aggregate_type old) org (bi_provider old) (bi_provider_object_type old)
                        (bi_provider_object_id old) customerID "synced" (bi_created_at old)))
    bindingID (customerBinding org customerID now) d.

Definition InsertStripeCustomerBindingIfMissing (bindingID org customerID : string) (now : time) (d : DB) : res (unit * DB) :=
  upsert_row bindings_of binding_checks put_binding bindings_conflict None bindingID (customerBinding org customerID now) d.

(** ORDER BY created_at DESC *)
Definition latestBindingFirst : (string * bindingRow) -> (string * bindingRow) -> bool :=
  fun a b => lex_key Z.eqb Z.ltb (fun kv => bi_created_at kv.2) (on_key str_ltb fst) b a.

Definition LookupStripeCustomer (org : string) (d : DB) : option string :=
  (fun kv => bi_provider_object_id kv.2) <$>
    head (sort_slice latestBindingFirst
      (filter (fun kv => bi_aggregate_type kv.2 = "customer"%string /\ bi_aggregate_id kv.2 = org
                         /\ bi_provider kv.2 = "stripe"%string /\ bi_provider_object_type kv.2 = "customer"%string)
         (map_to_list (bindings_of d)))).

(** ** payment_methods *)

(** ORDER BY updated_at DESC, payment_method_id DESC *)
Definition latestPaymentMethodFirst : (string * paymentMethodRow) -> (string * paymentMethodRow) -> bool :=
  fun a b => lex_key Z.eqb Z.ltb (fun kv => pmr_updated_at kv.2) (on_key str_ltb fst) b a.

Definition GetDefaultStripePaymentMethod (org : string) (d : DB) : option string :=
  (fun kv => pmr_provider_payment_method_id kv.2) <$>
    head (sort_slice latestPaymentMethodFirst
      (filter (fun kv => pmr_org_id kv.2 = org /\ pmr_provider kv.2 = "stripe"%string /\ active_default kv.2 = true)
         (map_to_list (payment_methods_of d)))).

Definition without_default (now : time) (p : paymentMethodRow) : paymentMethodRow :=
  mkPaymentMethodRow (pmr_org_id p) (pmr_provider p) (pmr_provider_customer_id p) (pmr_provider_payment_method_id p)
    (pmr_setup_intent_id p) (pmr_status p) false (pmr_card_brand p) (pmr_card_last4 p) (pmr_expires_month p)
    (pmr_expires_year p) (pmr_off_session_authorized_at p) now.

Definition ClearDefaultStripePaymentMethods (org : string) (now : time) (d : DB) : res (unit * DB) :=
  let where_ p := bool_decide (pmr_org_id p = org) && bool_decide (pmr_provider p = "stripe") in
  let! d' := update_rows payment_methods_of put_payment_method (without_default now)
               (rows_where where_ (payment_methods_of d)) d in
  Ret (tt, d').

(** The update keeps the organisation of the row. *)
Definition UpsertStripePaymentMethod (id : string) (row : paymentMethodRow) (d : DB) : res (unit * DB) :=
  upsert_row payment_methods_of payment_method_checks put_payment_method same_payment_method
    (Some (fun old => mkPaymentMethodRow (pmr_org_id old) (pmr_provider old) (pmr_provider_customer_id row)
                        (pmr_provider_payment_method_id old) (pmr_setup_intent_id row) "active" true (pmr_card_brand row)
                        (pmr_card_last4 row) (pmr_expires_month row) (pmr_expires_year row)
                        (pmr_off_session_authorized_at row) (pmr_updated_at row))) id row d.

(** ** Documents, finalizations and changes *)

Definition document_paying (invoice hosted pdf status payment : string) (o : documentRow) : documentRow :=
  mkDocumentRow (do_document_number o) (do_document_kind o) (do_finalization_id o) (do_org_id o) (do_product_id o)
    (do_cycle_id o) (do_change_id o) status payment (do_period_start o) (do_period_end o) (do_issued_at o)
    (do_currency o) (do_subtotal_units o) (do_adjustment_units o) (do_tax_units o) (do_total_due_units o)
    (do_rendered_html o) invoice hosted pdf (do_stripe_payment_intent_id o).

Definition UpdateUpgradeInvoiceProviderDocument (id invoice hosted pdf status payment : string) (d : DB) : res (unit * DB) :=
  exec_rows (update_row documents_of put_document id (fun _ => true) (document_paying invoice hosted pdf status payment) d).

Definition UpdateUpgradeInvoiceProviderChange (id invoice payment : string) (d : DB) : res (unit * DB) :=
  exec_rows (update_row changes_of put_change id (fun _ => true)
    (fun c => change_with (if decide (payment = "paid") then ch_state c else ChProviderPending)
                (ch_actual_effective_at c) (ch_attempts c) (ch_provider_request_id c) invoice c) d).

Definition MarkInvoicePaymentFailedDocument (changeID invoice hosted : string) (d : DB) : res (unit * DB) :=
  let! d' := update_rows documents_of put_document
               (fun o => document_paying invoice hosted (do_stripe_invoice_pdf_url o) "payment_failed" "failed" o)
               (rows_where (fun o => bool_decide (do_change_id o = changeID)) (documents_of d)) d in
  Ret (tt, d').

Definition MarkInvoicePaymentFailedFinalization (id : string) (d : DB) : res (unit * DB) :=
  exec_rows (update_row finalizations_of put_finalization id (fun _ => true)
    (fun f => finalization_with FPaymentFailed (f_document_id f) (f_document_kind f) (f_customer_visible f)
                (f_notification_policy f) (f_has_usage f) (f_has_financial_activity f) (f_completed_at f)
                (f_blocked_reason f) (f_attempts f) "stripe invoice payment failed" f) d).

(** The payload of a change: [None] inside is the empty object that every
    change but an upgrade has. *)
Definition GetContractChangePayload (id : string) (d : DB) : option (option contractChangeQuote) :=
  ch_payload <$> changes_of d !! id.

(** ** billing_provider_events *)

Definition provider_event_with (payload product : string) (st : providerEventState) (attempts : Z)
    (next applied : option time) (err : string) (e : providerEventRow) : providerEventRow :=
  mkProviderEventRow (pv_provider_event_id e) (pv_provider e) (pv_event_type e) (pv_provider_object_type e)
    (pv_provider_object_id e) (pv_provider_customer_id e) (pv_provider_invoice_id e) (pv_provider_payment_intent_id e)
    (pv_contract_id e) (pv_change_id e) (pv_finalization_id e) (pv_document_id e) (pv_org_id e) product
    (pv_received_at e) (pv_provider_created_at e) (pv_livemode e) payload st attempts next applied err.

(** state IN ('applied', 'ignored', 'dead_letter') *)
Definition event_closed (st : providerEventState) : bool := bool_decide (st ∈ [PvApplied; PvIgnored; PvDeadLetter]).

Definition InsertStripeProviderEvent (id : string) (row : providerEventRow) (d : DB) : res (unit * DB) :=
  upsert_row provider_events_of provider_event_checks put_provider_event provider_events_conflict
    (Some (fun old => provider_event_with (pv_payload row)
                        (if decide (pv_product_id old = "") then pv_product_id row else pv_product_id old)
                        (if event_closed (pv_state old) then pv_state old else PvReceived)
                        (pv_attempts old) (pv_next_attempt_at old) (pv_applied_at old) (pv_last_error old) old)) id row d.

(** state IN ('received', 'queued', 'failed') *)
Definition event_waiting (st : providerEventState) : bool := bool_decide (st ∈ [PvReceived; PvQueued; PvFailed]).

(** ORDER BY received_at *)
Definition receivedFirst : (string * providerEventRow) -> (string * providerEventRow) -> bool :=
  lex_key Z.eqb Z.ltb (fun kv => pv_received_at kv.2) (on_key str_ltb fst).

Definition ListPendingStripeProviderEventIDs (limit : Z) (now : time) (d : DB) : list string :=
  take (Z.to_nat limit) (sort_slice receivedFirst
    (filter (fun kv => pv_provider kv.2 = "stripe"%string /\ event_waiting (pv_state kv.2) = true
                       /\ default (pv_received_at kv.2) (pv_next_attempt_at kv.2) <= now)
       (map_to_list (provider_events_of d)))).*1.

(** Returns the payload of the claimed event. *)
Definition ClaimProviderEvent (id : string) (d : DB) : res (option string * DB) :=
  match provider_events_of d !! id with
  | Some e =>
      if event_waiting (pv_state e) then
        let! d' := put_provider_event id
                     (provider_event_with (pv_payload e) (pv_product_id e) PvApplying (pv_attempts e + 1) None
                        (pv_applied_at e) "" e) d in
        Ret (Some (pv_payload e), d')
      else Ret (None, d)
  | None => Ret (None, d)
  end.

Definition MarkProviderEventFinal (id : string) (st : providerEventState) (now : time) (d : DB)
    : res (option providerEventRow * DB) :=
  match provider_events_of d !! id with
  | Some e =>
      if decide (pv_state e = PvApplying) then
        let e' := provider_event_with (pv_payload e) (pv_product_id e) st (pv_attempts e) (pv_next_attempt_at e) (Some now) "" e in
        let! d' := put_provider_event id e' d in Ret (Some e', d')
      else Ret (None, d)
  | None => Ret (None, d)
  end.

Definition FailProviderEvent (id err : string) (now : time) (d : DB) : res (unit * DB) :=
  exec_rows (update_row provider_events_of put_provider_event id (fun e => bool_decide (pv_state e = PvApplying))
    (fun e => provider_event_with (pv_payload e) (pv_product_id e) (if 25 <=? pv_attempts e then PvDeadLetter else PvFailed)
                (pv_attempts e) (Some (now + 30 * second)) (pv_applied_at e) err e) d).
