(* ===== verification/Stripe.v ===== *)
(** * The Stripe integration

    Models billing/stripe.go: checkout and portal sessions, the collection of
    an upgrade invoice, the webhook and the application of the events it
    records.  What Stripe answers comes from [StripeAPI]; each request is
    recorded in the world ([w_stripe]).

    A panic of a handler is not caught here: the recovery of a panicking job
    or request belongs to River and net/http.  The time of a payment method
    and of an event row is the transaction's; the driver sends one statement
    outside a transaction as a transaction of its own. *)

From S2P Require Import Prelude GoFloat GoStd GoTime GoFormat Json Types StripeApi Ids Ledger Charges Grants Store.
From S2P Require Import Events LedgerCommands LedgerGrants Cycles Entitlements WindowStore Windows.
From S2P Require Import ContractStore DocumentStore DueChanges Statements Finalizations Contracts StripeStore.

(** types.go *)
Record CheckoutParams : Type := mkCheckout {
  cp_AmountCents : Z;
  cp_SuccessURL : string;
  cp_CancelURL : string
}.

(** metadata[key] of a map[string]string *)
Definition meta (m : gmap string string) (k : string) : string := default "" (m !! k).

Definition map_of (l : list (string * string)) : gmap string string := list_to_map l.

(** ** Reading a webhook payload *)

(** stringValue: an expandable object stands for its id. *)
Fixpoint stringValueOf (v : jsonAny) : string :=
  match v with
  | AnyText s => s
  | AnyNumber f => format_plain f
  | AnyObject fields =>
      (fix last (l : list (string * jsonAny)) (acc : string) : string :=
         match l with
         | [] => acc
         | kv :: l' => last l' (if decide (kv.1 = "id") then stringValueOf kv.2 else acc)
         end) fields ""
  | AnyNull | AnyBool _ | AnyArray _ => ""
  end.

Definition stringValue (v : option jsonAny) : string :=
  match v with Some x => stringValueOf x | None => "" end.

Definition stringMap (v : option jsonAny) : gmap string string :=
  match v with
  | Some (AnyObject fields) => foldl (fun m kv => <[kv.1 := stringValueOf kv.2]> m) ∅ fields
  | _ => ∅
  end.

Definition stripeEventMetadata (type : string) (raw : rawMessage) : gmap string string :=
  let object := unmarshalObject raw in
  let metadata := <["customer_id" := stringValue (json_field object "customer")]> (stringMap (json_field object "metadata")) in
  let invoice := if has_prefix type "invoice." then stringValue (json_field object "id") else "" in
  let intent := if has_prefix type "invoice." then stringValue (json_field object "payment_intent")
                else if has_prefix type "payment_intent." then stringValue (json_field object "id") else "" in
  <["provider_payment_intent_id" := intent]> (<["provider_invoice_id" := invoice]> metadata).

Definition stripeEventObjectID (raw : rawMessage) : string := stringValue (json_field (unmarshalObject raw) "id").

Definition stripeProviderObjectType (eventType : string) : string :=
  let parts := split_string (chr 46) eventType in
  if (length parts <=? 1)%nat then eventType else join_strings "."%string (take (length parts - 1) parts).

Definition nullableInt4 (value : Z) : res (option Z) :=
  if value =? 0 then Ret None else let! v := checkedInt32FromInt value in Ret (Some v).

(** for key, value := range session.Metadata: fill in what setup lacks *)
Definition fillMetadata (setup session : gmap string string) : gmap string string :=
  merge (fun have value => match value with
                           | None => have
                           | Some _ => match have with Some "" | None => value | _ => have end
                           end) setup session.

(** var quote contractChangeQuote *)
Definition zeroQuote : contractChangeQuote :=
  mkQuote "" "" "" "" "" "" "" "" "" zero_time zero_time zero_time zero_time "" 0 0 [] [].

(** t.Unix() *)
Definition unix_seconds (t : time) : Z := t / second.

(** ** Parameters *)

Definition creditsMetadata (orgID productID : string) (cents : Z) : gmap string string :=
  map_of [("org_id", orgIDText orgID); ("product_id", productID);
          ("ledger_units", format_int (i64_mul cents ledgerUnitsPerCent))]%string.

Definition creditsCheckoutParams (productName customerID : string) (params : CheckoutParams) (metadata : gmap string string)
    : checkoutParams :=
  mkCheckoutParams "payment" (cp_SuccessURL params) (cp_CancelURL params) None
    [mkCheckoutLine 1 "usd" (cp_AmountCents params) (productName +:+ " Credits")]
    (if decide (customerID = "") then None else Some customerID)
    (if decide (customerID = "") then Some "always"%string else None) (Some metadata) None metadata None.

Definition upgradeMetadata `{Digest} (q : contractChangeQuote) : gmap string string :=
  map_of ([("org_id", orgIDText (qt_OrgID q)); ("product_id", qt_ProductID q); ("contract_id", qt_ContractID q);
           ("change_id", qt_ChangeID q); ("finalization_id", finalizationID "contract_change" (qt_ChangeID q));
           ("document_id", documentID "contract_change" (qt_ChangeID q)); ("document_kind", "invoice");
           ("from_plan_id", qt_FromPlanID q); ("target_plan_id", qt_TargetPlanID q)]%string
          ++ (if decide (qt_ProviderRequestID q = "") then [] else [("provider_request_id"%string, qt_ProviderRequestID q)])).

Definition upgradeKey (q : contractChangeQuote) (step : string) : string :=
  "verself:upgrade:" +:+ cleanNonEmpty [qt_ProviderRequestID q; qt_ChangeID q] +:+ ":" +:+ step.

Definition upgradeInvoiceParams `{Digest} (q : contractChangeQuote) (customerID paymentMethodID : string) : invoiceParams :=
  mkInvoiceParams false "charge_automatically" "usd" customerID paymentMethodID "Verself plan upgrade" (upgradeMetadata q)
    "exclude" (upgradeKey q "invoice").

Definition upgradeItemParams `{Digest} (q : contractChangeQuote) (customerID invoiceID : string) (cents : Z) : invoiceItemParams :=
  mkInvoiceItemParams cents "usd" customerID
    ("Prorated upgrade from " +:+ qt_FromPlanID q +:+ " to " +:+ qt_TargetPlanID q) invoiceID (upgradeMetadata q)
    (unix_seconds (qt_EffectiveAt q)) (unix_seconds (qt_CycleEnd q)) (upgradeKey q "item").

(** GrantBalance of a purchase: an account-wide credit. *)
Definition purchaseGrant (orgID sourceRef : string) (amount : Z) (startsAt : time) : GrantBalance :=
  mkGrant orgID "" "account" "" "" "" "purchase" sourceRef "" "" "" "" "" startsAt None None None 0 amount 0 0 0 zeroID.

Section Stripe.
Context {St : Type} `{Env} `{Digest} `{TBCodec} `{!TigerBeetle St} `{!PeriodWork St} `{!StripeAPI}.
#[local] Abbreviation Bx A := (@B St A).

(** Calling through a nil client panics. *)
Definition stripeDo {A} (request : stripeRequest) (answer : nat -> res A) : Bx A :=
  if stripe_configured then stripeCall request answer else mlift Panic.

(** A failed call, with the text its error is wrapped in. *)
Definition wrapped {A} (text : string) (m : Bx A) : Bx A := onError m (fun _ => mfail (Errorf text)).

(** ** Customers and sessions *)

Definition lookupStripeCustomer (orgID : string) : Bx string :=
  do! row <- query (LookupStripeCustomer (orgIDText orgID));
  match row with
  | Some id => mret id
  | None => mfail ErrNoStripeCustomer
  end.

Definition CreateCheckoutSession (orgID productID : string) (params : CheckoutParams) : Bx string :=
  if cp_AmountCents params <=? 0 then mfail (Errorf "amount_cents must be positive")
  else if negb stripe_configured then
    do! units <- mlift (moneyUnitsFromCents (cp_AmountCents params));
    do! attempted <- timeNow;
    do! startsAt <- timeNow;
    let ref := textID "offline_purchase" [orgIDText orgID; productID; format_int (cp_AmountCents params);
                                          format_rfc3339nano attempted] in
    exec! DepositCredits (purchaseGrant orgID ref units startsAt);
    mret (cp_SuccessURL params)
  else
    do! productName <- query (GetProductDisplayName productID);
    match productName with
    | None => mfail (Errorf "load checkout product")
    | Some name =>
        do! customer <- attempt (lookupStripeCustomer orgID);
        let customerID := match customer with inl id => id | inr _ => ""%string end in
        let request := creditsCheckoutParams name customerID params (creditsMetadata orgID productID (cp_AmountCents params)) in
        do! session <- wrapped "create stripe checkout session"
          (stripeDo (CheckoutSessionsCreate request) (fun n => checkout_sessions_create n request));
        mret session
    end.

Definition CreatePortalSession (orgID returnURL : string) : Bx string :=
  do! customer <- attempt (lookupStripeCustomer orgID);
  match customer with
  | inr _ => mfail ErrNoStripeCustomer
  | inl customerID =>
      if decide (customerID = "" \/ stripe_configured = false) then mfail ErrNoStripeCustomer
      else wrapped "create stripe portal session"
             (stripeDo (PortalSessionsCreate customerID returnURL) (fun n => portal_sessions_create n customerID returnURL))
  end.

Definition createStripeCustomer (orgID : string) : Bx string :=
  if negb stripe_configured then mfail ErrNoStripeCustomer
  else
    do! email <- query (GetOrgBillingEmail (orgIDText orgID));
    let billingEmail := default "" email in
    let params := mkCustomerParams (map_of [("org_id"%string, orgIDText orgID)])
                    (if decide (billingEmail = "") then None else Some billingEmail)
                    (textID "stripe_customer_request" [orgIDText orgID; billingEmail]) in
    do! customerID <- wrapped "create stripe customer"
      (stripeDo (CustomersCreate params) (fun n => customers_create n params));
    do! now <- pgNow;
    exec! wrapped "persist stripe customer binding"
      (statement (UpsertStripeCustomerBinding (textID "provider_binding" ["stripe"; "customer"; customerID]%string)
         (orgIDText orgID) customerID now));
    mret customerID.

Definition ensureStripeCustomer (orgID : string) : Bx string :=
  do! customer <- attempt (lookupStripeCustomer orgID);
  match customer with
  | inl customerID => if decide (customerID = "") then createStripeCustomer orgID else mret customerID
  | inr _ => createStripeCustomer orgID
  end.

Definition defaultStripePaymentMethod (orgID : string) : Bx string :=
  do! row <- query (GetDefaultStripePaymentMethod (orgIDText orgID));
  match row with
  | Some id => mret id
  | None => mfail ErrNoStripeCustomer
  end.

(** ** The upgrade invoice *)

Definition updateUpgradeInvoiceProvider (q : contractChangeQuote) (invoice hosted pdf status payment : string) : Bx unit :=
  exec! wrapped "update upgrade document provider state"
    (statement (UpdateUpgradeInvoiceProviderDocument (documentID "contract_change" (qt_ChangeID q)) invoice hosted pdf
                  status payment));
  statement (UpdateUpgradeInvoiceProviderChange (qt_ChangeID q) invoice payment).

Definition payUpgradeInvoice (q : contractChangeQuote) (paymentMethodID : string) (finalized : stripeInvoice) : Bx stripeInvoice :=
  onError (stripeDo (InvoicesPay (in_ID finalized) paymentMethodID false (upgradeKey q "pay"))
             (fun n => invoices_pay n (in_ID finalized) paymentMethodID))
    (fun _ =>
       exec! ignoreError (updateUpgradeInvoiceProvider q (in_ID finalized) (in_HostedInvoiceURL finalized)
                            (in_InvoicePDF finalized) "issued" "pending");
       mfail (Errorf "pay stripe upgrade invoice")).

(** The URL and id of the invoice, and whether it is paid.  What the code
    returns next to an error none of its callers reads. *)
Definition collectUpgradeInvoice (q : contractChangeQuote) : Bx (string * string * bool) :=
  do! customerID <- ensureStripeCustomer (qt_OrgID q);
  do! paymentMethodID <- defaultStripePaymentMethod (qt_OrgID q);
  let invoiceRequest := upgradeInvoiceParams q customerID paymentMethodID in
  do! invoice <- wrapped "create stripe upgrade invoice"
    (stripeDo (InvoicesCreate invoiceRequest) (fun n => invoices_create n invoiceRequest));
  do! cents <- mlift (checkedInt64FromUint64 (qt_PriceDeltaCents q));
  let itemRequest := upgradeItemParams q customerID (in_ID invoice) cents in
  exec! wrapped "create stripe upgrade invoice item"
    (stripeDo (InvoiceItemsCreate itemRequest) (fun n => invoice_items_create n itemRequest));
  do! finalized <- wrapped "finalize stripe upgrade invoice"
    (stripeDo (InvoicesFinalize (in_ID invoice) false (upgradeKey q "finalize"))
       (fun n => invoices_finalize n (in_ID invoice)));
  do! paid <- payUpgradeInvoice q paymentMethodID finalized;
  let status := (if decide (in_Status paid = "paid") then "paid" else "issued")%string in
  let payment := (if decide (in_Status paid = "paid") then "paid" else "pending")%string in
  exec! updateUpgradeInvoiceProvider q (in_ID paid) (in_HostedInvoiceURL paid) (in_InvoicePDF paid) status payment;
  mret (in_HostedInvoiceURL paid, in_ID paid, bool_decide (payment = "paid"%string)).

Definition loadContractChangeQuote (changeID : string) : Bx contractChangeQuote :=
  do! payload <- query (GetContractChangePayload changeID);
  match payload with
  | None => mfail (Errorf "load contract change payload")
  | Some q => mret (default zeroQuote q)
  end.

(** ** The webhook *)

Definition providerEventFact (kind eventID orgID productID : string) (at_ : time) (payload : list (string * jval)) : eventFact :=
  mkEvent kind "provider_event" eventID orgID productID at_ payload "" "".

Definition recordStripeProviderEventTx (eventID : string) (event : stripeEvent) (raw : rawMessage) (payload : string)
    (occurred : time) : Bx unit :=
  let metadata := stripeEventMetadata (ev_Type event) raw in
  do! received <- pgNow;
  exec! wrapped "insert stripe provider event"
    (statement (InsertStripeProviderEvent eventID
       (mkProviderEventRow (ev_ID event) "stripe" (ev_Type event) (stripeProviderObjectType (ev_Type event))
          (stripeEventObjectID raw) (meta metadata "customer_id") (meta metadata "provider_invoice_id")
          (meta metadata "provider_payment_intent_id") (meta metadata "contract_id") (meta metadata "change_id")
          (meta metadata "finalization_id") (meta metadata "document_id") (meta metadata "org_id")
          (meta metadata "product_id") received (timestamptz occurred) (ev_Livemode event) payload PvReceived 0 None None "")));
  do! orgID <- mlift (parseOrgID (meta metadata "org_id"));
  if decide (orgIDText orgID = "") then mret tt
  else
    let field name := (name%string, JStr (meta metadata name)) in
    exec! appendEvent (providerEventFact "provider_event_received" eventID orgID (meta metadata "product_id") occurred
      [("provider_event_id"%string, JStr (ev_ID event)); ("provider_event_type"%string, JStr (ev_Type event));
       ("provider_event_id_internal"%string, JStr eventID); field "contract_id"%string; field "change_id"%string;
       field "finalization_id"%string; field "document_id"%string; field "document_kind"%string]);
    if runtime_configured then EnqueueProviderEventApplyTx eventID else mret tt.

Definition recordStripeProviderEvent (event : stripeEvent) (payload : string) : Bx string :=
  match ev_Data event with
  | None => mlift Panic
  | Some raw =>
      let eventID := textID "provider_event" ["stripe"%string; ev_ID event] in
      do! occurred <- (if ev_Created event =? 0 then timeNow else mret (ev_Created event * second));
      exec! WithTx (recordStripeProviderEventTx eventID event raw payload occurred);
      mret eventID
  end.

(** ** The effects of events *)

Definition failProviderEvent (eventID : string) (cause : goerr) : Bx unit :=
  do! now <- pgNow; statement (FailProviderEvent eventID (errorText cause) now).

Definition finalEventName (st : providerEventState) : string :=
  match st with PvIgnored => "ignored" | _ => "applied" end.

(** [st] is applied or ignored. *)
Definition markProviderEventFinal (eventID : string) (st : providerEventState) : Bx unit :=
  do! now <- pgNow;
  do! row <- statement (MarkProviderEventFinal eventID st now);
  match row with
  | None => mret tt
  | Some e =>
      do! orgID <- mlift (parseOrgID (pv_org_id e));
      if decide (orgIDText orgID = "") then mret tt
      else WithTx (
        do! wall <- timeNow;
        appendEvent (providerEventFact ("provider_event_" +:+ finalEventName st) eventID orgID (pv_product_id e) wall
          [("provider_event_id"%string, JStr eventID); ("provider_stripe_event_id"%string, JStr (pv_provider_event_id e));
           ("provider_event_type"%string, JStr (pv_event_type e)); ("contract_id"%string, JStr (pv_contract_id e));
           ("change_id"%string, JStr (pv_change_id e)); ("finalization_id"%string, JStr (pv_finalization_id e));
           ("document_id"%string, JStr (pv_document_id e))]))
  end.

Definition applySetupIntentTx (orgID customerID productID contractID : string) (setup : stripeSetupIntent)
    (method : stripePaymentMethod) (appliedAt : time) : Bx unit :=
  let org := orgIDText orgID in
  let card := default (mkCard "" "" 0 0) (pmt_Card method) in
  do! now <- pgNow;
  exec! wrapped "clear default payment methods" (statement (ClearDefaultStripePaymentMethods org now));
  do! month <- mlift (nullableInt4 (card_ExpMonth card));
  do! year <- mlift (nullableInt4 (card_ExpYear card));
  exec! wrapped "upsert payment method"
    (statement (UpsertStripePaymentMethod (textID "payment_method" ["stripe"%string; pmt_ID method])
       (mkPaymentMethodRow org "stripe" customerID (pmt_ID method) (si_ID setup) "active" true (card_Brand card)
          (card_Last4 card) month year (timestamptz appliedAt) now)));
  exec! wrapped "persist stripe customer binding"
    (statement (InsertStripeCustomerBindingIfMissing (textID "provider_binding" ["stripe"; "customer"; customerID]%string)
       org customerID now));
  appendEvent (mkEvent "payment_method_activated" "payment_method" (pmt_ID method) orgID productID appliedAt
    [("provider"%string, JStr "stripe"); ("payment_method_id"%string, JStr (pmt_ID method));
     ("contract_id"%string, JStr contractID)] "" "").

(** The payment method of a setup intent, when it has an id. *)
Definition setupPaymentMethod (setup : stripeSetupIntent) : option stripePaymentMethod :=
  match si_PaymentMethod setup with
  | Some method => if decide (pmt_ID method = "") then None else Some method
  | None => None
  end.

Definition applySucceededSetupIntent (fuel : nat) (setup : stripeSetupIntent) : Bx unit :=
  if negb (bool_decide (si_Status setup = "succeeded")) then mfail (Errorf "setup intent")
  else
    let metadata := si_Metadata setup in
    do! orgID <- mlift (parseOrgID (meta metadata "org_id"));
    let productID := meta metadata "product_id" in
    let planID := meta metadata "plan_id" in
    let contractID := meta metadata "contract_id" in
    match setupPaymentMethod setup with
    | None => mfail (Errorf "setup intent has no payment method")
    | Some method =>
        do! appliedAt <- timeNow;
        do! businessNow <- (if decide (productID = "") then mret appliedAt else BusinessNow orgID productID);
        exec! WithTx (applySetupIntentTx orgID (default "" (si_Customer setup)) productID contractID setup method appliedAt);
        if decide (planID = "" \/ contractID = "") then mret tt
        else
          let phase := if decide (meta metadata "phase_id" = "") then phaseID contractID planID businessNow
                       else meta metadata "phase_id" in
          exec! activateCatalogContract orgID productID planID contractID phase businessNow businessNow;
          EnsureCurrentEntitlements fuel orgID productID
    end.

Definition handleSetupIntentSucceeded (fuel : nat) (raw : rawMessage) : Bx unit :=
  do! setup <- wrapped "decode setup intent" (mlift (decode_setup_intent raw));
  applySucceededSetupIntent fuel setup.

(** The setup intent of a session, retrieved when it is not expanded. *)
Definition expandedSetupIntent (setup : stripeSetupIntent) : Bx stripeSetupIntent :=
  match bool_decide (si_Status setup = "succeeded"), setupPaymentMethod setup with
  | true, Some _ => mret setup
  | _, _ =>
      if negb stripe_configured then mfail (Errorf "checkout session setup intent is not expanded")
      else wrapped "retrieve checkout setup intent"
             (stripeDo (SetupIntentsRetrieve (si_ID setup)) (fun n => setup_intents_retrieve n (si_ID setup)))
  end.

Definition handleCheckoutSessionCompleted (fuel : nat) (raw : rawMessage) : Bx unit :=
  do! session <- wrapped "decode checkout session" (mlift (decode_checkout_session raw));
  if negb (bool_decide (cs_Mode session = "setup")) then mret tt
  else
    match cs_SetupIntent session with
    | None => mfail (Errorf "checkout session has no setup intent")
    | Some setup =>
        if decide (si_ID setup = "") then mfail (Errorf "checkout session has no setup intent")
        else
          do! setup <- expandedSetupIntent setup;
          let customer := match si_Customer setup with None => cs_Customer session | c => c end in
          applySucceededSetupIntent fuel
            (mkSetupIntent (si_ID setup) (si_Status setup) (fillMetadata (si_Metadata setup) (cs_Metadata session))
               customer (si_PaymentMethod setup))
    end.

Definition handlePaymentIntentSucceeded (raw : rawMessage) : Bx unit :=
  do! intent <- wrapped "decode payment intent" (mlift (decode_payment_intent raw));
  do! orgID <- mlift (parseOrgID (meta (pin_Metadata intent) "org_id"));
  if decide (orgIDText orgID = "") then mret tt
  else
    let productID := meta (pin_Metadata intent) "product_id" in
    let ledgerUnits := parse_uint (meta (pin_Metadata intent) "ledger_units") in
    if decide (productID = "" \/ ledgerUnits = 0) then mret tt
    else
      do! startsAt <- BusinessNow orgID productID;
      exec! DepositCredits (purchaseGrant orgID ("stripe_payment_intent:" +:+ pin_ID intent) ledgerUnits startsAt);
      mret tt.

Definition handleInvoicePaid (raw : rawMessage) : Bx unit :=
  do! invoice <- wrapped "decode invoice paid" (mlift (decode_invoice raw));
  let changeID := meta (in_Metadata invoice) "change_id" in
  if decide (changeID = "") then mret tt
  else
    do! quote <- loadContractChangeQuote changeID;
    applyPaidUpgrade quote (in_ID invoice).

Definition handleInvoicePaymentFailed (raw : rawMessage) : Bx unit :=
  do! invoice <- wrapped "decode invoice payment failed" (mlift (decode_invoice raw));
  let changeID := meta (in_Metadata invoice) "change_id" in
  if decide (changeID = "") then mret tt
  else
    exec! statement (MarkInvoicePaymentFailedDocument changeID (in_ID invoice) (in_HostedInvoiceURL invoice));
    statement (MarkInvoicePaymentFailedFinalization (finalizationID "contract_change" changeID)).

(** ** Applying events *)

(** switch string(event.Type): [None] for the types the service ignores. *)
Definition eventHandler (fuel : nat) (type : string) : option (rawMessage -> Bx unit) :=
  if decide (type = "setup_intent.succeeded") then Some (handleSetupIntentSucceeded fuel)
  else if decide (type = "payment_intent.succeeded") then Some handlePaymentIntentSucceeded
  else if decide (type = "invoice.paid") then Some handleInvoicePaid
  else if decide (type = "invoice.payment_failed") then Some handleInvoicePaymentFailed
  else if decide (type = "checkout.session.completed") then Some (handleCheckoutSessionCompleted fuel)
  else None.

Definition applyEvent (handle : rawMessage -> Bx unit) (event : stripeEvent) : Bx unit :=
  match ev_Data event with
  | None => mlift Panic
  | Some raw => handle raw
  end.

Definition ApplyProviderEvent (fuel : nat) (eventID : string) : Bx bool :=
  do! claimed <- statement (ClaimProviderEvent eventID);
  match claimed with
  | None => mret false
  | Some payload =>
      match decode_event payload with
      | Panic => mlift Panic
      | Err e => exec! ignoreError (failProviderEvent eventID e); mret true
      | Ret event =>
          match eventHandler fuel (ev_Type event) with
          | None => exec! markProviderEventFinal eventID PvIgnored; mret true
          | Some handle =>
              do! applied <- attempt (applyEvent handle event);
              match applied with
              | inr cause => exec! ignoreError (failProviderEvent eventID cause); mret true
              | inl _ => exec! markProviderEventFinal eventID PvApplied; mret true
              end
          end
      end
  end.

Fixpoint applyEvents (fuel : nat) (ids : list string) (applied : Z) : Bx Z :=
  match ids with
  | [] => mret applied
  | id :: ids' =>
      do! ok <- ApplyProviderEvent fuel id;
      applyEvents fuel ids' (if ok : bool then applied + 1 else applied)
  end.

Definition ApplyPendingProviderEvents (fuel : nat) (limit : Z) : Bx Z :=
  let limit := if limit <=? 0 then 100 else limit in
  do! limit32 <- mlift (checkedInt32FromInt limit);
  do! now <- pgNow;
  do! ids <- query (ListPendingStripeProviderEventIDs limit32 now);
  applyEvents fuel ids 0.

Definition HandleStripeWebhook (fuel : nat) (payload signatureHeader webhookSecret : string) : Bx unit :=
  do! event <- wrapped "construct stripe webhook event" (mlift (construct_event payload signatureHeader webhookSecret));
  do! eventID <- recordStripeProviderEvent event payload;
  if runtime_configured then mret tt
  else do! _ <- ApplyProviderEvent fuel eventID; mret tt.
End Stripe.
