(* ===== verification/ContractRequests.v ===== *)
(** * Contract requests

    Models CreateContract, CreateContractChange, CollectContractUpgradePayment
    and contractReturnURL of billing/contracts.go, which choose between the
    operations of Contracts.v and Stripe.v. *)

From S2P Require Import Prelude GoFloat GoStd GoTime GoFormat GoURL Json Types StripeApi Ids Ledger Charges Grants.
From S2P Require Import Store.
From S2P Require Import Events LedgerCommands LedgerGrants Cycles Entitlements WindowStore Windows.
From S2P Require Import ContractStore DocumentStore DueChanges Statements Finalizations Contracts StripeStore Stripe.

Definition CadenceMonthly : string := "monthly".

(** types.go *)
Record ContractChangeRequest : Type := mkChangeRequest {
  cq_TargetPlanID : string;
  cq_SuccessURL : string;
  cq_CancelURL : string
}.

Record ContractChangeResult : Type := mkChangeResult {
  cx_URL : string;
  cx_ChangeID : string;
  cx_FinalizationID : string;
  cx_DocumentID : string;
  cx_Status : string;
  cx_PriceDeltaUnits : Z
}.

Definition setParams (m : values) (params : list (string * string)) : values :=
  foldl (fun m kv => if decide (kv.2 = "") then m else set_value m kv.1 kv.2) m params.

Definition contractReturnURL `{NetURL} (rawURL : string) (params : list (string * string)) : string :=
  if bool_decide (rawURL = "") || bool_decide (params = []) then rawURL
  else
    match url_parse rawURL with
    | None => rawURL
    | Some parsed =>
        url_string (url_with_query (encode_query (setParams (parse_query (url_raw_query parsed)) params)) parsed)
    end.

Section ContractRequests.
Context {St : Type} `{Env} `{Digest} `{TBCodec} `{!TigerBeetle St} `{!PeriodWork St} `{!StripeAPI} `{!NetURL}.
#[local] Abbreviation Bx A := (@B St A).

(** [Status] of a result that writes nothing. *)
Definition unchangedResult (url status : string) : ContractChangeResult := mkChangeResult url "" "" "" status 0.

Definition upgradeResult (url status : string) (q : contractChangeQuote) : ContractChangeResult :=
  mkChangeResult url (qt_ChangeID q) (finalizationID "contract_change" (qt_ChangeID q))
    (documentID "contract_change" (qt_ChangeID q)) status (qt_PriceDeltaUnits q).

Definition upgradeReturnURL (req : ContractChangeRequest) (action : string) (q : contractChangeQuote) (targetPlanID : string)
    : string :=
  contractReturnURL (cq_SuccessURL req)
    [("contractAction", action); ("contractEffectiveAt", format_rfc3339nano (qt_EffectiveAt q));
     ("targetPlanID", targetPlanID)]%string.

Definition resumePlan (orgID : string) (existing : ContractRecord) (req : ContractChangeRequest) (targetPlanID : string)
    : Bx ContractChangeResult :=
  do! resumed <- resumeCurrentPlan orgID existing;
  let url action := contractReturnURL (cq_SuccessURL req) [("contractAction"%string, action); ("targetPlanID"%string, targetPlanID)] in
  if resumed : bool then mret (unchangedResult (url "resume"%string) "resumed")
  else mret (unchangedResult (url "unchanged"%string) "unchanged").

Definition downgradePlan (fuel : nat) (orgID : string) (existing : ContractRecord) (req : ContractChangeRequest)
    (targetPlanID : string) : Bx ContractChangeResult :=
  do! scheduled <- scheduleDowngrade fuel orgID existing targetPlanID;
  mret (mkChangeResult
    (contractReturnURL (cq_SuccessURL req)
       [("contractAction", "downgrade"); ("contractEffectiveAt", format_rfc3339nano scheduled.2);
        ("targetPlanID", targetPlanID)]%string) scheduled.1 "" "" "scheduled" 0).

(** The payment of an upgrade: the URL to send the customer to, the invoice
    and whether it is paid.  Without Stripe an upgrade is free of charge. *)
Definition payUpgrade (q : contractChangeQuote) (successURL : string) : Bx (string * string * bool) :=
  if stripe_configured then
    do! collected <- collectUpgradeInvoice q;
    let '(stripeURL, stripeInvoiceID, paid) := collected in
    mret (if decide (stripeURL = "") then successURL else stripeURL, stripeInvoiceID, paid)
  else mret (successURL, ""%string, true).

Definition upgradePlan (fuel : nat) (orgID : string) (existing : ContractRecord) (current target : PlanRecord)
    (req : ContractChangeRequest) : Bx ContractChangeResult :=
  do! quote <- prepareUpgradeQuote fuel orgID existing current target;
  do! quote <- insertPendingUpgrade quote;
  if stripe_configured && runtime_configured
  then mret (upgradeResult (upgradeReturnURL req "upgrade_requested" quote (pn_PlanID target)) "pending" quote)
  else
    do! payment <- payUpgrade quote (cq_SuccessURL req);
    let '(url, providerInvoiceID, paid) := payment in
    if paid : bool then
      exec! applyPaidUpgrade quote providerInvoiceID;
      mret (upgradeResult (upgradeReturnURL req "upgrade" quote (pn_PlanID target)) "paid" quote)
    else mret (upgradeResult url "pending" quote).

Definition CreateContractChange (fuel : nat) (orgID contractID : string) (req : ContractChangeRequest) : Bx ContractChangeResult :=
  if decide (cq_TargetPlanID req = "") then mfail (Errorf "target_plan_id is required")
  else
    do! existing <- GetContract fuel orgID contractID;
    do! target <- loadPlan (cq_TargetPlanID req);
    do! current <- loadPlan (cr_PlanID existing);
    if negb (bool_decide (pn_ProductID target = cr_ProductID existing))
       || negb (bool_decide (pn_ProductID current = cr_ProductID existing))
    then mfail ErrUnsupportedChange
    else if decide (pn_PlanID target = pn_PlanID current) then resumePlan orgID existing req (pn_PlanID target)
    else if pn_MonthlyAmountCents target <=? pn_MonthlyAmountCents current
    then downgradePlan fuel orgID existing req (pn_PlanID target)
    else upgradePlan fuel orgID existing current target req.

(** The checkout session that collects a payment method for a new contract. *)
Definition setupCheckoutParams (orgID : string) (plan : PlanRecord) (planID contractID phase cadence attempt customerID
    successURL cancelURL : string) : checkoutParams :=
  let metadata := map_of [("org_id", orgIDText orgID); ("product_id", pn_ProductID plan); ("plan_id", planID);
    ("contract_id", contractID); ("phase_id", phase); ("cadence", cadence); ("checkout_attempt_id", attempt)]%string in
  mkCheckoutParams "setup" successURL cancelURL (Some (pn_Currency plan)) [] (Some customerID) None None
    (Some (pn_DisplayName plan +:+ " payment method", metadata)) metadata (Some attempt).

Definition startContract (orgID planID cadence successURL cancelURL : string) (plan : PlanRecord) : Bx string :=
  let contract := contractID orgID (pn_ProductID plan) in
  if negb stripe_configured then
    do! now <- BusinessNow orgID (pn_ProductID plan);
    exec! activateCatalogContract orgID (pn_ProductID plan) planID contract (phaseID contract planID now) now now;
    mret (contractReturnURL successURL [("contractAction", "start"); ("targetPlanID", planID)]%string)
  else
    do! customerID <- ensureStripeCustomer orgID;
    do! now <- BusinessNow orgID (pn_ProductID plan);
    do! wall <- timeNow;
    let checkoutAttempt := textID "stripe_setup_checkout" [contract; planID; format_rfc3339nano wall] in
    let params := setupCheckoutParams orgID plan planID contract (phaseID contract planID now) cadence checkoutAttempt
                    customerID successURL cancelURL in
    wrapped "create stripe setup checkout"
      (stripeDo (CheckoutSessionsCreate params) (fun n => checkout_sessions_create n params)).

Definition reuseContract (fuel : nat) (orgID planID successURL cancelURL : string) (existing : ContractRecord)
    (contract : string) : Bx string :=
  if bool_decide (cr_PlanID existing = planID) && bool_decide (cr_Status existing ∈ [KActive; KCancelScheduled]) then
    do! _ <- resumeCurrentPlan orgID existing;
    mret (contractReturnURL successURL [("contractAction", "resume"); ("targetPlanID", planID)]%string)
  else
    do! result <- CreateContractChange fuel orgID contract (mkChangeRequest planID successURL cancelURL);
    mret (cx_URL result).

Definition CreateContract (fuel : nat) (orgID planID cadence successURL cancelURL : string) : Bx string :=
  if decide (planID = "") then mfail (Errorf "plan_id is required")
  else
    let cadence := if decide (cadence = "") then CadenceMonthly else cadence in
    if negb (bool_decide (cadence = CadenceMonthly)) then mfail ErrUnsupportedCadence
    else
      do! plan <- loadPlan planID;
      let contract := contractID orgID (pn_ProductID plan) in
      do! existing <- attempt (GetContract fuel orgID contract);
      match existing with
      | inl record => reuseContract fuel orgID planID successURL cancelURL record contract
      | inr ErrContractNotFound => startContract orgID planID cadence successURL cancelURL plan
      | inr e => mfail e
      end.

(** Whether the upgrade was paid and applied now. *)
Definition CollectContractUpgradePayment (changeID : string) : Bx bool :=
  do! status <- query (GetContractChangeStatus changeID);
  match status with
  | None => mret false
  | Some (state, changeType) =>
      if negb (bool_decide (changeType = "upgrade"%string)) then mfail ErrUnsupportedChange
      else
        match state with
        | ChApplied | ChCanceled => mret false
        | ChAwaitingPayment | ChProviderPending =>
            do! quote <- loadContractChangeQuote changeID;
            do! collected <- collectUpgradeInvoice quote;
            let '(_, providerInvoiceID, paid) := collected in
            if paid : bool then exec! applyPaidUpgrade quote providerInvoiceID; mret true else mret false
        | _ => mfail ErrUnsupportedChange
        end
  end.
End ContractRequests.
