(* ===== verification/Runtime.v ===== *)
(** * The job runtime

    Models billing/runtime.go: the kinds of jobs, the queues and options they
    are inserted with, what the worker of each kind runs and the maintenance
    scan.  River, which stores, deduplicates, retries and schedules the jobs,
    is not part of the repository: inserting a job records the request. *)

From S2P Require Import Prelude GoFloat GoStd GoTime GoFormat Json Types StripeApi Ids Ledger Charges Grants Store.
From S2P Require Import Events LedgerCommands LedgerGrants Cycles Entitlements WindowStore Windows.
From S2P Require Import ContractStore DocumentStore DueChanges Statements Finalizations Dispatcher Contracts Catalog.
From S2P Require Import StripeStore Stripe ContractRequests.

Definition QueueBillingProvider : string := "billing_provider".
Definition QueueBillingDelivery : string := "billing_delivery".
Definition QueueBillingReconcile : string := "billing_reconcile".

(** Args.Kind() *)
Definition Kind (job : jobRequest) : string :=
  match job with
  | ProviderEventApplyArgs _ => "billing.provider_event.apply"
  | ProviderEventApplyPendingArgs _ => "billing.provider_event.apply_pending"
  | EventDeliveryProjectPendingArgs _ _ => "billing.event_delivery.project_pending"
  | LedgerDispatchPendingArgs _ => "billing.ledger.dispatch_pending"
  | LedgerReconcileArgs _ => "billing.ledger.reconcile"
  | ContractUpgradePaymentArgs _ => "billing.contract_upgrade.collect_payment"
  | MeteringProjectWindowArgs _ => "billing.metering.project_window"
  | MeteringProjectPendingArgs _ => "billing.metering.project_pending"
  | DueWorkApplyPendingArgs _ => "billing.due_work.apply_pending"
  | FinalizationRunArgs _ => "billing.finalization.run"
  | FinalizationRunPendingArgs _ => "billing.finalization.run_pending"
  end.

(** river.InsertOpts; every insert is unique by its arguments and queue. *)
Record insertOpts : Type := mkOpts {
  op_MaxAttempts : Z;
  op_Queue : string;
  op_Tags : list string;
  op_ByPeriod : option Z
}.

Definition scannerInsertOpts (queue : string) (cadence : Z) (tag : string) : insertOpts := mkOpts 3 queue [tag] (Some cadence).

(** The options of the inserts that join the caller's transaction. *)
Definition txInsertOpts (job : jobRequest) : option insertOpts :=
  match job with
  | ProviderEventApplyArgs _ => Some (mkOpts 5 QueueBillingProvider ["provider-event"]%string None)
  | MeteringProjectWindowArgs _ => Some (mkOpts 5 QueueBillingDelivery ["metering"]%string None)
  | ContractUpgradePaymentArgs _ => Some (mkOpts 5 QueueBillingProvider ["contract-upgrade-payment"]%string None)
  | FinalizationRunArgs _ => Some (mkOpts 5 QueueBillingDelivery ["finalization"]%string None)
  | _ => None
  end.

Definition queueConfig : list (string * Z) :=
  [(QueueBillingProvider, 2); (QueueBillingDelivery, 2); (QueueBillingReconcile, 1)].

Definition queueNames : list string := [QueueBillingProvider; QueueBillingDelivery; QueueBillingReconcile].

(** The jobs of a maintenance scan, with their options; [cadence] is a
    time.Duration. *)
Definition maintenanceJobs (cadence : Z) : list (jobRequest * insertOpts) :=
  let cadence := if cadence <? second then second else cadence in
  [(EventDeliveryProjectPendingArgs clickHouseBillingEventsSink 100, scannerInsertOpts QueueBillingReconcile cadence "event-delivery");
   (LedgerDispatchPendingArgs 100, scannerInsertOpts QueueBillingDelivery cadence "ledger-dispatch");
   (LedgerReconcileArgs 1000, scannerInsertOpts QueueBillingReconcile cadence "ledger-reconcile");
   (ProviderEventApplyPendingArgs 100, scannerInsertOpts QueueBillingReconcile cadence "provider-event");
   (MeteringProjectPendingArgs 100, scannerInsertOpts QueueBillingReconcile cadence "metering");
   (DueWorkApplyPendingArgs 100, scannerInsertOpts QueueBillingReconcile cadence "due-work");
   (FinalizationRunPendingArgs 100, scannerInsertOpts QueueBillingReconcile cadence "finalization")].

Section Runtime.
Context {St : Type} `{Env} `{Digest} `{HC : TBCodec} `{!TigerBeetle St} `{!PeriodWork St} `{!StripeAPI}.
#[local] Abbreviation Bx A := (@B St A).

Definition EnqueueMaintenance (cadence : Z) : Bx unit :=
  forEach (fun job => statement (InsertJob job.1)) (maintenanceJobs cadence).

Definition discard {A} (m : Bx A) : Bx unit := do! _ <- m; mret tt.

(** What the worker of a job runs: Work of the eleven workers.  [fuel] bounds
    the rollovers of one account and [order] lists the operator accounts in
    the order in which Go visits their map. *)
Definition Work (fuel : nat) (order : gmap string ID -> list ID) (job : jobRequest) : Bx unit :=
  match job with
  | ProviderEventApplyArgs eventID => discard (ApplyProviderEvent fuel eventID)
  | ProviderEventApplyPendingArgs limit => discard (ApplyPendingProviderEvents fuel limit)
  | EventDeliveryProjectPendingArgs _ limit => discard (ProjectPendingBillingEventDeliveries limit)
  | LedgerDispatchPendingArgs limit => discard (DispatchPendingLedgerCommands limit)
  | LedgerReconcileArgs limit => discard (ReconcileLedger order limit)
  | ContractUpgradePaymentArgs changeID => discard (CollectContractUpgradePayment changeID)
  | MeteringProjectWindowArgs windowID => discard (ProjectMeteringWindow windowID)
  | MeteringProjectPendingArgs limit => discard (ProjectPendingMeteringWindows limit)
  | DueWorkApplyPendingArgs limit => discard (ApplyPendingDueBillingWork fuel limit)
  | FinalizationRunArgs finalizationID => discard (FinalizeBillingFinalization finalizationID)
  | FinalizationRunPendingArgs limit => discard (FinalizePendingBillingFinalizations limit)
  end.
End Runtime.
