(* ===== verification/Samples.v ===== *)
(** * A concrete run of the service

    A small installation (one product with one priced SKU, the reference
    ledger of Ledger.v) on which the model is executed: the operator accounts
    are bootstrapped, an organisation deposits credits, and a window is
    reserved, activated, settled or voided.  The theorems are evaluated on the
    worlds of this run. *)

From S2P Require Import Prelude GoFloat GoStd GoTime GoFormat Json Types Ids Ledger Charges Grants Store Events.
From S2P Require Import LedgerCommands LedgerGrants Cycles Entitlements WindowStore Windows Dispatcher.
From S2P Require Import Finalizations StripeApi GoURL Stripe.

Module Sample.
Import RefLedger.

(** 2023-11-14 22:13:20 UTC, advancing one millisecond per reading. *)
Definition base_time : time := 1700000000 * second.

#[export] Instance env : Env := {|
  now_at n := base_time + Z.of_nat n * millisecond;
  id_at n := replicate 15 0 ++ [Z.of_nat n mod 255 + 1];
  ledger_configured := true;
  runtime_configured := false;
  stripe_configured := false;
  clickhouse_configured := false;
  clickhouse_accepts _ := true;
  float_overflow _ := 0
|}.

#[export] Instance fresh : FreshIds.
Proof.
  split; intros n; simpl.
  - pose proof (Z.mod_pos_bound (Z.of_nat n) 255 ltac:(lia)). split; [done|].
    repeat (constructor; [unfold is_byte; lia|]). constructor.
  - pose proof (Z.mod_pos_bound (Z.of_nat n) 255 ltac:(lia)). unfold IsZero. apply bool_decide_eq_false.
    unfold zeroID. simpl. intros [= E]. lia.
Qed.

(** A Stripe that accepts and pays everything, and reads an event from a
    payload made of its type and the id and metadata of its object. *)
Definition stripe_payload (type id : string) (metadata : list (string * string)) : string :=
  join_strings ";" (type :: id :: flat_map (fun kv => [kv.1; kv.2]) metadata).

Fixpoint pairs_of (l : list string) : list (string * jsonAny) :=
  match l with
  | k :: v :: l' => (k, AnyText v) :: pairs_of l'
  | _ => []
  end.

Definition sample_event (payload : string) : res stripeEvent :=
  match split_string (chr 59) payload with
  | type :: id :: metadata =>
      Ret (mkStripeEvent ("evt_" +:+ id) type 1700000000 false
             (Some (Some (AnyObject [("id"%string, AnyText id); ("status"%string, AnyText "succeeded");
                                     ("customer"%string, AnyText "cus_sample");
                                     ("metadata"%string, AnyObject (pairs_of metadata))]))))
  | _ => errorf "unexpected payload"
  end.

Definition raw_text (raw : rawMessage) (field : string) : string := stringValue (json_field (unmarshalObject raw) field).
Definition raw_metadata (raw : rawMessage) : gmap string string := stringMap (json_field (unmarshalObject raw) "metadata").

Definition sample_invoice (id status : string) (metadata : gmap string string) : stripeInvoice :=
  mkInvoice id status ("https://pay.example/" +:+ id) "" metadata.

#[export] Instance stripe_api : StripeAPI := {|
  customers_create _ p := Ret ("cus_" +:+ cu_IdempotencyKey p);
  checkout_sessions_create _ p := Ret ("https://checkout.example/" +:+ co_Mode p);
  portal_sessions_create _ customer _ := Ret ("https://portal.example/" +:+ customer);
  setup_intents_retrieve _ id := Ret (mkSetupIntent id "succeeded" ∅ None (Some (mkPaymentMethod "pm_sample" None)));
  invoices_create _ p := Ret (sample_invoice ("in_" +:+ ip_IdempotencyKey p) "draft" (ip_Metadata p));
  invoice_items_create _ _ := Ret tt;
  invoices_finalize _ id := Ret (sample_invoice id "open" ∅);
  invoices_pay _ id _ := Ret (sample_invoice id "paid" ∅);
  construct_event payload signature secret :=
    if decide (signature = secret) then sample_event payload else errorf "webhook had no valid signature";
  decode_event := sample_event;
  decode_setup_intent raw :=
    Ret (mkSetupIntent (raw_text raw "id") (raw_text raw "status") (raw_metadata raw) (Some (raw_text raw "customer"))
           (Some (mkPaymentMethod ("pm_" +:+ raw_text raw "id") None)));
  decode_checkout_session raw := Ret (mkCheckoutSession (raw_text raw "id") "payment" "" (raw_metadata raw) None None);
  decode_payment_intent raw := Ret (mkPaymentIntent (raw_text raw "id") (raw_metadata raw));
  decode_invoice raw := Ret (sample_invoice (raw_text raw "id") (raw_text raw "status") (raw_metadata raw))
|}.

(** URLs cut at the question mark. *)
#[export] Instance net_url : NetURL := {|
  goURL := list Z * list Z;
  url_parse raw := Some (cut_bytes 63 (bytes_of_string raw));
  url_raw_query u := string_of_bytes u.2;
  url_with_query query u := (u.1, bytes_of_string query);
  url_string u := string_of_bytes (u.1 ++ match u.2 with [] => [] | q => 63 :: q end)
|}.

(** A short checksum in the place of SHA-256. *)
#[export] Instance checksum : Digest := fun l =>
  let a := foldl (fun h b => (h * 31 + b) mod 65521) 7 l in
  [a / 256; a mod 256; Z.of_nat (length l) mod 256] ++ replicate 13 0.

Definition org : string := "org-1".
Definition product : string := "vm".

Definition catalog : catalogTables := mkCatalog {[product := mkProductRow "VM" true]}
  {["plan" := mkPlanRow product "Default" "prepaid" "default" "usd" 0 0 true true]}
  [mkRateRow "plan" "cpu" 7 true 0 None]
  {["cpu" := mkSkuRow product "compute" "CPU" "ms" true]} {["compute" := mkBucketRow "Compute" 1]} ∅ [].

Definition db0 : DB := mkDB ∅ ∅ ∅ ∅ ∅ ∅ ∅ ∅ ∅ ∅ ∅ (mkContractTables ∅ ∅ ∅ ∅) (mkDocumentTables ∅ ∅ ∅ ∅) [] catalog ∅
  (mkProviderTables ∅ ∅ ∅).

Definition w0 : world state := mkWorld db0 empty 0 0 None [] [].

Definition credits : GrantBalance :=
  mkGrant org "" "account" "" "" "" "promo" "welcome" "" "v1" "" "" "" base_time None None None 1000000 0 0 0 0 zeroID.

(** One CPU for a minute. *)
Definition request : ReserveRequest :=
  mkRequest org product "actor" 1 "execution" "run-1" 0 "time" 60000 {["cpu" := FFin one_quanta]} 0.

Definition w1 : world state := (EnsureLedgerBootstrapped w0).2.
Definition w2 : world state := (DepositCredits credits w1).2.
Definition w3 : world state := (ReserveWindow 5 request w2).2.

Definition window_id : string :=
  billingWindowID org product "execution" "run-1" 0.
End Sample.
