(* ===== verification/Frames.v ===== *)
(** * What each component may change

    Two relations describe how a database may evolve while windows are not
    involved: [command_le] on a ledger command (its identity and payload are
    fixed, its attempts only grow) and [core_step] on the database (windows
    and legs untouched, commands only grow, new commands are grant deposits).
    [ledger_grows] is how the ledger evolves: stored transfers stay.

    Every handler outside windows.go is shown to stay inside these relations,
    whatever its outcome. *)

From S2P Require Import Prelude GoFloat GoStd GoTime GoFormat Json Types Ids Ledger Charges Grants Store Events.
From S2P Require Import LedgerCommands LedgerGrants Cycles Entitlements.

(** ** Commands *)

Definition command_le (c c' : commandRow) : Prop :=
  c_operation c' = c_operation c /\ c_aggregate_type c' = c_aggregate_type c /\ c_aggregate_id c' = c_aggregate_id c
  /\ c_org_id c' = c_org_id c /\ c_product_id c' = c_product_id c /\ c_idempotency_key c' = c_idempotency_key c
  /\ c_payload c' = c_payload c /\ c_attempts c <= c_attempts c'.

#[export] Instance command_le_preorder : PreOrder command_le.
Proof.
  split.
  - intros c. repeat split; lia.
  - intros c1 c2 c3 H1 H2. unfold command_le in *. destruct_and!. repeat split; congruence || lia.
Qed.

Definition deposit_command (c : commandRow) : Prop :=
  c_operation c = "grant_deposit" /\ c_idempotency_key c = "grant_deposit:" +:+ c_aggregate_id c.

Definition commands_step (d d' : DB) : Prop :=
  (forall id c, db_commands d !! id = Some c -> exists c', db_commands d' !! id = Some c' /\ command_le c c')
  /\ (forall id c', db_commands d' !! id = Some c' ->
        (exists c, db_commands d !! id = Some c /\ command_le c c') \/ deposit_command c').

#[export] Instance commands_step_preorder : PreOrder commands_step.
Proof.
  split.
  - intros d. split; intros id c Hc; [|left]; by exists c.
  - intros d1 d2 d3 [F1 B1] [F2 B2]. split.
    + intros id c Hc. destruct (F1 _ _ Hc) as (c2 & Hc2 & H12). destruct (F2 _ _ Hc2) as (c3 & Hc3 & H23).
      exists c3. split; [done|]. by etrans.
    + intros id c3 Hc3. destruct (B2 _ _ Hc3) as [(c2 & Hc2 & H23)|Hd]; [|by right].
      destruct (B1 _ _ Hc2) as [(c1 & Hc1 & H12)|[Hd1 Hd2]]; [left; exists c1; split; [done|by etrans]|right].
      destruct H23 as (Eop & _ & Eagg & _ & _ & Ekey & _). split; congruence.
Qed.

Definition core_step (d d' : DB) : Prop :=
  windows_untouched d d' /\ commands_step d d' /\ ca_rates (db_catalog d') = ca_rates (db_catalog d).

#[export] Instance core_step_preorder : PreOrder core_step.
Proof.
  split; [by intros d; split|]. intros d1 d2 d3 (H1 & H2 & H3) (H4 & H5 & H6).
  split; [by etrans|]. split; [by etrans|congruence].
Qed.

(** A statement on another table. *)
Lemma core_step_same d d' :
  db_windows d' = db_windows d -> db_legs d' = db_legs d -> db_commands d' = db_commands d ->
  ca_rates (db_catalog d') = ca_rates (db_catalog d) -> core_step d d'.
Proof.
  intros H1 H2 H3 H4. split; [done|]. split; [|done]. split; rewrite H3; intros id c Hc; [|left]; by exists c.
Qed.

Lemma commands_step_update d id c c' :
  db_commands d !! id = Some c -> command_le c c' -> commands_step d (set_commands (<[id := c']> (db_commands d)) d).
Proof.
  intros Hc Hle. split; simpl.
  - intros id0 c0 H0. destruct (decide (id = id0)) as [->|Hne].
    + rewrite lookup_insert_eq. eexists. split; [done|]. congruence.
    + rewrite lookup_insert_ne by done. exists c0. by split.
  - intros id0 c0 [[<- <-]|[Hne H0]]%lookup_insert_Some; left; eauto. exists c0. by split.
Qed.

Lemma core_step_commands d x : commands_step d (set_commands x d) -> core_step d (set_commands x d).
Proof. by split. Qed.

(** The tables that only their own components write: contracts, documents,
    the business clock and what concerns Stripe. *)
Definition elsewhere (d d' : DB) : Prop :=
  db_contracts d' = db_contracts d /\ db_documents d' = db_documents d /\ db_clock d' = db_clock d
  /\ db_providers d' = db_providers d.

(** What the ledger, cycle and entitlement components do: besides, those
    tables are untouched. *)
Definition account_step (d d' : DB) : Prop := core_step d d' /\ elsewhere d d'.

Lemma account_step_same d d' :
  db_windows d' = db_windows d -> db_legs d' = db_legs d -> db_commands d' = db_commands d ->
  db_catalog d' = db_catalog d -> elsewhere d d' -> account_step d d'.
Proof. intros H1 H2 H3 H4 H5. split; [apply core_step_same; congruence|done]. Qed.

Lemma account_step_commands d x : commands_step d (set_commands x d) -> account_step d (set_commands x d).
Proof. intros H. split; [by apply core_step_commands|done]. Qed.

Lemma account_step_refl d : account_step d d.
Proof. by apply account_step_same. Qed.

Section Ledger.
Context {St : Type} `{HC : TBCodec} `{!TigerBeetle St}.

Definition ledger_grows (s s' : St) : Prop :=
  forall id t, tb_transfer s id = Some t -> tb_transfer s' id = Some t.

#[export] Instance ledger_grows_preorder : PreOrder ledger_grows.
Proof. split; [by intros s id t|]. intros s1 s2 s3 H1 H2 id t H. auto. Qed.

Lemma Dispatch_grows connected payload s : ledger_grows s (Dispatch connected payload s).2.
Proof. intros id t. apply Dispatch_transfer_immutable. Qed.
End Ledger.

(** Solve the frame of a statement on tables other than windows, legs and
    commands by unfolding it and following its branches. *)
Ltac stmt_other RD_step :=
  apply evolves_statement; [apply _|apply _|];
  let d := fresh "d" in let a := fresh "a" in let d' := fresh "d'" in let Hs := fresh "Hs" in
  intros d a d' Hs; repeat case_match; inv_ret; repeat case_match; inv_ret; simplify_eq; try done;
  by apply RD_step, account_step_same.

Section Frames.
Context {St : Type} `{HE : Env} `{HD : Digest} `{HC : TBCodec} `{!TigerBeetle St}.
Context (RD : relation DB) `{!PreOrder RD} (RD_step : forall d d', account_step d d' -> RD d d').
Context (RT : relation St) `{!PreOrder RT} (RT_dispatch : forall p s, RT s (Dispatch ledger_configured p s).2).

#[local] Abbreviation ok m := (evolves RD RT m).

Lemma appendEvent_ok event : ok (appendEvent event).
Proof using All.
  apply appendEvent_evolves; [apply _|apply _|]. intros d d' (ev & de & jo & ->). by apply RD_step, account_step_same.
Qed.

#[local] Hint Resolve appendEvent_ok : frame.

Lemma requireLedger_ok : ok requireLedger.
Proof using All. unfold requireLedger. frame. Qed.

#[local] Hint Resolve requireLedger_ok : frame.

Lemma ledgerDispatch_ok p : ok (ledgerDispatch p).
Proof using All. apply evolves_on_ledger; [apply _|apply _|]. intros s. apply RT_dispatch. Qed.

#[local] Hint Resolve ledgerDispatch_ok : frame.

Lemma InsertLedgerAccount_ok key row : ok (statement (InsertLedgerAccount key row)).
Proof using All. unfold InsertLedgerAccount, check_constraint. stmt_other RD_step. Qed.

#[local] Hint Resolve InsertLedgerAccount_ok : frame.

Lemma ensureLedgerAccountTx_ok def : ok (ensureLedgerAccountTx def).
Proof using All. unfold ensureLedgerAccountTx. frame. Qed.

#[local] Hint Resolve ensureLedgerAccountTx_ok : frame.

Lemma bootstrapAccounts_ok defs : ok (bootstrapAccounts defs).
Proof using All. induction defs; simpl; frame. Qed.

#[local] Hint Resolve bootstrapAccounts_ok : frame.

Lemma EnsureLedgerBootstrapped_ok : ok EnsureLedgerBootstrapped.
Proof using All. unfold EnsureLedgerBootstrapped. frame. Qed.

Lemma operatorLedgerAccountsTx_ok : ok operatorLedgerAccountsTx.
Proof using All. unfold operatorLedgerAccountsTx. frame. Qed.

#[local] Hint Resolve operatorLedgerAccountsTx_ok : frame.

(** *** Commands *)

Lemma LeaseLedgerCommand_ok id attempt now : ok (statement (LeaseLedgerCommand id attempt now)).
Proof using All.
  apply evolves_statement; [apply _|apply _|]. intros d a d' Hs. unfold LeaseLedgerCommand, check_constraint in Hs.
  destruct (db_commands d !! id) as [c|] eqn:Hc; [|by simplify_eq].
  destruct (leasable now c); [|by simplify_eq].
  destruct (c_attempts c + 1 <=? i32_max); [|done]. simpl in Hs. simplify_eq.
  apply RD_step, account_step_commands. eapply commands_step_update; [done|]. repeat split; simpl; lia.
Qed.

Lemma MarkLedgerCommandPosted_ok id now : ok (statement (MarkLedgerCommandPosted id now)).
Proof using All.
  apply evolves_statement; [apply _|apply _|]. intros d a d' Hs. unfold MarkLedgerCommandPosted in Hs. simplify_eq.
  apply RD_step, account_step_commands. destruct (db_commands d !! id) as [c|] eqn:Hc.
  - assert (alter (posted now) id (db_commands d) = <[id := posted now c]> (db_commands d)) as ->.
    { apply map_eq. intros i. destruct (decide (id = i)) as [->|Hne].
      - by rewrite lookup_alter_eq, lookup_insert_eq, Hc.
      - by rewrite lookup_alter_ne, lookup_insert_ne by done. }
    eapply commands_step_update; [done|]. repeat split; simpl; lia.
  - rewrite alter_id; [by destruct d|]. intros c Hc'. congruence.
Qed.

Lemma MarkLedgerCommandFailed_ok id st next err dead reason :
  ok (statement (MarkLedgerCommandFailed id st next err dead reason)).
Proof using All.
  apply evolves_statement; [apply _|apply _|]. intros d a d' Hs. unfold MarkLedgerCommandFailed in Hs.
  destruct (db_commands d !! id) as [c|] eqn:Hc; [|by simplify_eq]. inv_ret. simplify_eq.
  apply RD_step, account_step_commands. eapply commands_step_update; [done|]. repeat split; simpl; lia.
Qed.

Lemma InsertLedgerCommand_ok id row :
  deposit_command row -> ok (statement (InsertLedgerCommand id row)).
Proof using All.
  intros Hrow. apply evolves_statement; [apply _|apply _|]. intros d a d' Hs. unfold InsertLedgerCommand in Hs.
  destruct (command_by_key d _); [by simplify_eq|].
  destruct (db_commands d !! id) eqn:Hc; [done|]. simplify_eq. apply RD_step, account_step_commands. split; simpl.
  - intros id0 c0 H0. exists c0. split; [|done]. rewrite lookup_insert_ne by congruence. done.
  - intros id0 c0 [[<- <-]|[Hne H0]]%lookup_insert_Some; [by right|]. left. exists c0. by split.
Qed.

#[local] Hint Resolve LeaseLedgerCommand_ok MarkLedgerCommandPosted_ok MarkLedgerCommandFailed_ok : frame.

Lemma dispatchLedgerCommand_ok id : ok (dispatchLedgerCommand id).
Proof using All.
  unfold dispatchLedgerCommand, leaseLedgerCommand, markLedgerCommandFailed, markLedgerCommandPosted. frame.
Qed.

#[local] Hint Resolve dispatchLedgerCommand_ok : frame.

Lemma createDeposit_ok agg org product payload :
  ok (createLedgerCommandTx "grant_deposit" "credit_grant" agg org product ("grant_deposit:" +:+ agg) payload).
Proof using All. unfold createLedgerCommandTx. frame. by apply InsertLedgerCommand_ok. Qed.

#[local] Hint Resolve createDeposit_ok : frame.

(** *** Grants *)

Lemma MarkGrantLedgerPostingInProgress_ok g : ok (statement (MarkGrantLedgerPostingInProgress g)).
Proof using All. unfold MarkGrantLedgerPostingInProgress. stmt_other RD_step. Qed.

Lemma MarkGrantLedgerPostingPosted_ok g now : ok (statement (MarkGrantLedgerPostingPosted g now)).
Proof using All. unfold MarkGrantLedgerPostingPosted. stmt_other RD_step. Qed.

Lemma MarkGrantLedgerPostingFailed_ok g e : ok (statement (MarkGrantLedgerPostingFailed g e)).
Proof using All. unfold MarkGrantLedgerPostingFailed. stmt_other RD_step. Qed.

#[local] Hint Resolve MarkGrantLedgerPostingInProgress_ok MarkGrantLedgerPostingPosted_ok
  MarkGrantLedgerPostingFailed_ok : frame.

Lemma unixMillis_ok t : ok (unixMillis t).
Proof using All. unfold unixMillis. frame. Qed.

#[local] Hint Resolve unixMillis_ok : frame.

Lemma grantDepositPayload_ok ops g : ok (grantDepositPayload ops g).
Proof using All. unfold grantDepositPayload. frame. Qed.

#[local] Hint Resolve grantDepositPayload_ok : frame.

Lemma markGrantLedgerPostingPosted_ok g : ok (markGrantLedgerPostingPosted g).
Proof using All. unfold markGrantLedgerPostingPosted. frame. Qed.

Lemma markGrantLedgerPostingFailed_ok g e : ok (markGrantLedgerPostingFailed g e).
Proof using All. unfold markGrantLedgerPostingFailed. frame. Qed.

#[local] Hint Resolve markGrantLedgerPostingPosted_ok markGrantLedgerPostingFailed_ok : frame.

Lemma postGrantDeposit_ok g : ok (postGrantDeposit g).
Proof using All. unfold postGrantDeposit, createGrantDepositTx, loadGrantLedgerRowTx. frame. Qed.

#[local] Hint Resolve postGrantDeposit_ok : frame.

Lemma postDeposits_ok l n : ok (postDeposits l n).
Proof using All. revert n. induction l; intros n; simpl; frame. Qed.

#[local] Hint Resolve postDeposits_ok : frame.

Lemma PostPendingGrantDeposits_ok org product : ok (PostPendingGrantDeposits org product).
Proof using All. unfold PostPendingGrantDeposits. frame. Qed.

#[local] Hint Resolve PostPendingGrantDeposits_ok : frame.

(** *** Cycles and entitlements *)

Lemma put_cycle_same id row d d' :
  put_cycle id row d = Ret d' ->
  db_windows d' = db_windows d /\ db_legs d' = db_legs d /\ db_commands d' = db_commands d
  /\ db_catalog d' = db_catalog d /\ elsewhere d d'.
Proof using All.
  unfold put_cycle, check_constraint. intros Hs. inv_ret. case_match; [done|]. by simplify_eq.
Qed.

Lemma upsertCycle_ok k id row : ok (statement (upsertCycle k id row)).
Proof using All.
  apply evolves_statement; [apply _|apply _|]. intros d a d' Hs. unfold upsertCycle in Hs.
  repeat case_match; inv_ret; simplify_eq; try done; apply RD_step, account_step_same;
    match goal with Hp : put_cycle _ _ _ = _ |- _ => apply put_cycle_same in Hp; by destruct_and! end.
Qed.

Lemma CloseCycleForUsage_ok id t : ok (statement (CloseCycleForUsage id t)).
Proof using All.
  apply evolves_statement; [apply _|apply _|]. intros d a d' Hs. unfold CloseCycleForUsage in Hs.
  repeat case_match; inv_ret; simplify_eq; try done; apply RD_step, account_step_same;
    match goal with Hp : put_cycle _ _ _ = _ |- _ => apply put_cycle_same in Hp; by destruct_and! end.
Qed.

Lemma LinkSuccessorBillingCycle_ok id s : ok (statement (LinkSuccessorBillingCycle id s)).
Proof using All. unfold LinkSuccessorBillingCycle. stmt_other RD_step. Qed.

Lemma InsertDefaultOrg_ok org : ok (statement (InsertDefaultOrg org)).
Proof using All. unfold InsertDefaultOrg. stmt_other RD_step. Qed.

#[local] Hint Resolve upsertCycle_ok CloseCycleForUsage_ok LinkSuccessorBillingCycle_ok InsertDefaultOrg_ok : frame.

Lemma ensureDefaultOrgTx_ok org : ok (ensureDefaultOrgTx org).
Proof using All. unfold ensureDefaultOrgTx. frame. Qed.

#[local] Hint Resolve ensureDefaultOrgTx_ok : frame.

Lemma queryAt_ok {A} t (f : time -> DB -> option A) : ok (queryAt t f).
Proof using All. unfold queryAt. frame. Qed.

#[local] Hint Resolve queryAt_ok : frame.

Lemma upsertCycleTx_ok k o p c : ok (upsertCycleTx k o p c).
Proof using All. unfold upsertCycleTx. frame. Qed.

#[local] Hint Resolve upsertCycleTx_ok : frame.

Lemma openBillingCycleContainingTx_ok o p t : ok (openBillingCycleContainingTx o p t).
Proof using All. unfold openBillingCycleContainingTx. frame. Qed.

#[local] Hint Resolve openBillingCycleContainingTx_ok : frame.

Lemma ensureOpenBillingCycleTx_ok o p t : ok (ensureOpenBillingCycleTx o p t).
Proof using All. unfold ensureOpenBillingCycleTx, anyOpenBillingCycleTx. frame. Qed.

#[local] Hint Resolve ensureOpenBillingCycleTx_ok : frame.

Lemma InsertEntitlementPeriod_ok id row : ok (statement (InsertEntitlementPeriod id row)).
Proof using All. unfold InsertEntitlementPeriod, check_constraint. stmt_other RD_step. Qed.

Lemma InsertCreditGrant_ok id row : ok (statement (InsertCreditGrant id row)).
Proof using All. unfold InsertCreditGrant, check_constraint. stmt_other RD_step. Qed.

Lemma ReopenPeriod_ok i o a s e : ok (statement (ReopenMaterializedEntitlementPeriod i o a s e)).
Proof using All. unfold ReopenMaterializedEntitlementPeriod. stmt_other RD_step. Qed.

Lemma ReopenGrant_ok i o s e : ok (statement (ReopenMaterializedCreditGrant i o s e)).
Proof using All. unfold ReopenMaterializedCreditGrant. stmt_other RD_step. Qed.

#[local] Hint Resolve InsertEntitlementPeriod_ok InsertCreditGrant_ok ReopenPeriod_ok ReopenGrant_ok : frame.

Lemma insertEntitlementAndGrantTx_ok i : ok (insertEntitlementAndGrantTx i).
Proof using All. unfold insertEntitlementAndGrantTx, reopenMaterializedEntitlementAndGrantTx. frame. Qed.

#[local] Hint Resolve insertEntitlementAndGrantTx_ok : frame.

Lemma ensureCurrentEntitlements_ok o p : ok (ensureCurrentEntitlements o p).
Proof using All. unfold ensureCurrentEntitlements, materializeFreeTierTx, materializeActiveContractTx. frame. Qed.

#[local] Hint Resolve ensureCurrentEntitlements_ok : frame.

Lemma DepositCredits_ok g : ok (DepositCredits g).
Proof using All. unfold DepositCredits. frame. Qed.

Lemma grantBalancesTx_ok o p : ok (grantBalancesTx o p).
Proof using All.
  unfold grantBalancesTx, balancesOfRows, hydrateGrantLedgerBalances, grantAuthorizedUsage, rowsAt. frame.
Qed.
(** *** The rollover, over any period work that stays inside [RD] *)

Context `{!PeriodWork St}.
Context (due_ok : forall o p c t, ok (applyDueContractChangesTx o p c t)).
Context (finalization_ok : forall o p c t, ok (ensureCycleFinalizationTx o p c t)).
Context (finalize_ok : forall id, ok (FinalizeBillingFinalization id)).

#[local] Hint Resolve due_ok finalization_ok finalize_ok : frame.

Lemma rollDueCycleTx_ok o p : ok (rollDueCycleTx o p).
Proof using All.
  unfold rollDueCycleTx, nextDueOpenCycleTx, closeCycleForUsageTx, openSuccessorCycleTx. frame.
Qed.

#[local] Hint Resolve rollDueCycleTx_ok : frame.

Lemma ApplyDueBillingWork_ok fuel o p : ok (ApplyDueBillingWork fuel o p).
Proof using All.
  unfold ApplyDueBillingWork. generalize (mkDueWork 0 0). induction fuel as [|fuel IH]; intros s; simpl; frame.
Qed.

#[local] Hint Resolve ApplyDueBillingWork_ok : frame.

Lemma EnsureCurrentEntitlements_ok fuel o p : ok (EnsureCurrentEntitlements fuel o p).
Proof using All. unfold EnsureCurrentEntitlements. frame. Qed.

Lemma EnsureOpenBillingCycle_ok fuel o p : ok (EnsureOpenBillingCycle fuel o p).
Proof using All. unfold EnsureOpenBillingCycle. frame. Qed.
End Frames.

(** ** At [core_step] *)

Section Core.
Context {St : Type} `{HE : Env} `{HD : Digest} `{HC : TBCodec} `{!TigerBeetle St}.
Context (RT : relation St) `{!PreOrder RT} (RT_dispatch : forall p s, RT s (Dispatch ledger_configured p s).2).
#[local] Abbreviation ok m := (evolves core_step RT m).

Lemma account_core d d' : account_step d d' -> core_step d d'.
Proof using All. by intros [H _]. Qed.

Lemma appendEvent_core event : ok (appendEvent event).
Proof using All. by apply appendEvent_ok; [apply _|apply account_core|apply _|..]. Qed.

Lemma requireLedger_core : ok requireLedger.
Proof using All. by apply requireLedger_ok; [apply _|apply account_core|apply _|..]. Qed.

Lemma EnsureLedgerBootstrapped_core : ok EnsureLedgerBootstrapped.
Proof using All. by apply EnsureLedgerBootstrapped_ok; [apply _|apply account_core|apply _|..]. Qed.

Lemma operatorLedgerAccountsTx_core : ok operatorLedgerAccountsTx.
Proof using All. by apply operatorLedgerAccountsTx_ok; [apply _|apply account_core|apply _|..]. Qed.

Lemma dispatchLedgerCommand_core id : ok (dispatchLedgerCommand id).
Proof using All. by apply dispatchLedgerCommand_ok; [apply _|apply account_core|apply _|..]. Qed.

Lemma unixMillis_core t : ok (unixMillis t).
Proof using All. by apply unixMillis_ok; [apply _|apply account_core|apply _|..]. Qed.

Lemma markGrantLedgerPostingPosted_core g : ok (markGrantLedgerPostingPosted g).
Proof using All. by apply markGrantLedgerPostingPosted_ok; [apply _|apply account_core|apply _|..]. Qed.

Lemma ensureDefaultOrgTx_core org : ok (ensureDefaultOrgTx org).
Proof using All. by apply ensureDefaultOrgTx_ok; [apply _|apply account_core|apply _|..]. Qed.

Lemma ensureOpenBillingCycleTx_core o p t : ok (ensureOpenBillingCycleTx o p t).
Proof using All. by apply ensureOpenBillingCycleTx_ok; [apply _|apply account_core|apply _|..]. Qed.

Lemma DepositCredits_core g : ok (DepositCredits g).
Proof using All. by apply DepositCredits_ok; [apply _|apply account_core|apply _|..]. Qed.

Lemma grantBalancesTx_core o p : ok (grantBalancesTx o p).
Proof using All. by apply grantBalancesTx_ok; [apply _|apply account_core|apply _|..]. Qed.

Lemma PostPendingGrantDeposits_core o p : ok (PostPendingGrantDeposits o p).
Proof using All. by apply PostPendingGrantDeposits_ok; [apply _|apply account_core|apply _|..]. Qed.

Lemma ensureCurrentEntitlements_core o p : ok (ensureCurrentEntitlements o p).
Proof using All. by apply ensureCurrentEntitlements_ok; [apply _|apply account_core|apply _|..]. Qed.

Lemma MarkLedgerCommandPosted_core id now : ok (statement (MarkLedgerCommandPosted id now)).
Proof using All. by apply MarkLedgerCommandPosted_ok; [apply _|apply account_core|apply _|..]. Qed.

Context `{!PeriodWork St}.

Lemma periods_core {A} (m : @B St A) : evolves periods_frame eq m -> ok m.
Proof using All.
  apply evolves_mono; [apply _|apply _| |by intros s s' ->].
  intros d d' ([H1 H2] & H3 & H4). by apply core_step_same.
Qed.

#[local] Hint Resolve periods_core applyDueContractChanges_frame ensureCycleFinalization_frame
  FinalizeBillingFinalization_frame : frame.

Lemma ApplyDueBillingWork_core fuel o p : ok (ApplyDueBillingWork fuel o p).
Proof using All. apply ApplyDueBillingWork_ok; [apply _|apply account_core|apply _|done|auto with frame..]. Qed.

Lemma EnsureOpenBillingCycle_core fuel o p : ok (EnsureOpenBillingCycle fuel o p).
Proof using All. apply EnsureOpenBillingCycle_ok; [apply _|apply account_core|apply _|done|auto with frame..]. Qed.

Lemma EnsureCurrentEntitlements_core fuel o p : ok (EnsureCurrentEntitlements fuel o p).
Proof using All. apply EnsureCurrentEntitlements_ok; [apply _|apply account_core|apply _|done|auto with frame..]. Qed.
End Core.
