(* ===== verification/PeriodSystem.v ===== *)
(** * Contracts and documents as a transition system

    [period_stmt] lists the statements of contracts.sql, finalizations.sql,
    clock.sql and stripe.sql through which the service writes contracts, phases, entitlement lines,
    contract changes, finalizations, documents and document numbers;
    [period_step] is one of them, or any change that leaves those tables
    alone.  Every handler of the service evolves the database along
    [rtc period_step], so what is proved by induction on the steps holds of
    every handler and of every interleaving of handlers. *)

From stdpp Require Import relations.
From S2P Require Import Prelude GoFloat GoStd GoTime GoFormat Json Types Ids Ledger Charges Grants Store Events.
From S2P Require Import LedgerCommands LedgerGrants Cycles Entitlements ContractStore DocumentStore.
From S2P Require Import DueChanges.
From S2P Require Import WindowStore Windows Statements Finalizations Dispatcher Contracts Catalog Clock StripeStore.
From S2P Require Import Frames.

(** The reset to the wall clock shifts contracts in these states. *)
Definition shiftable (id : string) (d : DB) : bool :=
  match contracts_of d !! id with
  | Some c => bool_decide (ct_state c ∈ [KActive; KPastDue; KCancelScheduled])
  | None => false
  end.

Inductive period_stmt : forall A : Type, (DB -> res (A * DB)) -> Prop :=
| ps_schedule_cancel id org t : period_stmt unit (ScheduleContractCancellation id org t)
| ps_restore id org : period_stmt unit (RestoreContractDuringResume id org)
| ps_upgraded id org name : period_stmt unit (UpdateUpgradedContract id org name)
| ps_close_canceled id org t : period_stmt unit (CloseCanceledContract id org t)
| ps_downgraded id org name : period_stmt unit (UpdateDowngradedContract id org name)
| ps_contract id org p name t : period_stmt unit (UpsertContract id org p name t)
| ps_internal_contract id org p name t : period_stmt unit (UpsertInternalContract id org p name t)
| ps_phase_cancel id org t : period_stmt unit (ScheduleContractPhaseCancellation id org t)
| ps_phase_restore id org p t : period_stmt unit (RestorePhaseBoundaryDuringCancelResume id org p t)
| ps_phase_supersede ph id t : period_stmt (option (time * string)) (SupersedeContractPhaseForUpgrade ph id t)
| ps_phase_link ph id b : period_stmt unit (LinkSupersededContractPhase ph id b)
| ps_phase_close ph id t : period_stmt Z (CloseContractPhase ph id t)
| ps_internal_phase ph id org p pl cur t : period_stmt unit (UpsertInternalContractPhase ph id org p pl cur t)
| ps_phase ph id org p pl st pay cur u t : period_stmt unit (UpsertContractPhase ph id org p pl st pay cur u t)
| ps_line id row : period_stmt unit (UpsertContractEntitlementLine id row)
| ps_cancel_change id c org p t r : period_stmt unit (InsertCancellationContractChange id c org p t r)
| ps_downgrade_change id c org p a b pl t r : period_stmt unit (InsertScheduledDowngrade id c org p a b pl t r)
| ps_upgrade_change id row : period_stmt unit (InsertUpgradeContractChange id row)
| ps_cancel_changes c org p : period_stmt unit (CancelScheduledContractChangesForResume c org p)
| ps_upgrade_applied id t inv : period_stmt unit (MarkUpgradeContractChangeApplied id t inv)
| ps_applying id : period_stmt unit (MarkContractChangeApplying id)
| ps_applied id t : period_stmt unit (MarkContractChangeApplied id t)
| ps_cycle_finalization id c org p t : period_stmt Z (InsertCycleFinalization id c org p t)
| ps_upgrade_finalization id ch c org p t : period_stmt unit (InsertUpgradeFinalization id ch c org p t)
| ps_claim id : period_stmt (option finalizationRow) (ClaimBillingFinalization id)
| ps_fail id e : period_stmt unit (FailBillingFinalization id e)
| ps_issued id st doc k v pol u a t : period_stmt unit (UpdateBillingFinalizationIssued id st doc k v pol u a t)
| ps_link_document id doc : period_stmt unit (LinkUpgradeDocumentFinalization id doc)
| ps_finalization_paid id doc t : period_stmt unit (MarkUpgradeFinalizationPaid id doc t)
| ps_link_cycle c f : period_stmt unit (LinkCycleFinalization c f)
| ps_cycle_finalized c f t : period_stmt unit (MarkBillingCycleFinalized c f t)
| ps_document id row : period_stmt unit (InsertBillingDocument id row)
| ps_document_paid id inv t : period_stmt unit (MarkUpgradeDocumentPaid id inv t)
| ps_document_line id row : period_stmt unit (InsertBillingDocumentLineItem id row)
| ps_allocator y : period_stmt unit (EnsureDocumentNumberAllocator y)
| ps_advance y : period_stmt unit (AdvanceDocumentNumberAllocator y)
| ps_shift_contract id t : period_stmt unit (guarded (shiftable id) (ShiftActiveContractToWallClock id t))
| ps_shift_phase id t : period_stmt unit (ShiftActiveContractPhaseToWallClock id t)
| ps_invoice_document id inv h pdf st pay : period_stmt unit (UpdateUpgradeInvoiceProviderDocument id inv h pdf st pay)
| ps_invoice_change id inv pay : period_stmt unit (UpdateUpgradeInvoiceProviderChange id inv pay)
| ps_failed_document ch inv h : period_stmt unit (MarkInvoicePaymentFailedDocument ch inv h)
| ps_failed_finalization id : period_stmt unit (MarkInvoicePaymentFailedFinalization id).

Create HintDb period discriminated.
#[export] Hint Constructors period_stmt : period.

Definition period_write (d d' : DB) : Prop := exists A f a, period_stmt A f /\ f d = Ret (a, d').

Inductive period_step (d d' : DB) : Prop :=
| period_step_write : period_write d d' -> period_step d d'
| period_step_other : db_contracts d' = db_contracts d -> db_documents d' = db_documents d -> period_step d d'.

(** ** The period work *)

Section PeriodWorkFrames.
Context {St : Type} `{HE : Env} `{HD : Digest} (RD : relation DB) (RT : relation St) `{!PreOrder RD} `{!PreOrder RT}.
Context (RD_events : forall d d', events_only d d' -> RD d d') (RD_write : forall d d', period_write d d' -> RD d d').
#[local] Abbreviation ok m := (evolves (St := St) RD RT m).

Lemma period_stmt_evolves {A} (f : DB -> res (A * DB)) : period_stmt A f -> ok (statement f).
Proof using All. intros Hf. apply evolves_statement; [apply _..|]. intros d a d' H. apply RD_write. by exists A, f, a. Qed.

#[local] Hint Extern 1 (evolves RD RT (statement _)) => apply period_stmt_evolves; solve [auto with period nocore] : frame.

Lemma listAt_evolves {A} t (f : time -> DB -> list A) : ok (listAt t f).
Proof using All. unfold listAt. frame. Qed.

Lemma queryAt_evolves {A} t (f : time -> DB -> option A) : ok (queryAt t f).
Proof using All. unfold queryAt. frame. Qed.

Lemma planEntitlementPolicies_evolves p : ok (planEntitlementPolicies p).
Proof using All. unfold planEntitlementPolicies. frame. Qed.

Lemma loadPlan_evolves p : ok (loadPlan p).
Proof using All. unfold loadPlan. frame. Qed.

#[local] Hint Resolve listAt_evolves queryAt_evolves planEntitlementPolicies_evolves loadPlan_evolves : frame.

Lemma insertContractPhaseTx_evolves o p c ph pl st pay t : ok (insertContractPhaseTx o p c ph pl st pay t).
Proof using All. unfold insertContractPhaseTx. frame. Qed.

Lemma copyPlanEntitlementLinesTx_evolves o p c ph ps t : ok (copyPlanEntitlementLinesTx o p c ph ps t).
Proof using All. unfold copyPlanEntitlementLinesTx, copyPlanEntitlementLine. frame. Qed.

Lemma closeContractPhaseTx_evolves o p cy ch ph pl r : ok (closeContractPhaseTx o p cy ch ph pl r).
Proof using All. unfold closeContractPhaseTx. frame. Qed.

#[local] Hint Resolve insertContractPhaseTx_evolves copyPlanEntitlementLinesTx_evolves closeContractPhaseTx_evolves : frame.

Lemma applyScheduledCancelTx_evolves o p cy t ch : ok (applyScheduledCancelTx o p cy t ch).
Proof using All. unfold applyScheduledCancelTx, markContractChangeApplyingTx, markContractChangeAppliedTx. frame. Qed.

Lemma applyScheduledDowngradeTx_evolves o p cy t ch : ok (applyScheduledDowngradeTx o p cy t ch).
Proof using All.
  unfold applyScheduledDowngradeTx, markContractChangeApplyingTx, markContractChangeAppliedTx, downgradeEvents,
    activePhaseAtTx, phasePlanIDTx. frame.
Qed.

#[local] Hint Resolve applyScheduledCancelTx_evolves applyScheduledDowngradeTx_evolves : frame.

Lemma applyDueContractChanges_evolves o p cy t : ok (applyDueContractChanges o p cy t).
Proof using All. unfold applyDueContractChanges, applyDueChangeTx. frame. Qed.

Lemma ensureCycleFinalization_evolves o p c t : ok (ensureCycleFinalization o p c t).
Proof using All. unfold ensureCycleFinalization. frame. Qed.

Lemma allocateDocumentNumberTx_evolves t : ok (allocateDocumentNumberTx t).
Proof using All. unfold allocateDocumentNumberTx. frame. Qed.

#[local] Hint Resolve allocateDocumentNumberTx_evolves : frame.

Lemma insertFinalizationDocument_evolves f c s t pl : ok (insertFinalizationDocument f c s t pl).
Proof using All. unfold insertFinalizationDocument, insertDocumentLineItemsTx, insertDocumentLineItem. frame. Qed.

#[local] Hint Resolve insertFinalizationDocument_evolves : frame.

Lemma issueFinalizationDocument_evolves f c s t u a v : ok (issueFinalizationDocument f c s t u a v).
Proof using All. unfold issueFinalizationDocument, issueDocumentTx, finalizationEvents. frame. Qed.

Lemma loadWindows_evolves ids : ok (loadWindows ids).
Proof using All. induction ids; simpl; unfold loadWindow; frame. Qed.

#[local] Hint Resolve issueFinalizationDocument_evolves loadWindows_evolves : frame.

Lemma finalizeClaimed_evolves f : ok (finalizeClaimed f).
Proof using All.
  unfold finalizeClaimed, loadBillingCycle, statementForCycle, statementWindows, cycleHasPaidContractOverlap. frame.
Qed.

#[local] Hint Resolve finalizeClaimed_evolves : frame.

Lemma FinalizeFinalization_evolves id : ok (FinalizeFinalization id).
Proof using All. unfold FinalizeFinalization, claimBillingFinalization, failBillingFinalization. frame. Qed.

#[local] Hint Resolve FinalizeFinalization_evolves : frame.

Lemma finalizeAll_evolves ids n : ok (finalizeAll ids n).
Proof using All. revert n. induction ids; intros n; simpl; frame. Qed.

#[local] Hint Resolve finalizeAll_evolves : frame.

Lemma FinalizePendingBillingFinalizations_evolves n : ok (FinalizePendingBillingFinalizations n).
Proof using All. unfold FinalizePendingBillingFinalizations. frame. Qed.
End PeriodWorkFrames.

(** ** The handlers outside windows.go *)

Section HandlerFrames.
Context {St : Type} `{HE : Env} `{HD : Digest} `{HC : TBCodec} `{!TigerBeetle St}.
Context (RD : relation DB) `{!PreOrder RD} (RD_step : forall d d', account_step d d' -> RD d d').
Context (RT : relation St) `{!PreOrder RT} (RT_dispatch : forall p s, RT s (Dispatch ledger_configured p s).2).
Context (RD_write : forall d d', period_write d d' -> RD d d').
#[local] Abbreviation ok m := (evolves (St := St) RD RT m).

Lemma events_evolve d d' : events_only d d' -> RD d d'.
Proof using All. intros (ev & de & jo & ->). by apply RD_step, account_step_same. Qed.

Lemma stmt_evolves {A} (f : DB -> res (A * DB)) : period_stmt A f -> ok (statement f).
Proof using All. apply period_stmt_evolves; [apply _..| |done]. apply events_evolve. Qed.

#[local] Hint Extern 1 (evolves RD RT (statement _)) => apply stmt_evolves; solve [auto with period nocore] : frame.

Lemma append_evolves ev : ok (appendEvent ev).
Proof using All. apply appendEvent_evolves; [apply _..|]. apply events_evolve. Qed.

Lemma job_evolves job : ok (statement (InsertJob job)).
Proof using All. apply enqueue_evolves; [apply _..|]. apply events_evolve. Qed.

#[local] Hint Resolve append_evolves job_evolves : frame.

Lemma CloseFreeCycle_evolves id t : ok (statement (CloseFreeCycleAtActivation id t)).
Proof using All.
  apply evolves_statement; [apply _|apply _|]. intros d a d' Hs. unfold CloseFreeCycleAtActivation in Hs.
  repeat case_match; inv_ret; simplify_eq; try done; apply RD_step, account_step_same;
    match goal with Hp : put_cycle _ _ _ = _ |- _ => apply (put_cycle_same RD RD_step RT RT_dispatch) in Hp; by destruct_and! end.
Qed.

Lemma put_org_evolves id o d d' : put_org id o d = Ret d' -> RD d d'.
Proof using All. apply put_row_writes; [apply _|]. intros x. by apply RD_step, account_step_same. Qed.

Lemma UpsertOrg_evolves o n t : ok (statement (UpsertOrgReturning o n t)).
Proof using All.
  apply evolves_statement; [apply _..|]. intros d a d' Hs. unfold UpsertOrgReturning in Hs. inv_ret. simplify_eq.
  by eapply put_org_evolves.
Qed.

Lemma SetOrgTrustTier_evolves o t : ok (statement (SetOrgTrustTier o t)).
Proof using All.
  apply evolves_statement; [apply _..|]. intros d a d' Hs. unfold SetOrgTrustTier in Hs.
  case_match; inv_ret; simplify_eq; [|done]. by eapply put_org_evolves.
Qed.

#[local] Hint Resolve CloseFreeCycle_evolves UpsertOrg_evolves SetOrgTrustTier_evolves : frame.

(** *** Deliveries *)

Lemma delivery_evolves {A} (f : DB -> res (A * DB)) :
  (forall d a d', f d = Ret (a, d') -> exists de, d' = set_deliveries de d) -> ok (statement f).
Proof using All.
  intros Hf. apply evolves_statement; [apply _..|]. intros d a d' Hs. destruct (Hf _ _ _ Hs) as [de ->].
  by apply RD_step, account_step_same.
Qed.

Lemma Claim_evolves l b a s n t : ok (statement (ClaimBillingEventDeliveries l b a s n t)).
Proof using All. apply delivery_evolves. intros d x d' [= _ <-]. by eexists. Qed.

Lemma Succeeded_evolves k : ok (statement (MarkBillingEventDeliverySucceeded k)).
Proof using All. apply delivery_evolves. intros d x d' [= _ <-]. by eexists. Qed.

Lemma Failed_evolves r e k t : ok (statement (MarkBillingEventDeliveryFailed r e k t)).
Proof using All. apply delivery_evolves. intros d x d' [= _ <-]. by eexists. Qed.

#[local] Hint Resolve Claim_evolves Succeeded_evolves Failed_evolves : frame.

Lemma projectDeliveries_evolves l n : ok (projectDeliveries l n).
Proof using All. revert n. induction l; intros n; simpl; unfold projectBillingEventDelivery; frame. Qed.

#[local] Hint Resolve projectDeliveries_evolves : frame.

Lemma ProjectDeliveries_evolves n : ok (ProjectPendingBillingEventDeliveries n).
Proof using All. unfold ProjectPendingBillingEventDeliveries. frame. Qed.

(** *** Due work *)

Lemma due_evolves o p c t : ok (applyDueContractChangesTx o p c t).
Proof using All. apply applyDueContractChanges_evolves; [apply _..| |done]. apply events_evolve. Qed.

Lemma finalization_evolves o p c t : ok (ensureCycleFinalizationTx o p c t).
Proof using All. apply ensureCycleFinalization_evolves; [apply _..| |done]. apply events_evolve. Qed.

Lemma finalize_evolves id : ok (FinalizeBillingFinalization id).
Proof using All. apply FinalizeFinalization_evolves; [apply _..| |done]. apply events_evolve. Qed.

#[local] Hint Resolve due_evolves finalization_evolves finalize_evolves : frame.

Lemma rollDue_evolves o p : ok (rollDueCycleTx o p).
Proof using All. apply rollDueCycleTx_ok; [apply _|done|apply _|done|auto with frame..]. Qed.

Lemma ApplyDue_evolves fuel o p : ok (ApplyDueBillingWork fuel o p).
Proof using All. apply ApplyDueBillingWork_ok; [apply _|done|apply _|done|auto with frame..]. Qed.

Lemma EnsureOpen_evolves fuel o p : ok (EnsureOpenBillingCycle fuel o p).
Proof using All. apply EnsureOpenBillingCycle_ok; [apply _|done|apply _|done|auto with frame..]. Qed.

Lemma EnsureCurrent_evolves fuel o p : ok (EnsureCurrentEntitlements fuel o p).
Proof using All. apply EnsureCurrentEntitlements_ok; [apply _|done|apply _|done|auto with frame..]. Qed.

Lemma ensureCurrent_evolves o p : ok (ensureCurrentEntitlements o p).
Proof using All. by apply ensureCurrentEntitlements_ok; [apply _|done|apply _|..]. Qed.

Lemma PostDeposits_evolves o p : ok (PostPendingGrantDeposits o p).
Proof using All. by apply PostPendingGrantDeposits_ok; [apply _|done|apply _|..]. Qed.

#[local] Hint Resolve ApplyDue_evolves EnsureOpen_evolves EnsureCurrent_evolves ensureCurrent_evolves PostDeposits_evolves : frame.

(** *** Contracts *)

Lemma plan_policies_evolves p : ok (planEntitlementPolicies p).
Proof using All. unfold planEntitlementPolicies. frame. Qed.

Lemma load_plan_evolves p : ok (loadPlan p).
Proof using All. unfold loadPlan. frame. Qed.

Lemma query_at_evolves {A} t (f : time -> DB -> option A) : ok (queryAt t f).
Proof using All. unfold queryAt. frame. Qed.

Lemma list_at_evolves {A} t (f : time -> DB -> list A) : ok (listAt t f).
Proof using All. unfold listAt. frame. Qed.

Lemma insert_phase_evolves o p c ph pl st pay t : ok (insertContractPhaseTx o p c ph pl st pay t).
Proof using All. apply insertContractPhaseTx_evolves; [apply _..| |done]. apply events_evolve. Qed.

Lemma copy_lines_evolves o p c ph ps t : ok (copyPlanEntitlementLinesTx o p c ph ps t).
Proof using All. apply copyPlanEntitlementLinesTx_evolves; [apply _..| |done]. apply events_evolve. Qed.

Lemma allocate_evolves t : ok (allocateDocumentNumberTx t).
Proof using All. apply allocateDocumentNumberTx_evolves; [apply _..| |done]. apply events_evolve. Qed.

Lemma period_evolves id row : ok (statement (InsertEntitlementPeriod id row)).
Proof using All. by apply InsertEntitlementPeriod_ok; [apply _|done|apply _|..]. Qed.

Lemma grant_evolves id row : ok (statement (InsertCreditGrant id row)).
Proof using All. by apply InsertCreditGrant_ok; [apply _|done|apply _|..]. Qed.

#[local] Hint Resolve plan_policies_evolves load_plan_evolves query_at_evolves list_at_evolves insert_phase_evolves
  copy_lines_evolves allocate_evolves period_evolves grant_evolves : frame.

Lemma GetContract_evolves fuel o c : ok (GetContract fuel o c).
Proof using All. unfold GetContract. frame. Qed.

#[local] Hint Resolve GetContract_evolves : frame.

Lemma CancelContract_evolves fuel o c : ok (CancelContract fuel o c).
Proof using All. unfold CancelContract, cancelContractTx. frame. Qed.

Lemma resumeCurrentPlan_evolves o c : ok (resumeCurrentPlan o c).
Proof using All. unfold resumeCurrentPlan, resumeTx, cancelScheduledChange. frame. Qed.

Lemma scheduleDowngrade_evolves fuel o c pl : ok (scheduleDowngrade fuel o c pl).
Proof using All. unfold scheduleDowngrade. frame. Qed.

Lemma prepareUpgradeQuote_evolves fuel o c pl pl' : ok (prepareUpgradeQuote fuel o c pl pl').
Proof using All. unfold prepareUpgradeQuote. frame. Qed.

Lemma insertPendingUpgrade_evolves q : ok (insertPendingUpgrade q).
Proof using All. unfold insertPendingUpgrade, requestUpgradeTx. frame. Qed.

Lemma applyUpgradeTx_evolves q inv : ok (applyUpgradeTx q inv).
Proof using All.
  unfold applyUpgradeTx, upgradeEffectsTx, upgradePhasesTx, supersedeContractPhaseForUpgradeTx, insertUpgradeDeltaGrantTx. frame.
Qed.

#[local] Hint Resolve applyUpgradeTx_evolves : frame.

Lemma applyPaidUpgrade_evolves q inv : ok (applyPaidUpgrade q inv).
Proof using All. unfold applyPaidUpgrade. frame. Qed.

Lemma splitCycle_evolves o p t : ok (splitCycleForContractActivationTx o p t).
Proof using All.
  pose proof (fun k o p c => upsertCycleTx_ok (St := St) RD RD_step RT RT_dispatch k o p c) as Hu.
  pose proof (fun i s => LinkSuccessorBillingCycle_ok (St := St) RD RD_step RT RT_dispatch i s) as Hl.
  unfold splitCycleForContractActivationTx, insertActivationCycleTx, openBillingCycleContainingTx. frame.
Qed.

#[local] Hint Resolve splitCycle_evolves CancelContract_evolves : frame.

Lemma activateCatalogContract_evolves o p pl c ph t t' : ok (activateCatalogContract o p pl c ph t t').
Proof using All. unfold activateCatalogContract, activateContractTx, insertContractTx, finalizeFreeCycle. frame. Qed.

Lemma activatePromotion_evolves o p pl c ph t t' : ok (activateInternalPromotionalContract o p pl c ph t t').
Proof using All.
  unfold activateInternalPromotionalContract, activatePromotionTx, closePhaseForPromotion, insertInternalContractTx,
    insertInternalPromotionalContractPhaseTx, finalizeFreeCycle. frame.
Qed.

#[local] Hint Resolve activatePromotion_evolves : frame.

(** *** Catalogue *)

Lemma EnsureOrgRecord_evolves fuel o n t : ok (EnsureOrgRecord fuel o n t).
Proof using All. unfold EnsureOrgRecord, ensureOrgTx, bootstrapProduct. frame. Qed.

Lemma SetTrustTier_evolves o t : ok (SetOrganizationTrustTier o t).
Proof using All. unfold SetOrganizationTrustTier, setTrustTierTx. frame. Qed.

Lemma ApplyPlanPromotion_evolves o p pl n r : ok (ApplyPlanPromotion o p pl n r).
Proof using All. unfold ApplyPlanPromotion, requireOrg. frame. Qed.

Lemma CancelPlanPromotion_evolves fuel o p r : ok (CancelPlanPromotion fuel o p r).
Proof using All. unfold CancelPlanPromotion, requireOrg. frame. Qed.

Lemma ListContracts_evolves fuel o : ok (ListContracts fuel o).
Proof using All. unfold ListContracts. frame. Qed.

Lemma ApplyPending_evolves fuel n : ok (ApplyPendingDueBillingWork fuel n).
Proof using All. unfold ApplyPendingDueBillingWork, applyTarget. frame. Qed.
End HandlerFrames.
