(* ===== verification/ContractSystem.v ===== *)
(** * Invariants of contracts and documents

    [tables_ok] collects what the constraints of the schema promise of the
    contract and document tables; [closed_kept] says that a contract that has
    been closed is never written again.  Both hold along every step of
    PeriodSystem.v. *)

From stdpp Require Import relations.
From S2P Require Import Prelude GoFloat GoStd GoFormat GoTime Json Types Ids Charges Ledger Grants Store Events.
From S2P Require Import LedgerCommands LedgerGrants Cycles Entitlements ContractStore DocumentStore DueChanges.
From S2P Require Import WindowStore Windows Statements Finalizations Dispatcher Contracts Catalog Clock Frames.
From S2P Require Import PeriodSystem.

(** ** Tables with checks and unique indexes *)

Definition table_ok {A} (checks : A -> bool) (conflict : A -> A -> bool) (m : gmap string A) : Prop :=
  map_Forall (fun id x => id <> "" /\ checks x = true) m
  /\ forall i j x y, i <> j -> m !! i = Some x -> m !! j = Some y -> conflict x y = false.

Record tables_ok (d : DB) : Prop := mkTablesOk {
  contracts_ok : table_ok contract_checks contracts_conflict (contracts_of d);
  phases_ok : table_ok phase_checks phases_conflict (phases_of d);
  lines_ok : table_ok line_checks (fun _ _ => false) (kt_lines (db_contracts d));
  changes_ok : table_ok change_checks changes_conflict (changes_of d);
  finalizations_ok : table_ok finalization_checks finalizations_conflict (finalizations_of d);
  documents_ok : table_ok document_checks documents_conflict (documents_of d);
  document_lines_ok : table_ok document_line_checks (fun _ _ => false) (dt_line_items (db_documents d))
}.

(** [keeps P]: whoever has [P] before has it after. *)
Definition keeps (P : DB -> Prop) (d d' : DB) : Prop := P d -> P d'.

#[export] Instance keeps_preorder P : PreOrder (keeps P).
Proof. split; [by intros d H|]. intros d1 d2 d3 H1 H2 H. auto. Qed.

Lemma conflicts_none {A} (conflict : A -> A -> bool) id row (m : gmap string A) i x :
  conflicts conflict id row m = false -> m !! i = Some x -> i <> id -> conflict row x = false.
Proof.
  unfold conflicts. intros H Hx Hi. destruct (conflict row x) eqn:E; [|done]. rewrite <- H. symmetry.
  apply existsb_exists. exists (i, x). split; [apply list_elem_of_In; by apply elem_of_map_to_list|].
  simpl. rewrite bool_decide_false by done. by rewrite E.
Qed.

(** What a successful write has checked. *)
Lemma put_row_Ret {A} checks conflict set (m : gmap string A) id row d d' :
  put_row checks conflict set m id row d = Ret d' ->
  id <> "" /\ checks row = true /\ conflicts conflict id row m = false /\ d' = set (<[id := row]> m) d.
Proof.
  unfold put_row, check_constraint. intros H. apply obind_Ret_inv in H as ([] & Hc & H).
  destruct (_ && _) eqn:E; [|done]. destruct (conflicts _ _ _ _); [done|]. injection H as <-. zbool.
  by rewrite bool_decide_eq_false in *.
Qed.

Lemma table_put {A} checks (conflict : A -> A -> bool) m id row :
  (forall x y, conflict x y = conflict y x) -> id <> "" -> checks row = true -> conflicts conflict id row m = false ->
  table_ok checks conflict m -> table_ok checks conflict (<[id := row]> m).
Proof.
  intros Hsym Hid Hc Hn [H1 H2]. split; [by apply map_Forall_insert_2|].
  intros i j x y Hij [[<- <-]|[Hi Hx]]%lookup_insert_Some [[<- <-]|[Hj Hy]]%lookup_insert_Some.
  - done.
  - by apply (conflicts_none conflict id row m j y).
  - rewrite Hsym. by apply (conflicts_none conflict id row m i x).
  - by apply (H2 i j).
Qed.

(** Two rows that conflict are one. *)
Lemma table_unique {A} checks (conflict : A -> A -> bool) m i j x y :
  table_ok checks conflict m -> m !! i = Some x -> m !! j = Some y -> conflict x y = true -> i = j.
Proof.
  intros [_ H] Hx Hy Hc. destruct (decide (i = j)) as [|Hij]; [done|]. by rewrite (H i j x y Hij Hx Hy) in Hc.
Qed.

(** ** The indexes are symmetric *)

Lemma bool_decide_sym {A} `{EqDecision A} (x y : A) : bool_decide (x = y) = bool_decide (y = x).
Proof. by apply bool_decide_ext. Qed.

Lemma contracts_conflict_sym x y : contracts_conflict x y = contracts_conflict y x.
Proof.
  unfold contracts_conflict. rewrite (bool_decide_sym (ct_org_id x)), (bool_decide_sym (ct_product_id x)).
  by rewrite (andb_comm (live_contract x)).
Qed.

Lemma phases_conflict_sym x y : phases_conflict x y = phases_conflict y x.
Proof.
  unfold phases_conflict, phases_overlap. rewrite (bool_decide_sym (ph_org_id x)), (bool_decide_sym (ph_product_id x)).
  by rewrite (andb_comm (phase_current x)), (andb_comm (after_opt (ph_effective_start x) _)).
Qed.

Lemma changes_conflict_sym x y : changes_conflict x y = changes_conflict y x.
Proof.
  unfold changes_conflict, same_change_key.
  rewrite (bool_decide_sym (ch_contract_id x)), (bool_decide_sym (ch_idempotency_key x)),
    (bool_decide_sym (ch_provider x) (ch_provider y)), (bool_decide_sym (ch_provider_request_id x) (ch_provider_request_id y)),
    (andb_comm (scheduled_period_end x)).
  f_equal. destruct (decide (ch_provider y = ch_provider x)) as [E|E];
    [|by rewrite (bool_decide_false (ch_provider y = _)), !andb_false_r by done].
  destruct (decide (ch_provider_request_id y = ch_provider_request_id x)) as [E'|E'];
    [by rewrite E, E'|by rewrite (bool_decide_false (ch_provider_request_id y = _)), !andb_false_r by done].
Qed.

Lemma finalizations_conflict_sym x y : finalizations_conflict x y = finalizations_conflict y x.
Proof.
  unfold finalizations_conflict, same_subject.
  rewrite (bool_decide_sym (f_subject_type x)), (bool_decide_sym (f_subject_id x)), (bool_decide_sym (f_idempotency_key x)),
    (bool_decide_sym (f_cycle_id x)). by rewrite (andb_comm (active_for_cycle x)).
Qed.

Lemma documents_conflict_sym x y : documents_conflict x y = documents_conflict y x.
Proof.
  unfold documents_conflict. rewrite (bool_decide_sym (do_document_number x) (do_document_number y)),
    (bool_decide_sym (do_finalization_id x) (do_finalization_id y)).
  f_equal.
  - destruct (decide (do_document_number y = do_document_number x)) as [E|E]; [by rewrite E|].
    by rewrite (bool_decide_false (do_document_number y = _)), !andb_false_r by done.
  - destruct (decide (do_finalization_id y = do_finalization_id x)) as [E|E]; [|].
    + rewrite E. destruct (bool_decide (do_status x = _)), (bool_decide (do_status y = _)); simpl; by rewrite ?andb_false_r.
    + by rewrite (bool_decide_false (do_finalization_id y = _)), !andb_false_r by done.
Qed.

(** ** Every write keeps the tables *)

Lemma put_contract_tables id c d d' : put_contract id c d = Ret d' -> keeps tables_ok d d'.
Proof.
  intros (H1 & H2 & H3 & ->)%put_row_Ret []. split; try done. by apply table_put; [apply contracts_conflict_sym|..].
Qed.

Lemma put_phase_tables id c d d' : put_phase id c d = Ret d' -> keeps tables_ok d d'.
Proof.
  intros (H1 & H2 & H3 & ->)%put_row_Ret []. split; try done. by apply table_put; [apply phases_conflict_sym|..].
Qed.

Lemma put_line_tables id c d d' : put_line id c d = Ret d' -> keeps tables_ok d d'.
Proof. intros (H1 & H2 & H3 & ->)%put_row_Ret []. split; try done. by apply table_put. Qed.

Lemma put_change_tables id c d d' : put_change id c d = Ret d' -> keeps tables_ok d d'.
Proof.
  intros (H1 & H2 & H3 & ->)%put_row_Ret []. split; try done. by apply table_put; [apply changes_conflict_sym|..].
Qed.

Lemma put_finalization_tables id c d d' : put_finalization id c d = Ret d' -> keeps tables_ok d d'.
Proof.
  intros (H1 & H2 & H3 & ->)%put_row_Ret []. split; try done. by apply table_put; [apply finalizations_conflict_sym|..].
Qed.

Lemma put_document_tables id c d d' : put_document id c d = Ret d' -> keeps tables_ok d d'.
Proof.
  intros (H1 & H2 & H3 & ->)%put_row_Ret []. split; try done. by apply table_put; [apply documents_conflict_sym|..].
Qed.

Lemma put_document_line_tables id c d d' :
  put_row document_line_checks (fun _ _ => false) set_dt_line_items (dt_line_items (db_documents d)) id c d = Ret d' ->
  keeps tables_ok d d'.
Proof. intros (H1 & H2 & H3 & ->)%put_row_Ret []. split; try done. by apply table_put. Qed.

Lemma tables_elsewhere d d' :
  db_contracts d' = db_contracts d -> db_documents d' = db_documents d -> keeps tables_ok d d'.
Proof.
  intros H1 H2 []. split; unfold contracts_of, phases_of, changes_of, finalizations_of, documents_of; by rewrite ?H1, ?H2.
Qed.

Lemma put_cycle_tables id c d d' : put_cycle id c d = Ret d' -> keeps tables_ok d d'.
Proof. intros H. unfold put_cycle, check_constraint in H. repeat case_match; simplify_eq/=. by apply tables_elsewhere. Qed.

Lemma set_cycles_tables cy d : keeps tables_ok d (set_cycles cy d).
Proof. by apply tables_elsewhere. Qed.

Lemma set_allocators_tables x d : keeps tables_ok d (set_dt_allocators x d).
Proof. by intros []. Qed.

#[local] Hint Resolve put_contract_tables put_phase_tables put_line_tables put_change_tables put_finalization_tables
  put_document_tables put_document_line_tables put_cycle_tables set_cycles_tables set_allocators_tables : writes.

Lemma insertFinalization_tables id row d nd : insertFinalization id row d = Ret nd -> keeps tables_ok d nd.2.
Proof.
  unfold insertFinalization. intros H. repeat case_match; inv_ret; try done. by eapply put_finalization_tables.
Qed.

#[local] Hint Extern 1 (keeps tables_ok _ _) => match goal with
  | Hu : insertFinalization _ _ _ = Ret ?nd |- _ => exact (insertFinalization_tables _ _ _ nd Hu) end : writes.

Lemma update_contract_tables id org where_ f : writes (keeps tables_ok) (update_contract id org where_ f).
Proof. unfold update_contract, exec_rows. writes_rows. Qed.

Lemma update_phases_tables where_ f : writes (keeps tables_ok) (update_phases where_ f).
Proof. unfold update_phases. writes_rows. Qed.

Lemma upsertContract_tables id row kind : writes (keeps tables_ok) (upsertContract id row kind).
Proof. unfold upsertContract. writes_rows. Qed.

Lemma upsertPhase_tables id row : writes (keeps tables_ok) (upsertPhase id row).
Proof. unfold upsertPhase. writes_rows. Qed.

Lemma insertChange_tables onConflict id row : writes (keeps tables_ok) (insertChange onConflict id row).
Proof. unfold insertChange. writes_rows. Qed.

Lemma insertChangeOrNothing_tables id row : writes (keeps tables_ok) (insertChangeOrNothing id row).
Proof. unfold insertChangeOrNothing. intros d a d' H. case_match; [by inv_ret|]. by eapply insertChange_tables. Qed.

#[local] Hint Extern 1 (keeps tables_ok _ _) => eapply update_contract_tables; eassumption : writes.
#[local] Hint Extern 1 (keeps tables_ok _ _) => eapply update_phases_tables; eassumption : writes.
#[local] Hint Extern 1 (keeps tables_ok _ _) => eapply upsertContract_tables; eassumption : writes.
#[local] Hint Extern 1 (keeps tables_ok _ _) => eapply upsertPhase_tables; eassumption : writes.
#[local] Hint Extern 1 (keeps tables_ok _ _) => eapply insertChange_tables; eassumption : writes.
#[local] Hint Extern 1 (keeps tables_ok _ _) => eapply insertChangeOrNothing_tables; eassumption : writes.

Lemma period_stmt_tables A (f : DB -> res (A * DB)) : period_stmt A f -> writes (keeps tables_ok) f.
Proof. destruct 1; by_definition. Qed.

Lemma period_step_tables d d' : rtc period_step d d' -> tables_ok d -> tables_ok d'.
Proof.
  induction 1 as [|d d1 d2 Hs _ IH]; [done|]. intros H. apply IH. destruct Hs as [(A & f & a & Hf & E)|H1 H2].
  - by eapply period_stmt_tables.
  - by eapply tables_elsewhere.
Qed.

(** ** Closed contracts *)

Definition closed_contract (c : contractRow) : Prop := is_Some (ct_closed_at c) /\ contract_checks c = true.

Definition closed_kept (d d' : DB) : Prop :=
  forall id c, contracts_of d !! id = Some c -> closed_contract c -> contracts_of d' !! id = Some c.

#[export] Instance closed_kept_preorder : PreOrder closed_kept.
Proof. split; [by intros d id c H|]. intros d1 d2 d3 H1 H2 id c H Hc. auto. Qed.

Lemma closed_state c : closed_contract c -> ct_state c = KEnded \/ ct_state c = KVoided.
Proof.
  intros [[t Ht] H]. unfold contract_checks in H. rewrite Ht in H. simpl in H.
  destruct (ct_state c); auto; by rewrite andb_false_r in H.
Qed.

(** Writing a row over a closed contract is impossible when the row would be
    neither ended nor voided, or the statement skips closed contracts. *)
Lemma put_contract_kept id row d d' :
  (forall c, contracts_of d !! id = Some c -> closed_contract c -> contract_checks row = true -> False) ->
  put_contract id row d = Ret d' -> closed_kept d d'.
Proof.
  intros Hno (_ & Hc & _ & ->)%put_row_Ret i c Hi Hcl. destruct (decide (i = id)) as [->|Hne].
  - exfalso. eauto.
  - unfold contracts_of in *. simpl. by rewrite lookup_insert_ne.
Qed.

Lemma update_contract_kept id org where_ f :
  (forall c, closed_contract c -> where_ (ct_state c) = true -> contract_checks (f c) = true -> False) ->
  writes closed_kept (update_contract id org where_ f).
Proof.
  intros Hno d [] d' H. unfold update_contract, exec_rows, update_row in H.
  destruct (contracts_of d !! id) as [c|] eqn:E; [|by inv_ret].
  destruct (_ && _) eqn:Ew; [|by inv_ret]. inv_ret. zbool. eapply put_contract_kept; [|eassumption].
  intros c' Hc' Hcl Hck. rewrite E in Hc'. injection Hc' as <-. eauto.
Qed.

Lemma active_not_closed name kind pay ent e t c :
  closed_contract c -> contract_checks (contract_with name kind KActive pay ent e t (ct_closed_at c) c) = true -> False.
Proof.
  intros [[x Hx] _] H. unfold contract_checks in H. simpl in H. rewrite Hx in H. zbool. done.
Qed.

Lemma upsertContract_kept id row kind : writes closed_kept (upsertContract id row kind).
Proof.
  intros d [] d' H. unfold upsertContract in H. destruct (contracts_of d !! id) as [c|] eqn:E; inv_ret;
    (eapply put_contract_kept; [|eassumption]); intros c' Hc' Hcl Hck; rewrite E in Hc'; [injection Hc' as <-|done].
  by eapply active_not_closed.
Qed.

Lemma contracts_same d d' : contracts_of d' = contracts_of d -> closed_kept d d'.
Proof. intros H id c. by rewrite H. Qed.

(** Statements that leave the phases alone. *)
Definition phases_fixed (d d' : DB) : Prop := phases_of d' = phases_of d.

#[export] Instance phases_fixed_preorder : PreOrder phases_fixed.
Proof. split; [done|]. unfold phases_fixed. congruence. Qed.

Lemma put_contract_phases id c d d' : put_contract id c d = Ret d' -> phases_fixed d d'.
Proof. by intros (_ & _ & _ & ->)%put_row_Ret. Qed.

Lemma put_change_phases id c d d' : put_change id c d = Ret d' -> phases_fixed d d'.
Proof. by intros (_ & _ & _ & ->)%put_row_Ret. Qed.

#[local] Hint Resolve put_contract_phases put_change_phases : writes.

Lemma upsertContract_phases id row kind : writes phases_fixed (upsertContract id row kind).
Proof. unfold upsertContract. writes_rows. Qed.

Lemma cancel_changes_phases c org p : writes phases_fixed (CancelScheduledContractChangesForResume c org p).
Proof. by_definition. Qed.

(** Statements on the other tables of the component. *)
Definition contracts_fixed (d d' : DB) : Prop := contracts_of d' = contracts_of d.

#[export] Instance contracts_fixed_preorder : PreOrder contracts_fixed.
Proof. split; [done|]. unfold contracts_fixed. congruence. Qed.

Lemma put_phase_fixed id c d d' : put_phase id c d = Ret d' -> contracts_fixed d d'.
Proof. by intros (_ & _ & _ & ->)%put_row_Ret. Qed.

Lemma put_line_fixed id c d d' : put_line id c d = Ret d' -> contracts_fixed d d'.
Proof. by intros (_ & _ & _ & ->)%put_row_Ret. Qed.

Lemma put_change_fixed id c d d' : put_change id c d = Ret d' -> contracts_fixed d d'.
Proof. by intros (_ & _ & _ & ->)%put_row_Ret. Qed.

#[local] Hint Resolve put_phase_fixed put_line_fixed put_change_fixed : writes.

Lemma update_phases_fixed where_ f : writes contracts_fixed (update_phases where_ f).
Proof. unfold update_phases. writes_rows. Qed.

Lemma upsertPhase_fixed id row : writes contracts_fixed (upsertPhase id row).
Proof. unfold upsertPhase. writes_rows. Qed.

Lemma insertChange_fixed onConflict id row : writes contracts_fixed (insertChange onConflict id row).
Proof. unfold insertChange. writes_rows. Qed.

Lemma insertChangeOrNothing_fixed id row : writes contracts_fixed (insertChangeOrNothing id row).
Proof. unfold insertChangeOrNothing. intros d a d' H. case_match; [by inv_ret|]. by eapply insertChange_fixed. Qed.

#[local] Hint Extern 1 (contracts_fixed _ _) => eapply update_phases_fixed; eassumption : writes.
#[local] Hint Extern 1 (contracts_fixed _ _) => eapply upsertPhase_fixed; eassumption : writes.
#[local] Hint Extern 1 (contracts_fixed _ _) => eapply insertChange_fixed; eassumption : writes.
#[local] Hint Extern 1 (contracts_fixed _ _) => eapply insertChangeOrNothing_fixed; eassumption : writes.

Lemma documents_fixed d d' : documents_only d d' -> contracts_fixed d d'.
Proof. by intros (dt & cy & ->). Qed.

Lemma running_not_closed c : closed_contract c -> running (ct_state c) = true -> False.
Proof. intros [-> | ->]%closed_state; by compute. Qed.

Lemma writes_mono {A} (R R' : relation DB) (f : DB -> res (A * DB)) :
  (forall d d', R d d' -> R' d d') -> writes R f -> writes R' f.
Proof. intros HR Hf d a d' H. eauto. Qed.

Lemma shift_contract_kept id t : writes closed_kept (guarded (shiftable id) (ShiftActiveContractToWallClock id t)).
Proof.
  intros d [] d' H. unfold guarded in H. destruct (shiftable id d) eqn:Hg; [|done].
  unfold ShiftActiveContractToWallClock, exec_rows, update_row in H. unfold shiftable in Hg.
  destruct (contracts_of d !! id) as [c|] eqn:E; [|done]. inv_ret. eapply put_contract_kept; [|eassumption].
  intros c' Hc' Hcl _. rewrite E in Hc'. injection Hc' as <-. apply bool_decide_eq_true in Hg.
  rewrite !elem_of_cons, elem_of_nil in Hg. destruct (closed_state _ Hcl) as [Hs|Hs]; rewrite Hs in Hg; naive_solver.
Qed.

Lemma period_stmt_kept A (f : DB -> res (A * DB)) : period_stmt A f -> writes closed_kept f.
Proof.
  assert (forall c id org where_ g, (forall st, where_ st = true -> running st = true) ->
            c = update_contract id org where_ g -> writes closed_kept c) as Hrun.
  { intros c id org where_ g Hw ->. apply update_contract_kept. intros c Hc Hst _. eapply running_not_closed; eauto. }
  destruct 1.
  all: try solve [apply (writes_mono contracts_fixed); [exact contracts_same|];
                  first [by_definition | apply (writes_mono documents_only); [exact documents_fixed|by_definition]]].
  - eapply Hrun; [|reflexivity]. intros [] H; by vm_compute in H |- *.
  - by eapply Hrun; [|reflexivity].
  - apply update_contract_kept. intros c Hc _. by apply active_not_closed.
  - by eapply Hrun; [|reflexivity].
  - by eapply Hrun; [|reflexivity].
  - intros d [] d' H. unfold UpsertContract in H. inv_ret. by eapply upsertContract_kept.
  - intros d [] d' H. unfold UpsertInternalContract in H. inv_ret. by eapply upsertContract_kept.
  - apply shift_contract_kept.
Qed.

Lemma period_step_kept d d' : rtc period_step d d' -> closed_kept d d'.
Proof.
  induction 1 as [|d d1 d2 Hs _ IH]; [done|]. etrans; [|exact IH]. destruct Hs as [(A & f & a & Hf & E)|H1 H2].
  - by eapply period_stmt_kept.
  - apply contracts_same. unfold contracts_of. by rewrite H1.
Qed.

(** * The handlers of the service and the contract transition system

    The handlers of windows.go, the dispatcher and the reconciliation write
    none of the tables of [elsewhere] but through the period work: they evolve
    the database along any preorder that contains both.  Ledger transfers are
    never altered or lost. *)

(** ** Period steps write neither windows nor commands *)

Lemma period_stmt_only A (f : DB -> res (A * DB)) :
  period_stmt A f -> writes contracts_only f \/ writes documents_only f.
Proof. destruct 1; first [left; by_definition | right; by_definition]. Qed.

Lemma period_write_core d d' : period_write d d' -> core_step d d'.
Proof.
  intros (A & f & a & Hf & H). destruct (period_stmt_only _ _ Hf) as [Hw|Hw]; apply Hw in H.
  - destruct H as (kt & ->). by apply core_step_same.
  - destruct H as (dt & cy & ->). by apply core_step_same.
Qed.

Lemma elsewhere_period d d' : elsewhere d d' -> rtc period_step d d'.
Proof. intros (H1 & H2 & _). by apply rtc_once, period_step_other. Qed.

Lemma account_period d d' : account_step d d' -> rtc period_step d d'.
Proof. intros [_ H]. by apply elsewhere_period. Qed.

Lemma write_period d d' : period_write d d' -> rtc period_step d d'.
Proof. intros H. by apply rtc_once, period_step_write. Qed.

Section Windows.
Context {St : Type} `{HE : Env} `{HD : Digest} `{HC : TBCodec} `{!TigerBeetle St}.
Context (RD : relation DB) `{!PreOrder RD} (RD_same : forall d d', elsewhere d d' -> RD d d').
Context (RD_write : forall d d', period_write d d' -> RD d d').
#[local] Abbreviation ok m := (evolves (St := St) RD ledger_grows m).

Let RTd : forall p s, ledger_grows s (Dispatch ledger_configured p s).2 := Dispatch_grows (St := St) ledger_configured.

Lemma account_same d d' : account_step d d' -> RD d d'.
Proof using All. intros [_ H]. by apply RD_same. Qed.

(** A statement on other tables, by its branches. *)
#[local] Ltac other_tables :=
  apply evolves_statement; [apply _|apply _|];
  let H := fresh "H" in
  intros ? ? ? H; repeat case_match; inv_ret; repeat case_match; inv_ret; simplify_eq/=; try done;
  by apply RD_same.

Lemma append_period ev : ok (appendEvent ev).
Proof using All. apply append_evolves; [apply _|apply account_same|apply _|done|exact RD_write]. Qed.

Lemma job_period job : ok (statement (InsertJob job)).
Proof using All. apply job_evolves; [apply _|apply account_same|apply _|done|exact RD_write]. Qed.

Lemma current_period fuel o p : ok (EnsureCurrentEntitlements fuel o p).
Proof using All. apply EnsureCurrent_evolves; [apply _|apply account_same|apply _|done|exact RD_write]. Qed.

Lemma open_period o p t : ok (ensureOpenBillingCycleTx o p t).
Proof using All. by apply ensureOpenBillingCycleTx_ok; [apply _|apply account_same|apply _|..]. Qed.

Lemma balances_period o p : ok (grantBalancesTx o p).
Proof using All. by apply grantBalancesTx_ok; [apply _|apply account_same|apply _|..]. Qed.

Lemma org_period o : ok (ensureDefaultOrgTx o).
Proof using All. by apply ensureDefaultOrgTx_ok; [apply _|apply account_same|apply _|..]. Qed.

Lemma operators_period : ok operatorLedgerAccountsTx.
Proof using All. by apply operatorLedgerAccountsTx_ok; [apply _|apply account_same|apply _|..]. Qed.

Lemma millis_period t : ok (unixMillis t).
Proof using All. by apply unixMillis_ok; [apply _|apply account_same|apply _|..]. Qed.

Lemma dispatch_period id : ok (dispatchLedgerCommand id).
Proof using All. by apply dispatchLedgerCommand_ok; [apply _|apply account_same|apply _|..]. Qed.

Lemma posted_period g : ok (markGrantLedgerPostingPosted g).
Proof using All. by apply markGrantLedgerPostingPosted_ok; [apply _|apply account_same|apply _|..]. Qed.

Lemma require_period : ok requireLedger.
Proof using All. by apply requireLedger_ok; [apply _|apply account_same|apply _|..]. Qed.

#[local] Hint Resolve append_period job_period current_period open_period balances_period org_period operators_period
  millis_period dispatch_period posted_period require_period : frame.

#[local] Hint Extern 1 (evolves RD ledger_grows (statement (InsertBillingWindow _ _))) =>
  unfold InsertBillingWindow, check_constraint; other_tables : frame.
#[local] Hint Extern 1 (evolves RD ledger_grows (statement (ActivateBillingWindow _ _ _ _))) =>
  unfold ActivateBillingWindow, check_constraint; other_tables : frame.
#[local] Hint Extern 1 (evolves RD ledger_grows (statement (PrepareBillingWindowSettlement _ _ _ _ _ _ _ _ _ _))) =>
  unfold PrepareBillingWindowSettlement; other_tables : frame.
#[local] Hint Extern 1 (evolves RD ledger_grows (statement (UpdateWindowProjectionError _ _))) =>
  unfold UpdateWindowProjectionError; other_tables : frame.
#[local] Hint Extern 1 (evolves RD ledger_grows (statement (MarkMeteringProjected _ _))) =>
  unfold MarkMeteringProjected; other_tables : frame.
#[local] Hint Extern 1 (evolves RD ledger_grows (statement (VoidBillingWindow _))) =>
  unfold VoidBillingWindow, check_constraint; other_tables : frame.
#[local] Hint Extern 1 (evolves RD ledger_grows (statement (MarkWindowSettled _))) =>
  unfold MarkWindowSettled; other_tables : frame.
#[local] Hint Extern 1 (evolves RD ledger_grows (statement (InsertWindowLedgerLeg _ _ _))) =>
  unfold InsertWindowLedgerLeg, check_constraint; other_tables : frame.
#[local] Hint Extern 1 (evolves RD ledger_grows (statement (StoreWindowSettlementAmounts _ _ _ _ _))) =>
  unfold StoreWindowSettlementAmounts; other_tables : frame.
#[local] Hint Extern 1 (evolves RD ledger_grows (statement (VoidPendingWindowLedgerLegs _))) =>
  unfold VoidPendingWindowLedgerLegs, update_pending_legs; other_tables : frame.
#[local] Hint Extern 1 (evolves RD ledger_grows (statement (MarkPendingWindowLedgerLegsPostedOrVoided _))) =>
  unfold MarkPendingWindowLedgerLegsPostedOrVoided, update_pending_legs; other_tables : frame.
#[local] Hint Extern 1 (evolves RD ledger_grows (statement (InsertLedgerCommand _ _))) =>
  unfold InsertLedgerCommand; other_tables : frame.
#[local] Hint Extern 1 (evolves RD ledger_grows (statement (InsertLedgerDriftEvent _ _))) =>
  unfold InsertLedgerDriftEvent; other_tables : frame.

Lemma insertLegs_period id i legs : ok (insertLegsFrom id i legs).
Proof using All. revert i. induction legs; intros i; simpl; unfold insertLeg; frame. Qed.

#[local] Hint Resolve insertLegs_period : frame.

Lemma ReserveWindow_period fuel req : ok (ReserveWindow fuel req).
Proof using All.
  unfold ReserveWindow, loadWindowBySource, loadWindow, reserveWindowTx, orgBillingStateTx, loadPricingContextTx, queryAt,
    fundReservationTx, insertWindowLedgerLegsTx. frame.
Qed.

Lemma ActivateWindow_period id t : ok (ActivateWindow id t).
Proof using All. unfold ActivateWindow, activateWindowTx, loadReservation, loadWindow. frame. Qed.

Lemma VoidWindow_period id : ok (VoidWindow id).
Proof using All. unfold VoidWindow, voidWindowTx, loadWindow. frame. Qed.

Lemma settleLegs_period id rev corr t st L : ok (settleLegs id rev corr t st L).
Proof using All. revert st. induction L as [|[s l] L IH]; intros st; simpl; unfold settleLeg, existingOrNewLedgerID; frame. Qed.

Lemma posting_period id : ok (markWindowSettlementPosted id).
Proof using All. unfold markWindowSettlementPosted, windowSettledTx, loadWindow. frame. Qed.

Lemma metering_period id : ok (ProjectMeteringWindow id).
Proof using All. unfold ProjectMeteringWindow, projectMeteringTx, projectMeteringForWindow, loadWindow. frame. Qed.

#[local] Hint Resolve settleLegs_period posting_period metering_period : frame.

Lemma SettleWindow_period id actual usage : ok (SettleWindow id actual usage).
Proof using All.
  unfold SettleWindow, prepareSettlementTx, lockWindowStateTx, settleWindowLedgerPayloadTx, createLedgerCommandTx,
    projectAfterSettle, loadWindow. frame.
Qed.

Lemma ProjectMetering_period n : ok (ProjectPendingMeteringWindows n).
Proof using All.
  assert (forall ids k, ok (projectAll ids k)) by (induction ids; intros k; simpl; frame).
  unfold ProjectPendingMeteringWindows. frame.
Qed.

Lemma DispatchPending_period n : ok (DispatchPendingLedgerCommands n).
Proof using All.
  assert (forall id, ok (completePostedLedgerCommand id)) by (intros id; unfold completePostedLedgerCommand, loadLedgerCommand; frame).
  assert (forall cmds k, ok (dispatchAll cmds k)) by (induction cmds as [|[id st] cmds IH]; intros k; simpl; frame).
  unfold DispatchPendingLedgerCommands. frame.
Qed.

Lemma Reconcile_period order n : ok (ReconcileLedger order n).
Proof using All.
  assert (forall k s a i pg tb, ok (recordLedgerDrift k s a i pg tb)) by (intros; unfold recordLedgerDrift; frame).
  assert (forall b u gs k, ok (reconcileGrants b u gs k)).
  { intros b u. induction gs as [|g gs IH]; intros k; simpl; unfold recordGrantDrift; frame. }
  unfold ReconcileLedger, reconcileOperatorLedgerAccounts, reconcileGrantLedgerBalances, settledGrantUsage. frame.
Qed.
End Windows.
