(* ===== verification/AdminFrames.v ===== *)
(** * Frames of the clock, of Stripe and of the contract requests

    [account_write] is a change of the tables of Stripe customers and payment
    methods, [admin_write] one of the business clock, of a provider event or
    the reassignment of windows to another cycle.  The handlers of
    entitlements_view.go, storage_entitlements.go, clock.go, stripe.go, the
    contract requests and the job workers evolve the database along any
    preorder that contains these, the period work and [account_step]. *)

From stdpp Require Import relations.
From S2P Require Import Prelude GoFloat GoStd GoTime GoFormat GoURL Json Types StripeApi Ids Ledger Charges Grants.
From S2P Require Import Store.
From S2P Require Import Events LedgerCommands LedgerGrants Cycles Entitlements ContractStore.
From S2P Require Import DocumentStore.
From S2P Require Import DueChanges WindowStore Windows Statements Finalizations Dispatcher Contracts Catalog.
From S2P Require Import EntitlementsView.
From S2P Require Import Clock StripeStore Stripe ContractRequests Runtime Frames PeriodSystem ContractSystem.

(** ** What the statements write *)

Inductive account_write (d : DB) : DB -> Prop :=
| acw_bindings x : account_write d (set_pt_bindings x d)
| acw_payment_methods x : account_write d (set_pt_payment_methods x d).

(** The statements on billing_provider_events. *)
Inductive event_stmt : forall A : Type, (DB -> res (A * DB)) -> Prop :=
| es_insert id row : pv_state row = PvReceived -> pv_attempts row = 0 -> event_stmt unit (InsertStripeProviderEvent id row)
| es_claim id : event_stmt (option string) (ClaimProviderEvent id)
| es_final id st t : st = PvApplied \/ st = PvIgnored -> event_stmt (option providerEventRow) (MarkProviderEventFinal id st t)
| es_fail id e t : event_stmt unit (FailProviderEvent id e t).

Inductive admin_write (d : DB) : DB -> Prop :=
| adw_clock x : admin_write d (set_clock x d)
| adw_event A (f : DB -> res (A * DB)) a d' : event_stmt A f -> f d = Ret (a, d') -> admin_write d d'
| adw_reassign org product cycle s e ids d' :
    ReassignWallClockWindows org product cycle s e d = Ret (ids, d') -> admin_write d d'.

Definition bindings_only (d d' : DB) : Prop := exists x, d' = set_pt_bindings x d.
Definition payment_methods_only (d d' : DB) : Prop := exists x, d' = set_pt_payment_methods x d.

#[export] Instance bindings_only_preorder : PreOrder bindings_only.
Proof.
  split; [intros d; exists (bindings_of d); by destruct d as [???????????????? []]|].
  intros d1 d2 d3 (x & ->) (y & ->). by exists y.
Qed.

#[export] Instance payment_methods_only_preorder : PreOrder payment_methods_only.
Proof.
  split; [intros d; exists (payment_methods_of d); by destruct d as [???????????????? []]|].
  intros d1 d2 d3 (x & ->) (y & ->). by exists y.
Qed.

Definition provider_events_only (d d' : DB) : Prop := exists x, d' = set_pt_events x d.

#[export] Instance provider_events_only_preorder : PreOrder provider_events_only.
Proof.
  split; [intros d; exists (provider_events_of d); by destruct d as [???????????????? []]|].
  intros d1 d2 d3 (x & ->) (y & ->). by exists y.
Qed.

Lemma upsert_row_writes {A} (R : relation DB) `{!PreOrder R} m checks (put : string -> A -> DB -> res DB) same update id row :
  (forall i x d d', put i x d = Ret d' -> R d d') -> writes R (upsert_row m checks put same update id row).
Proof.
  intros Hp d [] d' H. unfold upsert_row in H. apply obind_Ret_inv in H as ([] & _ & H).
  destruct (conflicting _ _ _) as [[i x]|]; [destruct update|destruct (m d !! id); [done|]]; inv_ret; [eauto|done|eauto].
Qed.

Lemma put_binding_only id b d d' : put_binding id b d = Ret d' -> bindings_only d d'.
Proof. apply put_row_writes; [apply _|]. intros x. by exists x. Qed.

Lemma put_payment_method_only id p d d' : put_payment_method id p d = Ret d' -> payment_methods_only d d'.
Proof. apply put_row_writes; [apply _|]. intros x. by exists x. Qed.

Lemma UpsertBinding_only b o c t : writes bindings_only (UpsertStripeCustomerBinding b o c t).
Proof. apply upsert_row_writes; [apply _|]. apply put_binding_only. Qed.

Lemma InsertBinding_only b o c t : writes bindings_only (InsertStripeCustomerBindingIfMissing b o c t).
Proof. apply upsert_row_writes; [apply _|]. apply put_binding_only. Qed.

Lemma UpsertPaymentMethod_only id row : writes payment_methods_only (UpsertStripePaymentMethod id row).
Proof. apply upsert_row_writes; [apply _|]. apply put_payment_method_only. Qed.

#[local] Hint Resolve put_payment_method_only : writes.

Lemma ClearDefault_only o t : writes payment_methods_only (ClearDefaultStripePaymentMethods o t).
Proof. by_definition. Qed.

Lemma put_provider_event_only id e d d' : put_provider_event id e d = Ret d' -> provider_events_only d d'.
Proof. apply put_row_writes; [apply _|]. intros x. by exists x. Qed.

#[local] Hint Resolve put_provider_event_only : writes.

Lemma event_stmt_only A (f : DB -> res (A * DB)) : event_stmt A f -> writes provider_events_only f.
Proof.
  destruct 1; [apply upsert_row_writes; [apply _|apply put_provider_event_only]|by_definition..].
Qed.

(** ** The handlers that write customers and payment methods *)

Section Requests.
Context {St : Type} `{HE : Env} `{HD : Digest} `{HC : TBCodec} `{!TigerBeetle St} `{HS : StripeAPI} `{HU : NetURL}.
Context (RD : relation DB) `{!PreOrder RD} (RD_step : forall d d', account_step d d' -> RD d d').
Context (RD_write : forall d d', period_write d d' -> RD d d').
Context (RD_account : forall d d', account_write d d' -> RD d d').
#[local] Abbreviation ok m := (evolves (St := St) RD ledger_grows m).

Let RTd : forall p s, ledger_grows s (Dispatch ledger_configured p s).2 := Dispatch_grows (St := St) ledger_configured.

#[local] Ltac side := first [apply _ | assumption | exact RTd].

Lemma ad_stmt {A} (f : DB -> res (A * DB)) : period_stmt A f -> ok (statement f).
Proof using All. apply stmt_evolves; side. Qed.

#[local] Hint Extern 1 (evolves RD ledger_grows (statement _)) => apply ad_stmt; solve [auto with period nocore] : frame.

Lemma ad_append ev : ok (appendEvent ev).
Proof using All. apply append_evolves; side. Qed.

Lemma ad_job job : ok (statement (InsertJob job)).
Proof using All. apply job_evolves; side. Qed.

Lemma ad_due fuel o p : ok (ApplyDueBillingWork fuel o p).
Proof using All. apply ApplyDue_evolves; side. Qed.

Lemma ad_current fuel o p : ok (EnsureCurrentEntitlements fuel o p).
Proof using All. apply EnsureCurrent_evolves; side. Qed.

Lemma ad_entitlements o p : ok (ensureCurrentEntitlements o p).
Proof using All. apply ensureCurrent_evolves; side. Qed.

Lemma ad_deposits o p : ok (PostPendingGrantDeposits o p).
Proof using All. apply PostDeposits_evolves; side. Qed.

Lemma ad_deposit g : ok (DepositCredits g).
Proof using All. by apply DepositCredits_ok; [apply _|done|apply _|..]. Qed.

Lemma ad_paid q inv : ok (applyPaidUpgrade q inv).
Proof using All. apply applyPaidUpgrade_evolves; side. Qed.

Lemma ad_activate o p pl c ph t t' : ok (activateCatalogContract o p pl c ph t t').
Proof using All. apply activateCatalogContract_evolves; side. Qed.

#[local] Hint Resolve ad_append ad_job ad_due ad_current ad_entitlements ad_deposits ad_deposit ad_paid ad_activate : frame.

Lemma bindings_evolve {A} (f : DB -> res (A * DB)) : writes bindings_only f -> ok (statement f).
Proof using All.
  intros Hf. apply evolves_statement; [apply _..|]. intros d a d' H. apply Hf in H as (x & ->). apply RD_account. constructor.
Qed.

Lemma payment_methods_evolve {A} (f : DB -> res (A * DB)) : writes payment_methods_only f -> ok (statement f).
Proof using All.
  intros Hf. apply evolves_statement; [apply _..|]. intros d a d' H. apply Hf in H as (x & ->). apply RD_account. constructor.
Qed.

#[local] Hint Resolve bindings_evolve payment_methods_evolve UpsertBinding_only InsertBinding_only UpsertPaymentMethod_only
  ClearDefault_only : frame.

Lemma wrapped_evolves {A} t (m : @B St A) : ok m -> ok (wrapped t m).
Proof using All. intros Hm. unfold wrapped. frame. Qed.

Lemma stripeDo_evolves {A} r (f : nat -> res A) : ok (stripeDo (St := St) r f).
Proof using All. unfold stripeDo. frame. Qed.

#[local] Hint Resolve wrapped_evolves stripeDo_evolves : frame.

Lemma lookupStripeCustomer_evolves o : ok (lookupStripeCustomer o).
Proof using All. unfold lookupStripeCustomer. frame. Qed.

#[local] Hint Resolve lookupStripeCustomer_evolves : frame.

Lemma CreateCheckoutSession_evolves o p c : ok (CreateCheckoutSession o p c).
Proof using All. unfold CreateCheckoutSession. frame. Qed.

Lemma CreatePortalSession_evolves o u : ok (CreatePortalSession o u).
Proof using All. unfold CreatePortalSession. frame. Qed.

Lemma ensureStripeCustomer_evolves o : ok (ensureStripeCustomer o).
Proof using All. unfold ensureStripeCustomer, createStripeCustomer. frame. Qed.

#[local] Hint Resolve ensureStripeCustomer_evolves : frame.

Lemma updateUpgradeInvoiceProvider_evolves q i h p s m : ok (updateUpgradeInvoiceProvider q i h p s m).
Proof using All. unfold updateUpgradeInvoiceProvider. frame. Qed.

#[local] Hint Resolve updateUpgradeInvoiceProvider_evolves : frame.

Lemma collectUpgradeInvoice_evolves q : ok (collectUpgradeInvoice q).
Proof using All. unfold collectUpgradeInvoice, defaultStripePaymentMethod, payUpgradeInvoice. frame. Qed.

Lemma loadContractChangeQuote_evolves id : ok (loadContractChangeQuote id).
Proof using All. unfold loadContractChangeQuote. frame. Qed.

#[local] Hint Resolve collectUpgradeInvoice_evolves loadContractChangeQuote_evolves : frame.

Lemma applySucceededSetupIntent_evolves fuel s : ok (applySucceededSetupIntent fuel s).
Proof using All. unfold applySucceededSetupIntent, applySetupIntentTx. frame. Qed.

#[local] Hint Resolve applySucceededSetupIntent_evolves : frame.

Lemma eventHandler_evolves fuel type handle raw : eventHandler fuel type = Some handle -> ok (handle raw).
Proof using All.
  unfold eventHandler. intros H. repeat case_decide; simplify_eq;
    unfold handleSetupIntentSucceeded, handlePaymentIntentSucceeded, handleInvoicePaid, handleInvoicePaymentFailed,
      handleCheckoutSessionCompleted, expandedSetupIntent; frame.
Qed.

Lemma applyEvent_evolves fuel type handle ev : eventHandler fuel type = Some handle -> ok (applyEvent handle ev).
Proof using All. intros H. unfold applyEvent. destruct (ev_Data ev); [by eapply eventHandler_evolves|frame]. Qed.

(** *** Contract requests *)

Lemma ad_contract fuel o c : ok (GetContract fuel o c).
Proof using All. apply GetContract_evolves; side. Qed.

Lemma ad_resume o r : ok (resumeCurrentPlan o r).
Proof using All. apply resumeCurrentPlan_evolves; side. Qed.

Lemma ad_downgrade fuel o r p : ok (scheduleDowngrade fuel o r p).
Proof using All. apply scheduleDowngrade_evolves; side. Qed.

Lemma ad_quote fuel o r c t : ok (prepareUpgradeQuote fuel o r c t).
Proof using All. apply prepareUpgradeQuote_evolves; side. Qed.

Lemma ad_upgrade q : ok (insertPendingUpgrade q).
Proof using All. apply insertPendingUpgrade_evolves; side. Qed.

Lemma ad_plan p : ok (loadPlan p).
Proof using All. unfold loadPlan. frame. Qed.

#[local] Hint Resolve ad_contract ad_resume ad_downgrade ad_quote ad_upgrade ad_plan : frame.

Lemma CreateContractChange_evolves fuel o c r : ok (CreateContractChange fuel o c r).
Proof using All. unfold CreateContractChange, resumePlan, downgradePlan, upgradePlan, payUpgrade. frame. Qed.

#[local] Hint Resolve CreateContractChange_evolves : frame.

Lemma CreateContract_evolves fuel o p c s u : ok (CreateContract fuel o p c s u).
Proof using All. unfold CreateContract, startContract, reuseContract. frame. Qed.

Lemma CollectContractUpgradePayment_evolves id : ok (CollectContractUpgradePayment id).
Proof using All. unfold CollectContractUpgradePayment. frame. Qed.
End Requests.

(** ** The administration of the clock and of provider events *)

(** The contract found for a reset may be shifted. *)
Lemma reset_phase_shiftable o p t d id ph starts :
  GetActivePaidPhaseForWallClockReset o p t d = Some (id, ph, starts) -> shiftable (ph_contract_id ph) d = true.
Proof.
  unfold GetActivePaidPhaseForWallClockReset. destruct (head _) as [[i q]|] eqn:Eh; [|done].
  destruct (contracts_of d !! ph_contract_id q) as [c|] eqn:Ec; [|done]. intros [= <- <- <-].
  assert ((i, q) ∈ sort_slice (resetPhaseLess t)
            (filter (fun kv => resetPhase o p d kv.2 = true) (map_to_list (phases_of d)))) as Hin.
  { destruct (sort_slice _ _); [done|]. injection Eh as ->. left. }
  rewrite sort_slice_perm, list_elem_of_filter in Hin. destruct Hin as [Hr _]. unfold resetPhase in Hr. simpl in Hr.
  rewrite Ec in Hr. unfold shiftable. rewrite Ec. by zbool.
Qed.

Section Admin.
Context {St : Type} `{HE : Env} `{HD : Digest} `{HC : TBCodec} `{!TigerBeetle St} `{HS : StripeAPI} `{HU : NetURL}.
Context (RD : relation DB) `{!PreOrder RD} (RD_step : forall d d', account_step d d' -> RD d d').
Context (RD_write : forall d d', period_write d d' -> RD d d').
Context (RD_account : forall d d', account_write d d' -> RD d d').
Context (RD_admin : forall d d', admin_write d d' -> RD d d').
#[local] Abbreviation ok m := (evolves (St := St) RD ledger_grows m).

Let RTd : forall p s, ledger_grows s (Dispatch ledger_configured p s).2 := Dispatch_grows (St := St) ledger_configured.

#[local] Ltac side := first [apply _ | assumption | exact RTd].

(** What a computation does from one given world. *)
Definition evolves_from {A} (m : @B St A) (w : world St) : Prop :=
  RD (w_db w) (w_db (m w).2) /\ ledger_grows (w_tb w) (w_tb (m w).2).

Lemma evolves_from_bind {A C} (m : @B St A) (f : A -> @B St C) w :
  evolves_from m w -> (forall a, ok (f a)) -> evolves_from (mbindM m f) w.
Proof using All.
  unfold evolves_from, mbindM. intros [H1 H2] Hf. destruct (m w) as [[a|e|] w1]; simpl in *; [|done|done].
  destruct (Hf a w1) as [H3 H4]. split; by etrans.
Qed.

Lemma statement_from {A} (f : DB -> res (A * DB)) w :
  (forall a d', f (w_db w) = Ret (a, d') -> RD (w_db w) d') -> evolves_from (statement f) w.
Proof using All.
  intros Hf. unfold evolves_from, statement. destruct (f (w_db w)) as [[a d]|e|] eqn:E; simpl; [|done|done].
  split; [by eapply Hf|done].
Qed.

(** *** The clock *)

Lemma ac_stmt {A} (f : DB -> res (A * DB)) : period_stmt A f -> ok (statement f).
Proof using All. apply stmt_evolves; side. Qed.

#[local] Hint Extern 1 (evolves RD ledger_grows (statement _)) => apply ac_stmt; solve [auto with period nocore] : frame.

Lemma ac_append ev : ok (appendEvent ev).
Proof using All. apply append_evolves; side. Qed.

Lemma ac_job job : ok (statement (InsertJob job)).
Proof using All. apply job_evolves; side. Qed.

Lemma ac_due fuel o p : ok (ApplyDueBillingWork fuel o p).
Proof using All. apply ApplyDue_evolves; side. Qed.

Lemma ac_current fuel o p : ok (EnsureCurrentEntitlements fuel o p).
Proof using All. apply EnsureCurrent_evolves; side. Qed.

Lemma ac_entitlements o p : ok (ensureCurrentEntitlements o p).
Proof using All. apply ensureCurrent_evolves; side. Qed.

Lemma ac_deposits o p : ok (PostPendingGrantDeposits o p).
Proof using All. apply PostDeposits_evolves; side. Qed.

#[local] Hint Resolve ac_append ac_job ac_due ac_current ac_entitlements ac_deposits : frame.

Lemma Upsert_clock s t : ok (statement (UpsertBusinessClockOverride s t)).
Proof using All.
  apply evolves_statement; [apply _..|]. intros d a d' H. unfold UpsertBusinessClockOverride in H.
  repeat case_match; inv_ret; simplify_eq; try done; apply RD_admin; constructor.
Qed.

Lemma Delete_clock s : ok (statement (DeleteBusinessClockOverride s)).
Proof using All. apply evolves_statement; [apply _..|]. intros d a d' [= _ <-]. apply RD_admin. constructor. Qed.

Lemma Reassign_evolves o p c s e : ok (statement (ReassignWallClockWindows o p c s e)).
Proof using All. apply evolves_statement; [apply _..|]. intros d a d' H. apply RD_admin. by eapply adw_reassign. Qed.

#[local] Hint Resolve Upsert_clock Delete_clock Reassign_evolves : frame.

Lemma GetBusinessClock_evolves o p : ok (GetBusinessClock o p).
Proof using All. unfold GetBusinessClock. frame. Qed.

#[local] Hint Resolve GetBusinessClock_evolves : frame.

Lemma reconcileClockTarget_evolves fuel o p : ok (reconcileClockTarget fuel o p).
Proof using All. unfold reconcileClockTarget. frame. Qed.

#[local] Hint Resolve reconcileClockTarget_evolves : frame.

Lemma SetBusinessClock_evolves fuel o p t r : ok (SetBusinessClock fuel o p t r).
Proof using All. unfold SetBusinessClock, setClockTx. frame. Qed.

Lemma AdvanceBusinessClock_evolves fuel o p t r : ok (AdvanceBusinessClock fuel o p t r).
Proof using All. unfold AdvanceBusinessClock, advanceClockTx. frame. Qed.

Lemma ClearBusinessClock_evolves fuel o p r : ok (ClearBusinessClock fuel o p r).
Proof using All. unfold ClearBusinessClock, clearClockTx. frame. Qed.

(** The statements of the repair write cycles, grants and periods. *)
Lemma account_evolves {A} (f : DB -> res (A * DB)) : writes account_step f -> ok (statement f).
Proof using All. intros Hf. apply evolves_statement; [apply _..|]. intros d a d' H. by eapply RD_step, Hf. Qed.

#[local] Hint Extern 1 (evolves RD ledger_grows (statement _)) =>
  apply account_evolves; let H := fresh in intros ? ? ? H; injection H as _ <-; by apply account_step_same : frame.

Lemma upsertCycle_evolves k o p c : ok (upsertCycleTx k o p c).
Proof using All. by apply upsertCycleTx_ok; try apply _. Qed.

#[local] Hint Resolve upsertCycle_evolves : frame.

Lemma repairTargetTx_evolves o p t n prev : ok (repairTargetTx o p t n prev).
Proof using All.
  unfold repairTargetTx, insertWallClockResetCycleTx, openBillingCycleContainingTx, VoidCyclesForWallClockReset,
    CloseCurrentEntitlementGrantsForWallClockReset, queryAt. frame.
Qed.

#[local] Hint Resolve repairTargetTx_evolves : frame.

Lemma shift_from paid n w :
  (wp_ok paid = true -> shiftable (wp_contractID paid) (w_db w) = true) ->
  evolves_from (if wp_ok paid then shiftActiveContractToWallClockTx paid n else mret tt) w.
Proof using All.
  intros Hs. destruct (wp_ok paid); [|by split]. unfold shiftActiveContractToWallClockTx.
  apply evolves_from_bind; [|intros _; frame]. apply statement_from. intros [] d' H. apply RD_write.
  eexists _, _, _. split; [apply ps_shift_contract|]. unfold guarded. by rewrite Hs.
Qed.

Lemma activePaid_evolves {A} o p t (k : wallClockPaidPhase -> @B St A) :
  (forall paid w, (wp_ok paid = true -> shiftable (wp_contractID paid) (w_db w) = true) -> evolves_from (k paid) w) ->
  ok (mbindM (activePaidPhaseForWallClockResetTx o p t) k).
Proof using All.
  intros Hk w. unfold activePaidPhaseForWallClockResetTx, mbindM, query.
  destruct (GetActivePaidPhaseForWallClockReset _ _ _ _) as [[[id ph] starts]|] eqn:E; simpl; apply Hk; simpl; [|done].
  intros _. by eapply reset_phase_shiftable.
Qed.

Lemma ResetBusinessClock_evolves fuel o p r : ok (ResetBusinessClockToWallClock fuel o p r).
Proof using All.
  assert (forall n, ok (resetClockTx o p r n)) as Htx.
  { intros n. unfold resetClockTx. apply evolves_bind; [apply _..|frame|]. intros prev.
    apply evolves_bind; [apply _..|frame|]. intros _. apply activePaid_evolves. intros paid w Hs.
    apply evolves_from_bind; [by apply shift_from|]. intros _. frame. }
  unfold ResetBusinessClockToWallClock. frame.
Qed.

(** *** Provider events *)

Lemma event_evolves {A} (f : DB -> res (A * DB)) : event_stmt A f -> ok (statement f).
Proof using All. intros Hf. apply evolves_statement; [apply _..|]. intros d a d' H. apply RD_admin. by eapply adw_event. Qed.

Lemma ac_wrapped {A} t (m : @B St A) : ok m -> ok (wrapped t m).
Proof using All. intros Hm. unfold wrapped. frame. Qed.

Lemma recordStripeProviderEvent_evolves ev payload : ok (recordStripeProviderEvent ev payload).
Proof using All.
  unfold recordStripeProviderEvent, recordStripeProviderEventTx. destruct (ev_Data ev); [|frame].
  frame; [|by frame..]. apply ac_wrapped, event_evolves. by constructor.
Qed.

Lemma failProviderEvent_evolves id e : ok (failProviderEvent id e).
Proof using All. unfold failProviderEvent. frame. apply event_evolves. constructor. Qed.

Lemma markProviderEventFinal_evolves id st : st = PvApplied \/ st = PvIgnored -> ok (markProviderEventFinal id st).
Proof using All.
  intros Hst. pose proof (fun t => event_evolves _ (es_final id st t Hst)). unfold markProviderEventFinal. frame.
Qed.

Lemma ApplyProviderEvent_evolves fuel id : ok (ApplyProviderEvent fuel id).
Proof using All.
  pose proof (event_evolves _ (es_claim id)). pose proof (failProviderEvent_evolves id).
  pose proof (markProviderEventFinal_evolves id PvApplied (or_introl eq_refl)).
  pose proof (markProviderEventFinal_evolves id PvIgnored (or_intror eq_refl)).
  pose proof (fun ty h ev => applyEvent_evolves (St := St) RD RD_step RD_write RD_account fuel ty h ev) as Ha.
  unfold ApplyProviderEvent. apply evolves_bind; [apply _..|frame|]. intros [payload|]; [|frame].
  destruct (decode_event payload) as [ev|e|]; [|frame..]. destruct (eventHandler fuel (ev_Type ev)) as [h|] eqn:Eh; [|frame].
  apply evolves_bind; [apply _..|apply evolves_attempt; [apply _..|by eapply Ha]|]. intros r. frame.
Qed.

#[local] Hint Resolve recordStripeProviderEvent_evolves ApplyProviderEvent_evolves : frame.

Lemma ApplyPendingProviderEvents_evolves fuel n : ok (ApplyPendingProviderEvents fuel n).
Proof using All.
  assert (forall ids k, ok (applyEvents fuel ids k)) by (induction ids; intros k; simpl; frame).
  unfold ApplyPendingProviderEvents. frame.
Qed.

Lemma HandleStripeWebhook_evolves fuel p s k : ok (HandleStripeWebhook fuel p s k).
Proof using All.
  assert (forall A t (o : res A), ok (wrapped t (mlift o : @B St A))) by (intros; apply ac_wrapped; frame).
  unfold HandleStripeWebhook. frame.
Qed.

(** *** The views *)

Lemma ac_require : ok requireLedger.
Proof using All. by apply requireLedger_ok; try apply _. Qed.

#[local] Hint Resolve ac_require : frame.

Lemma GetStorageEntitlement_evolves fuel o p : ok (GetStorageEntitlement fuel o p).
Proof using All. unfold GetStorageEntitlement, loadPlan, queryAt. frame. Qed.

Lemma ac_balances fuel o p : ok (ListGrantBalances fuel o p).
Proof using All. unfold ListGrantBalances, balancesOfRows, hydrateGrantLedgerBalances, grantAuthorizedUsage, rowsAt. frame. Qed.

#[local] Hint Resolve GetStorageEntitlement_evolves ac_balances : frame.

Lemma viewGrants_evolves fuel o cat nows seen : ok (viewGrants fuel o cat nows seen).
Proof using All. revert nows seen. induction cat; intros nows seen; simpl; frame. Qed.

#[local] Hint Resolve viewGrants_evolves : frame.

Lemma ListEntitlementsView_evolves fuel o : ok (ListEntitlementsView fuel o).
Proof using All. unfold ListEntitlementsView, loadEntitlementCatalog. frame. Qed.
End Admin.
