(* ===== verification/Legs.v ===== *)
(** * The ledger legs of a window

    What the statements and loops of billing/windows.go do to the legs of one
    window, as functions on its list of legs in leg_seq order: inserting the
    legs of a reservation, the settlement loop of settleWindowLedgerPayloadTx,
    and the bulk updates that close the pending legs. *)

From S2P Require Import Prelude GoFloat GoStd GoTime GoFormat Json Types Ids Ledger Charges Grants Store Events.
From S2P Require Import LedgerCommands LedgerGrants Cycles Entitlements WindowStore Windows Frames.

(** ** The list of a window's legs *)

Abbreviation seqLess := (on_key Z.ltb (fst : Z * legRow -> Z)).

Lemma legs_of_window_elem id d s l : (s, l) ∈ legs_of_window id d <-> db_legs d !! (id, s) = Some l.
Proof.
  unfold legs_of_window. rewrite sort_slice_perm, list_elem_of_fmap. split.
  - intros ([[i s'] l'] & [= -> ->] & [E Hin]%list_elem_of_filter). simpl in E. subst.
    by apply elem_of_map_to_list.
  - intros H. exists ((id, s), l). split; [done|]. apply list_elem_of_filter. split; [done|].
    by apply elem_of_map_to_list.
Qed.

Lemma legs_of_window_sorted id d : StronglySorted (not_after seqLess) (legs_of_window id d).
Proof. apply sort_sorted. apply _. Qed.

Lemma legs_of_window_NoDup id d : NoDup (legs_of_window id d).*1.
Proof.
  unfold legs_of_window. rewrite sort_slice_perm, <- list_fmap_compose.
  assert (forall k : string * Z, k ∈ (filter (fun kv => kv.1.1 = id) (map_to_list (db_legs d))).*1 -> k.1 = id) as Hid.
  { intros k (kv & -> & [? _]%list_elem_of_filter)%list_elem_of_fmap. done. }
  assert (NoDup (filter (fun kv => kv.1.1 = id) (map_to_list (db_legs d))).*1) as Hnd.
  { eapply sublist_NoDup; [apply (NoDup_fst_map_to_list (db_legs d))|]. apply fmap_sublist, sublist_filter. }
  set (F := filter _ _) in *.
  assert (snd <$> F.*1 = (fst ∘ (fun kv : string * Z * legRow => (kv.1.2, kv.2))) <$> F) as <-
    by (by rewrite <- list_fmap_compose).
  apply NoDup_fmap_2_strong; [|done].
  intros [i s] [i' s'] H1 H2 E. apply Hid in H1, H2. simpl in *. congruence.
Qed.

(** A sorted list with the right members is the list. *)
Lemma legs_of_window_intro id d L :
  NoDup L.*1 -> StronglySorted (not_after seqLess) L ->
  (forall s l, (s, l) ∈ L <-> db_legs d !! (id, s) = Some l) -> legs_of_window id d = L.
Proof.
  intros Hnd Hs Hin. symmetry. unfold legs_of_window. apply sort_unique; [apply _| | |done].
  - intros [s1 l1] [s2 l2] H1 H2 E1 E2. unfold on_key in *. simpl in *. zbool. assert (s1 = s2) as -> by lia.
    assert (forall s l, (s, l) ∈ ((fun kv => (kv.1.2, kv.2)) <$> filter (fun kv => kv.1.1 = id) (map_to_list (db_legs d)))
              -> db_legs d !! (id, s) = Some l) as Hl.
    { intros s l H. apply legs_of_window_elem. unfold legs_of_window. by rewrite sort_slice_perm. }
    apply Hl in H1, H2. congruence.
  - apply NoDup_Permutation.
    + by eapply NoDup_fmap_1.
    + pose proof (legs_of_window_NoDup id d) as H. unfold legs_of_window in H. rewrite sort_slice_perm in H.
      by eapply NoDup_fmap_1.
    + intros [s l]. rewrite Hin, <- legs_of_window_elem. unfold legs_of_window. by rewrite sort_slice_perm.
Qed.

(** Updating each leg in place keeps the list. *)
Lemma legs_of_window_map id d d' (g : Z -> legRow -> legRow) :
  (forall s, db_legs d' !! (id, s) = g s <$> db_legs d !! (id, s)) ->
  legs_of_window id d' = (fun e => (e.1, g e.1 e.2)) <$> legs_of_window id d.
Proof.
  intros Hg. apply legs_of_window_intro.
  - rewrite <- list_fmap_compose. apply legs_of_window_NoDup.
  - pose proof (legs_of_window_sorted id d) as Hs. induction Hs as [|e L Hs IH Hall]; simpl; constructor; [done|].
    apply Forall_fmap. eapply Forall_impl; [exact Hall|]. done.
  - intros s l. rewrite list_elem_of_fmap, Hg. split.
    + intros ([s' l'] & [= -> ->] & H%legs_of_window_elem). rewrite H. done.
    + intros (l' & H & ->)%fmap_Some. exists (s, l'). split; [done|]. by apply legs_of_window_elem.
Qed.

Lemma legs_of_window_same id d d' :
  (forall s, db_legs d' !! (id, s) = db_legs d !! (id, s)) -> legs_of_window id d' = legs_of_window id d.
Proof.
  intros Hg. rewrite (legs_of_window_map id d d' (fun _ l => l)).
  - rewrite <- (list_fmap_id (legs_of_window id d)) at 2. apply list_fmap_ext. by intros i [].
  - intros s. rewrite Hg. by destruct (db_legs d !! (id, s)).
Qed.

(** ** Writing a list of legs *)

Definition store_legs (id : string) (L : list (Z * legRow)) (m : gmap (string * Z) legRow) : gmap (string * Z) legRow :=
  foldl (fun m e => <[(id, e.1) := e.2]> m) m L.

Lemma store_legs_other id L m k : k.1 <> id -> store_legs id L m !! k = m !! k.
Proof.
  intros Hne. revert m. induction L as [|e L IH]; intros m; simpl; [done|].
  rewrite IH. apply lookup_insert_ne. intros <-. done.
Qed.

Lemma store_legs_notin id L m s : s ∉ L.*1 -> store_legs id L m !! (id, s) = m !! (id, s).
Proof.
  revert m. induction L as [|e L IH]; intros m Hs; simpl in *; [done|].
  apply not_elem_of_cons in Hs as [Hne Hs]. rewrite IH by done. apply lookup_insert_ne. congruence.
Qed.

Lemma store_legs_in id L m s l : NoDup L.*1 -> (s, l) ∈ L -> store_legs id L m !! (id, s) = Some l.
Proof.
  revert m. induction L as [|e L IH]; intros m Hnd Hin; simpl in *; [by apply elem_of_nil in Hin|].
  apply NoDup_cons in Hnd as [He Hnd]. apply elem_of_cons in Hin as [<-|Hin]; [|by apply IH].
  simpl in *. rewrite store_legs_notin by done. apply lookup_insert_eq.
Qed.

(** Writing exactly the seqs that exist replaces the list. *)
Lemma legs_of_window_store id d L :
  L.*1 = (legs_of_window id d).*1 -> legs_of_window id (set_legs (store_legs id L (db_legs d)) d) = L.
Proof.
  intros E. pose proof (legs_of_window_NoDup id d) as Hnd. rewrite <- E in Hnd.
  pose proof (legs_of_window_sorted id d) as Hs.
  apply legs_of_window_intro; [done| |].
  - clear Hnd. revert E Hs. generalize (legs_of_window id d). induction L as [|e L IH]; intros [|e' L'] E Hs; try done.
    rewrite !fmap_cons in E. apply (f_equal (fun x => (head x, tail x))) in E as [= E1 E2]. inversion Hs as [|?? Hs' Hall]; subst. constructor; [by eapply IH|].
    apply Forall_forall. intros x Hx. assert (x.1 ∈ L'.*1) as Hx' by (rewrite <- E2; by apply list_elem_of_fmap_2).
    apply list_elem_of_fmap in Hx' as (y & Ey & Hy). rewrite Forall_forall in Hall. specialize (Hall y Hy).
    unfold not_after, on_key in *. by rewrite Ey, E1.
  - intros s l. simpl. split; [by apply store_legs_in|]. intros Hl.
    destruct (decide (s ∈ L.*1)) as [Hin|Hout].
    + apply list_elem_of_fmap in Hin as ([s' l'] & -> & Hin). simpl in *.
      rewrite (store_legs_in id L _ s' l') in Hl by done. congruence.
    + rewrite store_legs_notin in Hl by done. apply legs_of_window_elem in Hl. exfalso. apply Hout.
      rewrite E. by apply (list_elem_of_fmap_2 fst _ (s, l)).
Qed.

(** ** Totals per component *)

Definition leg_total (f : legRow -> Z) (sku : string) (L : list (Z * legRow)) : Z :=
  zsum (f <$> filter (fun l => l_component_sku_id l = sku) L.*2).

Lemma leg_total_cons f sku e L :
  leg_total f sku (e :: L) = (if decide (l_component_sku_id e.2 = sku) then f e.2 else 0) + leg_total f sku L.
Proof.
  unfold leg_total. rewrite fmap_cons, filter_cons. case_decide; zsum_simpl; lia.
Qed.

Lemma leg_total_nil f sku : leg_total f sku [] = 0.
Proof. done. Qed.

Lemma leg_total_map f g sku h L :
  (forall e, l_component_sku_id (h e.1 e.2) = l_component_sku_id e.2 /\ f (h e.1 e.2) = g e.2) ->
  leg_total f sku ((fun e => (e.1, h e.1 e.2)) <$> L) = leg_total g sku L.
Proof.
  intros Hh. induction L as [|e L IH]; [done|]. rewrite fmap_cons, !leg_total_cons, IH. simpl.
  destruct (Hh e) as [-> ->]. done.
Qed.

(** ** Inserting the legs of a reservation *)

Fixpoint numbered (i : Z) (rows : list legRow) : list (Z * legRow) :=
  match rows with
  | [] => []
  | r :: rows' => (i, r) :: numbered (i + 1) rows'
  end.

Lemma numbered_ge i rows : Forall (fun e => i <= e.1) (numbered i rows).
Proof.
  revert i. induction rows as [|r rows IH]; intros i; simpl; constructor; [simpl; lia|].
  eapply Forall_impl; [apply IH|]. simpl. lia.
Qed.

Lemma numbered_snd i rows : (numbered i rows).*2 = rows.
Proof. revert i. induction rows as [|r rows IH]; intros i; simpl; [done|]. by rewrite IH. Qed.

Lemma numbered_NoDup i rows : NoDup (numbered i rows).*1.
Proof.
  revert i. induction rows as [|r rows IH]; intros i; simpl; [constructor|]. apply NoDup_cons. split; [|apply IH].
  intros (e & -> & He)%list_elem_of_fmap. pose proof (numbered_ge (e.1 + 1) rows) as Hg.
  rewrite Forall_forall in Hg. specialize (Hg e He). simpl in Hg. lia.
Qed.

Lemma numbered_sorted i rows : StronglySorted (not_after seqLess) (numbered i rows).
Proof.
  revert i. induction rows as [|r rows IH]; intros i; simpl; constructor; [apply IH|].
  eapply Forall_impl; [apply numbered_ge|]. unfold not_after, on_key. simpl. intros e He. apply Z.ltb_ge. lia.
Qed.

Lemma legs_of_window_fresh id d rows :
  (forall s, db_legs d !! (id, s) = None) ->
  legs_of_window id (set_legs (store_legs id (numbered 0 rows) (db_legs d)) d) = numbered 0 rows.
Proof.
  intros Hn. apply legs_of_window_intro; [apply numbered_NoDup|apply numbered_sorted|].
  intros s l. simpl. split; [apply store_legs_in, numbered_NoDup|]. intros Hl.
  destruct (decide (s ∈ (numbered 0 rows).*1)) as [Hin|Hout].
  - apply list_elem_of_fmap in Hin as ([s' l'] & -> & Hin). simpl in *.
    rewrite (store_legs_in id _ _ s' l') in Hl by (done || apply numbered_NoDup). congruence.
  - rewrite store_legs_notin in Hl by done. by rewrite Hn in Hl.
Qed.

(** The row of an authorised leg. *)
Definition inserted_leg (leg : fundingLeg) (row : legRow) : Prop :=
  exists account, row = legRowOf leg account (fl_Amount leg) /\ 0 <= fl_Amount leg <= i64_max
    /\ (if decide (fl_GrantAccountID leg = "") then account = None
        else exists id, account = Some id /\ ParseID (fl_GrantAccountID leg) = Ret id).

Section Insert.
Context {St : Type} `{HE : Env} `{HD : Digest}.
#[local] Abbreviation Bx A := (@B St A).

Lemma insertLeg_Ret id i leg (w w' : world St) :
  insertLeg id i leg w = (Ret tt, w') -> db_legs (w_db w) !! (id, i) = None ->
  exists row, inserted_leg leg row /\ w' = with_db (set_legs (<[(id, i) := row]> (db_legs (w_db w))) (w_db w)) w.
Proof.
  intros H Hn. unfold insertLeg in H.
  apply mbindM_Ret_inv in H as (account & w1 & Hacc & H).
  apply mbindM_Ret_inv in H as (amount & w2 & Ham & H).
  unfold mlift in Ham. injection Ham as Ham <-. apply checkedInt64_Ret in Ham as [-> Hmax].
  assert (w1 = w /\ if decide (fl_GrantAccountID leg = "") then account = None
          else exists id, account = Some id /\ ParseID (fl_GrantAccountID leg) = Ret id) as [-> Ha].
  { case_decide; [by injection Hacc as <- <-|].
    apply mbindM_Ret_inv in Hacc as (p & w3 & Hp & Hacc). unfold mlift in Hp. injection Hp as Hp <-.
    injection Hacc as <- <-. eauto. }
  unfold statement, InsertWindowLedgerLeg, check_constraint in H. rewrite Hn in H.
  destruct (_ && _) eqn:Hc in H; [|done]. simpl in H. injection H as <-. zbool.
  eexists. split; [|done]. exists account. split; [done|]. split; [|done]. simpl in *. lia.
Qed.

Lemma insertLegsFrom_Ret id i legs (w w' : world St) :
  insertLegsFrom id i legs w = (Ret tt, w') -> (forall s, i <= s -> db_legs (w_db w) !! (id, s) = None) ->
  exists rows, Forall2 inserted_leg legs rows
    /\ w' = with_db (set_legs (store_legs id (numbered i rows) (db_legs (w_db w))) (w_db w)) w.
Proof.
  revert i w. induction legs as [|leg legs IH]; intros i w H Hn; simpl in H.
  { injection H as <-. exists []. split; [constructor|]. by destruct w as [[]]. }
  apply mbindM_Ret_inv in H as ([] & w1 & H1 & H).
  apply insertLeg_Ret in H1 as (row & Hrow & ->); [|by apply Hn; lia].
  apply IH in H as (rows & Hrows & ->).
  - exists (row :: rows). split; [by constructor|]. done.
  - intros s Hs. simpl. rewrite lookup_insert_ne by (intros [= ->]; lia). apply Hn. lia.
Qed.
End Insert.

Lemma inserted_total legs rows i sku :
  Forall2 inserted_leg legs rows -> leg_total l_amount_reserved sku (numbered i rows) = sku_funded legs sku.
Proof.
  intros H. revert i. induction H as [|leg row legs rows (a & -> & _ & _) H IH]; intros i; simpl; [done|].
  rewrite leg_total_cons, IH. change (leg :: legs) with ([leg] ++ legs). rewrite sku_funded_app. simpl. f_equal.
  unfold sku_funded, legs_of_sku. rewrite filter_cons, filter_nil. case_decide; unfold zsum; simpl; lia.
Qed.

(** ** Closing the pending legs *)

Definition update_leg (f : legRow -> legRow) (l : legRow) : legRow := if decide (l_state l = LPending) then f l else l.

Lemma update_pending_legs_of id f d :
  legs_of_window id (update_pending_legs id f d) = (fun e => (e.1, update_leg f e.2)) <$> legs_of_window id d.
Proof.
  apply (legs_of_window_map id d _ (fun _ => update_leg f)). intros s. simpl. rewrite map_lookup_imap.
  destruct (db_legs d !! (id, s)) as [l|]; simpl; [|done]. unfold update_leg. f_equal.
  destruct (decide (l_state l = LPending)); [rewrite decide_True|rewrite decide_False]; naive_solver.
Qed.

Lemma update_pending_other id f d k : k.1 <> id -> db_legs (update_pending_legs id f d) !! k = db_legs d !! k.
Proof.
  intros Hne. simpl. rewrite map_lookup_imap. destruct (db_legs d !! k) as [l|]; simpl; [|done].
  rewrite decide_False; [done|]. naive_solver.
Qed.

(** ** The settlement loop *)

Definition is_spend (l : legRow) : Prop := l_grant_id l <> "" /\ 0 < l_amount_posted l.
#[export] Instance is_spend_dec l : Decision (is_spend l).
Proof. unfold is_spend. apply _. Defined.

(** The ledger transfer that spends a settled leg. *)
Definition spend_of (revenue correlation : ID) (l : legRow) (t : TransferPayload) : Prop :=
  exists sid ms, l_settlement_transfer_id l = Some sid
    /\ t = UsageSpendTransfer sid (default zeroID (l_grant_account_id l)) revenue (l_amount_posted l) correlation ms.

(** The funding leg recorded on the window for a settled leg. *)
Definition funding_of (l : legRow) (f : fundingLeg) : Prop :=
  fl_Amount f = l_amount_posted l /\ fl_GrantID f = l_grant_id l /\ fl_Source f = l_source l
  /\ fl_ComponentSKUID f = l_component_sku_id l /\ fl_ComponentBucketID f = l_component_bucket_id l.

Section Settle.
Context {St : Type} `{HE : Env} `{HD : Digest} `{HC : TBCodec} `{!TigerBeetle St} `{!PeriodWork St}.
#[local] Abbreviation Bx A := (@B St A).

(** Whether an id was handed out by tb.ID(). *)
Definition generated (id : ID) : Prop := exists n, id = id_at n.

(** One leg before and after: what is posted and what is released add up to
    what was reserved, and a transfer id is assigned exactly to the legs that
    spend a grant. *)
Definition settled_leg (l l' : legRow) : Prop :=
  exists sid posted, l' = leg_with sid posted (l_amount_reserved l - posted) (l_state l) l
    /\ 0 <= posted <= l_amount_reserved l
    /\ (is_spend l' -> exists id, sid = Some id /\ (generated id \/ l_settlement_transfer_id l = Some id /\ IsZero id = false))
    /\ (~ is_spend l' -> sid = None).

Definition quiet (w w' : world St) : Prop := w_db w' = w_db w /\ w_tb w' = w_tb w.

Lemma unixMillis_quiet t (w w' : world St) ms : unixMillis t w = (Ret ms, w') -> quiet w w'.
Proof.
  unfold unixMillis. intros H. apply mbindM_Ret_inv in H as (t' & w1 & H1 & H).
  assert (quiet w w1) as [E1 E2] by (destruct (is_zero t); by injection H1 as <- <-).
  destruct (t' <? 0); injection H as <- <-; done.
Qed.

Lemma existingOrNewLedgerID_Ret raw (w w' : world St) id :
  existingOrNewLedgerID raw w = (Ret id, w') -> quiet w w' /\ (generated id \/ id = raw /\ IsZero id = false).
Proof.
  unfold existingOrNewLedgerID. intros H. apply mbindM_Ret_inv in H as (id0 & w1 & H1 & H).
  unfold mlift in H1. injection H1 as H1 <-. unfold IDFromBytes in H1. case_decide; [|done]. injection H1 as <-.
  destruct (IsZero raw) eqn:Hz.
  - unfold NewID in H. injection H as <- <-. split; [done|]. left. by eexists.
  - injection H as <- <-. split; [done|]. by right.
Qed.

(** What one pass of the loop leaves behind. *)
Record leg_settled (id : string) (revenue correlation : ID) (st st' : settleState) (seq : Z) (l l' : legRow)
    (w w' : world St) : Prop := {
  ls_leg : settled_leg l l';
  ls_db : w_db w' = set_legs (<[(id, seq) := l']> (db_legs (w_db w))) (w_db w);
  ls_tb : w_tb w' = w_tb w;
  ls_remaining : forall sku, map_u64 (st_remaining st') sku
    = map_u64 (st_remaining st) sku - (if decide (l_component_sku_id l = sku) then l_amount_posted l' else 0);
  ls_nonneg : (forall sku, 0 <= map_u64 (st_remaining st) sku) -> forall sku, 0 <= map_u64 (st_remaining st') sku;
  ls_greedy : l_amount_posted l' = Z.min (map_u64 (st_remaining st) (l_component_sku_id l)) (l_amount_reserved l);
  ls_transfers : exists T, st_transfers st' = st_transfers st ++ T
    /\ Forall2 (spend_of revenue correlation) (filter is_spend [l']) T;
  ls_legs : exists F, st_legs st' = st_legs st ++ F
    /\ Forall2 funding_of (filter (fun l => 0 < l_amount_posted l) [l']) F
}.

Lemma minUint64_min a b : minUint64 a b = Z.min a b.
Proof. unfold minUint64. destruct (Z.ltb_spec a b); lia. Qed.

(** The branch that assigns a transfer to the leg. *)
Lemma settle_branch_Ret l posted revenue correlation t (w w1 : world St) r :
  0 <= posted ->
  (if decide (l_grant_id l = "") then mret (None, settledLeg l posted "" "", [])
   else
     do! accountID <- mlift (IDFromBytes (default zeroID (l_grant_account_id l)));
     if 0 <? posted then
       do! settlementID <- existingOrNewLedgerID (default zeroID (l_settlement_transfer_id l));
       do! ms <- unixMillis t;
       mret (Some settlementID, settledLeg l posted (IDString accountID) (IDString settlementID),
             [UsageSpendTransfer settlementID accountID revenue posted correlation ms])
     else mret (None, settledLeg l posted (IDString accountID) "", [])) w = (Ret r, w1) ->
  quiet w w1 /\ (exists a s, r.1.2 = settledLeg l posted a s)
  /\ (l_grant_id l <> "" /\ 0 < posted /\ (exists sid ms, r.1.1 = Some sid
        /\ (generated sid \/ l_settlement_transfer_id l = Some sid /\ IsZero sid = false)
        /\ r.2 = [UsageSpendTransfer sid (default zeroID (l_grant_account_id l)) revenue posted correlation ms])
      \/ ~ (l_grant_id l <> "" /\ 0 < posted) /\ r.1.1 = None /\ r.2 = []).
Proof.
  intros Hp H. case_decide as Hg.
  { injection H as <- <-. split; [done|]. split; [eauto|]. right. naive_solver. }
  apply mbindM_Ret_inv in H as (acc & w2 & Hacc & H). unfold mlift in Hacc. injection Hacc as Hacc <-.
  unfold IDFromBytes in Hacc. case_decide; [|done]. injection Hacc as <-.
  destruct (Z.ltb_spec 0 posted).
  - apply mbindM_Ret_inv in H as (sid & w2 & Hsid & H). apply mbindM_Ret_inv in H as (ms & w3 & Hms & H).
    injection H as <- <-. apply existingOrNewLedgerID_Ret in Hsid as [[E1 E2] Hsid].
    apply unixMillis_quiet in Hms as [E3 E4]. split; [split; congruence|]. split; [simpl; eauto|]. left.
    split; [done|]. split; [done|]. exists sid, ms. split; [done|]. split; [|done].
    destruct Hsid as [|[-> Hz]]; [by left|right]. split; [|done].
    destruct (l_settlement_transfer_id l) as [x|]; [done|]. simpl in Hz. unfold IsZero in Hz.
    by rewrite bool_decide_eq_true_2 in Hz.
  - injection H as <- <-. split; [done|]. split; [simpl; eauto|]. right. split; [lia|done].
Qed.

Lemma settleLeg_Ret id revenue correlation t st st' seq l (w w' : world St) :
  settleLeg id revenue correlation t st (seq, l) w = (Ret st', w') ->
  db_legs (w_db w) !! (id, seq) = Some l -> 0 <= map_u64 (st_remaining st) (l_component_sku_id l) ->
  exists l', leg_settled id revenue correlation st st' seq l l' w w'.
Proof.
  intros H Hl Hrem. unfold settleLeg in H. destruct (Z.ltb_spec (l_amount_reserved l) 0) as [|Hres]; [done|].
  rewrite minUint64_min in H. set (posted := Z.min _ _) in *.
  assert (0 <= posted <= l_amount_reserved l) as Hpost by lia.
  assert (posted <= map_u64 (st_remaining st) (l_component_sku_id l)) as Hle by lia.
  apply mbindM_Ret_inv in H as (r & w1 & Hr & H).
  apply settle_branch_Ret in Hr as ([E1 E2] & (a & s & Es) & Hr); [|lia].
  destruct r as [[settlement settled] transfer]. simpl in Es, Hr. subst settled.
  apply mbindM_Ret_inv in H as (p & w2 & Hp & H). unfold mlift in Hp. injection Hp as Hp <-.
  apply checkedInt64_Ret in Hp as [-> _].
  apply mbindM_Ret_inv in H as (v & w2 & Hv & H). unfold mlift in Hv. injection Hv as Hv <-.
  apply checkedInt64_Ret in Hv as [-> _].
  apply mbindM_Ret_inv in H as ([] & w2 & Hst & H). injection H as <- <-.
  unfold statement, StoreWindowSettlementAmounts in Hst. injection Hst as <-.
  set (l' := leg_with settlement posted (l_amount_reserved l - posted) (l_state l) l).
  assert (is_spend l' <-> l_grant_id l <> "" /\ 0 < posted) as Hsp by done.
  exists l'. split; simpl.
  - exists settlement, posted. split; [done|]. split; [done|].
    destruct Hr as [(Hg & Hpos & sid & ms & -> & Hgen & _)|(Hn & -> & _)]; [|naive_solver].
    split; [eauto|]. intros Hns. exfalso. by apply Hns.
  - rewrite E1. f_equal. apply map_eq. intros k. destruct (decide (k = (id, seq))) as [->|Hne].
    + by rewrite lookup_alter_eq, lookup_insert_eq, Hl.
    + by rewrite lookup_alter_ne, lookup_insert_ne by done.
  - done.
  - intros sku. unfold map_u64. case_decide as Es.
    + subst sku. rewrite lookup_insert_eq. done.
    + rewrite lookup_insert_ne by done. lia.
  - intros Hnn sku. unfold map_u64. destruct (decide (l_component_sku_id l = sku)) as [<-|Es].
    + rewrite lookup_insert_eq. simpl. unfold map_u64 in Hle. lia.
    + rewrite lookup_insert_ne by done. apply Hnn.
  - done.
  - exists transfer. split; [done|]. rewrite filter_cons, filter_nil.
    destruct Hr as [(Hg & Hpos & sid & ms & -> & Hgen & ->)|(Hn & -> & ->)].
    + rewrite decide_True by done. constructor; [|constructor]. exists sid, ms. done.
    + rewrite decide_False by (by rewrite Hsp). constructor.
  - destruct (Z.ltb_spec 0 posted).
    + eexists. split; [done|]. rewrite filter_cons, filter_nil, decide_True by done. by repeat constructor.
    + exists []. split; [by rewrite app_nil_r|]. rewrite filter_cons, filter_nil, decide_False by (simpl; lia). constructor.
Qed.

(** The whole loop. *)
Record legs_settled (id : string) (revenue correlation : ID) (st st' : settleState) (L L' : list (Z * legRow))
    (w w' : world St) : Prop := {
  lss_legs : Forall2 (fun e e' => e'.1 = e.1 /\ settled_leg e.2 e'.2) L L';
  lss_db : w_db w' = set_legs (store_legs id L' (db_legs (w_db w))) (w_db w);
  lss_tb : w_tb w' = w_tb w;
  lss_remaining : forall sku, map_u64 (st_remaining st') sku
    = map_u64 (st_remaining st) sku - leg_total l_amount_posted sku L';
  lss_nonneg : forall sku, 0 <= map_u64 (st_remaining st') sku;
  lss_greedy : forall sku, map_u64 (st_remaining st') sku
    = Z.max 0 (map_u64 (st_remaining st) sku - leg_total l_amount_reserved sku L);
  lss_transfers : exists T, st_transfers st' = st_transfers st ++ T
    /\ Forall2 (spend_of revenue correlation) (filter is_spend L'.*2) T;
  lss_funding : exists F, st_legs st' = st_legs st ++ F
    /\ Forall2 funding_of (filter (fun l => 0 < l_amount_posted l) L'.*2) F
}.

Lemma settled_leg_sku l l' : settled_leg l l' -> l_component_sku_id l' = l_component_sku_id l.
Proof. by intros (sid & p & -> & _). Qed.

Lemma settled_reserved_nonneg L L' sku :
  Forall2 (fun e e' : Z * legRow => e'.1 = e.1 /\ settled_leg e.2 e'.2) L L' -> 0 <= leg_total l_amount_reserved sku L.
Proof.
  induction 1 as [|e e' L L' [_ (sid & p & _ & Hp & _)] _ IH]; [done|]. rewrite leg_total_cons. case_decide; lia.
Qed.

Lemma settleLegs_Ret id revenue correlation t L st st' (w w' : world St) :
  settleLegs id revenue correlation t st L w = (Ret st', w') ->
  NoDup L.*1 -> (forall s l, (s, l) ∈ L -> db_legs (w_db w) !! (id, s) = Some l) ->
  (forall sku, 0 <= map_u64 (st_remaining st) sku) ->
  exists L', legs_settled id revenue correlation st st' L L' w w'.
Proof.
  revert st w. induction L as [|[s l] L IH]; intros st w H Hnd Hin Hnn; simpl in H.
  { injection H as <- <-. exists []. split; try done.
    - by destruct (w_db w).
    - intros sku. rewrite leg_total_nil. lia.
    - intros sku. rewrite leg_total_nil. specialize (Hnn sku). lia.
    - exists []. split; [by rewrite app_nil_r|constructor].
    - exists []. split; [by rewrite app_nil_r|constructor]. }
  rewrite fmap_cons in Hnd. apply NoDup_cons in Hnd as [Hs Hnd].
  apply mbindM_Ret_inv in H as (st1 & w1 & H1 & H).
  apply settleLeg_Ret in H1 as (l' & [S1 S2 S3 S4 S5 S6 (T & ET & HT) (F & EF & HF)]);
    [|apply Hin; constructor|apply Hnn].
  apply IH in H as (L' & [R1 R2 R3 R4 R5 R6 (T' & ET' & HT') (F' & EF' & HF')]); [|done| |by apply S5].
  2: { intros s0 l0 H0. rewrite S2. simpl. rewrite lookup_insert_ne.
       - apply Hin. by constructor.
       - intros [= ->]. apply Hs. by apply (list_elem_of_fmap_2 fst _ (s0, l0)). }
  exists ((s, l') :: L'). split.
  - by constructor.
  - rewrite R2, S2. done.
  - congruence.
  - intros sku. rewrite R4, S4, leg_total_cons. simpl. rewrite (settled_leg_sku _ _ S1). lia.
  - done.
  - intros sku. rewrite R6, S4, S6, leg_total_cons. simpl. specialize (Hnn sku).
    pose proof (settled_reserved_nonneg _ _ sku R1). destruct S1 as (sid & p & -> & Hp & _). case_decide as Es; [rewrite Es|]; lia.
  - exists (T ++ T'). split; [by rewrite ET', ET, app_assoc|].
    change (((s, l') :: L').*2) with ([l'] ++ L'.*2). rewrite filter_app. by apply Forall2_app.
  - exists (F ++ F'). split; [by rewrite EF', EF, app_assoc|].
    change (((s, l') :: L').*2) with ([l'] ++ L'.*2). rewrite filter_app. by apply Forall2_app.
Qed.

Lemma legs_settled_seqs id revenue correlation st st' L L' w w' :
  legs_settled id revenue correlation st st' L L' w w' -> L'.*1 = L.*1.
Proof.
  intros [R _ _ _ _ _ _ _]. induction R as [|e e' L L' [E _] R IH]; [done|].
  rewrite !fmap_cons, E. by f_equal.
Qed.

(** The loop does not fail on well-formed legs. *)
Definition settleable (l : legRow) : Prop :=
  0 <= l_amount_reserved l <= i64_max /\ length (default zeroID (l_grant_account_id l)) = 16%nat
  /\ length (default zeroID (l_settlement_transfer_id l)) = 16%nat.

Lemma unixMillis_total t (w : world St) : exists ms w', unixMillis t w = (Ret ms, w').
Proof.
  unfold unixMillis, mbindM. destruct (is_zero t); simpl; (case_bool; eauto).
Qed.

Lemma existingOrNewLedgerID_total raw (w : world St) :
  length raw = 16%nat -> exists id w', existingOrNewLedgerID raw w = (Ret id, w').
Proof.
  intros Hr. unfold existingOrNewLedgerID, mbindM, mlift, IDFromBytes. rewrite decide_True by done.
  destruct (IsZero raw); unfold NewID, mret; eauto.
Qed.

Lemma checkedInt64_total v : v <= i64_max -> checkedInt64FromUint64 v = Ret v.
Proof. intros H. unfold checkedInt64FromUint64. destruct (Z.ltb_spec i64_max v); [lia|done]. Qed.

Lemma settleLeg_total id revenue correlation t st seq l (w : world St) :
  settleable l -> 0 <= map_u64 (st_remaining st) (l_component_sku_id l) ->
  exists st' w', settleLeg id revenue correlation t st (seq, l) w = (Ret st', w').
Proof.
  intros (Hr & Ha & Hs) Hrem. unfold settleLeg. destruct (Z.ltb_spec (l_amount_reserved l) 0); [lia|].
  rewrite minUint64_min. set (posted := Z.min _ _).
  unfold mbindM at 1.
  match goal with |- context [(if decide (l_grant_id l = "") then ?a else ?b) w] =>
    assert (exists r w1, (if decide (l_grant_id l = "") then a else b) w = (Ret r, w1)) as (r & w1 & ->) end.
  { case_decide; [eexists _, _; done|]. unfold mbindM at 1. unfold mlift at 1. unfold IDFromBytes. rewrite decide_True by done.
    destruct (0 <? posted); [|eexists _, _; done]. unfold mbindM at 1.
    destruct (existingOrNewLedgerID_total _ w Hs) as (sid & w2 & ->). unfold mbindM.
    destruct (unixMillis_total t w2) as (ms & w3 & ->). eexists _, _; done. }
  destruct r as [[settlement settled] transfer]. unfold mbindM, mlift.
  rewrite !checkedInt64_total by lia. eexists _, _. done.
Qed.

Lemma settleLegs_total id revenue correlation t L st (w : world St) :
  Forall (fun e => settleable e.2) L -> NoDup L.*1 -> (forall s l, (s, l) ∈ L -> db_legs (w_db w) !! (id, s) = Some l) ->
  (forall sku, 0 <= map_u64 (st_remaining st) sku) ->
  exists st' w', settleLegs id revenue correlation t st L w = (Ret st', w').
Proof.
  revert st w. induction L as [|[s l] L IH]; intros st w HL Hnd Hin Hnn; simpl; [eexists _, _; done|].
  rewrite fmap_cons in Hnd. apply NoDup_cons in Hnd as [Hs Hnd]. inversion HL as [|?? Hl HL']; subst.
  destruct (settleLeg_total id revenue correlation t st s l w Hl (Hnn _)) as (st1 & w1 & E1).
  rewrite (mbindM_run _ _ _ _ _ E1).
  apply settleLeg_Ret in E1 as (l' & [S1 S2 S3 S4 S5 S6 _ _]); [|apply Hin; constructor|apply Hnn].
  apply IH; [done|done| |by apply S5].
  intros s0 l0 H0. rewrite S2. simpl. rewrite lookup_insert_ne.
  - apply Hin. by constructor.
  - intros [= ->]. apply Hs. by apply (list_elem_of_fmap_2 fst _ (s0, l0)).
Qed.
End Settle.
