(* ===== verification/WindowInv.v ===== *)
(** * The billing window state machine

    [wstate_step] is the life cycle of a window, [row_le] what may happen to
    its row, and [Inv] the invariant of the database: what the legs and the
    ledger command of a window in each state look like.  [window_tx] collects
    the transactions of the service as atomic steps; every one of them keeps
    [Inv] and follows [history]. *)

From stdpp Require Import relations.
From S2P Require Import Prelude GoFloat GoStd GoFormat GoTime Json Types Ids Charges Ledger Grants Store Events.
From S2P Require Import LedgerCommands LedgerGrants Cycles Entitlements WindowStore Windows Dispatcher Frames Legs.

(** ** Histories *)

Inductive wstate_step : windowState -> windowState -> Prop :=
| step_activate : wstate_step WReserved WActive
| step_prepare s : in_reserved_or_active s = true -> wstate_step s WSettling
| step_void s : in_reserved_or_active s = true -> wstate_step s WVoided
| step_settle : wstate_step WSettling WSettled.

Lemma wstate_final s s' : rtc wstate_step s s' -> s = WSettled \/ s = WVoided -> s' = s.
Proof. intros H Hs. destruct H as [|s s1 s' Hstep _]; [done|]. destruct Hs as [->| ->]; inversion Hstep; done. Qed.

Lemma wstate_settling s s' : rtc wstate_step s s' -> s = WSettling -> s' = WSettling \/ s' = WSettled.
Proof.
  intros H ->. remember WSettling as s eqn:E. destruct H as [|s s1 s' Hstep H]; [by left|]. subst.
  inversion Hstep; subst; [done|done|]. right. by apply (wstate_final WSettled); [|left].
Qed.

(** What a window is about, fixed when it is reserved. *)
Definition window_key (r : windowRow) :=
  (w_org_id r, w_actor_id r, w_product_id r, w_pricing_contract_id r, w_pricing_phase_id r, w_pricing_plan_id r,
   w_source_type r, w_source_ref r, w_source_fingerprint r, w_billing_job_id r, w_window_seq r, w_reservation_shape r,
   w_reserved_quantity r, w_reserved_charge_units r, w_allocation r, w_rate_context r, w_ledger_correlation_id r).

(** How it was settled. *)
Definition settlement_of (r : windowRow) :=
  (w_actual_quantity r, w_billable_quantity r, w_writeoff_quantity r, w_billed_charge_units r,
   w_writeoff_charge_units r, w_writeoff_reason r, w_funding_legs r, w_settled_at r).

Definition row_le (r r' : windowRow) : Prop :=
  window_key r' = window_key r /\ rtc wstate_step (w_state r) (w_state r')
  /\ (in_reserved_or_active (w_state r) = false -> settlement_of r' = settlement_of r).

#[export] Instance row_le_preorder : PreOrder row_le.
Proof.
  split.
  - intros r. repeat split. constructor.
  - intros r1 r2 r3 (K1 & S1 & F1) (K2 & S2 & F2). split; [congruence|]. split; [by etrans|].
    intros H. rewrite F2; [by apply F1|]. destruct (w_state r1) eqn:E; try discriminate.
    + destruct (wstate_settling _ _ S1 eq_refl) as [-> | ->]; done.
    + by rewrite (wstate_final _ _ S1 (or_introl eq_refl)).
    + by rewrite (wstate_final _ _ S1 (or_intror eq_refl)).
Qed.

Definition leg_key (l : legRow) :=
  (l_grant_id l, l_grant_account_id l, l_component_sku_id l, l_component_bucket_id l, l_source l, l_scope_type l,
   l_scope_product_id l, l_scope_bucket_id l, l_scope_sku_id l, l_plan_id l, l_amount_reserved l).

(** A leg keeps its identity, and nothing changes it once it is closed. *)
Definition leg_le (l l' : legRow) : Prop :=
  leg_key l' = leg_key l /\ (l_state l <> LPending -> l' = l).

#[export] Instance leg_le_preorder : PreOrder leg_le.
Proof.
  split; [done|]. intros l1 l2 l3 [K1 C1] [K2 C2]. split; [congruence|]. intros H. specialize (C1 H). subst. auto.
Qed.

Definition history (d d' : DB) : Prop :=
  (forall id r, db_windows d !! id = Some r -> exists r', db_windows d' !! id = Some r' /\ row_le r r')
  /\ (forall k l, db_legs d !! k = Some l -> exists l', db_legs d' !! k = Some l' /\ leg_le l l').

#[export] Instance history_preorder : PreOrder history.
Proof.
  split.
  - intros d. split; intros k x Hx; by exists x.
  - intros d1 d2 d3 [W1 L1] [W2 L2]. split.
    + intros id r Hr. destruct (W1 _ _ Hr) as (r2 & Hr2 & H12). destruct (W2 _ _ Hr2) as (r3 & Hr3 & H23).
      exists r3. split; [done|by etrans].
    + intros k l Hl. destruct (L1 _ _ Hl) as (l2 & Hl2 & H12). destruct (L2 _ _ Hl2) as (l3 & Hl3 & H23).
      exists l3. split; [done|by etrans].
Qed.

(** ** The invariant of one window *)

Definition typed_rates (p : pricingContext) : Prop := forall sku r, SKURates p !! sku = Some r -> is_u64 r.

Definition charges_at (r : windowRow) (quantity : Z) : res windowCharges :=
  computeWindowCharges (w_allocation r) (SKURates (w_rate_context r)) (SKUBuckets (w_rate_context r)) quantity.

(** A leg of a window that is reserved or active. *)
Definition leg_open (l : legRow) : Prop :=
  l_state l = LPending /\ l_amount_posted l = 0 /\ l_amount_voided l = 0 /\ l_settlement_transfer_id l = None
  /\ 0 <= l_amount_reserved l <= i64_max /\ (forall a, l_grant_account_id l = Some a -> wf_id a).

Section Invariant.
Context `{HE : Env}.

(** The legs of an open window fund every component for exactly its charge,
    as long as the sum of the charges is a uint64. *)
Definition open_ok (r : windowRow) (L : list (Z * legRow)) : Prop :=
  Forall (fun e => leg_open e.2) L /\ w_settled_at r = None /\ generated (w_ledger_correlation_id r)
  /\ exists c, charges_at r (w_reserved_quantity r) = Ret c
     /\ w_reserved_charge_units r = sumUint64Map (components c)
     /\ (msum (components c) <= u64_max -> forall sku, leg_total l_amount_reserved sku L = map_u64 (components c) sku).


Definition leg_split (l : legRow) : Prop :=
  0 <= l_amount_posted l /\ 0 <= l_amount_voided l /\ l_amount_posted l + l_amount_voided l = l_amount_reserved l
  /\ (is_spend l -> exists id, l_settlement_transfer_id l = Some id /\ generated id)
  /\ (forall a, l_grant_account_id l = Some a -> wf_id a).

(** After settlement the posted amounts are exactly the charge of the
    billable quantity, component by component. *)
Definition settled_ok (r : windowRow) (L : list (Z * legRow)) : Prop :=
  Forall (fun e => leg_split e.2) L
  /\ w_billable_quantity r = Z.min (w_actual_quantity r) (w_reserved_quantity r)
  /\ w_writeoff_quantity r = w_actual_quantity r - w_billable_quantity r
  /\ Forall2 funding_of (filter (fun l => 0 < l_amount_posted l) L.*2) (w_funding_legs r)
  /\ (exists c, charges_at r (w_billable_quantity r) = Ret c
      /\ w_billed_charge_units r = sumUint64Map (components c)
      /\ forall sku, leg_total l_amount_posted sku L = map_u64 (components c) sku)
  /\ (exists c, charges_at r (w_writeoff_quantity r) = Ret c
      /\ w_writeoff_charge_units r = sumUint64Map (components c)).

Definition window_ok (r : windowRow) (L : list (Z * legRow)) : Prop :=
  typed_rates (w_rate_context r) /\ is_u32 (w_reserved_quantity r)
  /\ match w_state r with
     | WReserved => open_ok r L /\ w_activated_at r = None
     | WActive => open_ok r L /\ is_Some (w_activated_at r)
     | WSettling => settled_ok r L /\ Forall (fun e => l_state e.2 = LPending) L
     | WSettled => settled_ok r L /\ Forall (fun e => l_state e.2 = if 0 <? l_amount_posted e.2 then LPosted else LVoided) L
     | WVoided => Forall (fun e => l_state e.2 = LVoided /\ l_amount_posted e.2 = 0
                                   /\ l_amount_voided e.2 = l_amount_reserved e.2) L
     end.

(** ** Its ledger command *)

Definition settle_command (id : string) (c : commandRow) : Prop :=
  c_operation c = "settle_window" /\ c_aggregate_id c = id /\ c_idempotency_key c = "settle_window:" +:+ id.

Definition settle_payload (d : DB) (id : string) (p : CommandPayload) : Prop :=
  exists cid c, db_commands d !! cid = Some c /\ settle_command id c /\ c_payload c = p.

Definition settling_or_settled (s : windowState) : Prop := s = WSettling \/ s = WSettled.

Context `{HC : TBCodec}.

(** The command moves every posted grant leg to revenue, in one linked chain. *)
Definition payload_ok (r : windowRow) (L : list (Z * legRow)) (p : CommandPayload) : Prop :=
  exists revenue T, p = mkCommandPayload [] (LinkTransfers T)
    /\ Forall2 (spend_of revenue (w_ledger_correlation_id r)) (filter is_spend L.*2) T.

(** A command exists only for a window that is being or has been settled, and
    a settlement that spends grants never lacks its command. *)
Definition outbox_ok (r : windowRow) (L : list (Z * legRow)) (P : CommandPayload -> Prop) : Prop :=
  (forall p, P p -> settling_or_settled (w_state r) /\ payload_ok r L p)
  /\ (settling_or_settled (w_state r) -> filter is_spend L.*2 <> [] -> exists p, P p).

Definition window_inv (d : DB) (id : string) : Prop :=
  match db_windows d !! id with
  | None => (forall s, db_legs d !! (id, s) = None) /\ (forall p, ~ settle_payload d id p)
  | Some r => window_ok r (legs_of_window id d) /\ outbox_ok r (legs_of_window id d) (settle_payload d id)
  end.

Definition commands_shape (d : DB) : Prop :=
  forall cid c, db_commands d !! cid = Some c -> deposit_command c \/ exists id, settle_command id c.

(** Rates are PostgreSQL bigints. *)
Definition rates_typed (d : DB) : Prop := Forall (fun r => r_unit_rate r <= i64_max) (ca_rates (db_catalog d)).

Definition Inv (d : DB) : Prop := (forall id, window_inv d id) /\ commands_shape d /\ rates_typed d.

(** The empty database satisfies it. *)
Lemma Inv_empty d :
  db_windows d = ∅ -> db_legs d = ∅ -> db_commands d = ∅ -> rates_typed d -> Inv d.
Proof.
  intros E1 E2 E3 Hr. split; [|split; [|done]].
  - intros id. unfold window_inv. rewrite E1, lookup_empty. split.
    + intros s. by rewrite E2, lookup_empty.
    + intros p (cid & c & Hc & _). by rewrite E3, lookup_empty in Hc.
  - intros cid c Hc. by rewrite E3, lookup_empty in Hc.
Qed.

(** ** Frames of the invariant *)

Lemma window_inv_same d d' id :
  db_windows d' !! id = db_windows d !! id -> (forall s, db_legs d' !! (id, s) = db_legs d !! (id, s)) ->
  (forall p, settle_payload d' id p <-> settle_payload d id p) -> window_inv d id -> window_inv d' id.
Proof.
  intros Hw Hl Hp. unfold window_inv. rewrite Hw. destruct (db_windows d !! id) as [r|].
  - rewrite (legs_of_window_same id d d' Hl). intros [H1 [H2 H3]]. split; [done|]. split.
    + intros p Hp'%Hp. auto.
    + intros Hs Hf. destruct (H3 Hs Hf) as [p Hp']. exists p. by apply Hp.
  - intros [H1 H2]. split; [intros s; by rewrite Hl|]. intros p Hp'%Hp. by apply (H2 p).
Qed.

(** A transaction on the window [id]. *)
Lemma Inv_at id d d' :
  Inv d -> (forall i, i <> id -> db_windows d' !! i = db_windows d !! i) ->
  (forall k, k.1 <> id -> db_legs d' !! k = db_legs d !! k) ->
  (forall i p, i <> id -> settle_payload d' i p <-> settle_payload d i p) ->
  commands_shape d' -> ca_rates (db_catalog d') = ca_rates (db_catalog d) ->
  window_inv d' id -> Inv d'.
Proof.
  intros (HI & HS & HR) Hw Hl Hp HS' Er Hid. split; [|split; [done|unfold rates_typed; by rewrite Er]].
  intros i. destruct (decide (i = id)) as [->|Hne]; [done|].
  eapply window_inv_same; [by apply Hw|intros s; by apply Hl|intros p; by apply Hp|apply HI].
Qed.

Lemma settle_not_deposit id c : settle_command id c -> deposit_command c -> False.
Proof. intros (E1 & _) (E2 & _). rewrite E1 in E2. discriminate. Qed.

Lemma settle_command_le id c c' : command_le c c' -> settle_command id c <-> settle_command id c'.
Proof.
  intros (E1 & E2 & E3 & E4 & E5 & E6 & _). unfold settle_command. rewrite E1, E3, E6. done.
Qed.

Lemma commands_step_payload d d' id p :
  commands_step d d' -> settle_payload d' id p <-> settle_payload d id p.
Proof.
  intros [HF HB]. split; intros (cid & c & Hc & Hs & Hp).
  - destruct (HB _ _ Hc) as [(c0 & Hc0 & Hle)|Hd]; [|by destruct (settle_not_deposit id c)].
    exists cid, c0. split; [done|]. split; [by eapply settle_command_le|]. destruct Hle. naive_solver.
  - destruct (HF _ _ Hc) as (c' & Hc' & Hle). exists cid, c'. split; [done|].
    split; [by rewrite <- settle_command_le|]. destruct Hle. naive_solver.
Qed.

Lemma commands_step_shape d d' : commands_step d d' -> commands_shape d -> commands_shape d'.
Proof.
  intros [_ HB] HS cid c' Hc'. destruct (HB _ _ Hc') as [(c & Hc & Hle)|Hd]; [|by left].
  destruct (HS _ _ Hc) as [[Ho Hk]|[id Hs]]; [left|right; exists id; by rewrite <- settle_command_le].
  destruct Hle as (E1 & _ & E3 & _ & _ & E6 & _). split; congruence.
Qed.

Lemma core_step_Inv d d' : core_step d d' -> Inv d -> Inv d'.
Proof.
  intros ([Ew El] & Hc & Er) (HI & HS & HR). split; [|split; [by eapply commands_step_shape|unfold rates_typed; by rewrite Er]].
  intros id. eapply window_inv_same; [by rewrite Ew|by rewrite El|intros p; by apply commands_step_payload|apply HI].
Qed.

Lemma core_step_history d d' : core_step d d' -> history d d'.
Proof. intros ([Ew El] & _). split; [rewrite Ew|rewrite El]; intros k x Hx; by exists x. Qed.
End Invariant.

(** * The transactions of a window keep the invariant

    One lemma per transaction of billing/windows.go: activation, voiding,
    closing a settlement, preparing it, reserving, and the projection marks. *)

(** ** Running a framed computation *)

Lemma evolves_run {St A} `{Env} (RD : relation DB) (RT : relation St) (m : @B St A) w o w' :
  evolves RD RT m -> m w = (o, w') -> RD (w_db w) (w_db w') /\ RT (w_tb w) (w_tb w').
Proof. intros Hm E. specialize (Hm w). by rewrite E in Hm. Qed.

Section Steps.
Context `{HE : Env} `{HC : TBCodec}.

(** A step of the database that keeps the invariant and the history. *)
Definition good_step (d d' : DB) : Prop := (Inv d -> Inv d') /\ (Inv d -> history d d').

#[export] Instance good_step_preorder : PreOrder good_step.
Proof.
  split; [by intros d; split|]. intros d1 d2 d3 [I1 H1] [I2 H2]. split; [auto|].
  intros HI. etrans; [by apply H1|]. by apply H2, I1.
Qed.

Lemma core_good d d' : core_step d d' -> good_step d d'.
Proof. split; intros; [by eapply core_step_Inv|by apply core_step_history]. Qed.

Lemma events_core d d' : events_only d d' -> core_step d d'.
Proof. intros (ev & de & jo & ->). by apply core_step_same. Qed.

(** ** Steps on one row *)

Lemma history_set_row d id r r' :
  db_windows d !! id = Some r -> row_le r r' -> history d (set_windows (<[id := r']> (db_windows d)) d).
Proof.
  intros Hr Hle. split; simpl.
  - intros i x Hx. destruct (decide (i = id)) as [->|Hne].
    + rewrite lookup_insert_eq. eexists. split; [done|]. congruence.
    + rewrite lookup_insert_ne by done. by exists x.
  - intros k l Hl. by exists l.
Qed.

Lemma good_set_row d id r r' :
  db_windows d !! id = Some r -> row_le r r' ->
  (window_ok r (legs_of_window id d) -> window_ok r' (legs_of_window id d)) ->
  (forall P, outbox_ok r (legs_of_window id d) P -> outbox_ok r' (legs_of_window id d) P) ->
  good_step d (set_windows (<[id := r']> (db_windows d)) d).
Proof.
  intros Hr Hle Hok Hout. split; [|intros _; by eapply history_set_row].
  intros HI. pose proof HI as (HI' & HS & _). apply (Inv_at id d); try done; simpl.
  - intros i Hne. by apply lookup_insert_ne.
  - specialize (HI' id). unfold window_inv in *. simpl. rewrite lookup_insert_eq. rewrite Hr in HI'.
    destruct HI' as [H1 H2]. split; [by apply Hok|by apply Hout].
Qed.

Lemma with_state_le st p e r :
  rtc wstate_step (w_state r) st -> row_le r (with_state st p e r).
Proof. by split; [|split]. Qed.

(** The outbox of a window looks at its state and correlation id only. *)
Lemma outbox_ok_row r r' L P :
  (settling_or_settled (w_state r') <-> settling_or_settled (w_state r)) ->
  w_ledger_correlation_id r' = w_ledger_correlation_id r -> outbox_ok r L P -> outbox_ok r' L P.
Proof.
  intros Hs Ec [H1 H2]. split.
  - intros p Hp. destruct (H1 p Hp) as (H3 & rev & T & -> & HT). split; [by apply Hs|]. exists rev, T. by rewrite Ec.
  - intros H3. by apply H2, Hs.
Qed.

(** The marks of the metering projection. *)
Lemma projection_good d id p e r :
  db_windows d !! id = Some r -> good_step d (set_windows (<[id := with_state (w_state r) p e r]> (db_windows d)) d).
Proof.
  intros Hr. apply (good_set_row _ _ r); [done|by apply with_state_le|done|].
  intros P. by apply outbox_ok_row.
Qed.

Lemma alter_insert {A} (m : gmap string A) id f x : m !! id = Some x -> alter f id m = <[id := f x]> m.
Proof.
  intros Hx. apply map_eq. intros i. destruct (decide (id = i)) as [<-|Hne].
  - by rewrite lookup_alter_eq, lookup_insert_eq, Hx.
  - by rewrite lookup_alter_ne, lookup_insert_ne by done.
Qed.

Lemma set_windows_id d : set_windows (db_windows d) d = d.
Proof. by destruct d. Qed.

Lemma alter_rows_good d id (p : windowRow -> option time) (e : windowRow -> string) :
  good_step d (set_windows (alter (fun w => with_state (w_state w) (p w) (e w) w) id (db_windows d)) d).
Proof.
  destruct (db_windows d !! id) as [r|] eqn:Hr.
  - rewrite (alter_insert _ _ _ _ Hr). by apply projection_good.
  - rewrite alter_id; [by rewrite set_windows_id|]. intros x Hx. congruence.
Qed.

(** Activation. *)
Lemma ActivateBillingWindow_good id a e rn d n d' :
  ActivateBillingWindow id a e rn d = Ret (n, d') -> good_step d d'.
Proof.
  unfold ActivateBillingWindow, not_null, check_constraint. intros Hs.
  destruct (db_windows d !! id) as [r|] eqn:Hr; [|simplify_eq; reflexivity].
  destruct (bool_decide (w_state r = WReserved)) eqn:Es; simpl in Hs; [|simplify_eq; reflexivity].
  apply bool_decide_eq_true in Es.
  destruct (bool_decide (w_activated_at r = None)); [|simplify_eq; reflexivity].
  repeat case_match; inv_ret; try discriminate. simplify_eq.
  apply (good_set_row _ _ r); [done| | |].
  - split; [done|]. split; [|done]. rewrite Es. apply rtc_once, step_activate.
  - unfold window_ok. rewrite Es. simpl. intros (G1 & G2 & G3 & _). split; [done|]. split; [done|].
    split; [|by eexists]. exact G3.
  - intros P. apply outbox_ok_row; [|done]. rewrite Es. unfold settling_or_settled. simpl. naive_solver.
Qed.

(** ** Voiding *)

Lemma legs_set_windows id x d : legs_of_window id (set_windows x d) = legs_of_window id d.
Proof. done. Qed.

Lemma leg_update_history d id f :
  (forall l, leg_key (f l) = leg_key l) ->
  forall k l, db_legs d !! k = Some l ->
  exists l', db_legs (update_pending_legs id f d) !! k = Some l' /\ leg_le l l'.
Proof.
  intros Hf k l Hl. simpl. rewrite map_lookup_imap, Hl. simpl. eexists. split; [done|].
  case_decide as Hd; [|done]. split; [apply Hf|]. destruct Hd. done.
Qed.

(** Close the pending legs of a window while its row takes a new state. *)
Lemma good_close d id r r' f :
  db_windows d !! id = Some r -> row_le r r' -> (forall l, leg_key (f l) = leg_key l) ->
  (window_ok r (legs_of_window id d) ->
   window_ok r' ((fun e => (e.1, update_leg f e.2)) <$> legs_of_window id d)) ->
  (forall P, window_ok r (legs_of_window id d) -> outbox_ok r (legs_of_window id d) P ->
             outbox_ok r' ((fun e => (e.1, update_leg f e.2)) <$> legs_of_window id d) P) ->
  good_step d (update_pending_legs id f (set_windows (<[id := r']> (db_windows d)) d)).
Proof.
  intros Hr Hle Hf Hok Hout. split.
  - intros HI. pose proof HI as (HI' & HS & _). apply (Inv_at id d); try done; simpl.
    + intros i Hne. by apply lookup_insert_ne.
    + intros k Hk. by apply (update_pending_other id f d k Hk).
    + specialize (HI' id). unfold window_inv in *. rewrite update_pending_legs_of. simpl.
      rewrite lookup_insert_eq, Hr in *. destruct HI' as [H1 H2]. split; [by apply Hok|by apply Hout].
  - intros _. split; simpl.
    + intros i x Hx. destruct (decide (i = id)) as [->|Hne].
      * rewrite lookup_insert_eq. eexists. split; [done|]. congruence.
      * rewrite lookup_insert_ne by done. by exists x.
    + intros k l Hl. by apply (leg_update_history d id f Hf).
Qed.

Lemma Forall_update_pending f L :
  Forall (fun e => l_state e.2 = LPending) L ->
  (fun e : Z * legRow => (e.1, update_leg f e.2)) <$> L = (fun e => (e.1, f e.2)) <$> L.
Proof.
  induction 1 as [|e L He _ IH]; [done|]. rewrite !fmap_cons, IH. unfold update_leg at 1. by rewrite decide_True.
Qed.

Lemma open_pending L : Forall (fun e : Z * legRow => leg_open e.2) L -> Forall (fun e => l_state e.2 = LPending) L.
Proof. intros H. eapply Forall_impl; [exact H|]. by intros e (? & _). Qed.

Definition void_leg (l : legRow) : legRow := leg_with (l_settlement_transfer_id l) 0 (l_amount_reserved l) LVoided l.

Lemma window_ok_open r L :
  in_reserved_or_active (w_state r) = true -> window_ok r L -> open_ok r L.
Proof. intros Hs (_ & _ & H). destruct (w_state r); try discriminate; by destruct H. Qed.

Lemma void_good d id r p e :
  db_windows d !! id = Some r -> in_reserved_or_active (w_state r) = true ->
  good_step d (update_pending_legs id void_leg (set_windows (<[id := with_state WVoided p e r]> (db_windows d)) d)).
Proof.
  intros Hr Hs. apply (good_close d id r); [done| |done| |].
  - apply with_state_le, rtc_once. by apply step_void.
  - intros Hok. pose proof (window_ok_open _ _ Hs Hok) as (Hop & _). destruct Hok as (H1 & H2 & _).
    rewrite Forall_update_pending by by apply open_pending. split; [done|]. split; [done|]. simpl.
    apply Forall_fmap. eapply Forall_impl; [exact Hop|]. done.
  - intros P Hok [Ho _]. split; simpl.
    + intros q Hq. destruct (Ho q Hq) as [[E|E] _]; by rewrite E in Hs.
    + by intros [?|?].
Qed.

(** ** Closing a settlement *)

Definition close_leg (l : legRow) : legRow :=
  leg_with (l_settlement_transfer_id l) (l_amount_posted l) (l_amount_voided l)
    (if 0 <? l_amount_posted l then LPosted else LVoided) l.

(** Facts about legs that do not depend on their state. *)
Lemma close_filter (Q : legRow -> Prop) `{!forall l, Decision (Q l)} (L : list (Z * legRow)) :
  (forall l, Q (close_leg l) <-> Q l) ->
  filter Q ((fun e => (e.1, close_leg e.2)) <$> L).*2 = close_leg <$> filter Q L.*2.
Proof.
  intros HQ. induction L as [|e L IH]; [done|]. rewrite !fmap_cons. simpl. rewrite !filter_cons, IH.
  destruct (decide (Q e.2)) as [Hq|Hq]; [rewrite decide_True by by apply HQ|rewrite decide_False by by rewrite HQ]; done.
Qed.

Lemma payload_ok_close r r' L p :
  w_ledger_correlation_id r' = w_ledger_correlation_id r -> payload_ok r L p ->
  payload_ok r' ((fun e => (e.1, close_leg e.2)) <$> L) p.
Proof.
  intros Ec (rev & T & -> & HT). exists rev, T. split; [done|]. rewrite close_filter by done.
  apply Forall2_fmap_l. by rewrite Ec.
Qed.

Lemma settled_ok_close r r' L :
  window_key r' = window_key r -> settlement_of r' = settlement_of r -> settled_ok r L ->
  settled_ok r' ((fun e => (e.1, close_leg e.2)) <$> L).
Proof.
  intros Ek Es. destruct r, r'. unfold window_key, settlement_of in *. simpl in *. simplify_eq.
  unfold settled_ok, charges_at. simpl. intros (H1 & H2 & H3 & H4 & (c & H5 & H6 & H7) & H8).
  split; [apply Forall_fmap; eapply Forall_impl; [exact H1|done]|]. split; [done|]. split; [done|].
  split; [rewrite close_filter by done; by apply Forall2_fmap_l|]. split; [|done].
  exists c. split; [done|]. split; [done|]. intros sku. rewrite <- H7.
  by apply (leg_total_map l_amount_posted l_amount_posted sku (fun _ => close_leg)).
Qed.

Lemma settle_good d id r p e :
  db_windows d !! id = Some r -> w_state r = WSettling ->
  good_step d (update_pending_legs id close_leg (set_windows (<[id := with_state WSettled p e r]> (db_windows d)) d)).
Proof.
  intros Hr Hs. apply (good_close d id r); [done| |done| |].
  - apply with_state_le, rtc_once. rewrite Hs. constructor.
  - unfold window_ok. rewrite Hs. simpl. intros (H1 & H2 & H3 & H4).
    rewrite Forall_update_pending by done. split; [done|]. split; [done|].
    split; [by apply (settled_ok_close r)|]. apply Forall_fmap, Forall_true. done.
  - intros P (_ & _ & Hok) [Ho1 Ho2]. rewrite Hs in Hok. destruct Hok as [_ Hpend].
    rewrite Forall_update_pending by done. split; simpl.
    + intros q Hq. split; [by right|]. destruct (Ho1 q Hq) as [_ Hp]. by apply (payload_ok_close r).
    + intros _ Hne. apply Ho2; [by left|]. rewrite close_filter in Hne by done. intros E. by rewrite E in Hne.
Qed.
End Steps.
