(* ===== verification/PrepareTx.v ===== *)
(** * Preparing a settlement

    prepareSettlementTx posts the legs of an open window against the charge of
    its billable quantity, moves the window to settling and writes the ledger
    command that spends the grants, all in one transaction. *)

From stdpp Require Import relations.
From S2P Require Import Prelude GoFloat GoStd GoTime GoFormat Json Types Ids Ledger Charges Grants Store Events.
From S2P Require Import LedgerCommands LedgerGrants Cycles Entitlements WindowStore Windows Dispatcher Frames Legs.
From S2P Require Import WindowInv.

(** ** Commands by idempotency key *)

Lemma command_by_key_None d key :
  command_by_key d key = None <-> forall cid c, db_commands d !! cid = Some c -> c_idempotency_key c <> key.
Proof.
  unfold command_by_key. rewrite head_None. split.
  - intros E cid c Hc Hk.
    assert ((cid, c) ∈ filter (fun kv => c_idempotency_key kv.2 = key) (map_to_list (db_commands d))) as Hin
      by (apply list_elem_of_filter; split; [done|by apply elem_of_map_to_list]).
    rewrite E in Hin. by apply elem_of_nil in Hin.
  - intros H. destruct (filter _ _) as [|[cid c] l] eqn:E; [done|]. exfalso.
    assert ((cid, c) ∈ filter (fun kv => c_idempotency_key kv.2 = key) (map_to_list (db_commands d))) as Hin
      by (rewrite E; constructor).
    apply list_elem_of_filter in Hin as [Hk Hc%elem_of_map_to_list]. by apply (H cid c).
Qed.

Lemma command_by_key_insert d cid row :
  command_by_key d (c_idempotency_key row) = None -> db_commands d !! cid = None ->
  command_by_key (set_commands (<[cid := row]> (db_commands d)) d) (c_idempotency_key row) = Some (cid, row).
Proof.
  unfold command_by_key. rewrite head_None. intros E Hn. simpl.
  pose proof (map_to_list_insert (db_commands d) cid row Hn) as Hp.
  apply (filter_Permutation (fun kv => c_idempotency_key kv.2 = c_idempotency_key row)) in Hp.
  rewrite filter_cons, decide_True, E in Hp by done. apply Permutation_singleton_r in Hp. by rewrite Hp.
Qed.

Lemma append_inj (p s t : string) : p +:+ s = p +:+ t -> s = t.
Proof. induction p; simpl; [done|]. intros [= ?]. auto. Qed.

Section Prepare.
Context {St : Type} `{HE : Env} `{HD : Digest} `{HC : TBCodec} `{!TigerBeetle St} `{!PeriodWork St}.

(** An open window has no settlement command yet. *)
Lemma no_settle_command d id r :
  Inv d -> db_windows d !! id = Some r -> in_reserved_or_active (w_state r) = true ->
  command_by_key d ("settle_window:" +:+ id) = None /\ forall p, ~ settle_payload d id p.
Proof.
  intros (HI & HS & _) Hr Hs.
  assert (forall p, ~ settle_payload d id p) as Hno.
  { intros p Hp. specialize (HI id). unfold window_inv in HI. rewrite Hr in HI. destruct HI as [_ [Ho _]].
    destruct (Ho p Hp) as [[E|E] _]; by rewrite E in Hs. }
  split; [|done]. apply command_by_key_None. intros cid c Hc Hk.
  destruct (HS cid c Hc) as [[_ Hd]|[id' Hset]].
  - rewrite Hd in Hk. discriminate.
  - pose proof Hset as (_ & _ & Hk'). rewrite Hk' in Hk. apply append_inj in Hk as ->.
    apply (Hno (c_payload c)). by exists cid, c.
Qed.

Definition new_command (operation aggregateType aggregateID org productID key : string) (payload : CommandPayload)
    (now : time) : commandRow :=
  mkCommandRow operation aggregateType aggregateID org productID key CPending payload
    0 now None None "" "" "" None None "" now.

Lemma createLedgerCommandTx_Ret op aggT agg org product key payload (w w' : world St) cmd :
  createLedgerCommandTx op aggT agg org product key payload w = (Ret cmd, w') ->
  command_by_key (w_db w) key = None ->
  exists cid now, cmd = (cid, payload) /\ db_commands (w_db w) !! cid = None /\ w_tb w' = w_tb w
    /\ cid = textID "ledger_cmd" [key]
    /\ w_db w' = set_commands (<[cid := new_command op aggT agg (orgIDText org) product key payload now]>
                                 (db_commands (w_db w))) (w_db w).
Proof.
  unfold createLedgerCommandTx. intros H Hn. destruct (_ || _); [done|].
  apply mbindM_Ret_inv in H as (now & w1 & Hnow & H).
  assert (quiet w w1) as [E1 E2] by (unfold pgNow in Hnow; destruct (w_txnow w); by injection Hnow as <- <-).
  apply mbindM_Ret_inv in H as ([] & w2 & Hst & H).
  unfold statement, InsertLedgerCommand in Hst. simpl in Hst. rewrite E1, Hn in Hst.
  set (cid := textID "ledger_cmd" [key]) in *.
  destruct (db_commands (w_db w) !! cid) eqn:Hc; [done|]. injection Hst as <-.
  unfold mbindM, query in H. simpl in H.
  pose proof (command_by_key_insert (w_db w) cid (new_command op aggT agg (orgIDText org) product key payload now)
    Hn Hc) as Hb. simpl in Hb. unfold new_command in Hb. rewrite Hb in H.
  injection H as <- <-. exists cid, now. done.
Qed.

Lemma filter_all {A} (P : A -> Prop) `{!forall x, Decision (P x)} l : Forall P l -> filter P l = l.
Proof. induction 1 as [|x l Hx _ IH]; [done|]. by rewrite filter_cons, decide_True, IH. Qed.

(** What the settlement loop makes of the legs of an open window. *)
Record payload_prepared (id : string) (r : windowRow) (billed : gmap string Z) (payload : CommandPayload)
    (F : list fundingLeg) (L L' : list (Z * legRow)) (d : DB) (w' : world St) : Prop := {
  pp_legs : Forall2 (fun e e' => e'.1 = e.1 /\ settled_leg e.2 e'.2) L L';
  pp_seqs : L'.*1 = L.*1;
  pp_db : w_db w' = set_legs (store_legs id L' (db_legs d)) d;
  pp_posted : forall sku, leg_total l_amount_posted sku L' = map_u64 billed sku;
  pp_payload : payload_ok r L' payload;
  pp_empty : cp_Transfers payload = [] <-> filter is_spend L'.*2 = [];
  pp_funding : Forall2 funding_of (filter (fun l => 0 < l_amount_posted l) L'.*2) F
}.

Lemma LinkTransfers_nil T : LinkTransfers T = [] <-> T = [].
Proof.
  split; [|by intros ->]. intros H. apply length_zero_iff_nil. rewrite <- LinkTransfers_length, H. done.
Qed.

Lemma settleWindowLedgerPayloadTx_Ret id billed t (w w' : world St) payload F r :
  settleWindowLedgerPayloadTx id billed t w = (Ret (payload, F), w') ->
  db_windows (w_db w) !! id = Some r -> Forall (fun e => l_state e.2 = LPending) (legs_of_window id (w_db w)) ->
  (forall sku, 0 <= map_u64 billed sku) ->
  w_tb w' = w_tb w /\ exists L', payload_prepared id r billed payload F (legs_of_window id (w_db w)) L' (w_db w) w'.
Proof.
  intros H Hr Hpend Hnn. unfold settleWindowLedgerPayloadTx in H.
  apply mbindM_Ret_inv in H as (row & w1 & Hq & H). injection Hq as <- <-. rewrite Hr in H.
  apply mbindM_Ret_inv in H as (corr & w1 & Hc & H). unfold mlift in Hc. injection Hc as Hc <-.
  unfold IDFromBytes in Hc. case_decide; [|done]. injection Hc as <-.
  apply mbindM_Ret_inv in H as (ops & w1 & Hops & H).
  assert (w1 = w) as ->.
  { unfold operatorLedgerAccountsTx in Hops. apply mbindM_Ret_inv in Hops as (o & w2 & Hq & Hops).
    injection Hq as <- <-. unfold mlift in Hops. by injection Hops as _ <-. }
  destruct (ops !! "operator_revenue"%string) as [revenue|]; [|done].
  apply mbindM_Ret_inv in H as (pending & w1 & Hq & H). injection Hq as <- <-.
  unfold ListPendingWindowLedgerLegsForUpdate in H. rewrite filter_all in H by done.
  apply mbindM_Ret_inv in H as (st & w1 & Hset & H).
  apply settleLegs_Ret in Hset as (L' & HL'); [|apply legs_of_window_NoDup|by intros s l ?%legs_of_window_elem|done].
  pose proof (legs_settled_seqs _ _ _ _ _ _ _ _ _ HL') as Hseqs.
  destruct HL' as [S1 S2 S3 S4 S5 S6 (T & ET & HT) (G & EG & HG)]. simpl in *.
  destruct (existsb _ _) eqn:Hrem; [done|]. injection H as <- <- <-. rewrite ET, EG.
  split; [done|]. exists L'. split; [done|done|done| |by exists revenue, T| |done].
  - intros sku. specialize (S4 sku). specialize (S5 sku).
    enough (map_u64 (st_remaining st) sku <= 0) by lia.
    unfold map_u64 in *. destruct (st_remaining st !! sku) as [z|] eqn:Ez; simpl; [|lia].
    assert (existsb (fun kv => 0 <? kv.2) (map_to_list (st_remaining st)) = false) as Hrem' by done.
    destruct (Z.ltb_spec 0 z); [|lia]. exfalso.
    assert (existsb (fun kv => 0 <? kv.2) (map_to_list (st_remaining st)) = true); [|congruence].
    apply existsb_exists. exists (sku, z). split; [|by apply Z.ltb_lt].
    by apply list_elem_of_In, elem_of_map_to_list.
  - simpl. rewrite LinkTransfers_nil. split; intros E.
    + rewrite E in HT. by inversion HT.
    + rewrite E in HT. by inversion HT.
Qed.

(** ** The call of the transaction

    SettleWindow computes the charges from the window it loaded before the
    transaction; what they depend on never changes. *)
Record settle_call (d : DB) (w : persistedWindow) (id : string) (actual billable writeoff : Z)
    (billed absorbed : windowCharges) : Prop := {
  sc_actual : is_u32 actual;
  sc_window : forall r, db_windows d !! id = Some r ->
    pw_ReservedQuantity w = w_reserved_quantity r /\ pw_Allocation w = w_allocation r
    /\ pw_RateContext w = w_rate_context r;
  sc_quantities : settleQuantities (pw_ReservedQuantity w) actual = (billable, writeoff);
  sc_billed : computeWindowCharges (pw_Allocation w) (SKURates (pw_RateContext w)) (SKUBuckets (pw_RateContext w))
                billable = Ret billed;
  sc_absorbed : computeWindowCharges (pw_Allocation w) (SKURates (pw_RateContext w)) (SKUBuckets (pw_RateContext w))
                  writeoff = Ret absorbed
}.

Lemma settleQuantities_spec reserved actual billable writeoff :
  settleQuantities reserved actual = (billable, writeoff) ->
  billable = Z.min actual reserved /\ writeoff = actual - billable.
Proof. unfold settleQuantities. destruct (Z.ltb_spec reserved actual); intros [= <- <-]; lia. Qed.

Lemma settled_split l l' : leg_open l -> settled_leg l l' -> leg_split l' /\ l_state l' = LPending /\ leg_le l l'.
Proof.
  intros (H1 & H2 & H3 & H4 & H5 & H6) (sid & p & -> & Hp & Hs & Hn). unfold leg_split, leg_le. simpl.
  split; [|by split]. split; [lia|]. split; [lia|]. split; [lia|]. split; [|done].
  intros Hsp. destruct (Hs Hsp) as (i & -> & [Hg|[E _]]); [|congruence]. by exists i.
Qed.

Lemma settled_legs_split L L' :
  Forall (fun e : Z * legRow => leg_open e.2) L -> Forall2 (fun e e' => e'.1 = e.1 /\ settled_leg e.2 e'.2) L L' ->
  Forall (fun e => leg_split e.2) L' /\ Forall (fun e => l_state e.2 = LPending) L'.
Proof.
  intros Hop H. rewrite <- Forall_and. induction H as [|e e' L L' [_ Hs] _ IH]; [constructor|].
  inversion Hop; subst. constructor; [|by apply IH]. destruct (settled_split e.2 e'.2) as (? & ? & _); done.
Qed.

Lemma settled_legs_elem L L' e :
  Forall2 (fun e e' : Z * legRow => e'.1 = e.1 /\ settled_leg e.2 e'.2) L L' -> e ∈ L ->
  exists e', e' ∈ L' /\ e'.1 = e.1 /\ settled_leg e.2 e'.2.
Proof.
  intros H (i & Hi)%list_elem_of_lookup. destruct (Forall2_lookup_l _ _ _ _ _ H Hi) as (e' & He' & Hp).
  exists e'. split; [by eapply list_elem_of_lookup_2|done].
Qed.

(** The row of a window being settled. *)
Lemma settling_window_ok r L' actual billable writeoff billed absorbed usage reason F at_ :
  typed_rates (w_rate_context r) -> is_u32 (w_reserved_quantity r) ->
  Forall (fun e => leg_split e.2) L' -> Forall (fun e => l_state e.2 = LPending) L' ->
  settleQuantities (w_reserved_quantity r) actual = (billable, writeoff) ->
  charges_at r billable = Ret billed -> charges_at r writeoff = Ret absorbed ->
  (forall sku, leg_total l_amount_posted sku L' = map_u64 (components billed) sku) ->
  Forall2 funding_of (filter (fun l => 0 < l_amount_posted l) L'.*2) F ->
  window_ok (settlingRow actual billable writeoff (sumUint64Map (components billed))
               (sumUint64Map (components absorbed)) reason usage F at_ r) L'.
Proof.
  intros H1 H2 H3 H4 Hq Hb Ha Hp HF. apply settleQuantities_spec in Hq as [-> ->].
  split; [done|]. split; [done|]. simpl. split; [|done].
  split; [done|]. split; [done|]. split; [done|]. split; [done|]. split; [by exists billed|by exists absorbed].
Qed.

Lemma settle_payload_insert d cid c id p :
  db_commands d !! cid = None ->
  settle_payload (set_commands (<[cid := c]> (db_commands d)) d) id p
  <-> settle_payload d id p \/ settle_command id c /\ c_payload c = p.
Proof.
  intros Hn. split.
  - intros (i & c0 & Hc & Hs & Hp). simpl in Hc. apply lookup_insert_Some in Hc as [[<- <-]|[_ Hc]]; [by right|].
    left. by exists i, c0.
  - intros [(i & c0 & Hc & Hs & Hp)|[Hs Hp]].
    + exists i, c0. split; [|done]. simpl. rewrite lookup_insert_ne by congruence. done.
    + exists cid, c. split; [|done]. simpl. apply lookup_insert_eq.
Qed.

Lemma commands_shape_insert d cid c :
  commands_shape d -> deposit_command c \/ (exists id, settle_command id c) ->
  commands_shape (set_commands (<[cid := c]> (db_commands d)) d).
Proof.
  intros HS Hc i c0 H. simpl in H. apply lookup_insert_Some in H as [[<- <-]|[_ H]]; [done|]. by eapply HS.
Qed.

(** The database after the transaction, before its event. *)
Definition prepared_db (d : DB) (id : string) (L' : list (Z * legRow)) (r' : windowRow)
    (cmd : option (string * commandRow)) : DB :=
  let d1 := set_windows (<[id := r']> (db_windows d)) (set_legs (store_legs id L' (db_legs d)) d) in
  match cmd with
  | None => d1
  | Some (cid, c) => set_commands (<[cid := c]> (db_commands d)) d1
  end.

Lemma prepared_legs d id L' r' cmd :
  L'.*1 = (legs_of_window id d).*1 -> legs_of_window id (prepared_db d id L' r' cmd) = L'.
Proof. intros E. rewrite <- (legs_of_window_store id d L' E) at 2. by destruct cmd as [[]|]. Qed.

Definition command_fits (d : DB) (id : string) (L' : list (Z * legRow)) (r' : windowRow) (cmd : option (string * commandRow)) : Prop :=
  match cmd with
  | None => filter is_spend L'.*2 = []
  | Some (cid, c) => db_commands d !! cid = None /\ settle_command id c /\ payload_ok r' L' (c_payload c)
  end.

Lemma prepared_payload d id L' r' cmd i p :
  command_fits d id L' r' cmd ->
  settle_payload (prepared_db d id L' r' cmd) i p
  <-> settle_payload d i p \/ exists cid c, cmd = Some (cid, c) /\ settle_command i c /\ c_payload c = p.
Proof.
  destruct cmd as [[cid c]|]; simpl.
  - intros (Hn & _). rewrite (settle_payload_insert (set_windows _ (set_legs _ d)) cid c i p Hn). naive_solver.
  - intros _. naive_solver.
Qed.

Lemma prepared_good d id L' r r' cmd :
  db_windows d !! id = Some r -> in_reserved_or_active (w_state r) = true -> row_le r r' ->
  settling_or_settled (w_state r') -> L'.*1 = (legs_of_window id d).*1 ->
  Forall2 (fun e e' => e'.1 = e.1 /\ settled_leg e.2 e'.2) (legs_of_window id d) L' ->
  window_ok r' L' -> command_fits d id L' r' cmd -> good_step d (prepared_db d id L' r' cmd).
Proof.
  intros Hr Hs Hle Hs' Hseq HL Hok Hcmd. split.
  - intros HI. destruct (no_settle_command d id r HI Hr Hs) as [_ Hno]. pose proof HI as (_ & HS & _).
    apply (Inv_at id d); [done| | | | | |].
    + intros i Hne. destruct cmd as [[]|]; simpl; by apply lookup_insert_ne.
    + intros k Hk. destruct cmd as [[]|]; simpl; by apply store_legs_other.
    + intros i p Hne. rewrite (prepared_payload _ _ _ _ _ i p Hcmd). split; [|by left].
      intros [?|(cid & c & -> & (_ & Ha & _) & _)]; [done|]. destruct Hcmd as (_ & (_ & Ha' & _) & _). congruence.
    + destruct cmd as [[cid c]|]; simpl; [|done].
      apply (commands_shape_insert (set_windows _ (set_legs _ d))); [done|]. right. exists id. by destruct Hcmd as (_ & ? & _).
    + by destruct cmd as [[]|].
    + unfold window_inv. rewrite prepared_legs by done.
      assert (db_windows (prepared_db d id L' r' cmd) !! id = Some r') as ->
        by (destruct cmd as [[]|]; simpl; apply lookup_insert_eq).
      split; [done|]. split.
      * intros p Hp. rewrite (prepared_payload _ _ _ _ _ _ _ Hcmd) in Hp.
        destruct Hp as [Hp|(cid & c & -> & _ & <-)]; [by destruct (Hno p)|]. split; [done|]. by destruct Hcmd as (_ & _ & ?).
      * intros _ Hne. destruct cmd as [[cid c]|]; [|done]. exists (c_payload c).
        apply (prepared_payload _ _ _ _ _ _ _ Hcmd). right. exists cid, c. by destruct Hcmd as (_ & ? & _).
  - intros (HI & _). specialize (HI id). unfold window_inv in HI. rewrite Hr in HI. destruct HI as [Hokr _].
    pose proof (window_ok_open _ _ Hs Hokr) as (Hop & _). split.
    + intros i x Hx.
      assert (db_windows (prepared_db d id L' r' cmd) !! i = <[id := r']> (db_windows d) !! i) as ->
        by (by destruct cmd as [[]|]).
      destruct (decide (i = id)) as [->|Hne]; [rewrite lookup_insert_eq|rewrite lookup_insert_ne by done; by exists x].
      exists r'. split; [done|]. congruence.
    + intros [i s] l Hl.
      assert (db_legs (prepared_db d id L' r' cmd) !! (i, s) = store_legs id L' (db_legs d) !! (i, s)) as ->
        by (by destruct cmd as [[]|]).
      destruct (decide (i = id)) as [->|Hne]; [|rewrite store_legs_other by done; by exists l].
      apply legs_of_window_elem in Hl. rewrite Forall_forall in Hop. specialize (Hop _ Hl).
      destruct (settled_legs_elem _ _ _ HL Hl) as ([s' l'] & Hin & E & Hset). simpl in *. subst s'.
      exists l'. split; [|by apply settled_split]. apply store_legs_in; [|done].
      rewrite Hseq. apply legs_of_window_NoDup.
Qed.
(** What a successful run of the transaction on an open window leaves. *)
Record prepared (d : DB) (id : string) (r : windowRow) (cid : string) (d' : DB) (L' : list (Z * legRow))
    (r' : windowRow) (cmd : option (string * commandRow)) (actual : Z) : Prop := {
  pr_actual : w_actual_quantity r' = actual;
  pr_state : w_state r' = WSettling;
  pr_le : row_le r r';
  pr_seqs : L'.*1 = (legs_of_window id d).*1;
  pr_legs : Forall2 (fun e e' => e'.1 = e.1 /\ settled_leg e.2 e'.2) (legs_of_window id d) L';
  pr_ok : window_ok r' L';
  pr_fits : command_fits d id L' r' cmd;
  pr_cid : cid = match cmd with Some (c, _) => c | None => "" end;
  pr_new : forall c row, cmd = Some (c, row) -> c_state row = CPending /\ c_attempts row = 0 /\ c <> "";
  pr_db : events_only (prepared_db d id L' r' cmd) d'
}.

Lemma create_settle_command id org product payload (s s' : world St) cid :
  match cp_Transfers payload with
  | [] => mret ""%string
  | _ => do! cmd <- createLedgerCommandTx "settle_window" "billing_window" id org product ("settle_window:" +:+ id) payload;
         mret cmd.1
  end s = (Ret cid, s') ->
  command_by_key (w_db s) ("settle_window:" +:+ id) = None ->
  w_tb s' = w_tb s /\ (cp_Transfers payload = [] /\ cid = "" /\ w_db s' = w_db s
    \/ exists row, w_db s' = set_commands (<[cid := row]> (db_commands (w_db s))) (w_db s)
       /\ db_commands (w_db s) !! cid = None /\ settle_command id row /\ c_payload row = payload
       /\ c_state row = CPending /\ c_attempts row = 0 /\ cid <> "").
Proof.
  intros H Hn. destruct (cp_Transfers payload); [injection H as <- <-; split; [done|]; by left|].
  apply mbindM_Ret_inv in H as (cmd & s1 & Hc & H). injection H as <- <-.
  apply createLedgerCommandTx_Ret in Hc as (cid & now & -> & Hf & Et & Eid & Ed); [|done].
  split; [done|]. right. eexists. split; [exact Ed|]. split; [done|]. split; [done|]. split; [done|]. split; [done|].
  split; [done|]. simpl. rewrite Eid. apply textID_not_empty.
Qed.

Lemma appendEvent_only ev (s s' : world St) o : appendEvent ev s = (o, s') -> events_only (w_db s) (w_db s') /\ w_tb s = w_tb s'.
Proof. intros H. eapply (evolves_run events_only eq); [|exact H]. by apply appendEvent_evolves; [apply _..|]. Qed.

Lemma prepareSettlementTx_Ret w id actual billable writeoff billed absorbed usage settledAt (s s' : world St) cid r :
  prepareSettlementTx w id actual billable writeoff (components billed) (sumUint64Map (components billed))
    (sumUint64Map (components absorbed)) usage settledAt s = (Ret cid, s') ->
  settle_call (w_db s) w id actual billable writeoff billed absorbed -> Inv (w_db s) ->
  db_windows (w_db s) !! id = Some r -> in_reserved_or_active (w_state r) = true ->
  w_tb s' = w_tb s /\ exists L' r' cmd, prepared (w_db s) id r cid (w_db s') L' r' cmd actual.
Proof.
  intros H [C1 C2 C3 C4 C5] HI Hr Hs. unfold prepareSettlementTx in H.
  destruct (C2 r Hr) as (Eq & Ea & Ep). rewrite Eq in C3. rewrite Ea, Ep in C4, C5. fold (charges_at r billable) in C4.
  fold (charges_at r writeoff) in C5.
  apply mbindM_Ret_inv in H as (st & s1 & Hst & H). unfold lockWindowStateTx in Hst.
  apply mbindM_Ret_inv in Hst as (row & s2 & Hq & Hst). injection Hq as <- <-. rewrite Hr in Hst. injection Hst as <- <-.
  rewrite Hs in H. simpl in H. apply mbindM_Ret_inv in H as ([payload F] & s1 & Hp & H).
  pose proof HI as (HI' & HS & _). specialize (HI' id). unfold window_inv in HI'. rewrite Hr in HI'. destruct HI' as [Hok _].
  pose proof (window_ok_open _ _ Hs Hok) as (Hop & _). destruct Hok as (Hty & Hu & _).
  assert (is_u32 billable) as Hub.
  { apply settleQuantities_spec in C3 as [-> _]. unfold is_u32 in *. lia. }
  destruct (computeWindowCharges_sums _ _ _ _ _ Hty Hub C4) as (Hnn & _ & _).
  apply (settleWindowLedgerPayloadTx_Ret _ _ _ _ _ _ _ r) in Hp as (Et1 & L' & [P1 P2 P3 P4 P5 P6 P7]);
    [|done|by apply open_pending|intros sku; by apply nonneg_map_get].
  apply mbindM_Ret_inv in H as (bcol & s2 & Hb & H). unfold mlift in Hb. injection Hb as Hb <-.
  apply checkedInt64_Ret in Hb as [-> _].
  apply mbindM_Ret_inv in H as (wcol & s2 & Hw & H). unfold mlift in Hw. injection Hw as Hw <-.
  apply checkedInt64_Ret in Hw as [-> _].
  apply mbindM_Ret_inv in H as (n & s2 & Hprep & H).
  unfold statement, PrepareBillingWindowSettlement in Hprep. rewrite P3 in Hprep. simpl in Hprep. rewrite Hr, Hs in Hprep.
  injection Hprep as <- <-. simpl in H.
  apply mbindM_Ret_inv in H as (cid0 & s3 & Hcmd & H). apply mbindM_Ret_inv in H as ([] & s4 & Hev & H).
  injection H as <- <-. apply appendEvent_only in Hev as [Hev Et3].
  apply create_settle_command in Hcmd as (Et2 & Hcmd); [|exact (proj1 (no_settle_command _ _ r HI Hr Hs))].
  simpl in Et2. split; [congruence|].
  destruct (settled_legs_split _ _ Hop P1) as [Hsp Hpd].
  set (r' := settlingRow _ _ _ _ _ _ _ _ _ r) in *.
  assert (window_ok r' L') as Hok' by (by apply settling_window_ok).
  assert (row_le r r') as Hle.
  { split; [done|]. split; [|by rewrite Hs]. by apply rtc_once, step_prepare. }
  simpl in Hcmd. destruct Hcmd as [(Ee & -> & Ed)|(crow & Ed & Hf & Hset & Epl & Hpend & Hatt & Hne)].
  - exists L', r', None. split; try done; [by apply P6|]. by rewrite Ed in Hev.
  - exists L', r', (Some (cid0, crow)). split; try done.
    + split; [done|]. split; [done|]. by rewrite Epl.
    + by intros c0 row0 [= <- <-].
    + by rewrite Ed in Hev.
Qed.

Lemma prepareSettlementTx_closed w id actual billable writeoff cb bu wu usage settledAt (s s' : world St) cid :
  prepareSettlementTx w id actual billable writeoff cb bu wu usage settledAt s = (Ret cid, s') ->
  exists r, db_windows (w_db s) !! id = Some r
    /\ (in_reserved_or_active (w_state r) = false -> cid = "" /\ s' = s).
Proof.
  unfold prepareSettlementTx. intros H. apply mbindM_Ret_inv in H as (st & s1 & Hst & H). unfold lockWindowStateTx in Hst.
  apply mbindM_Ret_inv in Hst as (row & s2 & Hq & Hst). injection Hq as <- <-.
  destruct (db_windows (w_db s) !! id) as [r|]; [|done]. injection Hst as <- <-. exists r. split; [done|].
  intros Hs. rewrite Hs in H. by injection H as <- <-.
Qed.

Lemma prepareSettlementTx_good w id actual billable writeoff billed absorbed usage settledAt (s s' : world St) cid :
  prepareSettlementTx w id actual billable writeoff (components billed) (sumUint64Map (components billed))
    (sumUint64Map (components absorbed)) usage settledAt s = (Ret cid, s') ->
  settle_call (w_db s) w id actual billable writeoff billed absorbed -> good_step (w_db s) (w_db s').
Proof.
  intros H Hc. pose proof H as (r & Hr & Hcl)%prepareSettlementTx_closed.
  destruct (in_reserved_or_active (w_state r)) eqn:Hs; [|destruct Hcl as [_ ->]; [done|reflexivity]].
  assert (forall HI : Inv (w_db s), exists d1, good_step (w_db s) d1 /\ good_step d1 (w_db s')) as Hg.
  { intros HI. destruct (prepareSettlementTx_Ret _ _ _ _ _ _ _ _ _ _ _ _ _ H Hc HI Hr Hs)
      as (_ & L' & r' & cmd & [P0 P1 P2 P3 P4 P5 P6 P7 P8 P9]).
    eexists. split; [eapply prepared_good; eauto; by left|]. by apply core_good, events_core. }
  split; intros HI; destruct (Hg HI) as (d1 & G1 & G2); destruct (transitivity G1 G2); auto.
Qed.
End Prepare.
