(* ===== verification/ReserveTx.v ===== *)
(** * Reserving a window

    reserveWindowTx prices the request, funds it from the grants of the
    organisation, and inserts the window with its legs. *)

From stdpp Require Import relations.
From S2P Require Import Prelude GoFloat GoStd GoTime GoFormat Json Types Ids Ledger Charges Grants Store Events.
From S2P Require Import LedgerCommands LedgerGrants Cycles Entitlements WindowStore Windows Dispatcher Frames Legs.
From S2P Require Import WindowInv PrepareTx.

(** ** Parsed ids are well formed *)

Lemma from_hex_char_range c n : from_hex_char c = Some n -> 0 <= n < 16.
Proof. unfold from_hex_char. repeat case_bool; try done; intros [= <-]; zbool; lia. Qed.

Lemma hex_decode_bytes_range n l out :
  (length l <= n)%nat -> hex_decode_bytes l = Some out -> Forall is_byte out.
Proof.
  revert l out. induction n as [|n IH]; intros [|a [|b l]] out Hn H; simpl in *; try done; try lia;
    try (by injection H as <-; constructor).
  destruct (from_hex_char a) as [x|] eqn:Ea; [|done]. destruct (from_hex_char b) as [y|] eqn:Eb; [|done].
  destruct (hex_decode_bytes l) as [r|] eqn:Er; [|done]. injection H as <-.
  apply from_hex_char_range in Ea, Eb. constructor; [unfold is_byte; lia|]. by apply (IH l); [lia|].
Qed.

Lemma ParseID_wf s id : ParseID s = Ret id -> wf_id id.
Proof.
  unfold ParseID. case_decide; [intros [= <-]; apply zeroID_wf|].
  destruct (hex_decode _) as [out|] eqn:E; [|done]. unfold IDFromBytes. case_decide; [|done]. intros [= <-].
  split; [done|]. by eapply hex_decode_bytes_range.
Qed.

(** ** Balances are not negative *)

Lemma balanceOfAccount_available a b : balanceOfAccount a = Ret b -> 0 <= bal_Available b.
Proof.
  unfold balanceOfAccount, availableFromAccount. intros H. inv_ret. simpl.
  repeat (case_bool; [discriminate|]). inv_ret. zbool. lia.
Qed.

Lemma LookupBalances_available {St} `{HC : TBCodec} `{!TigerBeetle St} c ids (s : St) m id b :
  LookupBalances c ids s = Ret m -> m !! id = Some b -> 0 <= bal_Available b.
Proof.
  unfold LookupBalances. intros H. apply obind_Ret_inv in H as (accounts & _ & H).
  assert (forall out : gmap ID Balance, (forall i x, out !! i = Some x -> 0 <= bal_Available x) ->
    outcome_fold (fun out account => let! b := balanceOfAccount account in Ret (<[acc_ID account := b]> out)) out accounts
      = Ret m -> m !! id = Some b -> 0 <= bal_Available b) as Hg.
  { clear H. induction accounts as [|a l IH]; intros out Hout H; simpl in H; [injection H as <-; apply Hout|].
    apply obind_Ret_inv in H as (out1 & H1 & H). apply obind_Ret_inv in H1 as (x & Hx & H1). injection H1 as <-.
    apply (IH _ ltac:(
      intros i y [[<- <-]|[_ Hy]]%lookup_insert_Some; [by eapply balanceOfAccount_available|by eapply Hout]) H). }
  apply (Hg ∅); [|done]. intros i x. by rewrite lookup_empty.
Qed.

Lemma holdAuthorized_available m g : 0 <= gb_Available g -> 0 <= gb_Available (holdAuthorized m g) <= gb_Available g
  \/ map_u64 m (gb_GrantID g) < 0.
Proof.
  intros Hg. unfold holdAuthorized. destruct (Z.eqb_spec (map_u64 m (gb_GrantID g)) 0); [left; lia|].
  destruct (decide (map_u64 m (gb_GrantID g) < 0)); [by right|]. left.
  destruct (Z.leb_spec (gb_Available g) (map_u64 m (gb_GrantID g))); simpl; lia.
Qed.

Section Reserve.
Context {St : Type} `{HE : Env} `{HD : Digest} `{HC : TBCodec} `{!TigerBeetle St} `{!PeriodWork St}.

Lemma hydrate_wf gs (w w' : world St) out :
  hydrateGrantLedgerBalances gs w = (Ret out, w') -> wf_grants out.
Proof.
  unfold hydrateGrantLedgerBalances. destruct gs as [|g gs]; [intros [= <- _]; constructor|].
  generalize (g :: gs). clear g gs. intros gs H.
  apply mbindM_Ret_inv in H as ([] & w1 & _ & H). destruct (existsb _ _); [done|].
  apply mbindM_Ret_inv in H as (m & w2 & Hm & H). unfold ledger_query in Hm. injection Hm as Hm _.
  assert (forall i b, m !! i = Some b -> 0 <= bal_Available b) as Hb' by (intros i b; by eapply LookupBalances_available).
  clear Hm. unfold mlift in H. injection H as H _. apply outcome_map_Forall2 in H.
  induction H as [|g x gs out Hx _ IH]; [constructor|]. constructor; [|done].
  unfold hydrateOne in Hx. destruct (m !! gb_ledgerAccountID g) as [b|] eqn:Hb; [|done]. injection Hx as <-. simpl.
  by eapply Hb'.
Qed.

Lemma grantAuthorizedUsage_pos org (w w' : world St) m k :
  grantAuthorizedUsage org w = (Ret m, w') -> 0 <= map_u64 m k.
Proof.
  unfold grantAuthorizedUsage. intros H. apply mbindM_Ret_inv in H as (rows & w1 & _ & H).
  apply mbindM_Ret_inv in H as (sums & w2 & _ & H). injection H as <- _.
  unfold map_u64. destruct (filter _ sums !! k) as [z|] eqn:E; simpl; [|lia].
  apply map_lookup_filter_Some in E as [_ E]. simpl in E. lia.
Qed.

Lemma grantBalancesTx_wf org product (w w' : world St) gs :
  grantBalancesTx org product w = (Ret gs, w') -> wf_grants gs.
Proof.
  unfold grantBalancesTx, balancesOfRows. intros H. apply mbindM_Ret_inv in H as (now & w1 & _ & H).
  apply mbindM_Ret_inv in H as (rows & w2 & _ & H). apply mbindM_Ret_inv in H as (d & w3 & _ & H).
  apply mbindM_Ret_inv in H as (gs0 & w4 & _ & H). apply mbindM_Ret_inv in H as (hyd & w5 & Hh & H).
  apply mbindM_Ret_inv in H as (auth & w6 & Ha & H). injection H as <- _.
  apply hydrate_wf in Hh. unfold wf_grants, grantsByFundingPriority. rewrite sort_slice_perm, Forall_fmap.
  eapply Forall_impl; [exact Hh|]. simpl. intros g Hg.
  pose proof (grantAuthorizedUsage_pos _ _ _ _ (gb_GrantID g) Ha). destruct (holdAuthorized_available auth g Hg); lia.
Qed.

(** ** The price list of a transaction *)

Lemma pricing_step_typed p sku p' :
  sk_UnitRate sku <= i64_max -> typed_rates p -> pricing_step p sku = Ret p' -> typed_rates p'.
Proof.
  intros Hle Hp H. unfold pricing_step in H. apply obind_Ret_inv in H as (rate & Hr & H). injection H as <-.
  apply checkedUint64_Ret in Hr as [-> Hr]. intros k r. simpl.
  intros [[<- <-]|[_ Hk]]%lookup_insert_Some; [|by eapply Hp]. unfold is_u64, i64_max, u64_max in *. lia.
Qed.

Lemma ListActivePlanSKURates_typed plan now d :
  rates_typed d -> Forall (fun s => sk_UnitRate s <= i64_max) (ListActivePlanSKURates plan now d).
Proof.
  intros Ht. unfold ListActivePlanSKURates. rewrite sort_slice_perm. apply Forall_forall. intros s Hs.
  apply list_elem_of_omap in Hs as (r & [_ Hr]%list_elem_of_filter & Hs). unfold rates_typed in Ht.
  rewrite Forall_forall in Ht. specialize (Ht r Hr). unfold rate_row in Hs. repeat case_match; simplify_eq. done.
Qed.

Lemma loadPricingContextTx_typed org product now (w w' : world St) p :
  rates_typed (w_db w) -> loadPricingContextTx org product now w = (Ret p, w') -> typed_rates p /\ quiet w w'.
Proof.
  intros Ht H. unfold loadPricingContextTx in H. apply mbindM_Ret_inv in H as (row & w1 & Hq & H).
  assert (w1 = w) as ->.
  { unfold queryAt in Hq. destruct (timestamptz now); by injection Hq as _ <-. }
  destruct row as [[[[[planID pl] ct] ph] policy]|]; [|done].
  apply mbindM_Ret_inv in H as (rows & w1 & Hrows & H).
  assert (w1 = w /\ Forall (fun s => sk_UnitRate s <= i64_max) rows) as [-> Hr].
  { destruct (timestamptz now); injection Hrows as <- <-; split; try done. by apply ListActivePlanSKURates_typed. }
  unfold mlift in H. injection H as H <-. split; [|done]. clear Hrows Hq.
  assert (forall p0, typed_rates p0 -> outcome_fold pricing_step p0 rows = Ret p -> typed_rates p) as Hg.
  { clear H. induction Hr as [|s rows Hs _ IH]; intros p0 Hp0 H; simpl in H; [by injection H as <-|].
    apply obind_Ret_inv in H as (p1 & H1 & H). eapply IH; [|done]. by eapply pricing_step_typed. }
  eapply Hg; [|done]. intros k r. simpl. by rewrite lookup_empty.
Qed.

(** ** The inserted window *)

Lemma inserted_open legs rows i :
  Forall2 inserted_leg legs rows -> Forall (fun e => leg_open e.2) (numbered i rows).
Proof.
  intros H. revert i. induction H as [|leg row legs rows (a & -> & Ha & Hacc) _ IH]; intros i; simpl; [constructor|].
  constructor; [|done]. unfold leg_open. simpl. do 4 (split; [done|]). split; [done|].
  intros x ->. case_decide; [done|]. destruct Hacc as (y & [= <-] & HP). by eapply ParseID_wf.
Qed.

(** The database after the inserts. *)
Definition reserved_db (d : DB) (id : string) (r : windowRow) (rows : list legRow) : DB :=
  set_legs (store_legs id (numbered 0 rows) (db_legs d)) (set_windows (<[id := r]> (db_windows d)) d).

Lemma reserved_good d id r rows :
  db_windows d !! id = None -> w_state r = WReserved -> window_ok r (numbered 0 rows) ->
  good_step d (reserved_db d id r rows).
Proof.
  intros Hn Hs Hok. split.
  - intros HI. pose proof HI as (HI' & HS & _). specialize (HI' id). unfold window_inv in HI'. rewrite Hn in HI'.
    destruct HI' as [Hl Hp]. apply (Inv_at id d); try done; simpl.
    + intros i Hne. by apply lookup_insert_ne.
    + intros k Hk. by apply store_legs_other.
    + unfold window_inv. simpl. rewrite lookup_insert_eq.
      assert (legs_of_window id (reserved_db d id r rows) = numbered 0 rows) as ->
        by (apply (legs_of_window_fresh id (set_windows _ d)); done).
      split; [done|]. split; [intros p Hp'; by destruct (Hp p)|]. rewrite Hs. by intros [|].
  - intros (HI & _ & _). specialize (HI id). unfold window_inv in HI. rewrite Hn in HI. destruct HI as [Hl _]. split; simpl.
    + intros i x Hx. rewrite lookup_insert_ne by congruence. by exists x.
    + intros [i s] l Hl'. destruct (decide (i = id)) as [->|Hne]; [by rewrite Hl in Hl'|].
      rewrite store_legs_other by done. by exists l.
Qed.
(** What a successful reservation leaves: [d1] is the database before the
    inserts (the organisation and its open cycle may have been created). *)
Record reserved (d : DB) (req : ReserveRequest) (shape : string) (quantity : Z) (fingerprint : string)
    (p : persistedWindow) (d' : DB) (d1 : DB) (row : windowRow) (rows : list legRow) : Prop := {
  rv_core : core_step d d1;
  rv_new : db_windows d1 !! pw_WindowID p = None;
  rv_id : pw_WindowID p = billingWindowID (rq_OrgID req) (rq_ProductID req) (rq_SourceType req) (rq_SourceRef req) (rq_WindowSeq req);
  rv_state : w_state row = WReserved;
  rv_request : w_org_id row = orgIDText (rq_OrgID req) /\ w_product_id row = rq_ProductID req
    /\ w_source_type row = rq_SourceType req /\ w_source_ref row = rq_SourceRef req
    /\ w_window_seq row = rq_WindowSeq req /\ w_source_fingerprint row = fingerprint
    /\ w_reservation_shape row = shape /\ w_reserved_quantity row = quantity /\ w_allocation row = rq_Allocation req;
  rv_fresh : w_actual_quantity row = 0 /\ w_billable_quantity row = 0 /\ w_writeoff_quantity row = 0
    /\ w_billed_charge_units row = 0 /\ w_writeoff_charge_units row = 0;
  rv_result : pw_ReservedQuantity p = quantity /\ pw_ReservedChargeUnits p = w_reserved_charge_units row
    /\ pw_RateContext p = w_rate_context row /\ pw_Allocation p = w_allocation row;
  rv_checks : window_checks row = true;
  rv_ok : window_ok row (numbered 0 rows);
  rv_db : events_only (reserved_db d1 (pw_WindowID p) row rows) d'
}.

Lemma orgBillingStateTx_core org : evolves core_step ledger_grows (orgBillingStateTx org : @B St _).
Proof using All.
  unfold orgBillingStateTx. pose proof (ensureDefaultOrgTx_core (St := St) ledger_grows (Dispatch_grows _)). frame.
Qed.

Lemma fundReservationTx_Ret org product charges pricing (w w' : world St) ls :
  fundReservationTx org product charges pricing w = (Ret ls, w') ->
  core_step (w_db w) (w_db w') /\ exists gs gs', wf_grants gs /\ fundReservation product charges pricing gs = (gs', ls).
Proof using All.
  intros H. unfold fundReservationTx in H. apply mbindM_Ret_inv in H as (gs & w1 & Hg & H).
  assert (core_step (w_db w) (w_db w1)) as Hc
    by (eapply (evolves_run core_step ledger_grows); [|exact Hg]; apply grantBalancesTx_core; first [apply Dispatch_grows|apply _]).
  injection H as <- <-. split; [done|]. exists gs, (fundReservation product charges pricing gs).1.
  split; [by eapply grantBalancesTx_wf|]. by destruct (fundReservation _ _ _ _).
Qed.

Lemma reserved_window_ok req shape fp cycle pricing q charges legs rows corr start expires renew created gs gs' ls :
  typed_rates pricing -> is_u32 q -> generated corr ->
  computeWindowCharges (rq_Allocation req) (SKURates pricing) (SKUBuckets pricing) q = Ret charges ->
  wf_grants gs -> fundReservation (rq_ProductID req) (components charges) pricing gs = (gs', ls) ->
  authorizeLegs (components charges) pricing ls = Ret legs -> Forall2 inserted_leg legs rows ->
  window_ok (reservedRow req shape fp cycle pricing q (sumUint64Map (components charges)) legs corr start expires renew
               created) (numbered 0 rows).
Proof.
  intros Ht Hq Hg Hc Hw Hf Ha Hrows. split; [done|]. split; [done|]. simpl. split; [|done].
  split; [by eapply inserted_open|]. split; [done|]. split; [done|]. exists charges. split; [done|]. split; [done|]. intros Hsum sku.
  destruct (computeWindowCharges_sums _ _ _ _ _ Ht Hq Hc) as (Hnn & _ & _).
  rewrite (inserted_total legs rows 0 sku Hrows).
  by destruct (authorizeLegs_exact _ _ _ _ _ _ _ Hnn Hsum Hw Hf Ha) as [-> _].
Qed.

Lemma reserveWindowTx_Ret req shape q fp (w w' : world St) p :
  reserveWindowTx req shape q fp w = (Ret p, w') -> is_u32 q -> Inv (w_db w) ->
  exists d1 row rows, reserved (w_db w) req shape q fp p (w_db w') d1 row rows.
Proof using All.
  intros H Hq HI. unfold reserveWindowTx in H.
  pose proof (Dispatch_grows (St := St) ledger_configured) as HRT.
  apply mbindM_Ret_inv in H as (now & w1 & H1 & H).
  apply (evolves_run core_step ledger_grows) in H1 as [C1 _]; [|by apply evolves_BusinessNow; apply _].
  apply mbindM_Ret_inv in H as (org & w2 & H2 & H).
  apply (evolves_run core_step ledger_grows) in H2 as [C2 _]; [|apply orgBillingStateTx_core].
  destruct (_ || _); [done|]. apply mbindM_Ret_inv in H as (cycle & w3 & H3 & H).
  apply (evolves_run core_step ledger_grows) in H3 as [C3 _]; [|apply ensureOpenBillingCycleTx_core; first [done|apply _]].
  assert (core_step (w_db w) (w_db w3)) as C by (etrans; [exact C1|]; by etrans).
  pose proof (core_step_Inv _ _ C HI) as HI3. pose proof HI3 as (_ & _ & HR3).
  apply mbindM_Ret_inv in H as (pricing0 & w4 & H4 & H). apply loadPricingContextTx_typed in H4 as [Ht [E4 _]]; [|done].
  apply mbindM_Ret_inv in H as (charges & w5 & H5 & H). unfold mlift in H5. injection H5 as H5 <-.
  set (pricing := with_cost pricing0 (costPerUnit charges)) in *.
  apply mbindM_Ret_inv in H as (ls & w5 & H6 & H). apply fundReservationTx_Ret in H6 as (C6 & gs & gs' & Hw & Hf).
  apply mbindM_Ret_inv in H as (legs & w6 & H7 & H). unfold mlift in H7. injection H7 as H7 <-.
  apply mbindM_Ret_inv in H as (corr & w6 & H8 & H). injection H8 as <- <-.
  destruct (reserveWindowTiming shape now q) as [expiresAt renewBy].
  apply mbindM_Ret_inv in H as (qc & w7 & H9 & H). unfold mlift in H9. injection H9 as H9 <-.
  apply checkedInt64_Ret in H9 as [-> _].
  apply mbindM_Ret_inv in H as (cc & w7 & H9 & H). unfold mlift in H9. injection H9 as H9 <-.
  apply checkedInt64_Ret in H9 as [-> _].
  apply mbindM_Ret_inv in H as (start & w7 & H9 & H). unfold mlift in H9. injection H9 as H9 <-.
  apply mbindM_Ret_inv in H as (expires & w7 & H10 & H). unfold mlift in H10. injection H10 as H10 <-.
  apply mbindM_Ret_inv in H as (created & w7 & H11 & H).
  apply (evolves_run eq eq) in H11 as [E7 _]; [|by apply evolves_pgNow; apply _]. simpl in E7.
  apply mbindM_Ret_inv in H as ([] & w8 & H12 & H).
  set (id := billingWindowID _ _ _ _ _) in *. set (row := reservedRow _ _ _ _ _ _ _ _ _ _ _ _ _) in *.
  assert (db_windows (w_db w5) !! id = None /\ window_checks row = true
          /\ w8 = with_db (set_windows (<[id := row]> (db_windows (w_db w5))) (w_db w5)) w7) as (Hn & Hck & ->).
  { unfold statement, InsertBillingWindow, check_constraint in H12. rewrite <- E7 in H12.
    destruct (db_windows (w_db w5) !! id) eqn:Hn; [done|]. destruct (existsb _ _); [done|].
    destruct (negb (bool_decide (id = "")) && window_checks row) eqn:Hck; [|done]. injection H12 as <-. zbool. done. }
  apply mbindM_Ret_inv in H as ([] & w9 & H13 & H).
  assert (core_step (w_db w) (w_db w5)) as C5 by (etrans; [exact C|]; by rewrite <- E4).
  pose proof (core_step_Inv _ _ C5 HI) as (HI5 & _). specialize (HI5 id). unfold window_inv in HI5. rewrite Hn in HI5.
  destruct HI5 as [Hlegs _].
  apply insertLegsFrom_Ret in H13 as (rows & Hrows & ->); [|intros s _; apply Hlegs].
  apply mbindM_Ret_inv in H as ([] & w10 & H14 & H). apply appendEvent_only in H14 as [V1 _].
  apply mbindM_Ret_inv in H as ([] & w11 & H15 & H). apply appendEvent_only in H15 as [V2 _]. injection H as <- <-.
  exists (w_db w5), row, rows. split; try done.
  - eapply (reserved_window_ok req shape fp cycle pricing); try done. by eexists.
  - by etrans.
Qed.

Lemma reserveWindowTx_good req shape q fp (w w' : world St) p :
  reserveWindowTx req shape q fp w = (Ret p, w') -> is_u32 q -> good_step (w_db w) (w_db w').
Proof using All.
  intros H Hq.
  assert (forall HI : Inv (w_db w), exists d1 d2, good_step (w_db w) d1 /\ good_step d1 d2 /\ good_step d2 (w_db w')) as Hg.
  { intros HI. destruct (reserveWindowTx_Ret _ _ _ _ _ _ _ H Hq HI) as (d1 & row & rows & [R1 R2 R3 R4 R5 R6 R7 R8 R9 R10]).
    exists d1, (reserved_db d1 (pw_WindowID p) row rows). split; [by apply core_good|].
    split; [by apply reserved_good|]. by apply core_good, events_core. }
  split; intros HI; destruct (Hg HI) as (d1 & d2 & G1 & G2 & G3);
    destruct (transitivity G1 (transitivity G2 G3)); auto.
Qed.
End Reserve.
