(* ===== verification/WindowSystem.v ===== *)
(** * The service as a transition system

    [window_tx] has one constructor per transaction that touches windows,
    their legs or their commands, and [tx_core] for everything else.  Each
    transaction commits atomically, so an execution of the service, however
    its handlers interleave, is a sequence of such steps; [reachable_inv] is
    the invariant over those sequences.  The handlers of billing/windows.go
    and of the dispatcher are then shown to move the database along
    [window_tx] whatever their outcome. *)

From stdpp Require Import relations.
From S2P Require Import Prelude GoFloat GoStd GoTime GoFormat Json Types Ids Ledger Charges Grants Store Events.
From S2P Require Import LedgerCommands LedgerGrants Cycles Entitlements WindowStore Windows Dispatcher Frames Legs.
From S2P Require Import Clock WindowInv PrepareTx ReserveTx.

(** ** The reset of the clock moves windows to another cycle *)

Section Reassign.
Context `{HE : Env} `{HC : TBCodec}.

Lemma with_cycle_le c r : row_le r (with_cycle c r).
Proof. split; [done|]. split; [constructor|done]. Qed.

Lemma reassign_good org product cycle s e d ids d' :
  ReassignWallClockWindows org product cycle s e d = Ret (ids, d') -> good_step d d'.
Proof.
  unfold ReassignWallClockWindows. intros [= _ <-]. set (where_ := reassignableWindow org product cycle s e).
  set (f := fun x => if where_ x then with_cycle cycle x else x).
  assert (forall id, update_where where_ (with_cycle cycle) (db_windows d) !! id = f <$> db_windows d !! id) as Hf.
  { intros id. unfold update_where. by rewrite lookup_fmap. }
  split.
  - intros (HI & HS & HR). split; [|done]. intros id. specialize (HI id). unfold window_inv in *.
    rewrite legs_set_windows. simpl. rewrite Hf. destruct (db_windows d !! id) as [r|]; [|exact HI].
    simpl. unfold f. destruct (where_ r); exact HI.
  - intros _. split; simpl; [|intros k l Hl; by exists l]. intros id r Hr. rewrite Hf, Hr. eexists. split; [done|].
    unfold f. destruct (where_ r); [apply with_cycle_le|reflexivity].
Qed.
End Reassign.

Section System.
Context {St : Type} `{HE : Env} `{HD : Digest} `{HC : TBCodec} `{!TigerBeetle St} `{!PeriodWork St}.

Inductive window_tx : DB -> DB -> Prop :=
| tx_core d d' : core_step d d' -> window_tx d d'
| tx_reserve req shape quantity fingerprint p (w w' : world St) :
    is_u32 quantity -> reserveWindowTx req shape quantity fingerprint w = (Ret p, w') -> window_tx (w_db w) (w_db w')
| tx_activate id p activatedAt expiresAt renewBy (w w' : world St) :
    activateWindowTx id p activatedAt expiresAt renewBy w = (Ret tt, w') -> window_tx (w_db w) (w_db w')
| tx_prepare p id actual billable writeoff billed absorbed usage settledAt cid (w w' : world St) :
    settle_call (w_db w) p id actual billable writeoff billed absorbed ->
    prepareSettlementTx p id actual billable writeoff (components billed) (sumUint64Map (components billed))
      (sumUint64Map (components absorbed)) usage settledAt w = (Ret cid, w') -> window_tx (w_db w) (w_db w')
| tx_settled p id occurredAt (w w' : world St) :
    windowSettledTx p id occurredAt w = (Ret tt, w') -> window_tx (w_db w) (w_db w')
| tx_void p id now (w w' : world St) :
    voidWindowTx p id now w = (Ret tt, w') -> window_tx (w_db w) (w_db w')
| tx_projection_error id e d d' : UpdateWindowProjectionError id e d = Ret (tt, d') -> window_tx d d'
| tx_projected id t d d' : MarkMeteringProjected id t d = Ret (tt, d') -> window_tx d d'
| tx_reassign org product cycle s e ids d d' :
    ReassignWallClockWindows org product cycle s e d = Ret (ids, d') -> window_tx d d'.

(** ** Each transaction is good *)

Lemma activateWindowTx_good id p a e rn (w w' : world St) :
  activateWindowTx id p a e rn w = (Ret tt, w') -> good_step (w_db w) (w_db w').
Proof.
  unfold activateWindowTx. intros H. apply mbindM_Ret_inv in H as (n & w1 & Hs & H).
  assert (good_step (w_db w) (w_db w1)) as G.
  { unfold statement in Hs. destruct (ActivateBillingWindow _ _ _ _ _) as [[n' d']| |] eqn:E; try done.
    injection Hs as -> <-. by eapply ActivateBillingWindow_good. }
  destruct (n =? 0); [by injection H as <-|]. apply appendEvent_only in H as [V _].
  etrans; [exact G|]. by apply core_good, events_core.
Qed.

(** The end of the settlement transaction writes an event and may request the
    projection of the window. *)
Lemma settled_events ev id (s s' : world St) o :
  (exec! appendEvent ev; if runtime_configured then EnqueueMeteringProjectWindowTx id else mret tt) s = (o, s') ->
  events_only (w_db s) (w_db s') /\ w_tb s = w_tb s'.
Proof.
  intros H. eapply (evolves_run events_only eq); [|exact H].
  apply evolves_bind; [apply _..| |intros _]; [by apply appendEvent_evolves; [apply _..|]|].
  destruct runtime_configured; [by apply enqueue_evolves; [apply _..|]|by apply evolves_ret; apply _].
Qed.

Lemma windowSettledTx_Ret p id t (w w' : world St) :
  windowSettledTx p id t w = (Ret tt, w') ->
  w_db w' = w_db w /\ (forall r, db_windows (w_db w) !! id = Some r -> w_state r <> WSettling)
  \/ exists r d1, db_windows (w_db w) !! id = Some r /\ w_state r = WSettling
     /\ d1 = update_pending_legs id close_leg
               (set_windows (<[id := with_state WSettled (w_metering_projected_at r) (w_last_projection_error r) r]>
                               (db_windows (w_db w))) (w_db w))
     /\ events_only d1 (w_db w').
Proof.
  unfold windowSettledTx. intros H. apply mbindM_Ret_inv in H as (n & w1 & Hs & H).
  unfold statement, MarkWindowSettled in Hs.
  destruct (db_windows (w_db w) !! id) as [r|] eqn:Hr; [|injection Hs as <- <-; injection H as <-; left; by destruct w].
  case_decide as Hst; [|injection Hs as <- <-; injection H as <-; left; split; [done|]; by intros ? [= <-]].
  injection Hs as <- <-. simpl in H. apply mbindM_Ret_inv in H as ([] & w2 & Hs & H). injection Hs as <-.
  destruct (chargeMapsFromFundingLegs (pw_FundingLegs p)). apply settled_events in H as [V _].
  right. eexists r, _. done.
Qed.

Lemma windowSettledTx_good p id t (w w' : world St) :
  windowSettledTx p id t w = (Ret tt, w') -> good_step (w_db w) (w_db w').
Proof.
  intros [[-> _]|(r & d1 & Hr & Hst & -> & V)]%windowSettledTx_Ret; [reflexivity|].
  etrans; [by apply settle_good|]. by apply core_good, events_core.
Qed.

Lemma voidWindowTx_Ret p id t (w w' : world St) :
  voidWindowTx p id t w = (Ret tt, w') ->
  w_db w' = w_db w /\ (forall r, db_windows (w_db w) !! id = Some r -> in_reserved_or_active (w_state r) = false)
  \/ exists r d1, db_windows (w_db w) !! id = Some r /\ in_reserved_or_active (w_state r) = true
     /\ d1 = update_pending_legs id void_leg
               (set_windows (<[id := with_state WVoided (w_metering_projected_at r) (w_last_projection_error r) r]>
                               (db_windows (w_db w))) (w_db w))
     /\ events_only d1 (w_db w').
Proof.
  unfold voidWindowTx. intros H. apply mbindM_Ret_inv in H as (n & w1 & Hs & H).
  unfold statement, VoidBillingWindow, check_constraint in Hs.
  destruct (db_windows (w_db w) !! id) as [r|] eqn:Hr; [|injection Hs as <- <-; injection H as <-; left; by destruct w].
  destruct (in_reserved_or_active (w_state r)) eqn:Hst;
    [|injection Hs as <- <-; injection H as <-; left; split; [done|]; by intros ? [= <-]].
  destruct (bool_decide _); [|done]. injection Hs as <- <-. simpl in H.
  apply mbindM_Ret_inv in H as ([] & w2 & Hs & H). injection Hs as <-. apply appendEvent_only in H as [V _].
  right. eexists r, _. done.
Qed.

Lemma voidWindowTx_good p id t (w w' : world St) :
  voidWindowTx p id t w = (Ret tt, w') -> good_step (w_db w) (w_db w').
Proof.
  intros [[-> _]|(r & d1 & Hr & Hst & -> & V)]%voidWindowTx_Ret; [reflexivity|].
  etrans; [by apply void_good|]. by apply core_good, events_core.
Qed.

Lemma window_tx_good d d' : window_tx d d' -> good_step d d'.
Proof.
  intros [d0 d0' Hc|req sh q fp p w w' Hq H|id p a e rn w w' H|p id ac bi wo bl ab us t cid w w' Hc H|p id t w w' H|p id t w w' H
         |id e d0 d0' H|id t d0 d0' H|o pr cy s e ids d0 d0' H].
  - by apply core_good.
  - by eapply reserveWindowTx_good.
  - by eapply activateWindowTx_good.
  - by eapply prepareSettlementTx_good.
  - by eapply windowSettledTx_good.
  - by eapply voidWindowTx_good.
  - unfold UpdateWindowProjectionError in H. injection H as <-.
    apply (alter_rows_good _ _ (fun w => w_metering_projected_at w) (fun _ => e)).
  - unfold MarkMeteringProjected in H. injection H as <-. apply (alter_rows_good _ _ (fun _ => t) (fun _ => "")).
  - by eapply reassign_good.
Qed.

(** ** Executions *)

Lemma reachable_good d d' : rtc window_tx d d' -> good_step d d'.
Proof. induction 1 as [|d1 d2 d3 H _ IH]; [reflexivity|]. etrans; [by apply window_tx_good|done]. Qed.

(** The snapshot a settlement was computed from stays valid while other
    handlers run. *)
Lemma settle_call_stable d d' p id actual billable writeoff billed absorbed :
  history d d' -> is_Some (db_windows d !! id) ->
  settle_call d p id actual billable writeoff billed absorbed ->
  settle_call d' p id actual billable writeoff billed absorbed.
Proof.
  intros [Hw _] [r Hr] [C1 C2 C3 C4 C5]. split; try done. intros r' Hr'.
  destruct (Hw id r Hr) as (r1 & Hr1 & Hk & _). rewrite Hr1 in Hr'. injection Hr' as <-.
  destruct (C2 r Hr) as (E1 & E2 & E3). unfold window_key in Hk. simplify_eq. split_and!; congruence.
Qed.
(** ** Handlers *)

Abbreviation steps := (rtc window_tx).

Lemma lift_core {A} (m : @B St A) : evolves core_step ledger_grows m -> evolves steps ledger_grows m.
Proof. apply evolves_mono; [apply _|apply _| |done]. intros d d' H. by apply rtc_once, tx_core. Qed.

(** What a computation does from one given world. *)
Definition evolves_at {A} (m : @B St A) (w : world St) : Prop :=
  steps (w_db w) (w_db (m w).2) /\ ledger_grows (w_tb w) (w_tb (m w).2).

Lemma evolves_at_of {A} (m : @B St A) w : evolves steps ledger_grows m -> evolves_at m w.
Proof. intros H. apply H. Qed.

Lemma evolves_at_bind {A C} (m : @B St A) (f : A -> @B St C) w :
  evolves_at m w -> (forall a w1, m w = (Ret a, w1) -> evolves_at (f a) w1) -> evolves_at (mbindM m f) w.
Proof.
  unfold evolves_at, mbindM. intros [H1 H2] Hf. destruct (m w) as [[a|e|] w1] eqn:E; simpl in *; [|done|done].
  destruct (Hf a w1 eq_refl) as [H3 H4]. split; by etrans.
Qed.

(** A transaction whose successful runs are steps. *)
Lemma evolves_at_WithTx {A} (m : @B St A) w :
  evolves (fun _ _ => True) ledger_grows m ->
  (forall a w1 w2, w_db w1 = w_db w -> m w1 = (Ret a, w2) -> steps (w_db w) (w_db w2)) ->
  evolves_at (WithTx m) w.
Proof.
  intros Hm Hd. unfold evolves_at, WithTx. simpl.
  match goal with |- context [m ?x] => pose proof (Hm x) as [_ HT]; pose proof (Hd) as Hx; specialize (fun a w2 => Hd a x w2 eq_refl);
    destruct (m x) as [[a|e|] w2] eqn:E end; simpl in *; split; try done; by eapply Hd.
Qed.

#[local] Instance any_preorder : PreOrder (fun _ _ : DB => True).
Proof. by split. Qed.

Lemma any_core {A} (m : @B St A) : evolves core_step ledger_grows m -> evolves (fun _ _ => True) ledger_grows m.
Proof. by apply evolves_mono; try apply _. Qed.

Lemma any_statement {A} (f : DB -> res (A * DB)) : evolves (fun _ _ => True) (ledger_grows (St := St)) (statement f).
Proof. by apply evolves_statement; try apply _. Qed.

Let RTd : forall p s, ledger_grows s (Dispatch ledger_configured p s).2 := Dispatch_grows (St := St) ledger_configured.

Lemma any_appendEvent ev : evolves (fun _ _ => True) (ledger_grows (St := St)) (appendEvent ev).
Proof. apply any_core, appendEvent_core; try apply _. apply RTd. Qed.

#[local] Hint Resolve any_statement any_appendEvent : frame.

Lemma activateWindowTx_any id p a e rn : evolves (fun _ _ => True) ledger_grows (activateWindowTx id p a e rn : @B St _).
Proof. unfold activateWindowTx. frame. Qed.

Lemma voidWindowTx_any p id t : evolves (fun _ _ => True) ledger_grows (voidWindowTx p id t : @B St _).
Proof. unfold voidWindowTx. frame. Qed.

Lemma windowSettledTx_any p id t : evolves (fun _ _ => True) ledger_grows (windowSettledTx p id t : @B St _).
Proof. unfold windowSettledTx. frame. Qed.

Lemma insertLegsFrom_any id i legs : evolves (fun _ _ => True) ledger_grows (insertLegsFrom id i legs : @B St _).
Proof. revert i. induction legs; intros i; simpl; unfold insertLeg; frame. Qed.

Lemma reserveWindowTx_any req sh q fp : evolves (fun _ _ => True) ledger_grows (reserveWindowTx req sh q fp : @B St _).
Proof.
  pose proof (fun o => any_core _ (orgBillingStateTx_core (St := St) o)).
  pose proof (fun o p t => any_core _ (ensureOpenBillingCycleTx_core (St := St) ledger_grows RTd o p t)).
  pose proof (fun o p => any_core _ (grantBalancesTx_core (St := St) ledger_grows RTd o p)).
  pose proof insertLegsFrom_any.
  unfold reserveWindowTx, loadPricingContextTx, queryAt, fundReservationTx, insertWindowLedgerLegsTx. frame.
Qed.

Lemma settleLegs_any id rev corr t st L : evolves (fun _ _ => True) ledger_grows (settleLegs id rev corr t st L : @B St _).
Proof.
  pose proof (fun t => any_core _ (unixMillis_core (St := St) ledger_grows RTd t)).
  revert st. induction L as [|[s l] L IH]; intros st; simpl; unfold settleLeg, existingOrNewLedgerID; frame.
Qed.

Lemma prepareSettlementTx_any p id a b w cb bu wu us t :
  evolves (fun _ _ => True) ledger_grows (prepareSettlementTx p id a b w cb bu wu us t : @B St _).
Proof.
  pose proof settleLegs_any. pose proof (any_core _ (operatorLedgerAccountsTx_core (St := St) ledger_grows RTd)).
  unfold prepareSettlementTx, lockWindowStateTx, settleWindowLedgerPayloadTx, createLedgerCommandTx. frame.
Qed.

Lemma quiet_loadWindow id (w : world St) : (loadWindow id w).2 = w.
Proof. unfold loadWindow, mbindM, query. simpl. by destruct (db_windows (w_db w) !! id). Qed.

Lemma loadWindow_Ret id (w w' : world St) p :
  loadWindow id w = (Ret p, w') ->
  w' = w /\ exists r, db_windows (w_db w) !! id = Some r /\ windowOfRow id r = Ret p.
Proof.
  intros H. pose proof (quiet_loadWindow id w) as Hq. rewrite H in Hq. simpl in Hq. subst. split; [done|].
  unfold loadWindow, mbindM, query in H. destruct (db_windows (w_db w) !! id) as [r|]; [|done].
  injection H as H. by exists r.
Qed.

(** A transaction that commits. *)
Lemma WithTx_run {A} (m : @B St A) (w w' : world St) a :
  WithTx m w = (Ret a, w') -> exists w1 w2, w_db w1 = w_db w /\ w_tb w1 = w_tb w /\ m w1 = (Ret a, w2)
    /\ w_db w' = w_db w2 /\ w_tb w' = w_tb w2.
Proof.
  unfold WithTx. simpl. match goal with |- context [m ?x] => destruct (m x) as [[b|e|] w2] eqn:E; intros H; simplify_eq;
    exists x, w2 end. done.
Qed.

Lemma loadWindow_steps id : evolves steps ledger_grows (loadWindow id : @B St _).
Proof. unfold loadWindow. frame. Qed.

#[local] Hint Resolve loadWindow_steps : frame.

Lemma windowOfRow_fields id r p :
  windowOfRow id r = Ret p ->
  pw_WindowID p = id /\ pw_State p = w_state r /\ pw_ReservedQuantity p = w_reserved_quantity r
  /\ is_u32 (w_reserved_quantity r) /\ pw_Allocation p = w_allocation r /\ pw_RateContext p = w_rate_context r
  /\ pw_ActivatedAt p = w_activated_at r /\ pw_SourceFingerprint p = w_source_fingerprint r
  /\ pw_ActualQuantity p = w_actual_quantity r /\ pw_BillableQuantity p = w_billable_quantity r
  /\ pw_WriteoffQuantity p = w_writeoff_quantity r /\ pw_BilledChargeUnits p = w_billed_charge_units r
  /\ pw_WriteoffChargeUnits p = w_writeoff_charge_units r /\ pw_FundingLegs p = w_funding_legs r.
Proof.
  unfold windowOfRow, checkedUint32FromInt64, checkedUint64FromInt64, is_u32. intros H. inv_ret. simpl.
  repeat match goal with Hc : (if ?b then _ else _) = Ret _ |- _ => destruct b eqn:?; [discriminate|]; injection Hc as <- end.
  zbool. repeat split; try done; lia.
Qed.

Lemma reserveWindowQuantity_u32 shape n q : is_u32 n -> reserveWindowQuantity shape n = Ret q -> is_u32 q.
Proof.
  unfold reserveWindowQuantity, is_u32, u32_max, defaultWindowMillis. intros Hn.
  repeat case_decide; repeat case_bool; intros E; inv_ret; try done; injection E as <-; lia.
Qed.

Lemma ReserveWindow_steps fuel req :
  is_u32 (rq_ReservedQuantity req) -> evolves steps ledger_grows (ReserveWindow fuel req : @B St _).
Proof.
  intros Hu. unfold ReserveWindow.
  pose proof (fun o p => lift_core _ (EnsureCurrentEntitlements_core (St := St) ledger_grows RTd fuel o p)) as HE'.
  destruct (_ || _); [frame|]. destruct (bool_decide _); [frame|]. apply evolves_bind; [apply _..|frame|]. intros shape.
  intros w. apply evolves_at_bind; [by apply evolves_at_of, evolves_lift; apply _|]. intros q w1 Hq.
  unfold mlift in Hq. injection Hq as Hq <-. apply reserveWindowQuantity_u32 in Hq; [|done].
  apply evolves_at_bind; [by apply evolves_at_of; unfold loadWindowBySource; frame|]. intros ex w2 _.
  destruct ex as [p|]; [apply evolves_at_of; frame|].
  apply evolves_at_bind; [by apply evolves_at_of|]. intros _ w3 _.
  apply evolves_at_bind; [|intros p w4 _; by apply evolves_at_of, evolves_ret; apply _].
  apply evolves_at_WithTx; [apply reserveWindowTx_any|]. intros p w4 w5 <- H. by eapply rtc_once, tx_reserve.
Qed.

Lemma WithTx_steps {A} (m : @B St A) :
  evolves (fun _ _ => True) ledger_grows m ->
  (forall a w w', m w = (Ret a, w') -> window_tx (w_db w) (w_db w')) -> evolves steps ledger_grows (WithTx m).
Proof. intros Hm Hd w. apply evolves_at_WithTx; [done|]. intros a w1 w2 <- H. by eapply rtc_once, Hd. Qed.

Lemma ActivateWindow_steps id t : evolves steps ledger_grows (ActivateWindow id t : @B St _).
Proof.
  pose proof (fun id p a e rn => WithTx_steps _ (activateWindowTx_any id p a e rn)
    (fun '(tt) w w' H => tx_activate id p a e rn w w' H)) as Htx.
  unfold ActivateWindow, loadReservation. frame.
Qed.

Lemma markWindowSettlementPosted_steps id : evolves steps ledger_grows (markWindowSettlementPosted id : @B St _).
Proof.
  pose proof (fun p id t => WithTx_steps _ (windowSettledTx_any p id t)
    (fun '(tt) w w' H => tx_settled p id t w w' H)) as Htx.
  unfold markWindowSettlementPosted. frame.
Qed.

Lemma VoidWindow_steps id : evolves steps ledger_grows (VoidWindow id : @B St _).
Proof.
  pose proof (fun p id t => WithTx_steps _ (voidWindowTx_any p id t)
    (fun '(tt) w w' H => tx_void p id t w w' H)) as Htx.
  unfold VoidWindow. frame.
Qed.

Lemma UpdateWindowProjectionError_steps id e : evolves steps (ledger_grows (St := St)) (statement (UpdateWindowProjectionError id e)).
Proof.
  apply evolves_statement; [apply _..|]. intros d [] d' H. by eapply rtc_once, tx_projection_error.
Qed.

Lemma MarkMeteringProjected_steps id t : evolves steps (ledger_grows (St := St)) (statement (MarkMeteringProjected id t)).
Proof. apply evolves_statement; [apply _..|]. intros d [] d' H. by eapply rtc_once, tx_projected. Qed.

#[local] Hint Resolve UpdateWindowProjectionError_steps MarkMeteringProjected_steps markWindowSettlementPosted_steps : frame.

Lemma ProjectMeteringWindow_steps id : evolves steps ledger_grows (ProjectMeteringWindow id : @B St _).
Proof. unfold ProjectMeteringWindow, projectMeteringTx, projectMeteringForWindow. frame. Qed.

#[local] Hint Resolve ProjectMeteringWindow_steps : frame.

Lemma ProjectPendingMeteringWindows_steps n : evolves steps ledger_grows (ProjectPendingMeteringWindows n : @B St _).
Proof.
  assert (forall ids k, evolves steps ledger_grows (projectAll ids k : @B St _)).
  { induction ids; intros k; simpl; frame. }
  unfold ProjectPendingMeteringWindows. frame.
Qed.

Lemma dispatchLedgerCommand_steps id : evolves steps ledger_grows (dispatchLedgerCommand id : @B St _).
Proof. by apply lift_core, dispatchLedgerCommand_core; try apply _. Qed.

#[local] Hint Resolve dispatchLedgerCommand_steps : frame.

Lemma SettleWindow_steps id actual usage :
  is_u32 actual -> evolves steps ledger_grows (SettleWindow id actual usage : @B St _).
Proof.
  intros Hu w. unfold SettleWindow. apply evolves_at_bind; [apply evolves_at_of; frame|]. intros p w1 Hl.
  apply loadWindow_Ret in Hl as (-> & r & Hr & Hp).
  apply windowOfRow_fields in Hp as (_ & _ & Eq & _ & Ea & Ep & _).
  destruct (pw_State p); try (apply evolves_at_of; by frame).
  all: destruct (_ && _); [apply evolves_at_of; by frame|].
  all: destruct (settleQuantities _ _) as [billable writeoff] eqn:Hq.
  all: apply evolves_at_bind; [by apply evolves_at_of, evolves_lift; apply _|]; intros billed w1 Hb;
    unfold mlift in Hb; injection Hb as Hb <-.
  all: apply evolves_at_bind; [by apply evolves_at_of, evolves_lift; apply _|]; intros absorbed w1 Hab;
    unfold mlift in Hab; injection Hab as Hab <-.
  all: apply evolves_at_bind; [by apply evolves_at_of, evolves_timeNow; apply _|]; intros t w1 Ht; injection Ht as <- <-.
  all: apply evolves_at_bind; [by apply evolves_at_of, evolves_lift; apply _|]; intros us w1 Hus;
    unfold mlift in Hus; apply (f_equal snd) in Hus; simpl in Hus; subst w1.
  all: apply evolves_at_bind;
    [|intros cid w1 _; apply evolves_at_of; unfold projectAfterSettle; by frame].
  all: apply evolves_at_WithTx; [apply prepareSettlementTx_any|]; intros cid w1 w2 Ew H; simpl in Ew |- *; rewrite <- Ew;
    eapply rtc_once, tx_prepare; [|exact H]; split; try done; intros r' Hr'; rewrite Ew, Hr in Hr'; by injection Hr' as <-.
Qed.

Lemma DispatchPendingLedgerCommands_steps n :
  evolves steps ledger_grows (DispatchPendingLedgerCommands n : @B St _).
Proof.
  pose proof (fun g => lift_core _ (markGrantLedgerPostingPosted_core (St := St) ledger_grows RTd g)) as Hg.
  assert (forall id, evolves steps ledger_grows (completePostedLedgerCommand id : @B St _)) as Hc.
  { intros id. unfold completePostedLedgerCommand, loadLedgerCommand. frame. }
  assert (forall cmds k, evolves steps ledger_grows (dispatchAll cmds k : @B St _)) as Ha.
  { induction cmds as [|[id st] cmds IH]; intros k; simpl; frame. }
  unfold DispatchPendingLedgerCommands. frame.
Qed.

Lemma InsertLedgerDriftEvent_core id row : evolves core_step ledger_grows (statement (InsertLedgerDriftEvent id row) : @B St _).
Proof.
  apply evolves_statement; [apply _..|]. intros d [] d' H. unfold InsertLedgerDriftEvent in H.
  destruct (db_drifts d !! id); injection H as <-; [done|by apply core_step_same].
Qed.

Lemma ReconcileLedger_steps order n : evolves steps ledger_grows (ReconcileLedger order n : @B St _).
Proof.
  pose proof InsertLedgerDriftEvent_core. pose proof (appendEvent_core (St := St) ledger_grows RTd).
  pose proof (operatorLedgerAccountsTx_core (St := St) ledger_grows RTd).
  pose proof (requireLedger_core (St := St) ledger_grows RTd).
  assert (forall k s a i pg tb, evolves core_step ledger_grows (recordLedgerDrift k s a i pg tb : @B St _)) as Hd.
  { intros. unfold recordLedgerDrift. frame. }
  assert (forall b u gs k, evolves core_step ledger_grows (reconcileGrants b u gs k : @B St _)) as Hg.
  { intros b u. induction gs as [|g gs IH]; intros k; simpl; unfold recordGrantDrift; frame. }
  apply lift_core. unfold ReconcileLedger, reconcileOperatorLedgerAccounts, reconcileGrantLedgerBalances, settledGrantUsage. frame.
Qed.
End System.
