(* ===== verification/Service.v ===== *)
(** * The service as a whole

    [handler] lists the operations of the billing client, [service_step] is
    one call of one of them, whatever its outcome.  A call changes windows,
    legs and commands only along the window life cycle of WindowInv.v,
    contracts and documents only along the steps of PeriodSystem.v, and the
    rest of [elsewhere] only by the writes of AdminFrames.v. *)

From stdpp Require Import relations.
From S2P Require Import Prelude GoFloat GoStd GoTime GoFormat Json Types Ids Ledger Charges Grants Store Events.
From S2P Require Import LedgerCommands LedgerGrants Cycles Entitlements ContractStore DocumentStore.
From S2P Require Import DueChanges.
From S2P Require Import WindowStore Windows Statements Finalizations Dispatcher Contracts Catalog EntitlementsView.
From S2P Require Import Clock.
From S2P Require Import StripeApi GoURL StripeStore Stripe ContractRequests Runtime Frames PeriodSystem ContractSystem.
From S2P Require Import AdminFrames.
From S2P Require Import Legs WindowInv PrepareTx ReserveTx WindowSystem.

Section Service.
Context {St : Type} `{HE : Env} `{HD : Digest} `{HC : TBCodec} `{!TigerBeetle St} `{HS : StripeAPI} `{HU : NetURL}.

(** The operations of windows.go, the dispatcher and the reconciliation. *)
Inductive window_handler : forall A : Type, @B St A -> Prop :=
| h_reserve fuel req : is_u32 (rq_ReservedQuantity req) -> window_handler WindowReservation (ReserveWindow fuel req)
| h_activate id t : window_handler WindowReservation (ActivateWindow id t)
| h_settle id actual usage : is_u32 actual -> window_handler SettleResult (SettleWindow id actual usage)
| h_void id : window_handler unit (VoidWindow id)
| h_metering id : window_handler bool (ProjectMeteringWindow id)
| h_metering_pending n : window_handler Z (ProjectPendingMeteringWindows n)
| h_dispatch n : window_handler Z (DispatchPendingLedgerCommands n)
| h_reconcile order n : window_handler Z (ReconcileLedger order n).

(** The operations that do not write windows. *)
Inductive account_handler : forall A : Type, @B St A -> Prop :=
| h_bootstrap : account_handler unit EnsureLedgerBootstrapped
| h_deposit g : account_handler GrantBalance (DepositCredits g)
| h_post_deposits o p : account_handler Z (PostPendingGrantDeposits o p)
| h_entitlements fuel o p : account_handler unit (EnsureCurrentEntitlements fuel o p)
| h_balances fuel o p : account_handler (list GrantBalance) (ListGrantBalances fuel o p)
| h_cycle fuel o p : account_handler billingCycle (EnsureOpenBillingCycle fuel o p)
| h_due fuel o p : account_handler DueWorkSummary (ApplyDueBillingWork fuel o p)
| h_due_pending fuel n : account_handler Z (ApplyPendingDueBillingWork fuel n)
| h_finalize id : account_handler bool (FinalizeBillingFinalization id)
| h_finalize_pending n : account_handler Z (FinalizePendingBillingFinalizations n)
| h_deliveries n : account_handler Z (ProjectPendingBillingEventDeliveries n)
| h_contract fuel o c : account_handler ContractRecord (GetContract fuel o c)
| h_contracts fuel o : account_handler (list ContractRecord) (ListContracts fuel o)
| h_cancel fuel o c : account_handler ContractRecord (CancelContract fuel o c)
| h_resume o r : account_handler bool (resumeCurrentPlan o r)
| h_downgrade fuel o r p : account_handler (string * time) (scheduleDowngrade fuel o r p)
| h_quote fuel o r c t : account_handler contractChangeQuote (prepareUpgradeQuote fuel o r c t)
| h_upgrade q : account_handler contractChangeQuote (insertPendingUpgrade q)
| h_paid q inv : account_handler unit (applyPaidUpgrade q inv)
| h_catalog_contract o p pl c ph t t' : account_handler unit (activateCatalogContract o p pl c ph t t')
| h_internal_contract o p pl c ph t t' : account_handler bool (activateInternalPromotionalContract o p pl c ph t t')
| h_org fuel o n t : account_handler OrgRecord (EnsureOrgRecord fuel o n t)
| h_trust o t : account_handler OrgRecord (SetOrganizationTrustTier o t)
| h_promotion o p pl n r : account_handler PlanPromotionRecord (ApplyPlanPromotion o p pl n r)
| h_promotion_cancel fuel o p r : account_handler PlanPromotionCancellationRecord (CancelPlanPromotion fuel o p r)
| h_preview fuel o p : account_handler Statement (PreviewStatement fuel o p).

(** The views, the clock, Stripe, the contract requests and the jobs. *)
Inductive admin_handler : forall A : Type, @B St A -> Prop :=
| h_storage fuel o p : admin_handler StorageEntitlement (GetStorageEntitlement fuel o p)
| h_view fuel o : admin_handler EntitlementsView (ListEntitlementsView fuel o)
| h_clock o p : admin_handler BusinessClockState (GetBusinessClock o p)
| h_clock_set fuel o p t r : admin_handler BusinessClockState (SetBusinessClock fuel o p t r)
| h_clock_advance fuel o p t r : admin_handler BusinessClockState (AdvanceBusinessClock fuel o p t r)
| h_clock_clear fuel o p r : admin_handler BusinessClockState (ClearBusinessClock fuel o p r)
| h_clock_reset fuel o p r : admin_handler BusinessClockState (ResetBusinessClockToWallClock fuel o p r)
| h_checkout o p c : admin_handler string (CreateCheckoutSession o p c)
| h_portal o u : admin_handler string (CreatePortalSession o u)
| h_webhook fuel p s k : admin_handler unit (HandleStripeWebhook fuel p s k)
| h_provider_event fuel id : admin_handler bool (ApplyProviderEvent fuel id)
| h_provider_events fuel n : admin_handler Z (ApplyPendingProviderEvents fuel n)
| h_create fuel o p c s u : admin_handler string (CreateContract fuel o p c s u)
| h_change fuel o c r : admin_handler ContractChangeResult (CreateContractChange fuel o c r)
| h_collect id : admin_handler bool (CollectContractUpgradePayment id)
| h_maintenance cadence : admin_handler unit (EnqueueMaintenance cadence).

Definition handler (A : Type) (m : @B St A) : Prop := window_handler A m \/ account_handler A m \/ admin_handler A m.

Definition service_step (d d' : DB) : Prop :=
  exists A (m : @B St A) w, handler A m /\ w_db w = d /\ w_db (m w).2 = d'.

Let RTd : forall p s, ledger_grows s (Dispatch ledger_configured p s).2 := Dispatch_grows (St := St) ledger_configured.

Lemma window_handler_steps A (m : @B St A) : window_handler A m -> evolves (rtc window_tx) ledger_grows m.
Proof.
  destruct 1; auto using ReserveWindow_steps, ActivateWindow_steps, SettleWindow_steps, VoidWindow_steps,
    ProjectMeteringWindow_steps, ProjectPendingMeteringWindows_steps, DispatchPendingLedgerCommands_steps, ReconcileLedger_steps.
Qed.

Section Accounts.
Context (RD : relation DB) `{!PreOrder RD} (RD_step : forall d d', account_step d d' -> RD d d').
Context (RD_write : forall d d', period_write d d' -> RD d d').
#[local] Abbreviation ok m := (evolves (St := St) RD ledger_grows m).

Lemma current_balances_evolves fuel o p : ok (ListGrantBalances fuel o p).
Proof using All.
  pose proof (EnsureCurrent_evolves (St := St) RD RD_step ledger_grows RTd RD_write fuel o p).
  pose proof (PostDeposits_evolves (St := St) RD RD_step ledger_grows RTd RD_write o).
  assert (ok requireLedger) by (by apply requireLedger_ok; try apply _).
  unfold ListGrantBalances, balancesOfRows, hydrateGrantLedgerBalances, grantAuthorizedUsage, rowsAt. frame.
Qed.

Lemma preview_evolves fuel o p : ok (PreviewStatement fuel o p).
Proof using All.
  pose proof (EnsureOpen_evolves (St := St) RD RD_step ledger_grows RTd RD_write fuel o p).
  pose proof (current_balances_evolves fuel o p).
  pose proof (loadWindows_evolves (St := St) RD ledger_grows
    (events_evolve (St := St) RD RD_step ledger_grows RTd RD_write) RD_write).
  unfold PreviewStatement, statementForCycle, statementWindows. frame.
Qed.

Lemma account_handler_evolves A (m : @B St A) : account_handler A m -> ok m.
Proof using All.
  destruct 1.
  all: first [ by apply EnsureLedgerBootstrapped_ok; try apply _ | by apply DepositCredits_ok; try apply _
             | apply current_balances_evolves | apply preview_evolves | idtac ].
  all: try (first [ apply PostDeposits_evolves | apply EnsureCurrent_evolves | apply EnsureOpen_evolves | apply ApplyDue_evolves
    | apply ApplyPending_evolves | apply finalize_evolves | apply ProjectDeliveries_evolves | apply GetContract_evolves
    | apply ListContracts_evolves | apply CancelContract_evolves | apply resumeCurrentPlan_evolves | apply scheduleDowngrade_evolves
    | apply prepareUpgradeQuote_evolves | apply insertPendingUpgrade_evolves | apply applyPaidUpgrade_evolves | apply activateCatalogContract_evolves
    | apply activatePromotion_evolves | apply EnsureOrgRecord_evolves | apply SetTrustTier_evolves | apply ApplyPlanPromotion_evolves
    | apply CancelPlanPromotion_evolves ];
    first [apply _ | done | exact RTd]).
  apply FinalizePendingBillingFinalizations_evolves; [apply _..| |done].
  apply (events_evolve (St := St) RD RD_step ledger_grows RTd RD_write).
Qed.
End Accounts.

Section Administration.
Context (RD : relation DB) `{!PreOrder RD} (RD_step : forall d d', account_step d d' -> RD d d').
Context (RD_write : forall d d', period_write d d' -> RD d d').
Context (RD_account : forall d d', account_write d d' -> RD d d').
Context (RD_admin : forall d d', admin_write d d' -> RD d d').

#[local] Abbreviation ok m := (evolves (St := St) RD ledger_grows m).

#[local] Ltac side := first [apply _ | assumption].

Lemma admin_handler_evolves A (m : @B St A) : admin_handler A m -> ok m.
Proof using All.
  destruct 1; first [ apply GetStorageEntitlement_evolves | apply ListEntitlementsView_evolves | apply GetBusinessClock_evolves
    | apply SetBusinessClock_evolves | apply AdvanceBusinessClock_evolves | apply ClearBusinessClock_evolves
    | apply ResetBusinessClock_evolves | apply CreateCheckoutSession_evolves | apply CreatePortalSession_evolves
    | apply HandleStripeWebhook_evolves | apply ApplyProviderEvent_evolves | apply ApplyPendingProviderEvents_evolves
    | apply CreateContract_evolves | apply CreateContractChange_evolves | apply CollectContractUpgradePayment_evolves
    | idtac ]; try side.
  unfold EnqueueMaintenance. pose proof (fun j => ac_job (St := St) RD RD_step RD_write RD_account RD_admin j). frame.
Qed.

End Administration.

(** Every handler, along any preorder that contains what is written of the
    tables of [elsewhere]. *)
Section Handlers.
Context (RD : relation DB) `{!PreOrder RD} (RD_same : forall d d', elsewhere d d' -> RD d d').
Context (RD_write : forall d d', period_write d d' -> RD d d').
Context (RD_account : forall d d', account_write d d' -> RD d d').
Context (RD_admin : forall d d', admin_write d d' -> RD d d').

#[local] Ltac side := first [apply _ | assumption].

Lemma window_handler_evolves A (m : @B St A) : window_handler A m -> evolves RD ledger_grows m.
Proof using All.
  destruct 1; [apply ReserveWindow_period | apply ActivateWindow_period | apply SettleWindow_period | apply VoidWindow_period
    | apply metering_period | apply ProjectMetering_period | apply DispatchPending_period | apply Reconcile_period]; side.
Qed.

Lemma handler_evolves A (m : @B St A) : handler A m -> evolves RD ledger_grows m.
Proof using All.
  pose proof (account_same RD RD_same RD_write) as RD_step.
  intros [H|[H|H]]; [by apply window_handler_evolves|by apply account_handler_evolves|by apply admin_handler_evolves].
Qed.
End Handlers.

(** The writes outside contracts and documents, as steps of the systems. *)
Lemma account_write_period d d' : account_write d d' -> rtc period_step d d'.
Proof. destruct 1; by apply rtc_once, period_step_other. Qed.

Lemma admin_write_period d d' : admin_write d d' -> rtc period_step d d'.
Proof.
  destruct 1 as [x|A f a d' Hf H|o p c s e ids d' H]; apply rtc_once, period_step_other; try done.
  1, 2: by destruct (event_stmt_only _ _ Hf _ _ _ H) as (x & ->).
  1, 2: by injection H as _ <-.
Qed.

Lemma account_write_window d d' : account_write d d' -> window_tx (St := St) d d'.
Proof. destruct 1; apply tx_core; by apply core_step_same. Qed.

Lemma admin_write_window d d' : admin_write d d' -> window_tx (St := St) d d'.
Proof.
  destruct 1 as [x|A f a d' Hf H|o p c s e ids d' H]; [by apply tx_core, core_step_same| |by eapply tx_reassign].
  destruct (event_stmt_only _ _ Hf _ _ _ H) as (x & ->). by apply tx_core, core_step_same.
Qed.

Lemma handler_period A (m : @B St A) : handler A m -> evolves (rtc period_step) ledger_grows m.
Proof.
  apply handler_evolves; [apply _|apply elsewhere_period|apply write_period|apply account_write_period|apply admin_write_period].
Qed.

Lemma handler_window A (m : @B St A) : handler A m -> evolves (rtc window_tx) ledger_grows m.
Proof.
  intros [H|[H|H]]; [by apply window_handler_steps|apply lift_core|].
  - apply account_handler_evolves; [apply _|by intros d d' [Hc _]|apply period_write_core|done].
  - apply admin_handler_evolves; [apply _|..|done]; intros d d' Hd; apply rtc_once.
    + apply tx_core, Hd.
    + by apply tx_core, period_write_core.
    + by apply account_write_window.
    + by apply admin_write_window.
Qed.

Lemma service_steps d d' : rtc service_step d d' -> rtc window_tx d d' /\ rtc period_step d d'.
Proof.
  induction 1 as [d|d d1 d2 (A & m & w & Hm & <- & <-) _ [IH1 IH2]]; [done|]. split.
  - etrans; [exact (proj1 (handler_window _ _ Hm w))|done].
  - etrans; [exact (proj1 (handler_period _ _ Hm w))|done].
Qed.

(** What every handler respects holds along every execution. *)
Lemma service_respects (RD : relation DB) `{!PreOrder RD} d d' :
  (forall A (m : @B St A), handler A m -> evolves RD ledger_grows m) -> rtc service_step d d' -> RD d d'.
Proof.
  intros HR. induction 1 as [d|d d1 d2 (A & m & w & Hm & <- & <-) _ IH]; [done|].
  etrans; [exact (proj1 (HR _ _ Hm w))|done].
Qed.
End Service.
