(* ===== verification/ContractRuns.v ===== *)
(** * Successful runs of the contract transactions

    What a transaction of contracts.go has done when it succeeds, step by
    step: the statements it ran, and the tables each of them left alone. *)

From stdpp Require Import relations.
From S2P Require Import Prelude GoFloat GoStd GoTime GoFormat Json Types Ids Ledger Charges Grants Store Events.
From S2P Require Import Cycles Entitlements ContractStore DocumentStore DueChanges Statements Finalizations Contracts.
From S2P Require Import Frames PeriodSystem ContractSystem Legs WindowInv PrepareTx.

(** Decompose the run of a transaction into the runs of its steps. *)
Ltac run_steps H := repeat (apply mbindM_Ret_inv in H as (? & ? & ? & H)).

Section Runs.
Context {St : Type} `{HE : Env} `{HD : Digest}.

Lemma statement_Ret {A} (f : DB -> res (A * DB)) (w w' : world St) a :
  statement f w = (Ret a, w') -> f (w_db w) = Ret (a, w_db w').
Proof. unfold statement. destruct (f (w_db w)) as [[b d]| |]; [|done|done]. by intros [= -> <-]. Qed.

Lemma query_Ret {A} (f : DB -> A) (w w' : world St) a : query f w = (Ret a, w') -> a = f (w_db w) /\ w' = w.
Proof. intros [= <- <-]. done. Qed.

Lemma mlift_Ret {A} (o : res A) (w w' : world St) a : mlift o w = (Ret a, w') -> o = Ret a /\ w' = w.
Proof. by intros [= -> <-]. Qed.

Lemma exec_row_Ret {A} (m : DB -> gmap string A) put id f d d' :
  exec_rows (update_row m put id (fun _ => true) f d) = Ret (tt, d') ->
  (m d !! id = None /\ d' = d) \/ exists row, m d !! id = Some row /\ put id (f row) d = Ret d'.
Proof.
  unfold exec_rows, update_row. destruct (m d !! id) as [row|]; intros H.
  - right. exists row. split; [done|]. destruct (put id (f row) d); simpl in H; by simplify_eq.
  - left. split; [done|]. simpl in H. by simplify_eq.
Qed.

Lemma queryAt_Ret {A} t (f : time -> DB -> option A) (w w' : world St) a :
  queryAt t f w = (Ret a, w') -> w' = w.
Proof. unfold queryAt. destruct (timestamptz t); by intros [= _ <-]. Qed.

Lemma listAt_Ret {A} t (f : time -> DB -> list A) (w w' : world St) a :
  is_zero t = false -> listAt t f w = (Ret a, w') -> a = f (pg_timestamptz t) (w_db w) /\ w' = w.
Proof. unfold listAt, timestamptz. intros ->. apply query_Ret. Qed.

(** The contract tables are what they were. *)
Definition same_contracts (w w' : world St) : Prop := db_contracts (w_db w') = db_contracts (w_db w).

Lemma append_same ev (w w' : world St) a : appendEvent ev w = (Ret a, w') -> same_contracts w w'.
Proof. intros H. apply appendEvent_only in H as [(e & v & j & E) _]. unfold same_contracts. by rewrite E. Qed.

Lemma same_contracts_trans (w1 w2 w3 : world St) : same_contracts w1 w2 -> same_contracts w2 w3 -> same_contracts w1 w3.
Proof. unfold same_contracts. congruence. Qed.

(** ** Closing phases *)

Definition closed_phase (e : time) (p : phaseRow) : phaseRow :=
  phase_with PhClosed (ph_payment_state p) "closed" (coalesce (ph_effective_end p) (Some e)) (ph_activated_at p) (Some e)
    (ph_superseded_by_phase_id p) p.

(** What closing the phases of a contract does to one of them. *)
Definition close_open (contract : string) (e : time) (p : phaseRow) : phaseRow :=
  if bool_decide (ph_contract_id p = contract) && phase_open p then closed_phase e p else p.

Lemma close_open_idem contract e p : close_open contract e (close_open contract e p) = close_open contract e p.
Proof.
  unfold close_open. destruct (bool_decide (ph_contract_id p = contract) && phase_open p) eqn:E; [|by rewrite E].
  change (phase_open (closed_phase e p)) with false. by rewrite andb_false_r.
Qed.

Lemma timestamptz_Some t : is_zero t = false -> timestamptz t = Some (pg_timestamptz t).
Proof. unfold timestamptz. by intros ->. Qed.

Lemma CloseContractPhase_Ret ph contract e d d' n :
  CloseContractPhase ph contract (Some e) d = Ret (n, d') ->
  db_contracts d' = mkContractTables (contracts_of d) (alter (close_open contract e) ph (phases_of d))
                      (kt_lines (db_contracts d)) (changes_of d).
Proof.
  unfold CloseContractPhase, update_row. intros H. destruct (phases_of d !! ph) as [p|] eqn:Ep.
  - assert (forall q, close_open contract e p = q -> alter (close_open contract e) ph (phases_of d) = <[ph := q]> (phases_of d)) as Ea.
    { intros q <-. apply map_eq. intros i. destruct (decide (i = ph)) as [->|Hi].
      - by rewrite lookup_alter_eq, lookup_insert_eq, Ep.
      - by rewrite lookup_alter_ne, lookup_insert_ne. }
    destruct (_ && _) eqn:Eo.
    + apply obind_Ret_inv in H as (d1 & H & Hr). injection Hr as _ <-. apply put_row_Ret in H as (_ & _ & _ & ->).
      rewrite (Ea (closed_phase e p)) by (unfold close_open; by rewrite Eo). reflexivity.
    + injection H as _ <-. rewrite (Ea p) by (unfold close_open; by rewrite Eo). rewrite insert_id by done. by destruct (db_contracts d) eqn:E; unfold contracts_of, phases_of, changes_of; rewrite E.
  - injection H as _ <-. rewrite alter_id by (intros q Hq; congruence).
    by destruct (db_contracts d) eqn:E; unfold contracts_of, phases_of, changes_of; rewrite E.
Qed.

Lemma closeContractPhaseTx_Ret org p cycle ch ph pl reason (w w' : world St) :
  is_zero (bc_EndsAt cycle) = false -> ph <> "" ->
  closeContractPhaseTx org p cycle ch ph pl reason w = (Ret tt, w') ->
  db_contracts (w_db w') =
    mkContractTables (contracts_of (w_db w))
      (alter (close_open (dc_ContractID ch) (pg_timestamptz (bc_EndsAt cycle))) ph (phases_of (w_db w)))
      (kt_lines (db_contracts (w_db w))) (changes_of (w_db w)).
Proof.
  intros Hz Hph H. unfold closeContractPhaseTx in H. rewrite decide_False in H by done.
  rewrite (timestamptz_Some _ Hz) in H. apply mbindM_Ret_inv in H as (n & w1 & Hs & H).
  apply statement_Ret, CloseContractPhase_Ret in Hs. rewrite <- Hs.
  destruct (n =? 0); [by injection H as <-|]. by apply append_same in H.
Qed.

(** The loop over the phases. *)
Lemma close_phases_Ret org p cycle ch reason (l : list (string * string)) (w w' : world St) :
  is_zero (bc_EndsAt cycle) = false -> Forall (fun x => x.1 <> "") l ->
  forEach (fun x => closeContractPhaseTx org p cycle ch x.1 x.2 reason) l w = (Ret tt, w') ->
  contracts_of (w_db w') = contracts_of (w_db w) /\ changes_of (w_db w') = changes_of (w_db w)
  /\ forall id, phases_of (w_db w') !! id =
       if decide (id ∈ l.*1) then close_open (dc_ContractID ch) (pg_timestamptz (bc_EndsAt cycle)) <$> phases_of (w_db w) !! id
       else phases_of (w_db w) !! id.
Proof.
  intros Hz. revert w. induction l as [|[ph pl] l IH]; intros w Hl H; simpl in H.
  - injection H as <-. split_and!; [done..|]. intros id. by rewrite decide_False by set_solver.
  - inversion Hl as [|? ? Hph Hl']; subst. apply mbindM_Ret_inv in H as ([] & w1 & H1 & H).
    apply closeContractPhaseTx_Ret in H1; [|done|done]. destruct (IH w1 Hl' H) as (E1 & E2 & E3).
    unfold contracts_of, changes_of, phases_of in *. rewrite E1, E2, H1. split_and!; [done..|].
    intros id. rewrite E3, H1. change (((ph, pl) :: l).*1) with (ph :: l.*1). cbn [kt_phases].
    destruct (decide (id = ph)) as [->|Hne].
    + rewrite lookup_alter_eq, (decide_True (P := ph ∈ ph :: l.*1)) by set_solver. case_decide; [|done].
      rewrite <- option_fmap_compose. apply option_fmap_ext. intros q. apply close_open_idem.
    + rewrite lookup_alter_ne by done. repeat case_decide; set_solver.
Qed.

(** ** Statements on a row *)

Lemma update_row_Ret {A} (m : DB -> gmap string A) put id where_ f d n d' row :
  update_row m put id where_ f d = Ret (n, d') -> m d !! id = Some row -> where_ row = true ->
  put id (f row) d = Ret d' /\ n = 1.
Proof.
  unfold update_row. intros H Hr Hw. rewrite Hr, Hw in H. apply obind_Ret_inv in H as (d1 & Hp & H). by injection H as <- <-.
Qed.

Lemma update_contract_Ret id org where_ f d d' c :
  update_contract id org where_ f d = Ret (tt, d') -> contracts_of d !! id = Some c -> ct_org_id c = org ->
  where_ (ct_state c) = true ->
  db_contracts d' = mkContractTables (<[id := f c]> (contracts_of d)) (phases_of d) (kt_lines (db_contracts d)) (changes_of d).
Proof.
  unfold update_contract, exec_rows. intros H Hc Ho Hw. apply obind_Ret_inv in H as ([n d1] & H & E). injection E as ->.
  destruct (update_row_Ret _ _ _ _ _ _ _ _ _ H Hc) as [Hp _]; [by rewrite bool_decide_true|].
  by apply put_row_Ret in Hp as (_ & _ & _ & ->).
Qed.

(** An update of one change row, matched or not. *)
Lemma update_change_Ret id where_ f d d' :
  exec_rows (update_row changes_of put_change id where_ f d) = Ret (tt, d') ->
  contracts_of d' = contracts_of d /\ phases_of d' = phases_of d
  /\ changes_of d' = alter (fun c => if where_ c then f c else c) id (changes_of d).
Proof.
  unfold exec_rows. intros H. apply obind_Ret_inv in H as ([n d1] & H & E). injection E as ->. unfold update_row in H.
  destruct (changes_of d !! id) as [c|] eqn:Ec; [|injection H as _ <-; by rewrite alter_id by (intros q Hq; congruence)].
  assert (alter (fun c => if where_ c then f c else c) id (changes_of d) = <[id := if where_ c then f c else c]> (changes_of d)) as ->.
  { apply map_eq. intros i. destruct (decide (i = id)) as [->|Hi].
    - by rewrite lookup_alter_eq, lookup_insert_eq, Ec.
    - by rewrite lookup_alter_ne, lookup_insert_ne. }
  destruct (where_ c); [|injection H as _ <-; by rewrite insert_id].
  apply obind_Ret_inv in H as (d2 & Hp & E). injection E as _ <-. by apply put_row_Ret in Hp as (_ & _ & _ & ->).
Qed.

Lemma update_phases_kept where_ f d d' :
  update_phases where_ f d = Ret (tt, d') -> contracts_of d' = contracts_of d /\ changes_of d' = changes_of d.
Proof.
  unfold update_phases. intros H. apply obind_Ret_inv in H as (d1 & H & E). injection E as ->.
  revert H. generalize (rows_where where_ (phases_of d)). intros l. revert d. induction l as [|i l IH]; intros d H; simpl in H; [by injection H as ->|].
  apply obind_Ret_inv in H as (nd & Hu & H). destruct (IH _ H) as [-> ->]. unfold update_row in Hu.
  destruct (phases_of d !! i); [|by injection Hu as <-]. apply obind_Ret_inv in Hu as (d1 & Hp & Hu). injection Hu as <-.
  by apply put_row_Ret in Hp as (_ & _ & _ & ->).
Qed.

Lemma change_by_key_None row d id c :
  change_by_key row d = None -> changes_of d !! id = Some c -> same_change_key row c = false.
Proof.
  unfold change_by_key. intros H Hc. destruct (same_change_key row c) eqn:E; [|done].
  destruct (filter _ _) eqn:Ef; [|done]. assert ((id, c) ∈ @nil (string * changeRow)) as Hin; [|by apply not_elem_of_nil in Hin].
  rewrite <- Ef. apply list_elem_of_filter. split; [done|by apply elem_of_map_to_list].
Qed.

(** ** Plans, phases and lines *)

Lemma planEntitlementPolicies_Ret plan (w w' : world St) ps : planEntitlementPolicies plan w = (Ret ps, w') -> w' = w.
Proof.
  unfold planEntitlementPolicies. intros H. apply mbindM_Ret_inv in H as (rows & w1 & Hq & H). apply query_Ret in Hq as [-> ->].
  by apply mlift_Ret in H as [_ ->].
Qed.

Lemma loadPlan_Ret plan (w w' : world St) pl : loadPlan plan w = (Ret pl, w') -> w' = w.
Proof.
  unfold loadPlan. intros H. apply mbindM_Ret_inv in H as (row & w1 & Hq & H). apply query_Ret in Hq as [-> ->].
  destruct (GetActivePlan plan (w_db w)); [by apply mlift_Ret in H as [_ ->]|done].
Qed.

Lemma phasePlanIDTx_Ret ph (w w' : world St) pl : phasePlanIDTx ph w = (Ret pl, w') -> w' = w.
Proof.
  unfold phasePlanIDTx. intros H. case_decide; [by injection H as _ <-|].
  apply mbindM_Ret_inv in H as (row & w1 & Hq & H). apply query_Ret in Hq as [-> ->]. by injection H as _ <-.
Qed.

(** The row a phase that is new gets. *)
Definition new_phase (row : phaseRow) (contract org product plan pay : string) (st : phaseState) (e : time) : Prop :=
  ph_contract_id row = contract /\ ph_org_id row = org /\ ph_product_id row = product /\ ph_plan_id row = plan
  /\ ph_payment_state row = pay /\ ph_state row = st /\ ph_effective_start row = e /\ ph_effective_end row = None
  /\ ph_entitlement_state row = "active" /\ ph_closed_at row = None.

Lemma insertContractPhaseTx_Ret org p contract ph plan st pay t (w w' : world St) :
  insertContractPhaseTx org p contract ph plan st pay t w = (Ret tt, w') -> is_zero t = false ->
  phases_of (w_db w) !! ph = None ->
  exists row, new_phase row contract (orgIDText org) p plan pay st (pg_timestamptz t)
    /\ db_contracts (w_db w') = mkContractTables (contracts_of (w_db w)) (<[ph := row]> (phases_of (w_db w)))
                                 (kt_lines (db_contracts (w_db w))) (changes_of (w_db w)).
Proof.
  intros H Hz Hn. unfold insertContractPhaseTx in H. rewrite (timestamptz_Some _ Hz) in H.
  apply mbindM_Ret_inv in H as (pl & w1 & Hq & H). apply loadPlan_Ret in Hq as ->.
  apply mbindM_Ret_inv in H as (c & w1 & Hq & H). apply mlift_Ret in Hq as [_ ->].
  apply mbindM_Ret_inv in H as (u & w1 & Hq & H). apply mlift_Ret in Hq as [_ ->].
  apply mbindM_Ret_inv in H as (r & w1 & Hq & H). apply mlift_Ret in Hq as [_ ->].
  apply statement_Ret in H. unfold UpsertContractPhase in H. simpl in H. unfold upsertPhase in H. rewrite Hn in H.
  apply obind_Ret_inv in H as (d1 & H & E). injection E as ->. apply put_row_Ret in H as (_ & _ & _ & ->).
  eexists. split; [|reflexivity]. by unfold new_phase.
Qed.

Lemma UpsertLine_Ret id row d d' :
  UpsertContractEntitlementLine id row d = Ret (tt, d') ->
  contracts_of d' = contracts_of d /\ phases_of d' = phases_of d /\ changes_of d' = changes_of d.
Proof.
  unfold UpsertContractEntitlementLine. intros H. apply obind_Ret_inv in H as (d1 & H & E). injection E as ->.
  by apply put_row_Ret in H as (_ & _ & _ & ->).
Qed.

Lemma copyLines_Ret org p contract ph ps t (w w' : world St) :
  copyPlanEntitlementLinesTx org p contract ph ps t w = (Ret tt, w') ->
  contracts_of (w_db w') = contracts_of (w_db w) /\ phases_of (w_db w') = phases_of (w_db w)
  /\ changes_of (w_db w') = changes_of (w_db w).
Proof.
  unfold copyPlanEntitlementLinesTx. revert w. induction ps as [|pp ps IH]; intros w H; simpl in H; [by injection H as ->|].
  apply mbindM_Ret_inv in H as ([] & w1 & H1 & H). destruct (IH _ H) as (-> & -> & ->). unfold copyPlanEntitlementLine in H1.
  apply mbindM_Ret_inv in H1 as (a & w2 & Hq & H1). apply mlift_Ret in Hq as [_ ->].
  apply mbindM_Ret_inv in H1 as (b & w2 & Hq & H1). apply mlift_Ret in Hq as [_ ->]. by apply statement_Ret, UpsertLine_Ret in H1.
Qed.

(** ** Upgrades *)

Definition superseded_phase (e : time) (by_ : string) (p : phaseRow) : phaseRow :=
  let before := ph_effective_start p <? e in
  phase_with PhSuperseded (ph_payment_state p) (if before then "closed" else "voided") (if before then Some e else None)
    (ph_activated_at p) (Some e) by_ p.

Lemma supersede_Ret q (w w' : world St) b p :
  supersedeContractPhaseForUpgradeTx q w = (Ret b, w') -> is_zero (qt_EffectiveAt q) = false ->
  phases_of (w_db w) !! qt_FromPhaseID q = Some p -> ph_contract_id p = qt_ContractID q -> phase_current p = true ->
  db_contracts (w_db w') = mkContractTables (contracts_of (w_db w))
    (<[qt_FromPhaseID q := superseded_phase (pg_timestamptz (qt_EffectiveAt q)) (ph_superseded_by_phase_id p) p]> (phases_of (w_db w)))
    (kt_lines (db_contracts (w_db w))) (changes_of (w_db w)).
Proof.
  intros H Hz Hp Hc Ho. unfold supersedeContractPhaseForUpgradeTx in H. rewrite (timestamptz_Some _ Hz) in H.
  apply mbindM_Ret_inv in H as (r & w1 & H1 & H). assert (w' = w1) as ->.
  { destruct r as [[start ent]|]; [|by injection H as _ <-]. destruct (_ && _); [done|by injection H as _ <-]. }
  apply statement_Ret in H1. unfold SupersedeContractPhaseForUpgrade in H1. rewrite Hp in H1.
  rewrite bool_decide_true, Ho in H1 by done. simpl in H1. apply obind_Ret_inv in H1 as (d1 & H1 & E). injection E as _ <-.
  by apply put_row_Ret in H1 as (_ & _ & _ & ->).
Qed.

Lemma link_superseded_Ret ph id by_ d d' p :
  LinkSupersededContractPhase ph id by_ d = Ret (tt, d') -> phases_of d !! ph = Some p -> ph_contract_id p = id ->
  ph_state p = PhSuperseded ->
  db_contracts d' = mkContractTables (contracts_of d)
    (<[ph := phase_with PhSuperseded (ph_payment_state p) (ph_entitlement_state p) (ph_effective_end p) (ph_activated_at p)
               (ph_closed_at p) by_ p]> (phases_of d)) (kt_lines (db_contracts d)) (changes_of d).
Proof.
  unfold LinkSupersededContractPhase, exec_rows. intros H Hp Hc Hs. apply obind_Ret_inv in H as ([n d1] & H & E). injection E as ->.
  destruct (update_row_Ret _ _ _ _ _ _ _ _ _ H Hp) as [Hput _]; [by rewrite !bool_decide_true|].
  apply put_row_Ret in Hput as (_ & _ & _ & ->). by rewrite Hs.
Qed.

Lemma InsertPeriod_same id row d d' : InsertEntitlementPeriod id row d = Ret (tt, d') -> db_contracts d' = db_contracts d.
Proof.
  unfold InsertEntitlementPeriod, check_constraint. intros H. destruct (existsb _ _); [by injection H as <-|].
  destruct (db_periods d !! id); [done|]. apply obind_Ret_inv in H as (x & _ & H). by injection H as <-.
Qed.

Lemma InsertGrant_same id row d d' n : InsertCreditGrant id row d = Ret (n, d') -> db_contracts d' = db_contracts d.
Proof.
  unfold InsertCreditGrant, check_constraint. intros H. destruct (existsb _ _); [by injection H as _ <-|].
  destruct (db_grants d !! id); [done|]. apply obind_Ret_inv in H as (x & _ & H). by injection H as _ <-.
Qed.

Lemma delta_grant_same q delta (w w' : world St) a : insertUpgradeDeltaGrantTx q delta w = (Ret a, w') -> same_contracts w w'.
Proof.
  intros H. unfold insertUpgradeDeltaGrantTx in H. destruct (de_Amount delta =? 0); [by injection H as _ <-|].
  apply mbindM_Ret_inv in H as (x & w1 & Hx & H). injection Hx as _ Hx.
  apply mbindM_Ret_inv in H as (y & w2 & Hy & H). injection Hy as _ Hy. cbv zeta in H.
  apply mbindM_Ret_inv in H as (amount & w3 & Hq & H). apply mlift_Ret in Hq as [_ ->].
  apply mbindM_Ret_inv in H as (start & w3 & Hq & H). apply mlift_Ret in Hq as [_ ->].
  apply mbindM_Ret_inv in H as (end_ & w3 & Hq & H). apply mlift_Ret in Hq as [_ ->].
  apply mbindM_Ret_inv in H as ([] & w4 & H4 & H). apply statement_Ret, InsertPeriod_same in H4.
  apply mbindM_Ret_inv in H as (n & w5 & H5 & H). apply statement_Ret, InsertGrant_same in H5.
  apply append_same in H. unfold same_contracts in *. by rewrite H, H5, H4, <- Hy, <- Hx.
Qed.

Lemma delta_grants_same q l (w w' : world St) a : forEach (insertUpgradeDeltaGrantTx q) l w = (Ret a, w') -> same_contracts w w'.
Proof.
  revert w. induction l as [|x l IH]; intros w H; simpl in H; [by injection H as _ <-|].
  apply mbindM_Ret_inv in H as (b & w1 & H1 & H). apply delta_grant_same in H1. apply IH in H. by eapply same_contracts_trans.
Qed.

Lemma document_paid_same id inv t d d' : MarkUpgradeDocumentPaid id inv t d = Ret (tt, d') -> db_contracts d' = db_contracts d.
Proof.
  intros H. assert (writes documents_only (MarkUpgradeDocumentPaid id inv t)) as Hw by by_definition.
  by destruct (Hw _ _ _ H) as (dt & cy & ->).
Qed.

Lemma finalization_paid_same id doc t d d' : MarkUpgradeFinalizationPaid id doc t d = Ret (tt, d') -> db_contracts d' = db_contracts d.
Proof.
  intros H. assert (writes documents_only (MarkUpgradeFinalizationPaid id doc t)) as Hw by by_definition.
  by destruct (Hw _ _ _ H) as (dt & cy & ->).
Qed.
End Runs.
