(* ===== verification/Settlement.v ===== *)
(** * Settlement end to end

    SettleWindow prepares the settlement, dispatches its command to the
    ledger, and closes the window.  When it succeeds on an open window, the
    window is settled and every grant leg it posted is a stored transfer of
    the ledger. *)

From stdpp Require Import relations.
From S2P Require Import Prelude GoFloat GoStd GoTime GoFormat Json Types Ids Ledger Charges Grants Store Events.
From S2P Require Import LedgerCommands LedgerGrants Cycles Entitlements WindowStore Windows Dispatcher Frames Legs.
From S2P Require Import WindowInv PrepareTx ReserveTx WindowSystem.

Section Settlement.
Context {St : Type} `{HE : Env} `{HD : Digest} `{HC : TBCodec} `{!TigerBeetle St} `{!PeriodWork St}.

(** ** Dispatching a pending command *)

Lemma leaseLedgerCommand_Ret cid c (w w' : world St) out :
  leaseLedgerCommand cid w = (Ret out, w') -> db_commands (w_db w) !! cid = Some c -> c_state c = CPending ->
  w_tb w' = w_tb w /\ exists command, out = Some command /\ lc_Payload command = c_payload c /\ lc_CommandID command = cid.
Proof.
  intros H Hc Hst. unfold leaseLedgerCommand in H. apply mbindM_Ret_inv in H as (row & w1 & Ht & H).
  unfold WithTx in Ht. simpl in Ht. unfold mbindM at 1, NewID at 1 in Ht. unfold mbindM, pgNow in Ht. simpl in Ht.
  unfold statement, LeaseLedgerCommand in Ht. simpl in Ht. rewrite Hc in Ht. unfold leasable in Ht. rewrite Hst in Ht.
  unfold check_constraint in Ht. destruct (c_attempts c + 1 <=? i32_max); simpl in Ht; [|done]. injection Ht as <- <-.
  apply mbindM_Ret_inv in H as (command & w2 & Hcmd & H). unfold mlift in Hcmd. injection Hcmd as Hcmd <-.
  injection H as <- <-. split; [done|]. exists command. split; [done|].
  unfold ledgerCommandFromStore in Hcmd. apply obind_Ret_inv in Hcmd as (org & _ & Hcmd). by injection Hcmd as <-.
Qed.

Lemma dispatchLedgerCommand_Ret cid c (w w' : world St) :
  dispatchLedgerCommand cid w = (Ret tt, w') -> db_commands (w_db w) !! cid = Some c -> c_state c = CPending ->
  exists s1, Dispatch ledger_configured (c_payload c) (w_tb w) = (Ret tt, s1) /\ ledger_grows s1 (w_tb w').
Proof.
  intros H Hc Hst. unfold dispatchLedgerCommand in H. apply mbindM_Ret_inv in H as ([] & w1 & Hreq & H).
  assert (w1 = w) as -> by (unfold requireLedger, mret in Hreq; destruct ledger_configured; by simplify_eq).
  apply mbindM_Ret_inv in H as (out & w1 & Hl & H).
  eapply leaseLedgerCommand_Ret in Hl as (Et & command & -> & Ep & _); [|done..].
  apply mbindM_Ret_inv in H as ([] & w2 & Hd & H). unfold onError, ledgerDispatch, on_ledger in Hd.
  rewrite Et, Ep in Hd. destruct (Dispatch ledger_configured (c_payload c) (w_tb w)) as [[[]|e|] s1] eqn:E; simpl in Hd.
  - injection Hd as <-. exists s1. split; [done|].
    eapply (evolves_run core_step ledger_grows) in H as [_ Hg]; [exact Hg|].
    pose proof (MarkLedgerCommandPosted_core (St := St) ledger_grows (Dispatch_grows _)).
    pose proof (appendEvent_core (St := St) ledger_grows (Dispatch_grows _)).
    unfold markLedgerCommandPosted. frame.
  - apply mbindM_Ret_inv in Hd as (? & ? & ? & Hd). done.
  - done.
Qed.

(** ** Stored transfers *)

Lemma payloadTransfer_flags t tr : payloadTransfer t = Ret tr -> tr_Flags tr = tp_Flags t /\ tr_Code tr = tp_Code t.
Proof.
  unfold payloadTransfer. intros Hp. inv_ret. cbv zeta in Hp. repeat (destruct (_ : bool) in Hp; [discriminate|]).
  by injection Hp as <-.
Qed.

(** A posted leg is a transfer of the ledger: from the grant's account, for
    exactly the posted amount. *)
Definition spent (s : St) (l : legRow) : Prop :=
  exists sid tr, l_settlement_transfer_id l = Some sid /\ tb_transfer s sid = Some tr
    /\ tr_DebitAccountID tr = default zeroID (l_grant_account_id l) /\ tr_Amount tr = l_amount_posted l
    /\ tr_Code tr = TransferCodeUsageSpend.

Lemma spent_grows s s' l : ledger_grows s s' -> spent s l -> spent s' l.
Proof. intros Hg (sid & tr & H1 & H2 & H3). exists sid, tr. split; [done|]. split; [by apply Hg|done]. Qed.

Lemma dispatch_payloads payload (s s' : St) :
  Dispatch ledger_configured payload s = (Ret tt, s') -> exists ts, payloadTransfers (cp_Transfers payload) = Ret ts.
Proof.
  intros (_ & _ & _ & s1 & _ & Ht)%Dispatch_inv. unfold dispatch_transfers in Ht.
  destruct (cp_Transfers payload) as [|t l]; [by exists []|].
  apply mbindM_Ret_inv in Ht as (ts & s2 & H & _). unfold mlift in H. injection H as H _. by exists ts.
Qed.

Context `{HF : !FreshIds}.

Lemma generated_wf id : generated id -> wf_id id.
Proof. intros [n ->]. apply id_at_wf. Qed.

Lemma wf_default_account l :
  (forall a, l_grant_account_id l = Some a -> wf_id a) -> wf_id (default zeroID (l_grant_account_id l)).
Proof. intros Hl. destruct (l_grant_account_id l); simpl; [by apply Hl|apply zeroID_wf]. Qed.

(** Dispatching the command of a settlement stores every spending leg. *)
Lemma dispatch_spent r L payload (s s' : St) :
  payload_ok r L payload -> Forall (fun e => leg_split e.2) L ->
  Dispatch ledger_configured payload s = (Ret tt, s') ->
  Forall (spent s') (filter is_spend L.*2).
Proof.
  intros (revenue & T & -> & HT) HL Hd. destruct (dispatch_payloads _ _ _ Hd) as [ts Hts]. simpl in Hts.
  pose proof (outcome_map_Forall2 _ _ _ Hts) as H2.
  assert (Forall direct_transfer ts /\ forall i t tr, T !! i = Some t -> ts !! i = Some tr ->
    payloadTransfer (link_one (length T) i t) = Ret tr) as [Hdir Hi].
  { assert (forall i t tr, T !! i = Some t -> ts !! i = Some tr -> payloadTransfer (link_one (length T) i t) = Ret tr) as Hi.
    { intros i t tr Ht Htr. destruct (Forall2_lookup_r _ _ _ _ _ H2 Htr) as (t' & Ht' & Hp).
      apply LinkTransfers_lookup in Ht' as (t0 & Ht0 & ->). rewrite Ht in Ht0. by injection Ht0 as <-. }
    split; [|done]. apply Forall_lookup. intros i tr Htr.
    destruct (Forall2_lookup_r _ _ _ _ _ H2 Htr) as (t' & Ht' & Hp). apply LinkTransfers_lookup in Ht' as (t & Ht & ->).
    destruct (payloadTransfer_flags _ _ Hp) as [Ef _]. unfold direct_transfer. rewrite Ef.
    destruct (link_one_flags (length T) i t) as (_ & _ & -> & ->).
    destruct (Forall2_lookup_r _ _ _ _ _ HT Ht) as (l & _ & sid & ms & _ & ->). simpl.
    by destruct flags_zero as (_ & _ & ? & ?). }
  pose proof (Dispatch_stored _ _ _ _ ts Hd Hts Hdir) as Hst.
  apply Forall_lookup. intros i l Hl.
  destruct (Forall2_lookup_l _ _ _ _ _ HT Hl) as (t & Ht & sid & ms & Hsid & Et).
  assert (length ts = length T) as Hlen by (by rewrite <- (Forall2_length _ _ _ H2), LinkTransfers_length).
  destruct (ts !! i) as [tr|] eqn:Htr; [|apply lookup_ge_None in Htr; apply lookup_lt_Some in Ht; lia].
  pose proof (Hi i t tr Ht Htr) as Hp. destruct (payloadTransfer_flags _ _ Hp) as [_ Ec].
  apply payloadTransfer_Ret in Hp as (P1 & P2 & P3 & P4 & _). rewrite Et in P1, P2, P4, Ec. simpl in *.
  assert (l ∈ L.*2 /\ is_spend l) as [Hin Hsp].
  { apply list_elem_of_lookup_2 in Hl. by apply list_elem_of_filter in Hl as [? ?]. }
  apply list_elem_of_fmap in Hin as (e & -> & He). rewrite Forall_forall in HL.
  destruct (HL e He) as (_ & _ & _ & Hgen & Hacc). destruct (Hgen Hsp) as (sid' & E & Hg). rewrite Hsid in E. injection E as <-.
  rewrite ParseID_IDString in P1 by by apply generated_wf. rewrite ParseID_IDString in P2 by by apply wf_default_account.
  injection P1 as P1. injection P2 as P2. exists sid, tr. split; [done|]. split; [|by rewrite Ec].
  rewrite P1. apply Hst. by eapply list_elem_of_lookup_2.
Qed.
(** ** Closing *)

(** The window and its legs right after a successful close. *)
Lemma markWindowSettlementPosted_Ret id r (w w' : world St) :
  markWindowSettlementPosted id w = (Ret tt, w') -> db_windows (w_db w) !! id = Some r -> w_state r = WSettling ->
  exists r', db_windows (w_db w') !! id = Some r' /\ w_state r' = WSettled /\ row_le r r'
    /\ legs_of_window id (w_db w') = (fun e => (e.1, update_leg close_leg e.2)) <$> legs_of_window id (w_db w)
    /\ ledger_grows (w_tb w) (w_tb w').
Proof.
  intros H Hr Hst.
  pose proof (markWindowSettlementPosted_steps (St := St) id w) as [_ Hg]. rewrite H in Hg.
  unfold markWindowSettlementPosted in H. apply mbindM_Ret_inv in H as (p & w1 & Hl & H).
  apply loadWindow_Ret in Hl as (-> & r0 & Hr0 & Hp). rewrite Hr in Hr0. injection Hr0 as <-.
  apply windowOfRow_fields in Hp as (_ & Est & _). rewrite Est, Hst in H.
  apply mbindM_Ret_inv in H as (t & w1 & Ht & H).
  assert (w_db w1 = w_db w) as E1 by (destruct (pw_SettledAt p); by injection Ht as _ <-).
  unfold WithTx in H. simpl in H. destruct (windowSettledTx p id t _) as [[[]|e|] w2] eqn:E; [|done|done].
  apply (f_equal snd) in H. simpl in H. subst w'. simpl. apply windowSettledTx_Ret in E. simpl in E. rewrite E1 in E.
  destruct E as [[_ Hno]|(r1 & d1 & Hr1 & _ & -> & ev & de & jo & Hd)]; [by destruct (Hno r Hr)|].
  rewrite Hr in Hr1. injection Hr1 as <-. rewrite Hd.
  eexists. split; [simpl; apply lookup_insert_eq|]. split; [done|].
  split; [apply with_state_le, rtc_once; rewrite Hst; constructor|]. split; [|done].
  exact (update_pending_legs_of id close_leg (w_db w)).
Qed.

(** The projection at the end touches no leg. *)
Definition same_legs (d d' : DB) : Prop := db_legs d' = db_legs d.

#[local] Instance same_legs_preorder : PreOrder same_legs.
Proof. split; [done|]. intros d1 d2 d3. unfold same_legs. congruence. Qed.

Lemma projectAfterSettle_legs id : evolves same_legs ledger_grows (projectAfterSettle id : @B St _).
Proof.
  assert (forall i e, evolves same_legs (ledger_grows (St := St)) (statement (UpdateWindowProjectionError i e))).
  { intros i e. apply evolves_statement; [apply _..|]. by intros d [] d' [= <-]. }
  assert (forall i t, evolves same_legs (ledger_grows (St := St)) (statement (MarkMeteringProjected i t))).
  { intros i e. apply evolves_statement; [apply _..|]. by intros d [] d' [= <-]. }
  unfold projectAfterSettle, ProjectMeteringWindow, projectMeteringTx, projectMeteringForWindow, loadWindow. frame.
Qed.

(** Closed legs stay as they are. *)
Lemma history_closed_leg d d' k l :
  history d d' -> db_legs d !! k = Some l -> l_state l <> LPending -> db_legs d' !! k = Some l.
Proof. intros [_ HL] Hl Hs. destruct (HL k l Hl) as (l' & Hl' & _ & Hc). by rewrite (Hc Hs) in Hl'. Qed.

(** ** SettleWindow *)

Lemma prepared_view d id r cid d' L' r' cmd actual :
  prepared d id r cid d' L' r' cmd actual -> db_windows d' !! id = Some r' /\ legs_of_window id d' = L'.
Proof.
  intros [_ _ _ P3 _ _ _ _ _ (ev & de & jo & ->)]. split.
  - destruct cmd as [[]|]; simpl; apply lookup_insert_eq.
  - exact (prepared_legs d id L' r' cmd P3).
Qed.

Lemma prepared_pending d id r cid d' L' r' cmd actual :
  prepared d id r cid d' L' r' cmd actual -> Forall (fun e => l_state e.2 = LPending) L'.
Proof. intros [_ P1 _ _ _ (_ & _ & P5) _ _ _ _]. rewrite P1 in P5. by destruct P5. Qed.

(** The dispatch after the transaction stores what the legs spend. *)
Lemma settle_dispatched d id r cid L' r' cmd actual (w w' : world St) :
  prepared d id r cid (w_db w) L' r' cmd actual ->
  (if decide (cid = "") then mret tt else dispatchLedgerCommand cid) w = (Ret tt, w') ->
  core_step (w_db w) (w_db w') /\ ledger_grows (w_tb w) (w_tb w') /\ Forall (spent (w_tb w')) (filter is_spend L'.*2).
Proof.
  intros [_ P1 P2 P3 P4 (_ & _ & P5) P6 P7 P8 (ev & de & jo & P9)] H. rewrite P1 in P5.
  destruct P5 as [(Hsplit & _) _]. destruct cmd as [[c row]|]; simpl in *.
  - destruct (P8 c row eq_refl) as (Hst & _ & Hne). subst cid. rewrite decide_False in H by done.
    pose proof (evolves_run _ _ _ _ _ _ (dispatchLedgerCommand_core (St := St) ledger_grows (Dispatch_grows _) c) H) as [C G].
    split; [done|]. split; [done|]. destruct P6 as (_ & _ & Hpay).
    assert (db_commands (w_db w) !! c = Some row) as Hc by (rewrite P9; simpl; apply lookup_insert_eq).
    eapply dispatchLedgerCommand_Ret in H as (s1 & Hd & Hg); [|done..].
    eapply Forall_impl; [by eapply dispatch_spent|]. intros l. by apply spent_grows.
  - subst cid. rewrite decide_True in H by done. apply (f_equal snd) in H. simpl in H. subst w'.
    split; [done|]. split; [done|]. rewrite P6. constructor.
Qed.

Lemma SettleWindow_Ret id actual usage r (w w' : world St) res :
  SettleWindow id actual usage w = (Ret res, w') -> is_u32 actual -> Inv (w_db w) ->
  db_windows (w_db w) !! id = Some r -> in_reserved_or_active (w_state r) = true ->
  exists w1 r1, Inv (w_db w1) /\ db_windows (w_db w1) !! id = Some r1 /\ w_state r1 = WSettled /\ row_le r r1
    /\ w_actual_quantity r1 = actual
    /\ Forall (spent (w_tb w1)) (filter is_spend (legs_of_window id (w_db w1)).*2)
    /\ (exists p, windowOfRow id r1 = Ret p /\ res = settleResult p)
    /\ rtc (window_tx (St := St)) (w_db w1) (w_db w') /\ ledger_grows (w_tb w1) (w_tb w')
    /\ db_legs (w_db w') = db_legs (w_db w1).
Proof.
  intros H Hu HI Hr Hs. unfold SettleWindow in H. apply mbindM_Ret_inv in H as (p & w0 & Hl & H).
  apply loadWindow_Ret in Hl as (-> & r0 & Hr0 & Hp). rewrite Hr in Hr0. injection Hr0 as <-.
  apply windowOfRow_fields in Hp as (_ & Est & Eq & _ & Ea & Epr & _). rewrite Est in H.
  assert (exists billable writeoff, settleQuantities (pw_ReservedQuantity p) actual = (billable, writeoff)) as (b & wo & Hq)
    by (destruct (settleQuantities _ _); eauto).
  rewrite Hq in H.
  assert (exists billed absorbed t us w1 cid w2,
    settle_call (w_db w) p id actual b wo billed absorbed /\ w_db w1 = w_db w /\ w_tb w1 = w_tb w
    /\ WithTx (prepareSettlementTx p id actual b wo (components billed) (sumUint64Map (components billed))
        (sumUint64Map (components absorbed)) us t) w1 = (Ret cid, w2)
    /\ (exec! (if decide (cid = "") then mret tt else dispatchLedgerCommand cid);
        exec! markWindowSettlementPosted id;
        do! settled <- loadWindow id;
        exec! projectAfterSettle (pw_WindowID settled);
        mret (settleResult settled)) w2 = (Ret res, w')) as (billed & absorbed & t & us & w1 & cid & w2 & Hcall & Ed1 & Et1 & Htx & Hrest).
  { destruct (w_state r) eqn:E; try discriminate; destruct (_ && _) in H; try discriminate.
    all: apply mbindM_Ret_inv in H as (billed & wa & Hb & H); unfold mlift in Hb; injection Hb as Hb <-.
    all: apply mbindM_Ret_inv in H as (absorbed & wa & Hab & H); unfold mlift in Hab; injection Hab as Hab <-.
    all: apply mbindM_Ret_inv in H as (t & wa & Ht & H); injection Ht as <- <-.
    all: apply mbindM_Ret_inv in H as (us & wa & Hus & H); unfold mlift in Hus; apply (f_equal snd) in Hus; simpl in Hus; subst wa.
    all: apply mbindM_Ret_inv in H as (cid & w2 & Htx & H).
    all: eexists billed, absorbed, _, us, _, cid, w2; split; [|split; [|split; [|split; [exact Htx|exact H]]]]; try done.
    all: split; try done; intros r' Hr'; rewrite Hr in Hr'; by injection Hr' as <-. }
  clear H. unfold WithTx in Htx. simpl in Htx.
  destruct (prepareSettlementTx _ _ _ _ _ _ _ _ _ _ _) as [[cid'|e|] w3] eqn:Hprep; [|done|done].
  injection Htx as -> <-.
  apply (prepareSettlementTx_Ret _ _ _ _ _ _ _ _ _ _ _ _ r) in Hprep; simpl in *; rewrite ?Ed1 in *; [|done..].
  destruct Hprep as (Et3 & L' & r' & cmd & HP). simpl in Et3.
  assert (good_step (w_db w) (w_db w3)) as [GI _].
  { destruct HP as [P0 P1 P2 P3 P4 P5 P6 P7 P8 P9].
    etrans; [eapply (prepared_good (w_db w) id L' r r' cmd); eauto; by left|by apply core_good, events_core]. }
  pose proof (GI HI) as HI3.
  apply mbindM_Ret_inv in Hrest as ([] & w4 & Hdisp & Hrest).
  destruct (settle_dispatched _ _ _ _ _ _ _ _ (with_txnow None w3) w4 HP Hdisp) as (D1 & D2 & D3). simpl in *.
  pose proof (core_step_Inv _ _ D1 HI3) as HI4. destruct D1 as ([Ew El] & _).
  assert (db_windows (w_db w4) !! id = Some r' /\ legs_of_window id (w_db w4) = L') as [Hr4 HL4].
  { destruct (prepared_view _ _ _ _ _ _ _ _ _ HP) as [E1 E2]. rewrite Ew. split; [done|].
    rewrite <- E2. apply legs_of_window_same. intros s. by rewrite El. }
  apply mbindM_Ret_inv in Hrest as ([] & w5 & Hmark & Hrest).
  pose proof (markWindowSettlementPosted_steps (St := St) id w4) as [S5 _]. rewrite Hmark in S5. simpl in S5.
  destruct (reachable_good _ _ S5) as [GI5 _].
  eapply markWindowSettlementPosted_Ret in Hmark as (r5 & Hr5 & Hst5 & Hle5 & HL5 & Hg5); [|exact Hr4|by apply HP].
  apply mbindM_Ret_inv in Hrest as (p5 & w6 & Hl & Hrest).
  apply loadWindow_Ret in Hl as (-> & r5' & Hr5' & Hp5). rewrite Hr5 in Hr5'. injection Hr5' as <-.
  apply mbindM_Ret_inv in Hrest as ([] & w6 & Hproj & Hrest). injection Hrest as <- <-.
  exists w5, r5. split; [by apply GI5|]. split; [done|]. split; [done|].
  split; [etrans; [apply HP|done]|]. split.
  { destruct Hle5 as (_ & _ & Hf). rewrite (pr_state _ _ _ _ _ _ _ _ _ HP) in Hf.
    specialize (Hf eq_refl). unfold settlement_of in Hf. rewrite <- (pr_actual _ _ _ _ _ _ _ _ _ HP). congruence. }
  split.
  - rewrite HL5, HL4. rewrite Forall_update_pending by by eapply prepared_pending.
    rewrite close_filter by done. apply Forall_fmap. eapply Forall_impl; [exact D3|].
    intros l Hl. eapply spent_grows in Hl; [|exact Hg5]. exact Hl.
  - split; [by exists p5|]. pose proof (evolves_run _ _ _ _ _ _ (projectAfterSettle_legs _) Hproj) as [El5 _].
    eapply (evolves_run (rtc window_tx) ledger_grows) in Hproj as [? ?]; [done|].
    pose proof (ProjectMeteringWindow_steps (St := St)). pose proof (UpdateWindowProjectionError_steps (St := St)).
    unfold projectAfterSettle. frame.
Qed.

(** ** A funded window can always be settled *)

Lemma operator_revenue_bootstrapped d ops :
  operatorLedgerAccounts d = Ret ops -> exists revenue, ops !! "operator_revenue"%string = Some revenue.
Proof.
  unfold operatorLedgerAccounts. intros H. apply obind_Ret_inv in H as (out & _ & H).
  destruct (forallb _ _) eqn:E; [|done]. injection H as <-. rewrite forallb_forall in E.
  specialize (E (mkAccountDefinition "operator_revenue" "operator" AccountCodeRevenue credit_positive_flags
                   "Recognized usage revenue") ltac:(simpl; tauto)).
  by apply bool_decide_eq_true in E.
Qed.

Lemma leg_open_settleable l : leg_open l -> settleable l.
Proof.
  intros (_ & _ & _ & Hs & Hr & Hw). split; [done|]. rewrite Hs.
  split; [|done]. by destruct (wf_default_account l Hw).
Qed.

(** The charge of the billable quantity is covered component by component. *)
Lemma open_covers r L actual billable writeoff billed :
  window_ok r L -> in_reserved_or_active (w_state r) = true -> is_u32 actual ->
  settleQuantities (w_reserved_quantity r) actual = (billable, writeoff) -> charges_at r billable = Ret billed ->
  (forall c, charges_at r (w_reserved_quantity r) = Ret c -> msum (components c) <= u64_max) ->
  forall sku, map_u64 (components billed) sku <= leg_total l_amount_reserved sku L.
Proof.
  intros Hok Hs Hu Hq Hb Hsum sku. pose proof (window_ok_open _ _ Hs Hok) as (_ & _ & _ & c & Hc & _ & Hcov).
  destruct Hok as (Hty & Hru & _). apply settleQuantities_spec in Hq as [-> _].
  assert (is_u32 (Z.min actual (w_reserved_quantity r))) as Hbu by (unfold is_u32 in *; lia).
  destruct (computeWindowCharges_mono _ _ _ _ _ _ Hty Hbu Hru ltac:(lia) Hc) as (b' & Hb' & Hle).
  unfold charges_at in Hb. rewrite Hb in Hb'. injection Hb' as <-. rewrite (Hcov (Hsum c Hc)).
  destruct Hle as (_ & _ & Hle). specialize (Hle sku). unfold map_u64.
  destruct (components billed !! sku), (components c !! sku); simpl; lia || done.
Qed.

Lemma settlement_funded id r actual billable writeoff billed t ops (w : world St) :
  Inv (w_db w) -> db_windows (w_db w) !! id = Some r -> in_reserved_or_active (w_state r) = true -> is_u32 actual ->
  settleQuantities (w_reserved_quantity r) actual = (billable, writeoff) -> charges_at r billable = Ret billed ->
  (forall c, charges_at r (w_reserved_quantity r) = Ret c -> msum (components c) <= u64_max) ->
  operatorLedgerAccounts (w_db w) = Ret ops ->
  exists payload F w', settleWindowLedgerPayloadTx id (components billed) t w = (Ret (payload, F), w').
Proof.
  intros (HI & _) Hr Hs Hu Hq Hb Hsum Hops. specialize (HI id). unfold window_inv in HI. rewrite Hr in HI.
  destruct HI as [Hok _]. pose proof (open_covers _ _ _ _ _ _ Hok Hs Hu Hq Hb Hsum) as Hcov.
  pose proof (window_ok_open _ _ Hs Hok) as (Hop & _ & Hcorr & _).
  assert (forall sku, 0 <= map_u64 (components billed) sku) as Hnn.
  { destruct Hok as (Hty & Hru & _). apply settleQuantities_spec in Hq as [-> _].
    assert (is_u32 (Z.min actual (w_reserved_quantity r))) as Hbu by (unfold is_u32 in *; lia).
    destruct (computeWindowCharges_sums _ _ _ _ _ Hty Hbu Hb) as (Hm & _).
    intros sku. by apply nonneg_map_get. }
  unfold settleWindowLedgerPayloadTx. unfold mbindM at 1, query at 1. rewrite Hr.
  unfold mbindM at 1, mlift at 1, IDFromBytes. rewrite decide_True by by apply generated_wf.
  unfold mbindM at 1. unfold operatorLedgerAccountsTx, mbindM at 1, query at 1, mlift at 1. rewrite Hops.
  destruct (operator_revenue_bootstrapped _ _ Hops) as [revenue ->].
  unfold mbindM at 1, query at 1. unfold ListPendingWindowLedgerLegsForUpdate. rewrite filter_all by by apply open_pending.
  assert (Forall (fun e => settleable e.2) (legs_of_window id (w_db w))) as Hsl
    by (eapply Forall_impl; [exact Hop|]; intros e; apply leg_open_settleable).
  destruct (settleLegs_total id revenue (w_ledger_correlation_id r) t _ (mkSettle (components billed) [] []) w Hsl
    (legs_of_window_NoDup _ _) ltac:(by intros s l ?%legs_of_window_elem) Hnn) as (st & w1 & Hst).
  rewrite (mbindM_run _ _ _ _ _ Hst).
  apply settleLegs_Ret in Hst as (L' & [_ _ _ _ _ Hg _ _]); [|apply legs_of_window_NoDup|by intros s l ?%legs_of_window_elem|done].
  destruct (existsb _ _) eqn:Hex; [|eexists _, _, _; done]. exfalso.
  apply existsb_exists in Hex as ([sku z] & Hin & Hz). apply list_elem_of_In, elem_of_map_to_list in Hin. simpl in Hz. zbool.
  specialize (Hg sku). specialize (Hcov sku). simpl in Hg.
  assert (map_u64 (st_remaining st) sku = z) by (unfold map_u64; by rewrite Hin). lia.
Qed.
End Settlement.
