(* ===== verification/SampleRun.v ===== *)
(** * The run of Samples.v satisfies the invariant

    The worlds the theorems are evaluated on: every one is reached from an
    empty database by the service's own calls, so the window invariant holds
    of it by the transition system, not by inspection. *)

From stdpp Require Import relations.
From S2P Require Import Prelude GoFloat GoStd GoTime GoFormat Json Types Ids Ledger Charges Grants Store Events.
From S2P Require Import LedgerCommands LedgerGrants Cycles Entitlements WindowStore Windows Dispatcher Finalizations.
From S2P Require Import Samples Frames.
From S2P Require Import Legs WindowInv PrepareTx ReserveTx WindowSystem Settlement.

Import RefLedger Sample.

(** Settled with half the reserved minute used, and voided. *)
Definition w4 : world RefLedger.state := (SettleWindow window_id 30000 ∅ w3).2.
Definition w5 : world RefLedger.state := (VoidWindow window_id w3).2.

(** The reserved window over a ledger that has lost its accounts: a settlement
    cannot be dispatched, and leaves the window settling. *)
Definition lost : world RefLedger.state :=
  mkWorld (w_db w3) RefLedger.empty (w_ticks w3) (w_ids w3) (w_txnow w3) (w_clickhouse w3) (w_stripe w3).
Definition w6 : world RefLedger.state := (SettleWindow window_id 30000 ∅ lost).2.

(** A computation whose outcome is known is an equation for its run. *)
Lemma run_Ret {St A} (m : @B St A) (w : world St) a : (m w).1 = Ret a -> m w = (Ret a, (m w).2).
Proof. intros H. by rewrite <- H, <- surjective_pairing. Qed.

Lemma run_ok {St A} (m : @B St A) (w : world St) : is_ret (m w).1 = true -> exists a, m w = (Ret a, (m w).2).
Proof. destruct (m w) as [[a|e|] w']; simpl; [by exists a|done|done]. Qed.

Lemma steps_to {A} (m : @B RefLedger.state A) w :
  evolves (rtc window_tx) ledger_grows m -> rtc window_tx (w_db w) (w_db (m w).2).
Proof. intros H. apply (H w). Qed.

Lemma Inv_steps d d' : rtc (window_tx (St := RefLedger.state)) d d' -> Inv d -> Inv d'.
Proof. intros H. by destruct (reachable_good _ _ H). Qed.

Lemma w0_Inv : Inv (w_db w0).
Proof. apply Inv_empty; try done. constructor; [|constructor]. vm_compute. discriminate. Qed.

Lemma w1_steps : rtc window_tx (w_db w0) (w_db w1).
Proof. apply steps_to, lift_core, EnsureLedgerBootstrapped_core; try apply _. apply Dispatch_grows. Qed.

Lemma w2_steps : rtc window_tx (w_db w1) (w_db w2).
Proof. apply steps_to, lift_core, DepositCredits_core; try apply _. apply Dispatch_grows. Qed.

Lemma request_u32 : is_u32 (rq_ReservedQuantity request).
Proof. by vm_compute. Qed.

Lemma used_u32 : is_u32 30000.
Proof. by vm_compute. Qed.

Lemma w3_steps : rtc window_tx (w_db w2) (w_db w3).
Proof. apply steps_to, ReserveWindow_steps, request_u32. Qed.

Lemma w4_steps : rtc window_tx (w_db w3) (w_db w4).
Proof. apply steps_to, SettleWindow_steps, used_u32. Qed.

Lemma w2_Inv : Inv (w_db w2).
Proof. apply (Inv_steps (w_db w0)), w0_Inv. etrans; [apply w1_steps|apply w2_steps]. Qed.

Lemma w3_Inv : Inv (w_db w3).
Proof. apply (Inv_steps (w_db w2)), w2_Inv. apply w3_steps. Qed.

Lemma w4_Inv : Inv (w_db w4).
Proof. apply (Inv_steps (w_db w3)), w3_Inv. apply w4_steps. Qed.

(** ** The window along the run *)

Definition state_read (w : world RefLedger.state) : option windowState :=
  match (loadWindow window_id w).1 with Ret pw => Some (pw_State pw) | _ => None end.

Lemma state_read_row w s :
  state_read w = Some s ->
  exists r pw, db_windows (w_db w) !! window_id = Some r /\ windowOfRow window_id r = Ret pw /\ w_state r = s.
Proof.
  unfold state_read. destruct (loadWindow window_id w) as [[pw|e|] w'] eqn:E; simpl; intros [= <-].
  apply loadWindow_Ret in E as (_ & r & Hr & Hpw). exists r, pw.
  pose proof (windowOfRow_fields _ _ _ Hpw) as (_ & Est & _). done.
Qed.

Lemma w3_reserved : state_read w3 = Some WReserved.
Proof. vm_compute. reflexivity. Qed.

Lemma w4_settled : state_read w4 = Some WSettled.
Proof. vm_compute. reflexivity. Qed.

Lemma w5_voided : state_read w5 = Some WVoided.
Proof. vm_compute. reflexivity. Qed.

Lemma w6_settling : state_read w6 = Some WSettling.
Proof. vm_compute. reflexivity. Qed.

(** ** The calls of the run *)

Lemma w3_run : exists res, ReserveWindow 5 request w2 = (Ret res, w3).
Proof. unfold w3. apply (run_ok (ReserveWindow 5 request) w2). vm_compute. reflexivity. Qed.

Lemma w4_run : exists res, SettleWindow window_id 30000 ∅ w3 = (Ret res, w4).
Proof. unfold w4. apply (run_ok (SettleWindow window_id 30000 ∅) w3). vm_compute. reflexivity. Qed.

Lemma w5_run : VoidWindow window_id w3 = (Ret tt, w5).
Proof. unfold w5. apply (run_Ret (VoidWindow window_id) w3 tt). vm_compute. reflexivity. Qed.

Lemma w2_no_window :
  GetWindowIDBySource (orgIDText org) product "execution" "run-1" 0 (w_db w2) = None.
Proof. vm_compute. reflexivity. Qed.

Lemma w3_window :
  GetWindowIDBySource (orgIDText org) product "execution" "run-1" 0 (w_db w3) = Some window_id.
Proof. vm_compute. reflexivity. Qed.

Lemma w6_run : markWindowSettlementPosted window_id w6 = (Ret tt, (markWindowSettlementPosted window_id w6).2).
Proof. apply (run_Ret (markWindowSettlementPosted window_id) w6 tt). vm_compute. reflexivity. Qed.

Lemma w3_operators : exists ops, operatorLedgerAccounts (w_db w3) = Ret ops.
Proof.
  assert (is_ret (operatorLedgerAccounts (w_db w3)) = true) as H by (vm_compute; reflexivity).
  destruct (operatorLedgerAccounts (w_db w3)) as [ops|e|]; [by exists ops|done|done].
Qed.

(** The reserved charge of the run's window, 420,000 units. *)
Lemma w3_charge r c :
  db_windows (w_db w3) !! window_id = Some r -> charges_at r (w_reserved_quantity r) = Ret c ->
  msum (components c) = 420000.
Proof.
  intros Hr Hc.
  assert (match db_windows (w_db w3) !! window_id with
          | Some r => match charges_at r (w_reserved_quantity r) with Ret c => msum (components c) | _ => 0 end
          | None => 0 end = 420000) as H by (vm_compute; reflexivity).
  by rewrite Hr, Hc in H.
Qed.
