(* ===== verification/WindowTheorems.v ===== *)
(** * Theorems on billing windows

    The guarantees of reserve, activate, settle and void, over single calls
    and over every interleaving of the service's transactions, each evaluated
    on the run of Samples.v. *)

From stdpp Require Import relations.
From S2P Require Import Prelude GoFloat GoStd GoTime GoFormat Json Types Ids Ledger Charges Grants Store Events.
From S2P Require Import LedgerCommands LedgerGrants Cycles Entitlements WindowStore Windows Dispatcher Finalizations.
From S2P Require Import Samples Frames.
From S2P Require Import Legs WindowInv PrepareTx ReserveTx WindowSystem Settlement SampleRun.

Section Theorems.
Context {St : Type} `{HE : Env} `{HD : Digest} `{HC : TBCodec} `{!TigerBeetle St} `{!PeriodWork St}.

(** In every state the service can reach, whatever the order in which the
    transactions of concurrent requests commit, the window invariant holds
    (the legs of an open window fund exactly its charge, those of a settled
    one are posted for exactly the billed charge, a voided one holds nothing,
    and a settlement never lacks its ledger command), and every window and leg
    has only moved forward along its life cycle with its terms unchanged. *)
Theorem service_invariant d d' :
  Inv d -> rtc (window_tx (St := St)) d d' -> Inv d' /\ history d d'.
Proof. intros HI H. destruct (reachable_good _ _ H) as [G1 G2]. auto. Qed.

(** C2: A SettleWindow that succeeds on an open window leaves it settled,
    bills the lesser of used and reserved quantity and writes off the rest,
    posts for every component exactly the charge of the billed quantity, and
    every grant leg it posted is a stored ledger transfer out of that grant's
    account for exactly the posted amount. *)
Theorem settle_window_posts `{HF : !FreshIds} id actual usage r (w w' : world St) res :
  SettleWindow id actual usage w = (Ret res, w') -> is_u32 actual -> Inv (w_db w) ->
  db_windows (w_db w) !! id = Some r -> in_reserved_or_active (w_state r) = true ->
  exists r' c, db_windows (w_db w') !! id = Some r' /\ w_state r' = WSettled /\ window_key r' = window_key r
    /\ sr_BillableQuantity res = Z.min actual (w_reserved_quantity r)
    /\ sr_WriteoffQuantity res = actual - sr_BillableQuantity res
    /\ charges_at r (sr_BillableQuantity res) = Ret c /\ sr_BilledChargeUnits res = sumUint64Map (components c)
    /\ (forall sku, leg_total l_amount_posted sku (legs_of_window id (w_db w')) = map_u64 (components c) sku)
    /\ Forall (spent (w_tb w')) (filter is_spend (legs_of_window id (w_db w')).*2).
Proof.
  intros H Hu HI Hr Hs.
  destruct (SettleWindow_Ret _ _ _ _ _ _ _ H Hu HI Hr Hs) as (w1 & r1 & HI1 & Hr1 & Hst1 & Hle & Hact & Hsp & Hres & Hst & Hg & El).
  destruct (reachable_good _ _ Hst) as [_ Hh]. destruct (Hh HI1) as [Hw _].
  destruct (Hw id r1 Hr1) as (r' & Hr' & Hk' & Hst' & _).
  assert (legs_of_window id (w_db w') = legs_of_window id (w_db w1)) as ->
    by (apply legs_of_window_same; intros s; by rewrite El).
  destruct HI1 as (HI1 & _). specialize (HI1 id). unfold window_inv in HI1. rewrite Hr1 in HI1.
  destruct HI1 as [(_ & _ & Hok) _]. rewrite Hst1 in Hok.
  destruct Hok as [(_ & Hb & Hwo & _ & (c & Hc & Hbu & Htot) & _) _].
  destruct Hres as (p & Hp & ->). apply windowOfRow_fields in Hp as (_ & _ & _ & _ & _ & _ & _ & _ & _ & Eb & Ew & Ebu & _).
  assert (w_reserved_quantity r1 = w_reserved_quantity r /\ w_allocation r1 = w_allocation r
          /\ w_rate_context r1 = w_rate_context r) as (Eq & Ea & Er) by (destruct Hle as [Hk _]; unfold window_key in Hk; by simplify_eq).
  exists r', c. split; [done|]. split; [rewrite Hst1 in Hst'; by apply (wstate_final WSettled); [|left]|].
  split; [destruct Hle; congruence|]. simpl. rewrite Eb, Ew, Ebu. unfold charges_at in *. rewrite Ea, Er in Hc.
  split; [congruence|]. split; [congruence|]. split; [done|]. split; [done|]. split; [done|].
  eapply Forall_impl; [exact Hsp|]. intros l. by apply spent_grows.
Qed.

(** Whatever its outcome, a handler changes windows, legs and settlement
    commands only through the transactions of the life cycle, and no ledger
    transfer is ever altered or lost. *)
Theorem handlers_follow_lifecycle fuel req id actual usage t n :
  is_u32 (rq_ReservedQuantity req) -> is_u32 actual ->
  evolves (rtc window_tx) ledger_grows (ReserveWindow fuel req : @B St _)
  /\ evolves (rtc window_tx) ledger_grows (ActivateWindow id t : @B St _)
  /\ evolves (rtc window_tx) ledger_grows (SettleWindow id actual usage : @B St _)
  /\ evolves (rtc window_tx) ledger_grows (VoidWindow id : @B St _)
  /\ evolves (rtc window_tx) ledger_grows (DispatchPendingLedgerCommands n : @B St _)
  /\ evolves (rtc window_tx) ledger_grows (ProjectPendingMeteringWindows n : @B St _).
Proof.
  intros Hq Ha. auto 7 using ReserveWindow_steps, ActivateWindow_steps, SettleWindow_steps, VoidWindow_steps,
    DispatchPendingLedgerCommands_steps, ProjectPendingMeteringWindows_steps.
Qed.

(** C4: A settled or voided window is final: in every later state it has the
    same terms, state and settlement, and its legs are unchanged. *)
Theorem closed_windows_final d d' id r :
  Inv d -> rtc (window_tx (St := St)) d d' -> db_windows d !! id = Some r -> w_state r = WSettled \/ w_state r = WVoided ->
  (exists r', db_windows d' !! id = Some r' /\ w_state r' = w_state r /\ window_key r' = window_key r
     /\ settlement_of r' = settlement_of r)
  /\ forall s l, db_legs d !! (id, s) = Some l -> db_legs d' !! (id, s) = Some l.
Proof.
  intros HI Hst Hr Hs. destruct (reachable_good _ _ Hst) as [_ Hh]. destruct (Hh HI) as [Hw HL]. split.
  - destruct (Hw id r Hr) as (r' & Hr' & Hk & Hsteps & Hf). exists r'. split; [done|].
    split; [by apply wstate_final|]. split; [done|]. apply Hf. destruct Hs as [E|E]; by rewrite E.
  - intros s l Hl. destruct HI as (HI & _). specialize (HI id). unfold window_inv in HI. rewrite Hr in HI.
    destruct HI as [(_ & _ & Hok) _]. eapply history_closed_leg; [exact (conj Hw HL)|done|].
    apply legs_of_window_elem in Hl. destruct Hs as [E|E]; rewrite E in Hok.
    + destruct Hok as [_ Hc]. rewrite Forall_forall in Hc. specialize (Hc _ Hl). simpl in Hc. rewrite Hc.
      by destruct (0 <? _).
    + rewrite Forall_forall in Hok. destruct (Hok _ Hl) as [Hv _]. simpl in Hv. by rewrite Hv.
Qed.

(** C5: A window whose reserved charge fits a uint64 can always be settled out
    of its own authorization: once the operator accounts exist, the settlement
    transaction never runs out of funding, whatever quantity was used. *)
Theorem settlement_within_authorization `{HF : !FreshIds} id r actual t ops (w : world St) :
  Inv (w_db w) -> db_windows (w_db w) !! id = Some r -> in_reserved_or_active (w_state r) = true -> is_u32 actual ->
  (forall c, charges_at r (w_reserved_quantity r) = Ret c -> msum (components c) <= u64_max) ->
  operatorLedgerAccounts (w_db w) = Ret ops ->
  exists billed payload legs w', charges_at r (settleQuantities (w_reserved_quantity r) actual).1 = Ret billed
    /\ settleWindowLedgerPayloadTx id (components billed) t w = (Ret (payload, legs), w').
Proof.
  intros HI Hr Hs Hu Hsum Hops. destruct (settleQuantities (w_reserved_quantity r) actual) as [b wo] eqn:Hq. simpl.
  assert (exists billed, charges_at r b = Ret billed) as [billed Hb].
  { pose proof HI as (HI' & _). specialize (HI' id). unfold window_inv in HI'. rewrite Hr in HI'. destruct HI' as [Hok _].
    pose proof (window_ok_open _ _ Hs Hok) as (_ & _ & _ & c & Hc & _). destruct Hok as (Hty & Hru & _).
    apply settleQuantities_spec in Hq as [-> _].
    assert (is_u32 (Z.min actual (w_reserved_quantity r))) as Hbu by (unfold is_u32 in *; lia).
    destruct (computeWindowCharges_mono _ _ _ _ _ _ Hty Hbu Hru ltac:(lia) Hc) as (b' & Hb' & _). by exists b'. }
  destruct (settlement_funded id r actual b wo billed t ops w HI Hr Hs Hu Hq Hb Hsum Hops) as (pl & F & w' & H).
  by exists billed, pl, F, w'.
Qed.
End Theorems.

(** ** The theorems on the sample run *)

Import RefLedger Sample.

Lemma service_invariant_witness : Inv (w_db w3) /\ history (w_db w0) (w_db w3).
Proof.
  apply (service_invariant (w_db w0) (w_db w3)); [exact w0_Inv|].
  exact (transitivity w1_steps (transitivity w2_steps w3_steps)).
Defined.

Lemma settle_window_posts_witness :
  exists r', db_windows (w_db w4) !! window_id = Some r' /\ w_state r' = WSettled.
Proof.
  destruct (state_read_row _ _ w3_reserved) as (r & pw & Hr & _ & Hs). destruct w4_run as [res Hrun].
  destruct (settle_window_posts window_id 30000 ∅ r w3 w4 res Hrun used_u32 w3_Inv Hr ltac:(rewrite Hs; reflexivity))
    as (r' & c & Hr' & Hs' & _). exists r'. split; [exact Hr'|exact Hs'].
Defined.

Lemma handlers_follow_lifecycle_witness : evolves (rtc window_tx) ledger_grows (ReserveWindow 5 request : @B state _).
Proof. exact (proj1 (handlers_follow_lifecycle 5 request window_id 30000 ∅ base_time 10 request_u32 used_u32)). Defined.

Lemma closed_windows_final_witness :
  exists r', db_windows (w_db w4) !! window_id = Some r' /\ w_state r' = WSettled.
Proof.
  destruct (state_read_row _ _ w4_settled) as (r & pw & Hr & _ & Hs).
  destruct (closed_windows_final (w_db w4) (w_db w4) window_id r w4_Inv (rtc_refl window_tx _) Hr (or_introl Hs))
    as [(r' & Hr' & Hs' & _) _]. exists r'. split; [exact Hr'|]. rewrite Hs'. exact Hs.
Defined.

Lemma settlement_within_authorization_witness :
  exists charge payload legs w', settleWindowLedgerPayloadTx window_id charge base_time w3 = (Ret (payload, legs), w').
Proof.
  destruct (state_read_row _ _ w3_reserved) as (r & pw & Hr & _ & Hs). destruct w3_operators as [ops Hops].
  destruct (settlement_within_authorization window_id r 30000 base_time ops w3 w3_Inv Hr
    ltac:(rewrite Hs; reflexivity) used_u32) as (billed & payload & legs & w' & _ & H).
  - intros c Hc. rewrite (w3_charge r c Hr Hc). vm_compute. discriminate.
  - exact Hops.
  - exists (components billed), payload, legs, w'. exact H.
Defined.
