(* ===== verification/WindowCalls.v ===== *)
(** * Theorems on single calls

    Reserve is idempotent per source and refuses a different request under
    the same source; void releases every hold; closed windows answer repeated
    requests without effect; activation fixes the window's interval. *)

From stdpp Require Import relations.
From S2P Require Import Prelude GoFloat GoStd GoTime GoFormat Json Types Ids Ledger Charges Grants Store Events.
From S2P Require Import LedgerCommands LedgerGrants Cycles Entitlements WindowStore Windows Dispatcher Finalizations.
From S2P Require Import Samples Frames.
From S2P Require Import Legs WindowInv PrepareTx ReserveTx WindowSystem Settlement SampleRun.

(** ** Windows by source *)

Definition of_source (org productID sourceType sourceRef : string) (seq : Z) (r : windowRow) : Prop :=
  w_org_id r = org /\ w_product_id r = productID /\ w_source_type r = sourceType /\ w_source_ref r = sourceRef
  /\ w_window_seq r = seq.

Lemma GetWindowIDBySource_None org p st sr seq d :
  GetWindowIDBySource org p st sr seq d = None <-> forall id r, db_windows d !! id = Some r -> ~ of_source org p st sr seq r.
Proof.
  unfold GetWindowIDBySource. rewrite head_None. split.
  - intros E id r Hr Hs. apply fmap_nil_inv in E.
    assert ((id, r) ∈ filter (fun kv => of_source org p st sr seq kv.2) (map_to_list (db_windows d))) as Hin
      by (apply list_elem_of_filter; split; [done|by apply elem_of_map_to_list]).
    unfold of_source in Hin. rewrite E in Hin. by apply elem_of_nil in Hin.
  - intros H. destruct (filter _ _) as [|[id r] l] eqn:E; [done|]. exfalso.
    assert ((id, r) ∈ filter (fun kv => of_source org p st sr seq kv.2) (map_to_list (db_windows d))) as Hin
      by (unfold of_source; rewrite E; constructor).
    apply list_elem_of_filter in Hin as [Hk Hc%elem_of_map_to_list]. by apply (H id r).
Qed.

Lemma GetWindowIDBySource_insert org p st sr seq d id row :
  GetWindowIDBySource org p st sr seq d = None -> db_windows d !! id = None -> of_source org p st sr seq row ->
  GetWindowIDBySource org p st sr seq (set_windows (<[id := row]> (db_windows d)) d) = Some id.
Proof.
  unfold GetWindowIDBySource. intros E Hn Hs. simpl. rewrite head_None in E. apply fmap_nil_inv in E.
  pose proof (map_to_list_insert (db_windows d) id row Hn) as Hp.
  apply (filter_Permutation (fun kv => w_org_id kv.2 = org /\ w_product_id kv.2 = p /\ w_source_type kv.2 = st
                          /\ w_source_ref kv.2 = sr /\ w_window_seq kv.2 = seq)) in Hp.
  rewrite filter_cons, decide_True, E in Hp by done. apply Permutation_singleton_r in Hp. by rewrite Hp.
Qed.

Section Calls.
Context {St : Type} `{HE : Env} `{HD : Digest} `{HC : TBCodec} `{!TigerBeetle St} `{!PeriodWork St}.

Definition window_for (req : ReserveRequest) (d : DB) : option string :=
  GetWindowIDBySource (orgIDText (rq_OrgID req)) (rq_ProductID req) (rq_SourceType req) (rq_SourceRef req) (rq_WindowSeq req) d.

(** What ReserveWindow does before it looks at the database. *)
Lemma ReserveWindow_valid fuel req (w w' : world St) res :
  ReserveWindow fuel req w = (Ret res, w') ->
  exists shape q, normalizeReservationShape (rq_ReservationShape req) = Ret shape
    /\ reserveWindowQuantity shape (rq_ReservedQuantity req) = Ret q
    /\ forall w0 : world St, ReserveWindow fuel req w0 =
         (do! existing <- loadWindowBySource (rq_OrgID req) (rq_ProductID req) (rq_SourceType req) (rq_SourceRef req) (rq_WindowSeq req);
          match existing with
          | Some w => if negb (str_eqb (pw_SourceFingerprint w) (reserveSourceFingerprint req shape q)) then mfail ErrWindowSourceConflict
                      else match pw_State w with WVoided => mfail ErrWindowAlreadyVoided | _ => mret (reservation w) end
          | None => exec! EnsureCurrentEntitlements fuel (rq_OrgID req) (rq_ProductID req);
                    do! reserved <- WithTx (reserveWindowTx req shape q (reserveSourceFingerprint req shape q));
                    mret (reservation reserved)
          end) w0.
Proof.
  unfold ReserveWindow. destruct (_ || _); [done|]. destruct (bool_decide _); [done|].
  intros H. apply mbindM_Ret_inv in H as (shape & w1 & Hs & H). unfold mlift in Hs. injection Hs as Hs <-.
  apply mbindM_Ret_inv in H as (q & w1 & Hq & _). unfold mlift in Hq. injection Hq as Hq <-.
  exists shape, q. split; [done|]. split; [done|]. intros w0. rewrite Hs. unfold mbindM at 1, mlift at 1.
  rewrite Hq. unfold mbindM at 1, mlift at 1. unfold mbindM. destruct (loadWindowBySource _ _ _ _ _ w0) as [[[p|]|e|] wx]; try done.
Qed.

Lemma loadWindowBySource_run org p st sr seq (w : world St) id r pw :
  GetWindowIDBySource (orgIDText org) p st sr seq (w_db w) = Some id -> db_windows (w_db w) !! id = Some r ->
  windowOfRow id r = Ret pw -> loadWindowBySource org p st sr seq w = (Ret (Some pw), w).
Proof.
  intros H1 H2 H3. unfold loadWindowBySource, mbindM, query. rewrite H1. unfold loadWindow, mbindM, query.
  rewrite H2. unfold mlift. by rewrite H3.
Qed.

Lemma parseOrgID_total s : exists o, parseOrgID s = Ret o.
Proof. unfold parseOrgID. case_decide; eauto. Qed.

Lemma checkedUint32_total v : is_u32 v -> checkedUint32FromInt64 v = Ret v.
Proof.
  unfold is_u32, checkedUint32FromInt64. intros H.
  destruct ((v <? 0) || (u32_max <? v)) eqn:E; [|done]. apply orb_true_iff in E as [E|E]; zbool; lia.
Qed.

Lemma checkedUint64_total v : 0 <= v -> checkedUint64FromInt64 v = Ret v.
Proof. unfold checkedUint64FromInt64. intros H. destruct (Z.ltb_spec v 0); [lia|done]. Qed.

Lemma windowOfRow_reserved d req shape q fp p d' d1 row rows :
  reserved d req shape q fp p d' d1 row rows -> is_u32 q -> is_u32 (rq_WindowSeq req) ->
  exists pw, windowOfRow (pw_WindowID p) row = Ret pw.
Proof.
  intros [_ _ _ _ (_ & _ & _ & _ & Eseq & _ & _ & Eq & _) (E1 & E2 & E3 & E4 & E5) _ Hck _ _] Hq Hseq.
  unfold window_checks in Hck. zbool. destruct (parseOrgID_total (w_org_id row)) as [o Ho].
  unfold windowOfRow. rewrite Ho, Eseq, Eq, E1, E2, E3, E4, E5. simpl.
  rewrite !checkedUint32_total by (done || (unfold is_u32, u32_max; lia)). simpl.
  rewrite checkedUint64_total by done. simpl. eauto.
Qed.

(** A successful first reservation. *)
Lemma ReserveWindow_first fuel req (w w' : world St) res :
  ReserveWindow fuel req w = (Ret res, w') -> window_for req (w_db w) = None ->
  is_u32 (rq_ReservedQuantity req) -> Inv (w_db w) ->
  exists shape q p d0 d1 row rows, normalizeReservationShape (rq_ReservationShape req) = Ret shape
    /\ reserveWindowQuantity shape (rq_ReservedQuantity req) = Ret q /\ is_u32 q
    /\ core_step (w_db w) d0
    /\ reserved d0 req shape q (reserveSourceFingerprint req shape q) p (w_db w') d1 row rows /\ res = reservation p.
Proof.
  intros H Hn Hu HI. pose proof H as (shape & q & Hsh & Hq & Heq)%ReserveWindow_valid. rewrite Heq in H. clear Heq.
  apply mbindM_Ret_inv in H as (ex & w1 & Hl & H).
  assert (ex = None /\ w1 = w) as [-> ->].
  { unfold loadWindowBySource, mbindM, query in Hl. unfold window_for in Hn. rewrite Hn in Hl. by injection Hl as <- <-. }
  apply mbindM_Ret_inv in H as ([] & w1 & He & H).
  apply (evolves_run core_step ledger_grows) in He as [C0 _]; [|apply EnsureCurrentEntitlements_core; first [apply Dispatch_grows|apply _]].
  apply mbindM_Ret_inv in H as (p & w2 & Htx & H). injection H as <- <-.
  unfold WithTx in Htx. simpl in Htx. destruct (reserveWindowTx _ _ _ _ _) as [[p'|e|] w3] eqn:E; [|done|done].
  injection Htx as -> <-. pose proof (reserveWindowQuantity_u32 _ _ _ Hu Hq) as Hqu.
  apply reserveWindowTx_Ret in E as (d1 & row & rows & HR); [|done|by eapply core_step_Inv].
  exists shape, q, p, (w_db w1), d1, row, rows. done.
Qed.
Lemma reserved_view d req shape q fp p d' d1 row rows :
  reserved d req shape q fp p d' d1 row rows -> Inv d ->
  db_windows d' !! pw_WindowID p = Some row /\ legs_of_window (pw_WindowID p) d' = numbered 0 rows.
Proof.
  intros [R1 R2 _ _ _ _ _ _ _ (ev & de & jo & ->)] HI. split; [simpl; apply lookup_insert_eq|].
  pose proof (core_step_Inv _ _ R1 HI) as (HI1 & _). specialize (HI1 (pw_WindowID p)). unfold window_inv in HI1.
  rewrite R2 in HI1. exact (legs_of_window_fresh (pw_WindowID p) (set_windows _ d1) rows (proj1 HI1)).
Qed.

(** C6: A new reservation that succeeds has stored a reserved window with the
    requested quantity under the source's window id, whose charge is the
    priced allocation, and legs that fund every component for exactly its
    charge (as long as the charges add up to a uint64). *)
Theorem reserve_window_funds fuel req (w w' : world St) res :
  ReserveWindow fuel req w = (Ret res, w') -> window_for req (w_db w) = None ->
  is_u32 (rq_ReservedQuantity req) -> Inv (w_db w) ->
  exists r c, db_windows (w_db w') !! wr_WindowID res = Some r /\ w_state r = WReserved
    /\ wr_WindowID res = billingWindowID (rq_OrgID req) (rq_ProductID req) (rq_SourceType req) (rq_SourceRef req) (rq_WindowSeq req)
    /\ w_allocation r = rq_Allocation req /\ charges_at r (w_reserved_quantity r) = Ret c
    /\ wr_ReservedQuantity res = w_reserved_quantity r /\ wr_ReservedChargeUnits res = sumUint64Map (components c)
    /\ Forall (fun e => leg_open e.2) (legs_of_window (wr_WindowID res) (w_db w'))
    /\ (msum (components c) <= u64_max ->
        forall sku, leg_total l_amount_reserved sku (legs_of_window (wr_WindowID res) (w_db w')) = map_u64 (components c) sku).
Proof.
  intros H Hn Hu HI. destruct (ReserveWindow_first _ _ _ _ _ H Hn Hu HI)
    as (shape & q & p & d0 & d1 & row & rows & _ & _ & _ & C0 & HR & ->).
  destruct (reserved_view _ _ _ _ _ _ _ _ _ _ HR (core_step_Inv _ _ C0 HI)) as [V1 V2].
  destruct HR as [_ _ R3 R4 (_ & _ & _ & _ & _ & _ & _ & Eq & Ea) _ (F1 & F2 & _) _ (_ & _ & Hok) _]. simpl in *.
  rewrite R4 in Hok. destruct Hok as [(Hop & _ & _ & c & Hc & Hcu & Hcov) _].
  exists row, c. rewrite V2. repeat split; try done; congruence.
Qed.

(** Reserving the same source again with the same request is idempotent:
    it returns the stored window and changes nothing. *)
Theorem reserve_window_replay fuel req (w w' : world St) res :
  ReserveWindow fuel req w = (Ret res, w') -> window_for req (w_db w) = None ->
  is_u32 (rq_ReservedQuantity req) -> is_u32 (rq_WindowSeq req) -> Inv (w_db w) ->
  exists res', ReserveWindow fuel req w' = (Ret res', w') /\ wr_WindowID res' = wr_WindowID res
    /\ wr_ReservedQuantity res' = wr_ReservedQuantity res /\ wr_ReservedChargeUnits res' = wr_ReservedChargeUnits res
    /\ wr_Allocation res' = wr_Allocation res /\ wr_SKURates res' = wr_SKURates res.
Proof.
  intros H Hn Hu Hseq HI. destruct (ReserveWindow_first _ _ _ _ _ H Hn Hu HI)
    as (shape & q & p & d0 & d1 & row & rows & Hsh & Hq & Hqu & C0 & HR & ->).
  destruct (windowOfRow_reserved _ _ _ _ _ _ _ _ _ _ HR Hqu Hseq) as [pw Hpw].
  destruct (reserved_view _ _ _ _ _ _ _ _ _ _ HR (core_step_Inv _ _ C0 HI)) as [V1 _].
  assert (GetWindowIDBySource (orgIDText (rq_OrgID req)) (rq_ProductID req) (rq_SourceType req) (rq_SourceRef req)
            (rq_WindowSeq req) (w_db w') = Some (pw_WindowID p)) as Hget.
  { destruct HR as [R1 R2 _ _ (? & ? & ? & ? & ? & _) _ _ _ _ (ev & de & jo & ->)]. unfold window_for in Hn.
    rewrite GetWindowIDBySource_None in Hn. apply (GetWindowIDBySource_insert _ _ _ _ _ d1); [|done|done].
    apply GetWindowIDBySource_None. intros id r Hr. apply (Hn id).
    destruct R1 as ([E1 _] & _), C0 as ([E0 _] & _). congruence. }
  pose proof (loadWindowBySource_run _ _ _ _ _ w' _ _ _ Hget V1 Hpw) as Hload.
  pose proof H as (shape' & q' & Hsh' & Hq' & Heq)%ReserveWindow_valid.
  assert (shape' = shape) as -> by congruence. assert (q' = q) as -> by congruence.
  pose proof (windowOfRow_fields _ _ _ Hpw) as (Eid & Est & Eq & _ & Ea & Ep & _ & Efp & _).
  destruct HR as [_ _ _ R4 (_ & _ & _ & _ & _ & Rfp & _ & Rq & _) _ (F1 & F2 & F3 & F4) Hck _ _].
  exists (reservation pw). split.
  - rewrite Heq, (mbindM_run _ _ _ _ _ Hload), Efp, Rfp.
    assert (str_eqb (reserveSourceFingerprint req shape q) (reserveSourceFingerprint req shape q) = true) as ->
      by (by apply String.eqb_eq). simpl. by rewrite Est, R4.
  - assert (pw_ReservedChargeUnits pw = w_reserved_charge_units row) as Ec.
    { clear -Hpw. unfold windowOfRow in Hpw. inv_ret. simpl. by match goal with Hc : checkedUint64FromInt64 (w_reserved_charge_units row) = _ |- _ => apply checkedUint64_Ret in Hc as [-> _] end. }
    simpl. rewrite Eid, Eq, Ea, Ep, Ec, Rq, F1, F2, F3, F4. done.
Qed.

(** C19: A different request under a source that already has a window is
    refused and changes nothing; so is any request under a voided one. *)
Theorem reserve_window_conflict fuel req shape q (w : world St) id r pw :
  rq_ProductID req <> "" -> rq_ActorID req <> "" -> rq_SourceType req <> "" -> rq_SourceRef req <> "" ->
  orgIDText (rq_OrgID req) <> "" -> rq_Allocation req <> ∅ ->
  normalizeReservationShape (rq_ReservationShape req) = Ret shape ->
  reserveWindowQuantity shape (rq_ReservedQuantity req) = Ret q ->
  window_for req (w_db w) = Some id -> db_windows (w_db w) !! id = Some r -> windowOfRow id r = Ret pw ->
  ReserveWindow fuel req w =
    (if decide (w_source_fingerprint r = reserveSourceFingerprint req shape q)
     then if decide (w_state r = WVoided) then Err ErrWindowAlreadyVoided else Ret (reservation pw)
     else Err ErrWindowSourceConflict, w).
Proof.
  intros H1 H2 H3 H4 H5 H6 Hsh Hq Hid Hr Hpw. unfold ReserveWindow.
  rewrite !bool_decide_eq_false_2 by done. simpl. rewrite Hsh. unfold mbindM at 1, mlift at 1. rewrite Hq.
  unfold mbindM at 1, mlift at 1. rewrite (mbindM_run _ _ _ _ _ (loadWindowBySource_run _ _ _ _ _ w _ _ _ Hid Hr Hpw)).
  pose proof (windowOfRow_fields _ _ _ Hpw) as (_ & Est & _ & _ & _ & _ & _ & Efp & _). rewrite Efp, Est.
  case_decide as E.
  - rewrite E. assert (str_eqb (reserveSourceFingerprint req shape q) (reserveSourceFingerprint req shape q) = true) as ->
      by (by apply String.eqb_eq). simpl. by destruct (w_state r).
  - assert (str_eqb (w_source_fingerprint r) (reserveSourceFingerprint req shape q) = false) as ->
      by (by apply String.eqb_neq). done.
Qed.

(** C18: A VoidWindow that succeeds on an open window leaves it voided, with
    every leg released in full and nothing posted, and does not call the
    ledger. *)
Theorem void_window_releases id r (w w' : world St) :
  VoidWindow id w = (Ret tt, w') -> Inv (w_db w) -> db_windows (w_db w) !! id = Some r ->
  in_reserved_or_active (w_state r) = true ->
  w_tb w' = w_tb w /\ (exists r', db_windows (w_db w') !! id = Some r' /\ w_state r' = WVoided /\ window_key r' = window_key r)
  /\ Forall (fun e => l_state e.2 = LVoided /\ l_amount_posted e.2 = 0 /\ l_amount_voided e.2 = l_amount_reserved e.2)
       (legs_of_window id (w_db w')).
Proof.
  intros H HI Hr Hs. unfold VoidWindow in H. apply mbindM_Ret_inv in H as (p & w1 & Hl & H).
  apply loadWindow_Ret in Hl as (-> & r0 & Hr0 & Hp). rewrite Hr in Hr0. injection Hr0 as <-.
  apply windowOfRow_fields in Hp as (_ & Est & _). rewrite Est in H.
  assert (exists t w1, w_db w1 = w_db w /\ w_tb w1 = w_tb w /\ WithTx (voidWindowTx p id t) w1 = (Ret tt, w')) as (t & w1 & Ed & Et & Htx).
  { destruct (w_state r); try discriminate;
      (apply mbindM_Ret_inv in H as (t & w1 & Ht & H); injection Ht as <- <-; eexists _, _; split; [|split; [|exact H]]; done). }
  unfold WithTx in Htx. simpl in Htx. destruct (voidWindowTx p id t _) as [[[]|e|] w2] eqn:E; [|done|done].
  apply (f_equal snd) in Htx. simpl in Htx. subst w'. simpl.
  assert (w_tb w2 = w_tb w) as Et2.
  { rewrite <- Et. unfold voidWindowTx in E. apply mbindM_Ret_inv in E as (n & w3 & Hs1 & E).
    assert (w_tb w3 = w_tb w1) as <- by (unfold statement in Hs1; repeat case_match; by simplify_eq).
    destruct (n =? 0); [by injection E as <-|]. apply mbindM_Ret_inv in E as ([] & w4 & Hs2 & E).
    injection Hs2 as <-. apply appendEvent_only in E as [_ <-]. done. }
  split; [done|]. pose proof (voidWindowTx_good _ _ _ _ _ E) as [GI _]. apply voidWindowTx_Ret in E. simpl in *. rewrite Ed in *.
  specialize (GI HI). destruct E as [[_ Hno]|(r1 & d1 & Hr1 & _ & -> & ev & de & jo & Hd)]; [specialize (Hno r Hr); congruence|].
  rewrite Hr in Hr1. injection Hr1 as <-.
  assert (db_windows (w_db w2) !! id = Some (with_state WVoided (w_metering_projected_at r) (w_last_projection_error r) r)) as Hr2
    by (rewrite Hd; simpl; apply lookup_insert_eq).
  split; [eexists; split; [exact Hr2|done]|].
  destruct GI as (GI & _). specialize (GI id). unfold window_inv in GI. rewrite Hr2 in GI. by destruct GI as [(_ & _ & ?) _].
Qed.

(** A closed window answers every later request without effect: settling
    a settled window returns the recorded result, and each other request is
    refused with the error of its state. *)
Theorem closed_window_requests id r pw (w : world St) actual usage t :
  id <> "" -> db_windows (w_db w) !! id = Some r -> windowOfRow id r = Ret pw ->
  (w_state r = WSettled ->
     SettleWindow id actual usage w = (Ret (settleResult pw), w)
     /\ VoidWindow id w = (Err ErrWindowAlreadySettled, w) /\ ActivateWindow id t w = (Err ErrWindowAlreadySettled, w))
  /\ (w_state r = WVoided ->
     SettleWindow id actual usage w = (Err ErrWindowAlreadyVoided, w)
     /\ VoidWindow id w = (Ret tt, w) /\ ActivateWindow id t w = (Err ErrWindowAlreadyVoided, w))
  /\ (w_state r = WSettling ->
     SettleWindow id actual usage w = (Err ErrWindowNotReserved, w)
     /\ VoidWindow id w = (Err ErrWindowNotReserved, w) /\ ActivateWindow id t w = (Err ErrWindowNotReserved, w)).
Proof.
  intros Hid Hr Hpw.
  assert (loadWindow id w = (Ret pw, w)) as Hl.
  { unfold loadWindow, mbindM, query. rewrite Hr. unfold mlift. by rewrite Hpw. }
  pose proof (windowOfRow_fields _ _ _ Hpw) as (_ & Est & _).
  unfold SettleWindow, VoidWindow, ActivateWindow. rewrite decide_False by done.
  rewrite !(mbindM_run _ _ _ _ _ Hl), Est. split; [|split]; intros E; by rewrite E.
Qed.

(** Activating a reserved window starts its clock once: the window is
    active from the given time (now when none is given), expires one
    reservation later, its terms unchanged and the ledger untouched; activating
    it again, at whatever time, returns the same answer and changes nothing. *)
Theorem activate_window_once id t r (w w' : world St) res :
  ActivateWindow id t w = (Ret res, w') -> db_windows (w_db w) !! id = Some r ->
  w_state r = WReserved -> w_activated_at r = None ->
  w_tb w' = w_tb w
  /\ (exists at_ r', db_windows (w_db w') !! id = Some r' /\ w_state r' = WActive /\ window_key r' = window_key r
       /\ (is_zero t = false -> at_ = t) /\ at_ <= w_expires_at r
       /\ w_activated_at r' = Some (pg_timestamptz at_) /\ w_window_start r' = pg_timestamptz at_
       /\ w_expires_at r' = pg_timestamptz (reserveWindowTiming (w_reservation_shape r) at_ (w_reserved_quantity r)).1)
  /\ forall t', ActivateWindow id t' w' = (Ret res, w').
Proof.
  intros H Hr Hst Hact. unfold ActivateWindow in H. destruct (decide (id = "")) as [|Hid]; [done|].
  apply mbindM_Ret_inv in H as (p & w1 & Hl & H). apply loadWindow_Ret in Hl as (-> & r0 & Hr0 & Hp).
  rewrite Hr in Hr0. injection Hr0 as <-. pose proof (windowOfRow_fields _ _ _ Hp) as (_ & Est & Eq & _ & _ & _ & Eact & _).
  assert (pw_ExpiresAt p = w_expires_at r /\ pw_ReservationShape p = w_reservation_shape r) as [Ee Es]
    by (clear -Hp; unfold windowOfRow in Hp; by inv_ret).
  rewrite Est, Hst, Eact, Hact in H. apply mbindM_Ret_inv in H as (at_ & w1 & Ht & H).
  assert (w_db w1 = w_db w /\ w_tb w1 = w_tb w /\ (is_zero t = false -> at_ = t)) as (E1 & T1 & Et)
    by (destruct (is_zero t); injection Ht as <- <-; done).
  destruct (Z.ltb_spec (pw_ExpiresAt p) at_) as [|Hex]; [done|].
  rewrite Es, Eq in H. destruct (reserveWindowTiming (w_reservation_shape r) at_ (w_reserved_quantity r)) as [ex rn] eqn:Etm.
  apply mbindM_Ret_inv in H as ([] & w2 & Htx & H). apply mbindM_Ret_inv in H as (p' & w3 & Hl & H). injection H as <- <-.
  apply loadWindow_Ret in Hl as (-> & r' & Hr' & Hp').
  apply WithTx_run in Htx as (w3 & w4 & E3 & T3 & Htx & E4 & T4). unfold activateWindowTx in Htx.
  apply mbindM_Ret_inv in Htx as (n & w5 & Hs & Htx). unfold statement, ActivateBillingWindow in Hs.
  rewrite E3, E1, Hr, !bool_decide_eq_true_2 in Hs by done. cbn [andb] in Hs.
  unfold timestamptz in Hs at 1 2. destruct (is_zero at_); [done|]. destruct (is_zero ex); [done|]. simpl in Hs.
  unfold check_constraint in Hs. destruct (pg_timestamptz at_ <? pg_timestamptz ex); [|done]. injection Hs as <- <-.
  change (1 =? 0) with false in Htx. cbv iota in Htx. apply appendEvent_only in Htx as [(ev & de & jo & Ed) T5].
  rewrite E4, Ed in Hr'. simpl in Hr'. rewrite lookup_insert_eq in Hr'. injection Hr' as <-.
  split; [simpl in *; congruence|]. split.
  - exists at_. eexists. split; [rewrite E4, Ed; simpl; apply lookup_insert_eq|]. rewrite <- Ee, Etm. split_and!; done.
  - intros t'. unfold ActivateWindow. rewrite decide_False by done.
    assert (loadWindow id w2 = (Ret p', w2)) as Hl2.
    { unfold loadWindow, mbindM, query. rewrite E4, Ed. simpl. rewrite lookup_insert_eq. unfold mlift. by rewrite Hp'. }
    rewrite (mbindM_run _ _ _ _ _ Hl2). apply windowOfRow_fields in Hp' as (_ & -> & _ & _ & _ & _ & -> & _). done.
Qed.

(** Closing a settling window does not look at its ledger command: it
    succeeds, and marks the window settled, whether or not the command has
    been dispatched. *)
Theorem settling_closed_without_command id r pw (w w' : world St) :
  db_windows (w_db w) !! id = Some r -> w_state r = WSettling -> windowOfRow id r = Ret pw ->
  markWindowSettlementPosted id w = (Ret tt, w') ->
  w_tb w' = w_tb w /\ db_commands (w_db w') = db_commands (w_db w)
  /\ exists r', db_windows (w_db w') !! id = Some r' /\ w_state r' = WSettled.
Proof.
  intros Hr Hst Hpw H.
  pose proof (windowOfRow_fields _ _ _ Hpw) as (_ & Est & _).
  unfold markWindowSettlementPosted in H. apply mbindM_Ret_inv in H as (p & w1 & Hl & H).
  apply loadWindow_Ret in Hl as (-> & r0 & Hr0 & Hp). rewrite Hr in Hr0. injection Hr0 as <-.
  rewrite Hpw in Hp. injection Hp as <-. rewrite Est, Hst in H.
  apply mbindM_Ret_inv in H as (t & w1 & Ht & H).
  assert (w_db w1 = w_db w /\ w_tb w1 = w_tb w) as [E1 E2] by (destruct (pw_SettledAt pw); by injection Ht as _ <-).
  unfold WithTx in H. simpl in H. destruct (windowSettledTx pw id t _) as [[[]|e|] w2] eqn:E; [|done|done].
  apply (f_equal snd) in H. simpl in H. subst w'. simpl.
  assert (w_tb w2 = w_tb w) as Et2.
  { rewrite <- E2. unfold windowSettledTx in E. apply mbindM_Ret_inv in E as (n & w3 & Hs1 & E).
    assert (w_tb w3 = w_tb w1) as <- by (unfold statement in Hs1; repeat case_match; by simplify_eq).
    destruct (n =? 0); [by injection E as <-|]. apply mbindM_Ret_inv in E as ([] & w4 & Hs2 & E).
    injection Hs2 as <-. destruct (chargeMapsFromFundingLegs _). apply settled_events in E as [_ <-]. done. }
  apply windowSettledTx_Ret in E. simpl in E. rewrite E1 in E.
  destruct E as [[_ Hno]|(r1 & d1 & Hr1 & _ & -> & ev & de & jo & Hd)]; [by destruct (Hno r Hr)|].
  rewrite Hd. split; [done|]. split; [done|]. eexists. split; [simpl; apply lookup_insert_eq|done].
Qed.
End Calls.

(** ** The theorems on the sample run *)

Import RefLedger Sample.

Lemma reserve_window_funds_witness : exists id r, db_windows (w_db w3) !! id = Some r /\ w_state r = WReserved.
Proof.
  destruct w3_run as [res Hrun].
  destruct (reserve_window_funds 5 request w2 w3 res Hrun w2_no_window request_u32 w2_Inv) as (r & c & Hr & Hs & _).
  exists (wr_WindowID res), r. split; [exact Hr|exact Hs].
Defined.

Lemma request_seq_u32 : is_u32 (rq_WindowSeq request).
Proof. by vm_compute. Qed.

Lemma window_id_set : window_id <> "".
Proof. by vm_compute. Qed.

Lemma reserve_window_replay_witness : exists res, ReserveWindow 5 request w3 = (Ret res, w3).
Proof.
  destruct w3_run as [res Hrun].
  destruct (reserve_window_replay 5 request w2 w3 res Hrun w2_no_window request_u32 request_seq_u32 w2_Inv)
    as (res' & H & _). exists res'. exact H.
Defined.

(** The same source with another quantity. *)
Definition other_request : ReserveRequest :=
  mkRequest org product "actor" 1 "execution" "run-1" 0 "time" 90000 {["cpu" := FFin one_quanta]} 0.

Lemma other_request_valid :
  rq_ProductID other_request <> "" /\ rq_ActorID other_request <> "" /\ rq_SourceType other_request <> ""
  /\ rq_SourceRef other_request <> "" /\ orgIDText (rq_OrgID other_request) <> "" /\ rq_Allocation other_request <> ∅.
Proof. by vm_compute. Qed.

Lemma w3_fingerprint r :
  db_windows (w_db w3) !! window_id = Some r ->
  w_source_fingerprint r <> reserveSourceFingerprint other_request "time" 90000.
Proof.
  intros Hr Heq.
  assert (match db_windows (w_db w3) !! window_id with
          | Some r => str_eqb (w_source_fingerprint r) (reserveSourceFingerprint other_request "time" 90000)
          | None => true end = false) as H by (vm_compute; reflexivity).
  rewrite Hr in H. apply String.eqb_neq in H. exact (H Heq).
Qed.

Lemma reserve_window_conflict_witness : ReserveWindow 5 other_request w3 = (Err ErrWindowSourceConflict, w3).
Proof.
  destruct (state_read_row _ _ w3_reserved) as (r & pw & Hr & Hpw & Hs).
  destruct other_request_valid as (H1 & H2 & H3 & H4 & H5 & H6).
  pose proof (reserve_window_conflict 5 other_request "time" 90000 w3 window_id r pw H1 H2 H3 H4 H5 H6
    eq_refl eq_refl w3_window Hr Hpw) as H.
  rewrite decide_False in H by exact (w3_fingerprint r Hr). exact H.
Defined.

Lemma void_window_releases_witness : w_tb w5 = w_tb w3.
Proof.
  destruct (state_read_row _ _ w3_reserved) as (r & pw & Hr & _ & Hs).
  exact (proj1 (void_window_releases window_id r w3 w5 w5_run w3_Inv Hr ltac:(rewrite Hs; reflexivity))).
Defined.

Lemma closed_window_requests_witness : VoidWindow window_id w5 = (Ret tt, w5).
Proof.
  destruct (state_read_row _ _ w5_voided) as (r & pw & Hr & Hpw & Hs).
  destruct (closed_window_requests window_id r pw w5 0 ∅ base_time window_id_set Hr Hpw) as (_ & H & _).
  exact (proj1 (proj2 (H Hs))).
Defined.

Lemma settling_closed_without_command_witness : w_tb (markWindowSettlementPosted window_id w6).2 = w_tb w6.
Proof.
  destruct (state_read_row _ _ w6_settling) as (r & pw & Hr & Hpw & Hs).
  exact (proj1 (settling_closed_without_command window_id r pw w6 _ Hr Hs Hpw w6_run)).
Defined.

Definition w7 : world state := (ActivateWindow window_id zero_time w3).2.

Lemma w7_run : exists res, ActivateWindow window_id zero_time w3 = (Ret res, w7).
Proof. unfold w7. apply (run_ok (ActivateWindow window_id zero_time) w3). vm_compute. reflexivity. Qed.

Lemma w3_not_activated r : db_windows (w_db w3) !! window_id = Some r -> w_activated_at r = None.
Proof.
  intros Hr. assert (w_activated_at <$> db_windows (w_db w3) !! window_id = Some None) as H by (vm_compute; reflexivity).
  rewrite Hr in H. by injection H.
Qed.

Lemma activate_window_once_witness : exists res, ActivateWindow window_id base_time w7 = (Ret res, w7).
Proof.
  destruct (state_read_row _ _ w3_reserved) as (r & pw & Hr & _ & Hs). destruct w7_run as [res Hrun].
  destruct (activate_window_once window_id zero_time r w3 w7 res Hrun Hr Hs (w3_not_activated r Hr)) as (_ & _ & H).
  exists res. exact (H base_time).
Defined.
