(* ===== verification/PricingTheorems.v ===== *)
(** * Theorems on prices, timing and metering

    What a window costs, how long it is authorised for, and that the metering
    row of a settled window repeats its bill. *)

From S2P Require Import Prelude GoFloat GoStd GoTime GoFormat Json Types Ids Ledger Charges Grants Store Events.
From S2P Require Import LedgerCommands LedgerGrants Cycles Entitlements WindowStore Windows.

(** The charge of a positive quantity is the ceiling of the float64
    product units * quantity * rate, and it is refused exactly when that
    product is not below 2^64. *)
Theorem charge_is_ceiling units rate quantity n c :
  is_u64 rate -> is_u32 quantity -> rate <> 0 -> quantity <> 0 -> units = FFin n -> 0 < n ->
  chargeUnitsForQuantity units rate quantity = Ret c <->
  exists p, charge_product units rate quantity = FFin p /\ 0 <= p < 2 ^ 64 * one_quanta
    /\ (c - 1) * one_quanta < p <= c * one_quanta.
Proof.
  intros Hr Hq Hr0 Hq0 Hu Hn. rewrite (chargeUnits_positive _ _ _ Hr Hq Hr0 Hq0 c n Hu Hn).
  pose proof one_quanta_pos as Ho. split.
  - intros (p & E & Hp & _ & ->). exists p. split; [done|]. split; [done|].
    pose proof (Z.div_mod (- p) one_quanta ltac:(lia)). pose proof (Z.mod_pos_bound (- p) one_quanta Ho). nia.
  - intros (p & E & Hp & Hc). exists p. split; [done|]. split; [done|].
    assert (c = - (- p / one_quanta)) as -> by
      (pose proof (Z.div_mod (- p) one_quanta ltac:(lia)); pose proof (Z.mod_pos_bound (- p) one_quanta Ho); nia).
    split; [|done]. destruct (f64_of_Z_fin rate Hr) as [Er Hr']. unfold charge_product in E.
    assert (is_u64 quantity) as Hq64 by (unfold is_u64, is_u32, u32_max, u64_max in *; lia).
    destruct (f64_of_Z_fin quantity Hq64) as [Eq Hq']. rewrite Er, Hu in E.
    destruct (f64_mul_fin_r _ _ _ E) as [k Hk]. rewrite Hk in E. rewrite Eq in Hk.
    rewrite f64_mul_nonneg in Hk by lia. apply mk_f64_fin in Hk as [-> _].
    assert (0 <= round_nonneg (n * round_nonneg (quantity * one_quanta) 1) one_quanta) by (apply round_nonneg_nonneg; nia).
    rewrite f64_mul_nonneg in E by done. apply mk_f64_fin in E as [-> _]. apply round_representable; nia.
Qed.

Lemma sample_product : charge_product (FFin one_quanta) 7 20 = FFin (140 * one_quanta).
Proof. vm_compute. reflexivity. Qed.

Lemma charge_is_ceiling_witness : chargeUnitsForQuantity (FFin one_quanta) 7 20 = Ret 140.
Proof.
  apply (charge_is_ceiling (FFin one_quanta) 7 20 one_quanta 140);
    [unfold is_u64, u64_max; lia|unfold is_u32, u32_max; lia|done|done|reflexivity|exact one_quanta_pos|].
  exists (140 * one_quanta). split; [exact sample_product|]. pose proof one_quanta_pos. lia.
Defined.

(** C20: A window that can be priced for a quantity can be priced for every
    smaller quantity, and no component, bucket or per-unit cost is larger
    there. *)
Theorem window_charges_monotone alloc rates buckets q1 q2 c2 :
  (forall sku r, rates !! sku = Some r -> is_u64 r) -> is_u32 q1 -> is_u32 q2 -> q1 <= q2 ->
  computeWindowCharges alloc rates buckets q2 = Ret c2 ->
  exists c1, computeWindowCharges alloc rates buckets q1 = Ret c1 /\ charges_le c1 c2.
Proof. apply computeWindowCharges_mono. Qed.

Definition sample_rates : gmap string Z := {["cpu" := 7]}.
Definition sample_alloc : gmap string f64 := {["cpu" := FFin one_quanta]}.
Definition sample_result : windowCharges := mkCharges {["cpu" := 140]} {["" := 140]} 7.

Lemma sample_rates_u64 : forall sku r, sample_rates !! sku = Some r -> is_u64 r.
Proof. intros sku r H. unfold sample_rates in H. apply lookup_singleton_Some in H as [<- <-]. unfold is_u64, u64_max. lia. Qed.

Lemma sample_priced : computeWindowCharges sample_alloc sample_rates ∅ 20 = Ret sample_result.
Proof. vm_compute. reflexivity. Qed.

Lemma window_charges_monotone_witness :
  exists c1, computeWindowCharges sample_alloc sample_rates ∅ 10 = Ret c1
    /\ charges_le c1 sample_result.
Proof.
  apply (window_charges_monotone sample_alloc sample_rates ∅ 10 20);
    [exact sample_rates_u64|unfold is_u32, u32_max; lia|unfold is_u32, u32_max; lia|lia|exact sample_priced].
Defined.

(** The result of pricing a window does not depend on the order in which
    Go visits the allocation map: either every order fails or all give the
    same charges. *)
Theorem window_charges_any_order alloc rates buckets q order :
  (forall sku r, rates !! sku = Some r -> is_u64 r) -> is_u32 q -> order ≡ₚ map_to_list alloc ->
  same_result (computeWindowCharges_in order rates buckets q) (computeWindowCharges alloc rates buckets q).
Proof.
  intros Hr Hq Hp. apply compute_order; [done|done| |done]. rewrite Hp. apply NoDup_fst_map_to_list.
Qed.

Lemma window_charges_any_order_witness :
  same_result (computeWindowCharges_in [("cpu"%string, FFin one_quanta)] sample_rates ∅ 20)
    (computeWindowCharges sample_alloc sample_rates ∅ 20).
Proof.
  apply (window_charges_any_order sample_alloc sample_rates ∅ 20 [("cpu"%string, FFin one_quanta)]);
    [exact sample_rates_u64|unfold is_u32, u32_max; lia|]. unfold sample_alloc. by rewrite map_to_list_singleton.
Defined.

(** Every component and bucket charge is a uint64, the buckets partition
    the components, and each component is the charge of its own SKU. *)
Theorem window_charges_partition alloc rates bks q c :
  (forall sku r, rates !! sku = Some r -> is_u64 r) -> is_u32 q ->
  computeWindowCharges alloc rates bks q = Ret c ->
  nonneg_map (components c) /\ nonneg_map (buckets c) /\ msum (buckets c) = msum (components c)
  /\ forall sku v, components c !! sku = Some v <->
       exists u rate, alloc !! sku = Some u /\ rates !! sku = Some rate /\ chargeUnitsForQuantity u rate q = Ret v.
Proof.
  intros Hr Hq H. destruct (computeWindowCharges_sums _ _ _ _ _ Hr Hq H) as (H1 & H2 & H3).
  split; [done|]. split; [done|]. split; [done|]. intros sku v. by eapply computeWindowCharges_components.
Qed.

Lemma window_charges_partition_witness :
  msum (buckets sample_result) = msum (components sample_result).
Proof.
  destruct (window_charges_partition sample_alloc sample_rates ∅ 20 sample_result) as (_ & _ & E & _);
    [exact sample_rates_u64|unfold is_u32, u32_max; lia|exact sample_priced|exact E].
Defined.

(** A reservation is authorised for a positive time, for exactly the
    reserved time when its shape is time, and asks to be renewed ten to thirty
    seconds before it expires. *)
Theorem reservation_timing shape requested q now expires renew :
  0 <= requested -> reserveWindowQuantity shape requested = Ret q -> reserveWindowTiming shape now q = (expires, renew) ->
  now < renew < expires /\ 10000 * millisecond <= expires - renew <= 30000 * millisecond
  /\ (shape = ReservationShapeTime -> expires = now + q * millisecond)
  /\ (shape = ReservationShapeCount -> expires = now + defaultWindowMillis * millisecond).
Proof.
  unfold reserveWindowQuantity, reserveWindowTiming, windowRenewBeforeMillis, defaultWindowMillis, minCustomWindowMillis,
    defaultRenewBefore, minRenewBeforeMillis, ReservationShapeTime, ReservationShapeCount.
  intros H0 Hq Ht.
  set (a := if decide (shape = "count") then 5 * 60 * 1000 else q) in *.
  assert (30000 <= a /\ (shape = "time" -> a = q) /\ (shape = "count" -> a = 5 * 60 * 1000)) as (Ha & Ha1 & Ha2).
  { unfold a. destruct (decide (shape = "time")) as [->|Hne].
    - rewrite decide_False by done. repeat case_bool; inv_ret; zbool; try discriminate; try injection Hq as <-; repeat split; (lia || done).
    - destruct (decide (shape = "count")) as [->|]; [|done]. repeat split; (lia || done). }
  clearbody a. set (lead := a / 3) in *.
  assert (3 * lead <= a < 3 * lead + 3) as Hl.
  { unfold lead. pose proof (Z.div_mod a 3 ltac:(lia)). pose proof (Z.mod_pos_bound a 3 ltac:(lia)). lia. }
  clearbody lead. unfold millisecond, microsecond in *.
  destruct (Z.ltb_spec lead (5 * 1000)); [lia|].
  destruct (Z.ltb_spec (30 * 1000) lead).
  - destruct (Z.leb_spec a (30 * 1000)); [lia|]. destruct (Z.ltb_spec now (now + a * (1000 * 1000) - 30 * 1000 * (1000 * 1000))); [|lia].
    injection Ht as <- <-. repeat split; try lia; intros E; [rewrite (Ha1 E)|rewrite (Ha2 E)]; lia.
  - destruct (Z.leb_spec a lead); [lia|]. destruct (Z.ltb_spec now (now + a * (1000 * 1000) - lead * (1000 * 1000))); [|lia].
    injection Ht as <- <-. repeat split; try lia; intros E; [rewrite (Ha1 E)|rewrite (Ha2 E)]; lia.
Qed.

Lemma reservation_timing_witness :
  0 < 40000 * millisecond < 60000 * millisecond.
Proof.
  destruct (reservation_timing "time" 60000 60000 0 (60000 * millisecond) (40000 * millisecond)) as (H & _);
    [lia|reflexivity|reflexivity|exact H].
Defined.

(** ** Metering *)

Lemma metering_fold w q order st ms c :
  q = pw_BillableQuantity w -> mc_components ms = components st -> mc_buckets ms = buckets st ->
  outcome_fold (charge_step (SKURates (pw_RateContext w)) (SKUBuckets (pw_RateContext w)) q) st order = Ret c ->
  exists m, outcome_fold (metering_step w) ms order = Ret m /\ mc_components m = components c /\ mc_buckets m = buckets c.
Proof.
  intros Hq. revert st ms. induction order as [|[k u] order IH]; intros st ms E1 E2 H; simpl in H.
  { injection H as <-. by exists ms. }
  apply obind_Ret_inv in H as (st1 & Hs & H).
  apply charge_step_Ret in Hs as (rate & pu & ch & Hr & _ & Hc & _ & Hb & ->).
  simpl. rewrite Hr, <- Hq, Hc. simpl. rewrite E2.
  rewrite (proj2 (addChargeUnits_Ret _ _ _) (conj eq_refl Hb)). simpl.
  eapply IH; [| |exact H]; simpl; congruence.
Qed.

(** The metering row of a window carries the quantities and totals of the
    window, and its component and bucket charges are the ones the window was
    billed for. *)
Theorem metering_repeats_bill `{Env} w recordedAt c :
  computeWindowCharges (pw_Allocation w) (SKURates (pw_RateContext w)) (SKUBuckets (pw_RateContext w))
    (pw_BillableQuantity w) = Ret c ->
  exists row, meteringRowForWindow w recordedAt = Ret row
    /\ m_ComponentChargeUnits row = components c /\ m_BucketChargeUnits row = buckets c
    /\ m_WindowID row = pw_WindowID w /\ m_BillableQuantity row = pw_BillableQuantity w
    /\ m_WriteoffQuantity row = pw_WriteoffQuantity w /\ m_ChargeUnits row = pw_BilledChargeUnits w
    /\ m_WriteoffChargeUnits row = pw_WriteoffChargeUnits w /\ m_RecordedAt row = recordedAt.
Proof.
  intros Hc. unfold computeWindowCharges, computeWindowCharges_in in Hc.
  destruct (metering_fold w _ _ _ (mkMeteringCharges ∅ ∅ ∅) _ eq_refl eq_refl eq_refl Hc) as (m & Hm & E1 & E2).
  unfold meteringRowForWindow.
  assert (outcome_fold (metering_step w) (mkMeteringCharges ∅ ∅ ∅) (map_to_list (pw_Allocation w)) = Ret m) as -> by exact Hm. simpl. eexists. split; [done|]. simpl. done.
Qed.

Definition sample_window : persistedWindow :=
  mkWindow "win" "cycle" "org" "actor" "vm" "" "" "plan" "execution" "run-1" "fp" 0 WSettled "time" 60 20 20 0 420 140 0
    "included" sample_alloc (mkPricing "plan" "metered" "" "" "block" "usd" sample_rates ∅ ∅ ∅ ∅ ∅ 7) ∅ [] 0 None 1 None None 0.

#[local] Instance sample_env : Env := {|
  now_at n := Z.of_nat n; id_at n := zeroID; ledger_configured := true; runtime_configured := false; stripe_configured := false;
  clickhouse_configured := true; clickhouse_accepts _ := true; float_overflow _ := 0 |}.

Lemma metering_repeats_bill_witness :
  exists row, meteringRowForWindow sample_window 5 = Ret row /\ m_ComponentChargeUnits row = {["cpu" := 140]}
    /\ m_ChargeUnits row = 140.
Proof.
  destruct (metering_repeats_bill sample_window 5 sample_result sample_priced) as (row & H1 & H2 & _ & _ & _ & _ & H3 & _).
  exists row. split; [exact H1|]. split; [exact H2|exact H3].
Defined.
