(* ===== verification/FundingTheorems.v ===== *)
(** * Theorems on funding

    The waterfall over the grants of an organisation: it funds exactly the
    charge or fails for want of funds, never draws more than the ledger holds
    beyond what is already authorised, and uses grants in priority order. *)

From S2P Require Import Prelude GoFloat GoStd GoTime Types Ids Ledger Charges Grants.

(** ** Sample data *)

Definition sample_grant (gid : string) (source : string) (available : Z) : GrantBalance :=
  mkGrant "org" gid "account" "" "" "" source "ref" "" "v1" "" "" "" 0 None None None available 0 available 0 0 zeroID.

Definition sample_pricing : pricingContext := mkPricing "plan" "metered" "" "" "block" "usd" {["cpu" := 7]} ∅ ∅ ∅ ∅ ∅ 7.
Definition contract_pricing : pricingContext :=
  mkPricing "plan" "metered" "ct" "ph" "bill_published_rate" "usd" {["cpu" := 7]} ∅ ∅ ∅ ∅ ∅ 7.
Definition sample_charges : gmap string Z := {["cpu" := 70]}.
Definition sample_grants : list GrantBalance := [sample_grant "g1" "free_tier" 50; sample_grant "g2" "purchase" 100].

Lemma sample_charges_nonneg : nonneg_map sample_charges.
Proof. intros k v H. unfold sample_charges in H. apply lookup_singleton_Some in H as [<- <-]. unfold u64_max. lia. Qed.

Lemma sample_charges_sum : msum sample_charges <= u64_max.
Proof. vm_compute. discriminate. Qed.

Lemma sample_grants_wf : wf_grants sample_grants.
Proof. repeat constructor; simpl; lia. Qed.

(** When a reservation is authorised, its legs fund every component for
    exactly its charge; receivable legs appear only under a contract whose
    policy bills overage at the published rate. *)
Theorem authorization_exact p charges pricing gs gs' ls legs :
  nonneg_map charges -> msum charges <= u64_max -> wf_grants gs ->
  fundReservation p charges pricing gs = (gs', ls) -> authorizeLegs charges pricing ls = Ret legs ->
  (forall s, sku_funded legs s = map_u64 charges s)
  /\ exists rs, legs = ls ++ rs /\ Forall (is_receivable pricing) rs
     /\ (rs <> [] -> ContractID pricing <> "" /\ OveragePolicy pricing = "bill_published_rate").
Proof. apply authorizeLegs_exact. Qed.

Lemma authorization_exact_witness :
  sku_funded (fundReservation "vm" sample_charges sample_pricing sample_grants).2 "cpu" = 70.
Proof.
  destruct (authorization_exact "vm" sample_charges sample_pricing sample_grants
    (fundReservation "vm" sample_charges sample_pricing sample_grants).1
    (fundReservation "vm" sample_charges sample_pricing sample_grants).2
    (fundReservation "vm" sample_charges sample_pricing sample_grants).2
    sample_charges_nonneg sample_charges_sum sample_grants_wf eq_refl eq_refl) as [H _].
  exact (H "cpu"%string).
Defined.

(** C21: A reservation is refused for insufficient balance only when no
    overage may be billed and some component stays short although every grant
    that covers it is used up. *)
Theorem refusal_means_exhausted p charges pricing gs gs' ls e :
  nonneg_map charges -> msum charges <= u64_max -> wf_grants gs ->
  fundReservation p charges pricing gs = (gs', ls) -> authorizeLegs charges pricing ls = Err e ->
  e = ErrInsufficientBalance
  /\ (ContractID pricing = "" \/ OveragePolicy pricing <> "bill_published_rate")
  /\ exists s, sku_funded ls s < map_u64 charges s /\ exhausted p (map_str (SKUBuckets pricing) s) s gs'.
Proof. apply authorizeLegs_Err. Qed.

Lemma refusal_means_exhausted_witness :
  exists s, sku_funded (fundReservation "vm" sample_charges sample_pricing [sample_grant "g1" "free_tier" 50]).2 s
            < map_u64 sample_charges s.
Proof.
  assert (wf_grants [sample_grant "g1" "free_tier" 50]) as Hw by (repeat constructor; simpl; lia).
  destruct (refusal_means_exhausted "vm" sample_charges sample_pricing [sample_grant "g1" "free_tier" 50]
    (fundReservation "vm" sample_charges sample_pricing [sample_grant "g1" "free_tier" 50]).1
    (fundReservation "vm" sample_charges sample_pricing [sample_grant "g1" "free_tier" 50]).2 ErrInsufficientBalance
    sample_charges_nonneg sample_charges_sum Hw eq_refl eq_refl) as (_ & _ & s & H & _).
  exists s. exact H.
Defined.

(** ** Holds *)

Lemma holdAuthorized_max m g :
  0 <= gb_Available g -> 0 <= map_u64 m (gb_GrantID g) ->
  gb_Available (holdAuthorized m g) = Z.max 0 (gb_Available g - map_u64 m (gb_GrantID g))
  /\ gb_GrantID (holdAuthorized m g) = gb_GrantID g.
Proof.
  intros Hg Hm. unfold holdAuthorized. destruct (Z.eqb_spec (map_u64 m (gb_GrantID g)) 0); [split; [lia|done]|].
  destruct (Z.leb_spec (gb_Available g) (map_u64 m (gb_GrantID g))); simpl; split; (lia || done).
Qed.

Lemma grant_available_perm gs gs' gid : gs ≡ₚ gs' -> grant_available gs gid = grant_available gs' gid.
Proof. intros H. unfold grant_available. by rewrite H. Qed.

Lemma grant_available_unique gs g :
  NoDup (gb_GrantID <$> gs) -> g ∈ gs -> grant_available gs (gb_GrantID g) = gb_Available g.
Proof.
  induction gs as [|x gs IH]; intros Hnd Hin; [by apply elem_of_nil in Hin|]. rewrite fmap_cons in Hnd.
  apply NoDup_cons in Hnd as [Hx Hnd]. rewrite grant_available_cons.
  apply elem_of_cons in Hin as [->|Hin].
  - rewrite decide_True by done. assert (grant_available gs (gb_GrantID x) = 0) as ->; [|lia].
    unfold grant_available. clear -Hx. induction gs as [|y gs IH]; [done|]. rewrite fmap_cons in Hx.
    apply not_elem_of_cons in Hx as [Hne Hx]. rewrite filter_cons, decide_False by congruence. by apply IH.
  - rewrite decide_False; [rewrite IH by done; lia|]. intros E. apply Hx. rewrite E. by apply list_elem_of_fmap_2.
Qed.

Lemma grant_available_nonneg gs gid : wf_grants gs -> 0 <= grant_available gs gid.
Proof.
  intros Hw. apply zsum_nonneg, Forall_fmap, Forall_forall. intros g [_ Hg]%list_elem_of_filter.
  unfold wf_grants in Hw. rewrite Forall_forall in Hw. by apply Hw.
Qed.

(** C7: What a reservation draws from a grant never exceeds the grant's
    ledger balance less the amount already authorised for windows that are
    not settled yet. *)
Theorem reservation_never_overdraws p charges pricing authorized gs gs' ls g :
  nonneg_map charges -> wf_grants gs -> NoDup (gb_GrantID <$> gs) -> (forall gid, 0 <= map_u64 authorized gid) ->
  fundReservation p charges pricing (grantsByFundingPriority (holdAuthorized authorized <$> gs)) = (gs', ls) ->
  g ∈ gs -> grant_drawn ls (gb_GrantID g) <= Z.max 0 (gb_Available g - map_u64 authorized (gb_GrantID g)).
Proof.
  intros Hn Hw Hnd Ha Hf Hg. unfold wf_grants in Hw. rewrite Forall_forall in Hw.
  set (held := holdAuthorized authorized <$> gs) in *.
  assert (forall x, x ∈ gs -> gb_Available (holdAuthorized authorized x) = Z.max 0 (gb_Available x - map_u64 authorized (gb_GrantID x))
    /\ gb_GrantID (holdAuthorized authorized x) = gb_GrantID x) as Hh by (intros x Hx; apply holdAuthorized_max; [by apply Hw|done]).
  assert (wf_grants (grantsByFundingPriority held)) as Hwh.
  { unfold wf_grants, grantsByFundingPriority. rewrite sort_slice_perm. unfold held. apply Forall_fmap, Forall_forall.
    intros x Hx. simpl. destruct (Hh x Hx) as [-> _]. lia. }
  pose proof (fundReservation_spec p charges pricing Hn _ _ _ Hwh Hf) as [R1 R2 R3 R4 R5].
  specialize (R5 (gb_GrantID g)).
  assert (grant_available (grantsByFundingPriority held) (gb_GrantID g)
          = Z.max 0 (gb_Available g - map_u64 authorized (gb_GrantID g))) as E.
  { rewrite (grant_available_perm _ held) by apply sort_slice_perm. destruct (Hh g Hg) as [<- Eid]. rewrite <- Eid.
    apply grant_available_unique; [|by apply list_elem_of_fmap_2]. unfold held. rewrite <- list_fmap_compose.
    assert ((gb_GrantID ∘ holdAuthorized authorized) <$> gs = gb_GrantID <$> gs) as ->; [|done].
    apply list_fmap_ext. intros i x Hx. simpl. apply Hh. by eapply list_elem_of_lookup_2. }
  pose proof (grant_available_nonneg gs' (gb_GrantID g) (reduced_wf _ _ R1)). lia.
Qed.

Lemma reservation_never_overdraws_witness :
  grant_drawn (fundReservation "vm" sample_charges sample_pricing
    (grantsByFundingPriority (holdAuthorized {["g1" := 20]} <$> sample_grants))).2 "g1"
  <= Z.max 0 (50 - map_u64 {["g1" := 20]} "g1").
Proof.
  apply (reservation_never_overdraws "vm" sample_charges sample_pricing {["g1" := 20]} sample_grants
    (fundReservation "vm" sample_charges sample_pricing
      (grantsByFundingPriority (holdAuthorized {["g1" := 20]} <$> sample_grants))).1 _ (sample_grant "g1" "free_tier" 50)
    sample_charges_nonneg sample_grants_wf).
  - apply NoDup_cons. split; [|apply NoDup_singleton]. simpl. rewrite list_elem_of_singleton. discriminate.
  - intros gid. unfold map_u64. destruct (decide (gid = "g1"%string)) as [->|Hne];
      [rewrite lookup_singleton_eq; simpl; lia|rewrite lookup_singleton_ne by congruence; simpl; lia].
  - reflexivity.
  - apply elem_of_cons. by left.
Defined.

(** ** Priority *)

(** What a component leaves untouched or draws down, position by position. *)
Lemma fundComponent_order p b s r gs r' gs' ls i j gi' gj gj' :
  0 <= r -> wf_grants gs -> fundComponent p b s r gs = (r', gs', ls) -> (i < j)%nat ->
  gs' !! i = Some gi' -> gs !! j = Some gj -> gs' !! j = Some gj' -> gb_Available gj' < gb_Available gj ->
  grantCoversSKU gi' p b s = true -> gb_Available gi' = 0.
Proof.
  intros Hr Hw. revert r r' gs' ls i j Hr. induction Hw as [|g gs Hg Hw IH]; intros r r' gs' ls i j Hr E Hij Hi Hj Hj' Hlt Hc;
    simpl in E; [by injection E as <- <- <-|].
  destruct (Z.eqb_spec r 0) as [->|Hr0]; [injection E as <- <- <-; rewrite Hj in Hj'; injection Hj' as <-; lia|].
  destruct j as [|j]; [lia|].
  destruct ((gb_Available g =? 0) || negb (grantCoversSKU g p b s)) eqn:Hskip.
  - destruct (fundComponent p b s r gs) as [[r1 gs1] ls1] eqn:E1. injection E as <- <- <-.
    destruct i as [|i]; [|by apply (IH _ _ _ _ i j Hr E1 ltac:(lia) Hi Hj Hj' Hlt Hc)].
    injection Hi as <-. rewrite Hc in Hskip. apply orb_true_iff in Hskip as [H|H]; [by zbool|done].
  - destruct (fundComponent p b s (r - minUint64 r (gb_Available g)) gs) as [[r1 gs1] ls1] eqn:E1. injection E as <- <- <-.
    assert (0 <= r - minUint64 r (gb_Available g)) as Hr1 by (unfold minUint64; destruct (Z.ltb_spec r (gb_Available g)); lia).
    destruct i as [|i]; [|by apply (IH _ _ _ _ i j Hr1 E1 ltac:(lia) Hi Hj Hj' Hlt Hc)].
    injection Hi as <-. simpl in *. unfold minUint64 in *. destruct (Z.ltb_spec r (gb_Available g)); [|lia].
    replace (r - r) with 0 in E1 by lia.
    assert (gs1 = gs) as -> by (destruct gs; simpl in E1; by injection E1 as <- <- <-).
    rewrite Hj in Hj'. injection Hj' as <-. lia.
Qed.

(** Grants are used in priority order (source, then scope, plan tier,
    start and id): a component draws on a grant only after every grant of
    higher priority that covers it is empty. *)
Theorem waterfall_priority p b s r gs r' gs' ls i j gi' gj gj' :
  0 <= r -> wf_grants gs -> fundComponent p b s r (grantsByFundingPriority gs) = (r', gs', ls) -> (i < j)%nat ->
  gs' !! i = Some gi' -> grantsByFundingPriority gs !! j = Some gj -> gs' !! j = Some gj' ->
  gb_Available gj' < gb_Available gj -> grantCoversSKU gi' p b s = true ->
  gb_Available gi' = 0 /\ StronglySorted (not_after grantsLess) (grantsByFundingPriority gs).
Proof.
  intros Hr Hw E Hij Hi Hj Hj' Hlt Hc. split.
  - eapply fundComponent_order; [exact Hr| |exact E|exact Hij|exact Hi|exact Hj|exact Hj'|exact Hlt|exact Hc].
    unfold wf_grants, grantsByFundingPriority. by rewrite sort_slice_perm.
  - unfold grantsByFundingPriority. apply sort_sorted. unfold grantsLess. apply _.
Qed.

Lemma waterfall_priority_witness :
  gb_Available (set_Available (sample_grant "g1" "free_tier" 50) 0) = 0.
Proof.
  apply (waterfall_priority "vm" "" "cpu" 70 sample_grants 0
    [set_Available (sample_grant "g1" "free_tier" 50) 0; set_Available (sample_grant "g2" "purchase" 100) 80]
    [grantLeg (sample_grant "g1" "free_tier" 50) 50 "cpu" ""; grantLeg (sample_grant "g2" "purchase" 100) 20 "cpu" ""]
    0 1 (set_Available (sample_grant "g1" "free_tier" 50) 0) (sample_grant "g2" "purchase" 100)
    (set_Available (sample_grant "g2" "purchase" 100) 80));
    [lia|exact sample_grants_wf|reflexivity|lia|reflexivity|reflexivity|reflexivity|simpl; lia|reflexivity].
Defined.

(** The total that authorises a reservation is a uint64 sum that wraps:
    charges of 2^63 in two buckets pass as zero, and the reservation is
    authorised without a single leg. *)
Theorem authorization_total_wraps :
  authorizeLegs {["cpu" := 2 ^ 63; "disk" := 2 ^ 63]} sample_pricing [] = Ret []
  /\ sumUint64Map {["cpu" := 2 ^ 63; "disk" := 2 ^ 63]} = 0.
Proof. split; reflexivity. Qed.
