(* ===== verification/LedgerTheorems.v ===== *)
(** * Theorems on the ledger

    The client of TigerBeetle, the outbox of ledger commands, grant deposits
    and the reconciliation with the database. *)

From stdpp Require Import relations.
From S2P Require Import Prelude GoFloat GoStd GoTime GoFormat Json Types Ids Ledger Charges Grants Store Events.
From S2P Require Import LedgerCommands LedgerGrants Cycles Entitlements WindowStore Windows Dispatcher Finalizations.
From S2P Require Import Samples Frames.
From S2P Require Import Legs WindowInv PrepareTx ReserveTx WindowSystem Settlement SampleRun.

(** ** The client *)

Section Client.
Context {St : Type} `{HC : TBCodec} `{!TigerBeetle St}.

(** A dispatch that succeeds has sent a valid payload, and every transfer
    of it that neither posts nor voids a pending one is stored as sent. *)
Theorem dispatch_stores_transfers connected payload (s s' : St) :
  Dispatch connected payload s = (Ret tt, s') ->
  exists ts, payloadTransfers (cp_Transfers payload) = Ret ts
    /\ (Forall direct_transfer ts -> forall t, t ∈ ts -> tb_transfer s' (tr_ID t) = Some t).
Proof.
  intros H. pose proof H as (_ & _ & _ & s1 & _ & Ht)%Dispatch_inv. unfold dispatch_transfers in Ht.
  assert (exists ts, payloadTransfers (cp_Transfers payload) = Ret ts) as [ts Hts].
  { destruct (cp_Transfers payload) as [|t l]; [by exists []|].
    apply mbindM_Ret_inv in Ht as (ts & s2 & Hm & _). unfold mlift in Hm. injection Hm as Hm _. by exists ts. }
  exists ts. split; [done|]. intros Hd. by eapply Dispatch_stored.
Qed.

(** Whatever its outcome, a dispatch leaves every stored transfer as it
    was, and stores no transfer but the ones of its payload. *)
Theorem dispatch_only_appends connected payload (s : St) id t :
  (tb_transfer s id = Some t -> tb_transfer (Dispatch connected payload s).2 id = Some t)
  /\ (tb_transfer (Dispatch connected payload s).2 id = Some t ->
      tb_transfer s id = Some t
      \/ exists ts, payloadTransfers (cp_Transfers payload) = Ret ts /\ t ∈ ts /\ tr_ID t = id).
Proof. split; [apply Dispatch_transfer_immutable|apply Dispatch_transfer_origin]. Qed.

(** Linking a chain sets the linked flag on every transfer but the last,
    changes no other flag and nothing of what a transfer moves, and linking
    again changes nothing. *)
Theorem link_transfers_chain l :
  length (LinkTransfers l) = length l /\ LinkTransfers (LinkTransfers l) = LinkTransfers l
  /\ forall i t t', l !! i = Some t -> LinkTransfers l !! i = Some t' ->
     let f := transferFlagsFromUint16 (tp_Flags t) in
     let f' := transferFlagsFromUint16 (tp_Flags t') in
     Linked f' = bool_decide (S i < length l)%nat /\ Pending f' = Pending f
     /\ PostPendingTransfer f' = PostPendingTransfer f /\ VoidPendingTransfer f' = VoidPendingTransfer f
     /\ tp_ID t' = tp_ID t /\ tp_DebitAccountID t' = tp_DebitAccountID t
     /\ tp_CreditAccountID t' = tp_CreditAccountID t /\ tp_Amount t' = tp_Amount t.
Proof.
  split; [apply LinkTransfers_length|]. split; [apply LinkTransfers_idempotent|].
  intros i t t' Ht Ht'. apply LinkTransfers_lookup in Ht' as (t0 & Ht0 & ->). rewrite Ht in Ht0. injection Ht0 as <-. cbv zeta.
  destruct (link_one_flags (length l) i t) as (E1 & E2 & E3 & E4). rewrite E1, E2, E3, E4.
  destruct (link_one_fields (length l) i t) as (F1 & F2 & F3 & F4 & _).
  split; [|by repeat split]. apply bool_decide_ext. apply lookup_lt_Some in Ht. lia.
Qed.

(** A transfer that passes validation has a non-zero id, the parsed
    accounts and amount of its payload, a positive amount unless it voids, a
    ledger and a code; a pending transfer names no pending id, and posting or
    voiding names one. *)
Theorem valid_transfer_payload t tr :
  payloadTransfer t = Ret tr ->
  let flags := transferFlagsFromUint16 (tp_Flags t) in
  ParseID (tp_ID t) = Ret (tr_ID tr) /\ ParseID (tp_DebitAccountID t) = Ret (tr_DebitAccountID tr)
  /\ ParseID (tp_CreditAccountID t) = Ret (tr_CreditAccountID tr)
  /\ tr_Amount tr = tp_Amount t /\ IsZero (tr_ID tr) = false
  /\ (tp_Amount t = 0 -> VoidPendingTransfer flags = true)
  /\ tr_Ledger tr <> 0 /\ tr_Code tr <> 0
  /\ (Pending flags = true -> IsZero (tr_PendingID tr) = true)
  /\ (PostPendingTransfer flags = true \/ VoidPendingTransfer flags = true -> IsZero (tr_PendingID tr) = false).
Proof. apply payloadTransfer_Ret. Qed.
End Client.

(** Ids survive the text form they are stored in: parsing the text of an
    id gives the id back, whatever parses is sixteen bytes, and different ids
    have different texts. *)
Theorem ledger_ids_roundtrip id id' s :
  wf_id id -> wf_id id' ->
  ParseID (IDString id) = Ret id /\ (IDString id = IDString id' -> id = id') /\ (ParseID s = Ret id' -> length id' = 16%nat).
Proof.
  intros H H'. split; [by apply ParseID_IDString|]. split; [by apply IDString_inj|]. intros Hp. by destruct (ParseID_wf _ _ Hp).
Qed.

Lemma ledger_ids_roundtrip_witness : ParseID (IDString (replicate 15 0 ++ [7])) = Ret (replicate 15 0 ++ [7]).
Proof.
  assert (wf_id (replicate 15 0 ++ [7])) as H.
  { split; [reflexivity|]. repeat (constructor; [unfold is_byte; lia|]). constructor. }
  exact (proj1 (ledger_ids_roundtrip (replicate 15 0 ++ [7]) (replicate 15 0 ++ [7]) "" H H)).
Defined.

(** The spendable balance of an account is its posted credits less its
    posted and pending debits, and it is refused exactly when that is negative
    or the credits do not fit a uint64. *)
Theorem available_balance a z :
  wf_tbAccount a ->
  availableFromAccount a = Ret z <->
  z = le_value (CreditsPosted a) - (le_value (DebitsPosted a) + le_value (DebitsPending a))
  /\ 0 <= z /\ le_value (CreditsPosted a) <= u64_max.
Proof. apply availableFromAccount_Ret. Qed.

Definition sample_account : tbAccount :=
  mkTbAccount zeroID zeroID 0 0 1 1 0 (RefLedger.u128_of 5) (RefLedger.u128_of 20) (RefLedger.u128_of 0) (RefLedger.u128_of 300).

Lemma u128_of_wf z : wf_u128 (RefLedger.u128_of z).
Proof.
  split; [done|]. apply Forall_fmap, Forall_forall. intros i _. simpl. unfold is_byte.
  pose proof (Z.mod_pos_bound (z / 256 ^ Z.of_nat i) 256). lia.
Qed.

Lemma available_balance_witness : availableFromAccount sample_account = Ret 275.
Proof.
  apply (available_balance sample_account 275).
  - unfold wf_tbAccount. simpl. auto using u128_of_wf.
  - vm_compute. split; [reflexivity|]. split; discriminate.
Defined.

Import RefLedger.

(** Two accounts and a transfer between them. *)
Definition sample_payload : CommandPayload :=
  mkCommandPayload
    [mkAccountPayload (IDString (replicate 15 0 ++ [8])) "" 0 0 1 9 0; mkAccountPayload (IDString (replicate 15 0 ++ [9])) "" 0 0 1 9 0]
    [GrantDepositTransfer (replicate 15 0 ++ [7]) (replicate 15 0 ++ [8]) (replicate 15 0 ++ [9]) 5 zeroID 0].

Definition sample_sent : tbTransfer :=
  mkTbTransfer (replicate 15 0 ++ [7]) (replicate 15 0 ++ [8]) (replicate 15 0 ++ [9]) 5 zeroID zeroID 0 0 0 1 1 0.

Lemma dispatch_stores_transfers_witness :
  tb_transfer (Dispatch true sample_payload RefLedger.empty).2 (replicate 15 0 ++ [7]) = Some sample_sent.
Proof.
  destruct (dispatch_stores_transfers true sample_payload empty
    (Dispatch true sample_payload RefLedger.empty).2) as (ts & Hts & H); [vm_compute; reflexivity|].
  assert (payloadTransfers (cp_Transfers sample_payload) = Ret [sample_sent]) as E by (vm_compute; reflexivity).
  rewrite E in Hts. injection Hts as <-. apply (H ltac:(repeat constructor) sample_sent). constructor.
Defined.

Definition sample_transfer : TransferPayload :=
  UsageSpendTransfer (replicate 15 0 ++ [7]) (replicate 15 0 ++ [8]) (replicate 15 0 ++ [9]) 5 zeroID 0.

Lemma valid_transfer_payload_witness :
  IsZero (replicate 15 0 ++ [7]) = false.
Proof.
  destruct (valid_transfer_payload sample_transfer
    (mkTbTransfer (replicate 15 0 ++ [7]) (replicate 15 0 ++ [8]) (replicate 15 0 ++ [9]) 5 zeroID zeroID 0 0 0 1 2 0))
    as (_ & _ & _ & _ & H & _); [vm_compute; reflexivity|exact H].
Defined.

(** ** Reconciliation *)

(** Reconciliation finds nothing wrong with a grant exactly when the
    account's posted credits are the grant's amount, nothing is pending, and
    its posted debits are the usage of settled windows. *)
Theorem reconciled_grant a b amount expected :
  wf_tbAccount a -> balanceOfAccount a = Ret b ->
  grantDrifts amount expected (Some b) = [] <->
  le_value (CreditsPosted a) = amount /\ le_value (DebitsPending a) = 0 /\ le_value (DebitsPosted a) = expected.
Proof.
  intros Hw Hb. pose proof Hw as (Hdp & Hd & _ & Hc). unfold balanceOfAccount in Hb. inv_ret.
  repeat match goal with Hu : uint128ToUint64 _ = Ret _ |- _ => apply uint128ToUint64_Ret in Hu as [-> ?]; [|done] end.
  match goal with Ha : availableFromAccount a = Ret _ |- _ => apply (availableFromAccount_Ret _ _ Hw) in Ha as (-> & Ha0 & Hmax) end.
  pose proof (le_value_range _ (proj2 Hdp)). pose proof (le_value_range _ (proj2 Hd)).
  unfold grantDrifts. simpl. rewrite !u64_add_small by (rewrite ?u64_add_small; unfold is_u64; lia).
  destruct (Z.eqb_spec (le_value (DebitsPending a)) 0), (Z.eqb_spec (le_value (DebitsPosted a)) expected);
    match goal with |- context [?x =? amount] => destruct (Z.eqb_spec x amount) end;
    simpl; split; try done; intros; try lia.
Qed.

Definition settled_account : tbAccount :=
  mkTbAccount zeroID zeroID 0 0 1 100 0 (RefLedger.u128_of 0) (RefLedger.u128_of 20) (RefLedger.u128_of 0) (RefLedger.u128_of 300).

Lemma reconciled_grant_witness : grantDrifts 300 20 (Some (mkBalance zeroID 280 0 20)) = [].
Proof.
  apply (reconciled_grant settled_account (mkBalance zeroID 280 0 20) 300 20).
  - unfold wf_tbAccount. simpl. auto using u128_of_wf.
  - vm_compute. reflexivity.
  - vm_compute. auto.
Defined.

(** ** Commands *)

Section Commands.
Context {St : Type} `{HE : Env} `{HD : Digest} `{HC : TBCodec} `{!TigerBeetle St} `{!PeriodWork St}.

(** A failed dispatch is recorded on its command: after twelve attempts
    the command is dead-lettered and is never leased again, before that it
    will be retried; its payload and idempotency key are unchanged. *)
Theorem command_failure_recorded command cause c (w w' : world St) :
  markLedgerCommandFailed command cause w = (Ret tt, w') -> db_commands (w_db w) !! lc_CommandID command = Some c ->
  exists c', db_commands (w_db w') !! lc_CommandID command = Some c' /\ command_le c c'
    /\ c_state c' = (if 12 <=? lc_Attempts command then CDeadLetter else CRetryableFailed)
    /\ c_last_error c' = errorText cause
    /\ forall now, leasable now c' = negb (12 <=? lc_Attempts command).
Proof.
  unfold markLedgerCommandFailed, ledgerCommandMaxAttempts. intros H Hc.
  apply mbindM_Ret_inv in H as (now & w1 & Hn & H). injection Hn as <- <-.
  apply mbindM_Ret_inv in H as (r & w1 & Hr & H). destruct r as [[state dead] reason].
  assert (w_db w1 = w_db w /\ state = (if 12 <=? lc_Attempts command then CDeadLetter else CRetryableFailed)) as [E1 ->].
  { destruct (12 <=? lc_Attempts command); [|by injection Hr as <- <- <- <-].
    apply mbindM_Ret_inv in Hr as (t & w2 & Ht & Hr). injection Ht as <- <-. by injection Hr as <- <- <- <-. }
  apply WithTx_run in H as (w2 & w3 & E2 & _ & H & E3 & _). rewrite E1 in E2.
  apply mbindM_Ret_inv in H as ([] & w4 & Hs & H). unfold statement, MarkLedgerCommandFailed in Hs. rewrite E2, Hc in Hs.
  destruct (timestamptz _) as [next|]; simpl in Hs; [|done]. injection Hs as <-.
  apply mbindM_Ret_inv in H as (t & w4 & Ht & H). injection Ht as <- <-. apply appendEvent_only in H as [(ev & de & jo & Ed) _].
  rewrite E3, Ed. eexists. split; [simpl; apply lookup_insert_eq|]. split; [repeat split; simpl; lia|].
  split; [done|]. split; [done|]. intros t. unfold leasable. simpl. by destruct (12 <=? lc_Attempts command).
Qed.

(** Commands are created once per idempotency key: under a key that is
    taken the stored command and its payload are returned and nothing is
    written; under a new key the payload is stored as a pending command. *)
Theorem command_created_once op aggT agg org product key payload (w w' : world St) cmd :
  createLedgerCommandTx op aggT agg org product key payload w = (Ret cmd, w') ->
  match command_by_key (w_db w) key with
  | Some (cid, row) => cmd = (cid, c_payload row) /\ w_db w' = w_db w
  | None => cmd.2 = payload /\ db_commands (w_db w) !! cmd.1 = None
            /\ exists row, db_commands (w_db w') = <[cmd.1 := row]> (db_commands (w_db w))
               /\ c_state row = CPending /\ c_payload row = payload /\ c_idempotency_key row = key /\ c_aggregate_id row = agg
  end.
Proof.
  intros H. destruct (command_by_key (w_db w) key) as [[cid row]|] eqn:Hk.
  - unfold createLedgerCommandTx in H. destruct (_ || _); [done|]. apply mbindM_Ret_inv in H as (now & w1 & Hn & H).
    assert (w_db w1 = w_db w) as E1 by (unfold pgNow in Hn; destruct (w_txnow w); by injection Hn as _ <-).
    apply mbindM_Ret_inv in H as ([] & w2 & Hs & H). unfold statement, InsertLedgerCommand in Hs. simpl in Hs.
    rewrite E1, Hk in Hs. injection Hs as <-. unfold mbindM, query in H. simpl in H. rewrite Hk in H.
    injection H as <- <-. done.
  - apply createLedgerCommandTx_Ret in H as (cid & now & -> & Hf & _ & _ & Ed); [|done]. simpl. split; [done|].
    split; [done|]. rewrite Ed. eexists. split; [reflexivity|]. done.
Qed.

(** ** Deposits *)

Definition same_grants (d d' : DB) : Prop := db_grants d' = db_grants d.
#[local] Instance same_grants_preorder : PreOrder same_grants.
Proof. split; [done|]. intros d1 d2 d3. unfold same_grants. congruence. Qed.

Lemma same_grants_statement {A} (f : DB -> res (A * DB)) :
  (forall d a d', f d = Ret (a, d') -> db_grants d' = db_grants d) ->
  evolves same_grants ledger_grows (statement f : @B St _).
Proof. intros Hf. apply evolves_statement; [apply _..|]. intros d a d' Hs. by eapply Hf. Qed.

Lemma dispatchLedgerCommand_grants cid : evolves same_grants ledger_grows (dispatchLedgerCommand cid : @B St _).
Proof.
  assert (forall p, evolves same_grants ledger_grows (ledgerDispatch p : @B St _)).
  { intros p. apply evolves_on_ledger; [apply _..|]. intros s. apply Dispatch_grows. }
  assert (forall ev, evolves same_grants ledger_grows (appendEvent ev : @B St _)).
  { intros ev. apply appendEvent_evolves; [apply _..|]. by intros d d' (e & de & jo & ->). }
  assert (forall i a t, evolves same_grants ledger_grows (statement (LeaseLedgerCommand i a t) : @B St _)).
  { intros. apply same_grants_statement. intros d x d' Hs. unfold LeaseLedgerCommand in Hs.
    repeat case_match; inv_ret; by simplify_eq. }
  assert (forall i t, evolves same_grants ledger_grows (statement (MarkLedgerCommandPosted i t) : @B St _)).
  { intros. apply same_grants_statement. by intros d x d' [= _ <-]. }
  assert (forall i s t e dl r, evolves same_grants ledger_grows (statement (MarkLedgerCommandFailed i s t e dl r) : @B St _)).
  { intros. apply same_grants_statement. intros d x d' Hs. unfold MarkLedgerCommandFailed in Hs.
    repeat case_match; inv_ret; by simplify_eq. }
  unfold dispatchLedgerCommand, requireLedger, leaseLedgerCommand, markLedgerCommandFailed, markLedgerCommandPosted. frame.
Qed.

Lemma markGrantLedgerPostingPosted_Ret gid g (w w' : world St) :
  markGrantLedgerPostingPosted gid w = (Ret tt, w') -> db_grants (w_db w) !! gid = Some g ->
  exists g', db_grants (w_db w') !! gid = Some g' /\ g_ledger_posting_state g' = GPosted /\ w_tb w' = w_tb w.
Proof.
  intros H Hg. unfold markGrantLedgerPostingPosted in H. apply WithTx_run in H as (w1 & w2 & E1 & T1 & H & E2 & T2).
  apply mbindM_Ret_inv in H as (now & w3 & Hn & H).
  assert (w_db w3 = w_db w /\ w_tb w3 = w_tb w) as [E3 T3]
    by (unfold pgNow in Hn; destruct (w_txnow w1); injection Hn as _ <-; done).
  apply mbindM_Ret_inv in H as (row & w4 & Hs & H). unfold statement, MarkGrantLedgerPostingPosted in Hs.
  rewrite E3, Hg in Hs. rewrite E2, T2. case_decide as Hp.
  - injection Hs as <- <-. apply (f_equal snd) in H. simpl in H. subst w2. exists g. simpl. by rewrite T3.
  - injection Hs as <- <-. apply mbindM_Ret_inv in H as (o & w5 & Ho & H). unfold mlift in Ho. injection Ho as _ <-.
    apply mbindM_Ret_inv in H as (t & w5 & Ht & H). injection Ht as <- <-.
    apply appendEvent_only in H as [(ev & de & jo & Ed) Et]. rewrite Ed, <- Et. eexists.
    split; [simpl; apply lookup_insert_eq|]. done.
Qed.

Definition plain_flags (t : TransferPayload) : Prop :=
  PostPendingTransfer (transferFlagsFromUint16 (tp_Flags t)) = false
  /\ VoidPendingTransfer (transferFlagsFromUint16 (tp_Flags t)) = false.

(** The transfers of a deposit: none concerns a pending transfer, and one
    credits the grant's account with its amount. *)
Definition deposits (g : grantRow) (l : list TransferPayload) : Prop :=
  Forall plain_flags l /\ exists t, t ∈ l /\ tp_ID t = IDString (g_deposit_transfer_id g)
    /\ tp_CreditAccountID t = IDString (g_account_id g) /\ tp_Amount t = g_amount g.

Lemma plain_zero t : tp_Flags t = 0 -> plain_flags t.
Proof. intros E. unfold plain_flags. rewrite E. by destruct flags_zero as (_ & _ & ? & ?). Qed.

Lemma plain_linked l : Forall plain_flags l -> Forall plain_flags (LinkTransfers l).
Proof.
  intros H. apply Forall_lookup. intros i t (t0 & Ht0 & ->)%LinkTransfers_lookup.
  destruct (link_one_flags (length l) i t0) as (_ & _ & E1 & E2). unfold plain_flags. rewrite E1, E2.
  by apply (Forall_lookup_1 _ _ _ _ H Ht0).
Qed.

Lemma grantDepositPayload_deposits ops grant g (w w' : world St) payload :
  grantDepositPayload ops grant w = (Ret payload, w') ->
  gl_DepositID grant = g_deposit_transfer_id g -> gl_AccountID grant = g_account_id g -> gl_Amount grant = g_amount g ->
  deposits g (cp_Transfers payload) /\ quiet w w'.
Proof.
  intros H E1 E2 E3. unfold grantDepositPayload in H. apply mbindM_Ret_inv in H as (account & w1 & Ha & H).
  unfold mlift in Ha. injection Ha as _ <-. apply mbindM_Ret_inv in H as (ms & w1 & Hms & H).
  apply unixMillis_quiet in Hms as [Q1 Q2]. case_decide.
  - apply mbindM_Ret_inv in H as (sid & w2 & Hs & H). injection Hs as <- <-. injection H as <- <-. split; [|done]. split.
    + apply plain_linked. repeat constructor; by apply plain_zero.
    + eexists. split; [apply list_elem_of_here_2 || (simpl; apply elem_of_cons; right; apply list_elem_of_singleton; reflexivity)|].
      simpl. by rewrite E1, E2, E3.
  - apply mbindM_Ret_inv in H as (key & w2 & Hk & H). unfold mlift in Hk. injection Hk as _ <-.
    destruct (ops !! key) as [fid|]; [|done]. injection H as <- <-. split; [|done]. split.
    + repeat constructor; by apply plain_zero.
    + eexists. split; [apply list_elem_of_singleton; reflexivity|]. simpl. by rewrite E1, E2, E3.
Qed.

Lemma createGrantDepositTx_Ret gid g (w w' : world St) cid :
  createGrantDepositTx gid w = (Ret cid, w') -> db_grants (w_db w) !! gid = Some g ->
  command_by_key (w_db w) ("grant_deposit:" +:+ gid) = None ->
  w_tb w' = w_tb w /\ is_Some (db_grants (w_db w') !! gid)
  /\ exists c, db_commands (w_db w') !! cid = Some c /\ c_state c = CPending /\ deposits g (cp_Transfers (c_payload c)).
Proof.
  intros H Hg Hk. unfold createGrantDepositTx in H. apply mbindM_Ret_inv in H as (grant & w1 & Hl & H).
  assert (w1 = w /\ gl_GrantID grant = gid /\ gl_DepositID grant = g_deposit_transfer_id g
          /\ gl_AccountID grant = g_account_id g /\ gl_Amount grant = g_amount g) as (-> & Eg & E1 & E2 & E3).
  { unfold loadGrantLedgerRowTx, mbindM at 1, query in Hl. rewrite Hg in Hl.
    apply mbindM_Ret_inv in Hl as (o & wa & Ho & Hl). unfold mlift in Ho. injection Ho as _ <-.
    apply mbindM_Ret_inv in Hl as (a & wa & Ha & Hl). unfold mlift in Ha. injection Ha as Ha <-.
    apply mbindM_Ret_inv in Hl as (b & wa & Hb & Hl). unfold mlift in Hb. injection Hb as Hb <-.
    apply mbindM_Ret_inv in Hl as (n & wa & Hn & Hl). unfold mlift in Hn. injection Hn as Hn <-.
    injection Hl as <- <-. simpl. apply checkedUint64_Ret in Hn as [-> _]. unfold IDFromBytes in *.
    repeat case_decide; try done. by simplify_eq. }
  destruct (_ || _); [done|]. apply mbindM_Ret_inv in H as (ops & w1 & Hops & H).
  assert (w1 = w) as ->.
  { unfold operatorLedgerAccountsTx, mbindM, query, mlift in Hops. by injection Hops as _ <-. }
  apply mbindM_Ret_inv in H as (payload & w1 & Hp & H).
  apply (grantDepositPayload_deposits _ _ g) in Hp as [Hdep [Q1 Q2]]; [|done..].
  apply mbindM_Ret_inv in H as (cmd & w2 & Hc & H). rewrite Eg in *.
  apply createLedgerCommandTx_Ret in Hc as (cid' & now & -> & _ & T2 & _ & D2); [|by rewrite Q1].
  apply mbindM_Ret_inv in H as ([] & w3 & Hs & H). injection H as <- <-. rewrite Q1 in D2.
  assert (w_tb w3 = w_tb w2 /\ db_commands (w_db w3) = db_commands (w_db w2) /\ is_Some (db_grants (w_db w3) !! gid)) as (T3 & C3 & G3).
  { unfold statement, MarkGrantLedgerPostingInProgress in Hs. rewrite D2 in Hs. simpl in Hs. rewrite Hg in Hs.
    destruct (g_ledger_posting_state g); injection Hs as <-; simpl; rewrite ?lookup_insert_eq, ?D2; simpl; rewrite ?Hg; eauto. }
  split; [congruence|]. split; [done|]. rewrite C3, D2. simpl. eexists. split; [apply lookup_insert_eq|]. done.
Qed.

(** A grant whose deposit is posted for the first time has, on success,
    its deposit transfer stored in the ledger: under the grant's deposit id,
    into the grant's account, for the grant's amount; and the grant is marked
    posted. *)
Theorem grant_deposit_posts gid g (w w' : world St) :
  postGrantDeposit gid w = (Ret tt, w') -> db_grants (w_db w) !! gid = Some g ->
  command_by_key (w_db w) ("grant_deposit:" +:+ gid) = None -> wf_id (g_deposit_transfer_id g) -> wf_id (g_account_id g) ->
  (exists tr, tb_transfer (w_tb w') (g_deposit_transfer_id g) = Some tr /\ tr_CreditAccountID tr = g_account_id g
     /\ tr_Amount tr = g_amount g)
  /\ exists g', db_grants (w_db w') !! gid = Some g' /\ g_ledger_posting_state g' = GPosted.
Proof.
  intros H Hg Hk Hwd Hwa. unfold postGrantDeposit in H. apply mbindM_Ret_inv in H as (cid & w1 & Htx & H).
  apply WithTx_run in Htx as (wa & wb & Ea & Ta & Htx & Eb & Tb). rewrite <- Ea in Hg, Hk.
  apply (createGrantDepositTx_Ret _ g) in Htx as (T1 & [g1 G1] & c & Hc & Hst & Hdep); [|done..]. rewrite <- Eb in Hc, G1.
  apply mbindM_Ret_inv in H as ([] & w2 & Hd & H). unfold onError in Hd.
  destruct (dispatchLedgerCommand cid w1) as [[[]|e|] w3] eqn:E.
  - apply (f_equal snd) in Hd. simpl in Hd. subst w3.
    pose proof (evolves_run _ _ _ _ _ _ (dispatchLedgerCommand_grants cid) E) as [Sg _]. unfold same_grants in Sg.
    eapply dispatchLedgerCommand_Ret in E as (s1 & Hdisp & Hgrow); [|done..].
    eapply markGrantLedgerPostingPosted_Ret in H as (g' & Hg' & Hp & T'); [|by rewrite Sg]. split; [|eauto].
    destruct Hdep as (Hplain & t & Hin & Eid & Ecr & Eam). destruct (dispatch_payloads _ _ _ Hdisp) as [ts Hts].
    pose proof (outcome_map_Forall2 _ _ _ Hts) as H2. apply list_elem_of_lookup in Hin as [i Hi].
    destruct (Forall2_lookup_l _ _ _ _ _ H2 Hi) as (tr & Htr & Hpt).
    assert (Forall direct_transfer ts) as Hdir.
    { apply Forall_lookup. intros j x Hx. destruct (Forall2_lookup_r _ _ _ _ _ H2 Hx) as (y & Hy & Hyx).
      destruct (payloadTransfer_flags _ _ Hyx) as [Ef _]. unfold direct_transfer. rewrite Ef.
      apply (Forall_lookup_1 _ _ _ _ Hplain Hy). }
    pose proof (Dispatch_stored _ _ _ _ ts Hdisp Hts Hdir tr ltac:(by eapply list_elem_of_lookup_2)) as Hstored.
    apply payloadTransfer_Ret in Hpt as (P1 & _ & P3 & P4 & _). rewrite Eid in P1. rewrite Ecr in P3.
    rewrite ParseID_IDString in P1, P3 by done. injection P1 as P1. injection P3 as P3. exists tr.
    split; [|split; congruence]. rewrite T', P1. by apply Hgrow.
  - apply mbindM_Ret_inv in Hd as (? & ? & ? & Hd). done.
  - done.
Qed.
End Commands.

(** ** The theorems on the sample run *)

Import Sample.

Definition sample_deposit : grantRow :=
  mkGrantRow org "account" "" "" "" 5000 "promo" "welcome" "" "v1" base_time None None None None "" (id_at 100) (id_at 101)
    GPending None "".

Definition w_deposit : world state := with_db (set_grants {["g" := sample_deposit]} (w_db w1)) w1.

Lemma grant_deposit_posts_witness :
  exists tr, tb_transfer (w_tb (postGrantDeposit "g" w_deposit).2) (id_at 101) = Some tr /\ tr_Amount tr = 5000.
Proof.
  destruct (grant_deposit_posts "g" sample_deposit w_deposit (postGrantDeposit "g" w_deposit).2) as [(tr & H1 & _ & H2) _].
  - apply run_Ret. vm_compute. reflexivity.
  - vm_compute. reflexivity.
  - vm_compute. reflexivity.
  - apply id_at_wf.
  - apply id_at_wf.
  - exists tr. split; [exact H1|exact H2].
Defined.

Definition sample_command : commandRow :=
  mkCommandRow "grant_deposit" "credit_grant" "g" org "" "grant_deposit:g" CInProgress sample_payload 12 base_time None None
    "billing-service" "a" "" None None "" base_time.

Definition w_command : world state := with_db (set_commands {["c" := sample_command]} db0) w0.

Definition sample_leased : ledgerCommandRow := mkLedgerCommand "c" "grant_deposit" "credit_grant" "g" org "" sample_payload 12.

Lemma command_failure_recorded_witness :
  exists c', db_commands (w_db (markLedgerCommandFailed sample_leased (LedgerErr ErrUnavailable) w_command).2) !! "c"%string = Some c'
    /\ c_state c' = CDeadLetter.
Proof.
  destruct (command_failure_recorded sample_leased (LedgerErr ErrUnavailable) sample_command w_command
    (markLedgerCommandFailed sample_leased (LedgerErr ErrUnavailable) w_command).2) as (c' & H1 & _ & H2 & _).
  - apply run_Ret. vm_compute. reflexivity.
  - vm_compute. reflexivity.
  - exists c'. split; [exact H1|exact H2].
Defined.

Lemma command_created_once_witness :
  w_db (createLedgerCommandTx "grant_deposit" "credit_grant" "g" org "" "grant_deposit:g" (mkCommandPayload [] []) w_command).2
  = w_db w_command.
Proof.
  assert (createLedgerCommandTx "grant_deposit" "credit_grant" "g" org "" "grant_deposit:g" (mkCommandPayload [] []) w_command
    = (Ret ("c"%string, sample_payload),
       (createLedgerCommandTx "grant_deposit" "credit_grant" "g" org "" "grant_deposit:g" (mkCommandPayload [] []) w_command).2)) as H
    by (apply run_Ret; vm_compute; reflexivity).
  apply command_created_once in H. exact (proj2 H).
Defined.
