(* ===== verification/CycleTheorems.v ===== *)
(** * Theorems on billing cycles

    Cycle bounds on the calendar, the open cycle an organisation is billed
    in, and the rollover to its successor. *)

From stdpp Require Import relations.
From S2P Require Import Prelude GoFloat GoStd GoTime Json Types Ids Ledger Charges Grants Store Events LedgerCommands.
From S2P Require Import LedgerGrants Cycles Entitlements WindowStore Windows Dispatcher Finalizations Samples Frames.
From S2P Require Import Legs WindowInv.
From S2P Require Import PrepareTx ReserveTx WindowSystem Settlement SampleRun.

(** ** Bounds *)

Lemma cycleEndAfter_later k start : start < cycleEndAfter k start.
Proof.
  unfold cycleEndAfter. repeat case_decide.
  - apply add_year_bounds.
  - pose proof (add_month_bounds start). pose proof day_ns_pos. lia.
  - rewrite nextMonth_eq. by destruct (month_start_bounds start).
Qed.

Lemma cycleBoundsLoop_spec fuel start t seq s e n :
  cycleBoundsLoop fuel "anniversary_monthly" start t seq = (s, e, n) ->
  start <= t -> t < start + (Z.of_nat fuel + 1) * (28 * day_ns) ->
  s <= t < e /\ e = cycleEndAfter "anniversary_monthly" s /\ seq <= n <= seq + Z.of_nat fuel.
Proof.
  assert (forall x, x + 28 * day_ns <= cycleEndAfter "anniversary_monthly" x) as Hm
    by (intros x; exact (proj1 (add_month_bounds x))).
  assert (0 < 28 * day_ns) as Hp by (vm_compute; done). set (D := 28 * day_ns) in *. clearbody D.
  revert start seq. induction fuel as [|fuel IH]; intros start seq; simpl; pose proof (Hm start) as Hs.
  all: set (x := cycleEndAfter "anniversary_monthly" start) in *.
  all: destruct (Z.ltb_spec start x) as [_|]; [simpl|lia]; intros H H1 H2; destruct (Z.leb_spec start t); [|lia];
    destruct (Z.ltb_spec t x); simpl in H; [injection H as <- <- <-; split; [done|split; [done|lia]]|].
  - lia.
  - apply IH in H; [|lia|lia]. destruct H as (R1 & R2 & R3). split; [done|]. split; [done|lia].
Qed.

(** The bounds of the cycle of a time contain it, and end one period of
    the cadence after they start: for a calendar cadence always, for an
    anniversary cadence up to 2401 periods of 28 days after the anchor. *)
Theorem cycle_bounds_contain cadence anchor t s e n :
  cycleBoundsContaining cadence anchor t = (s, e, n) ->
  cadence <> "anniversary_monthly" \/ t < anchor + 28 * 2401 * day_ns ->
  s <= t < e /\ 0 <= n <= 2400 /\ (cadence <> "annual" -> e = cycleEndAfter cadence s).
Proof.
  unfold cycleBoundsContaining. intros H Hc. destruct (bool_decide_reflect (cadence = "anniversary_monthly")) as [->|Hne]; cbn [negb] in H.
  - destruct Hc as [?|Hc]; [done|]. destruct (is_zero anchor || (t <? anchor)) eqn:Ez.
    + injection H as <- <- <-. pose proof (cycleEndAfter_later "anniversary_monthly" t). split; [lia|]. split; [lia|done].
    + apply orb_false_iff in Ez as [_ Ez]. zbool. apply cycleBoundsLoop_spec in H; [|lia|rewrite Z2Nat.id; lia].
      rewrite Z2Nat.id in H by lia. destruct H as (H1 & H2 & H3). split; [done|]. split; [lia|done].
  - injection H as <- <- <-. rewrite monthStartUTC_eq, nextMonth_eq, month_of_start.
    pose proof (month_start_bounds t). split; [done|]. split; [lia|]. intros Ha. unfold cycleEndAfter.
    rewrite !decide_False by done. by rewrite nextMonth_eq, month_of_start.
Qed.

(** 2024-02-14 is in the fourth period from 2023-11-10. *)
Lemma cycle_bounds_contain_witness :
  let '(s, e, n) := cycleBoundsContaining "anniversary_monthly" (1699574400 * second) (1707868800 * second) in
  n = 3 /\ s <= 1707868800 * second < e.
Proof.
  destruct (cycleBoundsContaining "anniversary_monthly" (1699574400 * second) (1707868800 * second)) as [[s e] n] eqn:E.
  destruct (cycle_bounds_contain _ _ _ _ _ _ E ltac:(right; vm_compute; reflexivity)) as (H & _).
  split; [|exact H]. vm_compute in E. congruence.
Defined.

(** Past the bound of the loop the interval returned lies before the time. *)
Lemma cycle_bounds_escape :
  let '(_, e, n) := cycleBoundsContaining "anniversary_monthly" 0 (2403 * 31 * day_ns) in
  n = 2401 /\ e <= 2403 * 31 * day_ns.
Proof. vm_compute. split; [reflexivity|discriminate]. Qed.

(** Anniversaries of the 31st drift: the period after 2023-01-31 ends on
    2023-03-03, and every later one starts on the 3rd. *)
Lemma anniversary_drift :
  date_of (cycleEndAfter "anniversary_monthly" (go_date 2023 1 31 0)) = (2023, 3, 3)
  /\ date_of (cycleEndAfter "anniversary_monthly" (cycleEndAfter "anniversary_monthly" (go_date 2023 1 31 0))) = (2023, 4, 3).
Proof. vm_compute. split; reflexivity. Qed.

(** ** The open cycle *)

Lemma month_start_pg i : pg_timestamptz (month_start i) = month_start i.
Proof.
  unfold month_start, pg_timestamptz. change day_ns with (86400 * 1000000 * microsecond).
  rewrite Z.mul_assoc, Z.div_mul by done. done.
Qed.

Lemma month_pg_start t : pg_timestamptz (monthStartUTC t) = monthStartUTC t.
Proof. by rewrite monthStartUTC_eq, month_start_pg. Qed.

Lemma month_pg_next t : pg_timestamptz (nextMonth t) = nextMonth t.
Proof. by rewrite nextMonth_eq, month_start_pg. Qed.

(** The calendar month of a time contains it also at the precision stored. *)
Lemma month_covers t : monthStartUTC t <= pg_timestamptz t < nextMonth t.
Proof.
  rewrite monthStartUTC_eq, nextMonth_eq. pose proof (month_start_bounds t) as [B1 B2].
  pose proof (pg_timestamptz_mono _ _ B1) as B3. rewrite month_start_pg in B3. pose proof (pg_timestamptz_le t). lia.
Qed.

(** [c] is the stored open cycle of the account at [t]. *)
Definition covers (d : DB) (org productID : string) (t : time) (c : billingCycle) : Prop :=
  exists row, db_cycles d !! bc_CycleID c = Some row /\ cycle_open row = true
    /\ cy_org_id row = org /\ cy_product_id row = productID
    /\ cy_starts_at row = bc_StartsAt c /\ cy_ends_at row = bc_EndsAt c /\ bc_StartsAt c <= t < bc_EndsAt c.

Lemma head_sorted_elem {A} (less : A -> A -> bool) l x : head (sort_slice less l) = Some x -> x ∈ l.
Proof. intros H. rewrite <- (sort_slice_perm less l). destruct (sort_slice less l); [done|]. injection H as ->. constructor. Qed.

Lemma GetOpenBillingCycleContaining_covers org p t d kv :
  GetOpenBillingCycleContaining org p t d = Some kv -> covers d org p t (billingCycleFromStore kv).
Proof.
  intros H. apply head_sorted_elem in H. unfold open_cycles in H. rewrite !list_elem_of_filter in H.
  destruct H as (Ht & (Ho & Hp & Hop) & Hl). destruct kv as [id row]. simpl in *.
  apply elem_of_map_to_list in Hl. exists row. done.
Qed.

Section Cycles.
Context {St : Type} `{HE : Env} `{HD : Digest} `{HC : TBCodec} `{!TigerBeetle St} `{!PeriodWork St}.

Lemma openBillingCycleContainingTx_covers org p now (w w' : world St) c :
  openBillingCycleContainingTx org p now w = (Ret (Some c), w') ->
  w' = w /\ covers (w_db w) (orgIDText org) p (pg_timestamptz now) c.
Proof.
  unfold openBillingCycleContainingTx, queryAt, timestamptz, mbindM. destruct (is_zero now); [done|]. unfold query.
  destruct (GetOpenBillingCycleContaining _ _ _ _) as [kv|] eqn:E; [|done]. intros [= <- <-].
  split; [done|]. by apply GetOpenBillingCycleContaining_covers.
Qed.

Lemma not_null_timestamptz (t t' : time) : not_null (timestamptz t) = Ret t' -> t' = pg_timestamptz t.
Proof. unfold timestamptz. destruct (is_zero t); [done|]. by intros [= <-]. Qed.

Lemma put_cycle_Ret id row d d' : put_cycle id row d = Ret d' -> cy_starts_at row < cy_ends_at row /\ d' = set_cycles (<[id := row]> (db_cycles d)) d.
Proof.
  unfold put_cycle. intros H. inv_ret. case_match; [done|]. injection H as <-. split; [|done].
  match goal with Hc : check_constraint _ = _ |- _ => unfold check_constraint in Hc; case_match; [|done] end. zbool. done.
Qed.

(** A cycle that was written is stored open with the times it was given. *)
Lemma upsertCycleTx_Ret keep org p c (w w' : world St) n :
  upsertCycleTx keep org p c w = (Ret n, w') ->
  (n = 0 /\ w' = w /\ is_Some (db_cycles (w_db w) !! bc_CycleID c))
  \/ (n = 1 /\ w_tb w' = w_tb w
      /\ exists row, w_db w' = set_cycles (<[bc_CycleID c := row]> (db_cycles (w_db w))) (w_db w)
      /\ cy_status row = CyOpen /\ cy_starts_at row = pg_timestamptz (bc_StartsAt c)
      /\ cy_ends_at row = pg_timestamptz (bc_EndsAt c) /\ cy_starts_at row < cy_ends_at row
      /\ cy_cycle_seq row = bc_CycleSeq c /\ cy_successor_cycle_id row = ""
      /\ (db_cycles (w_db w) !! bc_CycleID c = None ->
          cy_org_id row = orgIDText org /\ cy_product_id row = p /\ cy_predecessor_cycle_id row = bc_PredecessorCycleID c)
      /\ forall old, db_cycles (w_db w) !! bc_CycleID c = Some old ->
          cycle_voided old = true /\ cy_org_id row = cy_org_id old /\ cy_product_id row = cy_product_id old).
Proof.
  unfold upsertCycleTx. intros H. apply mbindM_Ret_inv in H as (a & w1 & H1 & H). injection H1 as Ha <-.
  apply mbindM_Ret_inv in H as (s & w1 & H1 & H). injection H1 as Hs%not_null_timestamptz <-.
  apply mbindM_Ret_inv in H as (e & w1 & H1 & H). injection H1 as He%not_null_timestamptz <-.
  unfold statement, upsertCycle in H. destruct (db_cycles (w_db w) !! bc_CycleID c) as [old|] eqn:Ho.
  - destruct (cycle_voided old) eqn:Ev; [|injection H as <- <-; left; split; [done|]; split; [by destruct w|by eexists]].
    right. destruct (put_cycle _ _ _) as [d'| |] eqn:Ep; [|done|done]. apply put_cycle_Ret in Ep as [Hlt ->].
    injection H as <- <-. split; [done|]. split; [done|]. eexists. split; [reflexivity|]. simpl in *.
    rewrite ?Hs, ?He in *. split_and!; try done. naive_solver.
  - right. destruct (put_cycle _ _ _) as [d'| |] eqn:Ep; [|done|done]. apply put_cycle_Ret in Ep as [Hlt ->].
    injection H as <- <-. split; [done|]. split; [done|]. eexists. split; [reflexivity|]. simpl in *.
    rewrite ?Hs, ?He in *. split_and!; try done.
Qed.

Lemma upsertCycleTx_covers keep org p c t (w w' : world St) n :
  upsertCycleTx keep org p c w = (Ret n, w') -> n <> 0 ->
  (forall old, db_cycles (w_db w) !! bc_CycleID c = Some old -> cy_org_id old = orgIDText org /\ cy_product_id old = p) ->
  pg_timestamptz (bc_StartsAt c) = bc_StartsAt c -> pg_timestamptz (bc_EndsAt c) = bc_EndsAt c ->
  bc_StartsAt c <= t < bc_EndsAt c -> covers (w_db w') (orgIDText org) p t c /\ w_tb w' = w_tb w.
Proof.
  intros [(-> & _)|(-> & T & row & -> & Hst & Hs & He & _ & _ & _ & Hn & Ho)]%upsertCycleTx_Ret H0 Hown Es Ee Ht; [done|].
  split; [|done]. exists row. split; [simpl; apply lookup_insert_eq|]. split; [by unfold cycle_open; rewrite Hst|].
  assert (cy_org_id row = orgIDText org /\ cy_product_id row = p) as [-> ->].
  { destruct (db_cycles (w_db w) !! _) as [old|]; [destruct (Ho old eq_refl) as (_ & -> & ->); by apply Hown|].
    by destruct (Hn eq_refl) as (-> & -> & _). }
  rewrite Hs, He, Es, Ee. done.
Qed.

Lemma covers_events d d' org p t c : events_only d d' -> covers d org p t c -> covers d' org p t c.
Proof. by intros (ev & de & jo & ->). Qed.

(** The cycle ensured for a business time is the stored open cycle of
    that organisation and product, and it contains the time as the database
    stores it, whether it was already open or has just been opened. *)
Theorem open_cycle_covers org p now (w w' : world St) c :
  ensureOpenBillingCycleTx org p now w = (Ret c, w') ->
  (forall old, db_cycles (w_db w) !! cycleID org p (monthStartUTC now) = Some old ->
     cy_org_id old = orgIDText org /\ cy_product_id old = p) ->
  covers (w_db w') (orgIDText org) p (pg_timestamptz now) c /\ w_tb w' = w_tb w.
Proof.
  unfold ensureOpenBillingCycleTx. intros H Hown. apply mbindM_Ret_inv in H as ([] & w1 & Hd & H).
  assert (db_cycles (w_db w1) = db_cycles (w_db w) /\ w_tb w1 = w_tb w) as [E1 T1].
  { unfold ensureDefaultOrgTx in Hd. case_decide; [done|]. unfold statement, InsertDefaultOrg in Hd.
    destruct (db_orgs _ !! _); by injection Hd as <-. }
  apply mbindM_Ret_inv in H as (cur & w2 & Hc & H). destruct cur as [c1|].
  { injection H as <- <-. apply openBillingCycleContainingTx_covers in Hc as [-> Hc]. done. }
  assert (w2 = w1) as -> by (unfold openBillingCycleContainingTx, queryAt, mbindM, query in Hc; destruct (timestamptz now);
    by apply (f_equal snd) in Hc).
  apply mbindM_Ret_inv in H as (any & w2 & Ha & H). injection Ha as Ha <-. destruct any; [done|]. cbv zeta in H.
  apply mbindM_Ret_inv in H as (n & w2 & Hu & H). destruct (Z.eqb_spec n 0) as [->|Hn].
  - apply upsertCycleTx_Ret in Hu as [(_ & -> & _)|(? & _)]; [|done].
    apply mbindM_Ret_inv in H as (ex & w2 & Hex & H). destruct ex as [c1|]; [|done]. injection H as <- <-.
    apply openBillingCycleContainingTx_covers in Hex as [-> Hc2]. done.
  - apply mbindM_Ret_inv in H as ([] & w3 & Hev & H). apply appendEvent_only in Hev as [Hev T3]. injection H as <- <-.
    destruct (upsertCycleTx_covers _ _ _ _ (pg_timestamptz now) _ _ _ Hu Hn) as [C T2].
    + simpl. rewrite E1. exact Hown.
    + apply month_pg_start.
    + apply month_pg_next.
    + apply month_covers.
    + split; [by eapply covers_events|congruence].
Qed.

Lemma LinkSuccessor_lookup id succ d d' i :
  LinkSuccessorBillingCycle id succ d = Ret (tt, d') -> i <> id -> db_cycles d' !! i = db_cycles d !! i.
Proof.
  unfold LinkSuccessorBillingCycle. destruct (db_cycles d !! id); [case_decide|]; intros [= <-] Hi; try done.
  simpl. by rewrite lookup_insert_ne.
Qed.

(** Rolling a cycle over leaves no gap: unless a live cycle already has
    its identity, the successor is stored open, starts exactly where the
    predecessor ends, is not empty, has the next sequence number and names
    its predecessor, which is linked to it. *)
Theorem successor_cycle_follows org p pred now (w w' : world St) old :
  openSuccessorCycleTx org p pred now w = (Ret tt, w') ->
  let id := cycleID org p (bc_EndsAt pred) in
  db_cycles (w_db w) !! id = None -> bc_CycleID pred <> id ->
  db_cycles (w_db w) !! bc_CycleID pred = Some old -> cy_successor_cycle_id old = "" ->
  exists row old', db_cycles (w_db w') !! id = Some row /\ cy_status row = CyOpen
    /\ cy_starts_at row = pg_timestamptz (bc_EndsAt pred) /\ cy_starts_at row < cy_ends_at row
    /\ cy_cycle_seq row = bc_CycleSeq pred + 1 /\ cy_predecessor_cycle_id row = bc_CycleID pred
    /\ cy_org_id row = orgIDText org /\ cy_product_id row = p
    /\ db_cycles (w_db w') !! bc_CycleID pred = Some old' /\ cy_successor_cycle_id old' = id
    /\ cy_status old' = cy_status old /\ cy_ends_at old' = cy_ends_at old.
Proof.
  intros H id Hid Hne Hold Hsucc. unfold openSuccessorCycleTx in H. apply mbindM_Ret_inv in H as (n & w1 & Hu & H).
  apply upsertCycleTx_Ret in Hu as [(_ & _ & [x Hx])|(-> & _ & row & Ed & Hst & Hs & He & Hlt & Hq & _ & Hn & _)];
    [change (db_cycles (w_db w) !! id = Some x) in Hx; congruence|].
  destruct (Hn Hid) as (Ho & Hp & Hpred). apply mbindM_Ret_inv in H as ([] & w2 & Hl & H).
  apply appendEvent_only in H as [(ev & de & jo & Ew) _]. change (bc_CycleID (successorCycle org p pred)) with id in *.
  assert (db_cycles (w_db w1) !! bc_CycleID pred = Some old) as Hold1
    by (rewrite Ed; simpl; by rewrite lookup_insert_ne by done).
  unfold statement in Hl. destruct (LinkSuccessorBillingCycle _ _ _) as [[[] d2]| |] eqn:El; [|done|done]. injection Hl as <-.
  assert (db_cycles (w_db w') = db_cycles d2) as E2 by by rewrite Ew.
  assert (db_cycles d2 !! id = Some row) as Hrow.
  { rewrite (LinkSuccessor_lookup _ _ _ _ id El) by done. rewrite Ed. simpl. apply lookup_insert_eq. }
  unfold LinkSuccessorBillingCycle in El. rewrite Hold1, decide_True in El by done. injection El as <-.
  rewrite E2. eexists row, _. split; [exact Hrow|]. simpl in Hs, Hq, Hpred. split; [done|]. split; [done|]. split; [done|].
  split; [done|]. split; [done|]. split; [done|]. split; [done|].
  split; [simpl; apply lookup_insert_eq|]. done.
Qed.
End Cycles.

(** ** The theorems on the sample run *)

Import RefLedger Sample.

Definition opened : world state := (ensureOpenBillingCycleTx org product base_time w1).2.

Lemma w1_no_cycle old :
  db_cycles (w_db w1) !! cycleID org product (monthStartUTC base_time) = Some old ->
  cy_org_id old = orgIDText org /\ cy_product_id old = product.
Proof.
  intros H. assert (db_cycles (w_db w1) !! cycleID org product (monthStartUTC base_time) = None) as E by (vm_compute; reflexivity).
  rewrite E in H. discriminate H.
Qed.

Lemma opened_run : exists c, ensureOpenBillingCycleTx org product base_time w1 = (Ret c, opened).
Proof. unfold opened. apply (run_ok (ensureOpenBillingCycleTx org product base_time) w1). vm_compute. reflexivity. Qed.

Lemma open_cycle_covers_witness : exists c, covers (w_db opened) (orgIDText org) product (pg_timestamptz base_time) c.
Proof. destruct opened_run as [c Hc]. exists c. exact (proj1 (open_cycle_covers org product base_time w1 opened c Hc w1_no_cycle)). Defined.

(** November 2023, rolled over. *)
Definition november : billingCycle :=
  mkCycle (cycleID org product (go_date 2023 11 1 0)) "usd" "" (go_date 2023 11 1 0) 0 "calendar_monthly"
    (go_date 2023 11 1 0) (go_date 2023 12 1 0).

Definition due : world state := (closeCycleForUsageTx org product november (go_date 2023 12 1 0) opened).2.
Definition rolled : world state := (openSuccessorCycleTx org product november (go_date 2023 12 1 0) due).2.

Lemma rolled_run : openSuccessorCycleTx org product november (go_date 2023 12 1 0) due = (Ret tt, rolled).
Proof.
  unfold rolled. apply (run_Ret (openSuccessorCycleTx org product november (go_date 2023 12 1 0)) due tt).
  vm_compute. reflexivity.
Qed.

Lemma due_november :
  db_cycles (w_db due) !! cycleID org product (bc_EndsAt november) = None
  /\ exists old, db_cycles (w_db due) !! bc_CycleID november = Some old /\ cy_successor_cycle_id old = "".
Proof.
  split; [vm_compute; reflexivity|].
  assert (cy_successor_cycle_id <$> db_cycles (w_db due) !! bc_CycleID november = Some ""%string) as H by (vm_compute; reflexivity).
  destruct (db_cycles (w_db due) !! bc_CycleID november) as [old|]; [|discriminate]. exists old. by injection H.
Qed.

Lemma november_id : bc_CycleID november <> cycleID org product (bc_EndsAt november).
Proof. by vm_compute. Qed.

Lemma successor_cycle_follows_witness :
  exists row, db_cycles (w_db rolled) !! cycleID org product (bc_EndsAt november) = Some row /\ cy_status row = CyOpen.
Proof.
  destruct due_november as (Hn & old & Hold & Hs).
  destruct (successor_cycle_follows org product november (go_date 2023 12 1 0) due rolled old rolled_run Hn november_id Hold Hs)
    as (row & _ & Hr & Hst & _). exists row. split; [exact Hr|exact Hst].
Defined.
