(* ===== verification/EntitlementTheorems.v ===== *)
(** * Theorems on entitlements and identities

    Issuing the grants of an entitlement period once, and the derived ids the
    idempotence of the service rests on. *)

From stdpp Require Import relations.
From S2P Require Import Prelude GoFloat GoStd GoTime GoFormat Json Types Ids Ledger Charges Grants Store Events.
From S2P Require Import LedgerCommands LedgerGrants Cycles Entitlements WindowStore Windows Dispatcher Finalizations.
From S2P Require Import Samples Frames.
From S2P Require Import Legs WindowInv PrepareTx ReserveTx WindowSystem Settlement SampleRun.

(** ** Issuing grants *)

(** The credit of a grant: its amount and its ledger identity. *)
Definition grant_credit (g : grantRow) :=
  (g_org_id g, g_amount g, g_source g, g_source_reference_id g, g_account_id g, g_deposit_transfer_id g, g_ledger_posting_state g).

(** From [d] to [d'] no grant was lost, none changed its credit, and a new one
    is the entitlement's, issued only when no grant had its reference. *)
Definition issues (in_ : entitlementInsert) (d d' : DB) : Prop :=
  (forall gid g, db_grants d !! gid = Some g -> exists g', db_grants d' !! gid = Some g' /\ grant_credit g' = grant_credit g)
  /\ forall gid g', db_grants d' !! gid = Some g' -> db_grants d !! gid = None ->
       gid = ei_GrantID in_ /\ g_amount g' = ei_Amount in_ /\ g_ledger_posting_state g' = GPending
       /\ g_org_id g' = orgIDText (ei_OrgID in_)
       /\ forall k g, db_grants d !! k = Some g -> same_grant_reference g' g = false.

Lemma issues_same in_ d d' : db_grants d' = db_grants d -> issues in_ d d'.
Proof. intros E. split; rewrite E; [by eexists|congruence]. Qed.

Lemma InsertCreditGrant_Ret gid row d n d' :
  InsertCreditGrant gid row d = Ret (n, d') ->
  (n = 0 /\ d' = d)
  \/ (n = 1 /\ db_grants d !! gid = None /\ (forall k g, db_grants d !! k = Some g -> same_grant_reference row g = false)
      /\ d' = set_grants (<[gid := row]> (db_grants d)) d).
Proof.
  unfold InsertCreditGrant. destruct (existsb _ _) eqn:Ex; [by intros [= <- <-]; left|].
  destruct (db_grants d !! gid) eqn:Eg; [done|]. unfold check_constraint. case_match; [|done]. intros [= <- <-]. right.
  split; [done|]. split; [done|]. split; [|done]. intros k g Hk. apply not_true_is_false. intros Ht.
  apply eq_true_false_abs in Ex; [done|]. apply existsb_exists. exists (k, g). split; [|done].
  by apply list_elem_of_In, elem_of_map_to_list.
Qed.

Lemma reopen_issues in_ org start end_ d d' :
  ReopenMaterializedCreditGrant in_ org start end_ d = Ret (tt, d') -> issues in_ d d'.
Proof.
  intros [= <-]. split; simpl.
  - intros gid g Hg. rewrite lookup_fmap, Hg. simpl. eexists. split; [reflexivity|]. by destruct (_ && _).
  - intros gid g' Hg' Hn. rewrite lookup_fmap, Hn in Hg'. done.
Qed.

Lemma InsertEntitlementPeriod_grants id row d d' : InsertEntitlementPeriod id row d = Ret (tt, d') -> db_grants d' = db_grants d.
Proof.
  unfold InsertEntitlementPeriod. destruct (existsb _ _); [by intros [= <-]|]. destruct (db_periods d !! id); [done|].
  intros H. inv_ret. done.
Qed.

Section Issue.
Context {St : Type} `{HE : Env} `{HD : Digest} `{HC : TBCodec} `{!TigerBeetle St} `{!PeriodWork St}.

(** C22: Materialising an entitlement issues its credit at most once: no grant
    is lost or changes its credit, and a grant is added only when none has the
    entitlement's source reference, for the entitlement's amount and pending
    its ledger deposit. *)
Theorem entitlement_issued_once in_ (w w' : world St) :
  insertEntitlementAndGrantTx in_ w = (Ret tt, w') -> issues in_ (w_db w) (w_db w').
Proof.
  unfold insertEntitlementAndGrantTx. intros H.
  apply mbindM_Ret_inv in H as (a & w1 & Ha & H). apply mbindM_Ret_inv in H as (dp & w2 & Hd & H).
  apply mbindM_Ret_inv in H as (amount & w3 & Hm & H). apply mbindM_Ret_inv in H as (start & w4 & Hs & H).
  apply mbindM_Ret_inv in H as (end_ & w5 & He & H).
  assert (w_db w5 = w_db w /\ amount = ei_Amount in_) as [E5 ->].
  { unfold mlift in *. injection Ha as _ <-. injection Hd as _ <-. injection Hm as Hm <-. injection Hs as _ <-.
    injection He as _ <-. by apply checkedInt64_Ret in Hm as [-> _]. }
  clear Ha Hd Hm Hs He. apply mbindM_Ret_inv in H as ([] & w6 & Hp & H).
  assert (db_grants (w_db w6) = db_grants (w_db w)) as E6.
  { rewrite <- E5. unfold statement in Hp. destruct (InsertEntitlementPeriod _ _ _) as [[[] d6]| |] eqn:Eq; [|done|done].
    injection Hp as <-. by eapply InsertEntitlementPeriod_grants. }
  clear Hp. apply mbindM_Ret_inv in H as (n & w7 & Hi & H). unfold statement in Hi.
  destruct (InsertCreditGrant _ _ _) as [[n' d7]| |] eqn:Ei; [|done|done]. injection Hi as -> <-.
  apply InsertCreditGrant_Ret in Ei as [[-> ->]|(-> & Hnew & Href & ->)].
  - simpl in H. unfold reopenMaterializedEntitlementAndGrantTx in H.
    apply mbindM_Ret_inv in H as (am & w8 & Hm & H). injection Hm as _ <-.
    apply mbindM_Ret_inv in H as (st & w8 & Hm & H). injection Hm as _ <-.
    apply mbindM_Ret_inv in H as (en & w8 & Hm & H). injection Hm as _ <-.
    apply mbindM_Ret_inv in H as ([] & w8 & Hm & H). injection Hm as <-. unfold statement in H.
    destruct (ReopenMaterializedCreditGrant _ _ _ _ _) as [[[] d9]| |] eqn:Er; [|done|done]. injection H as <-.
    apply reopen_issues in Er. unfold issues in *. simpl in *. by rewrite E6 in Er.
  - change (1 =? 0) with false in H. cbv iota in H. apply appendEvent_only in H as [(ev & de & jo & Ed) _]. rewrite Ed.
    rewrite E6 in Hnew, Href. split; simpl; rewrite E6.
    + intros gid g Hg. exists g. split; [|done]. rewrite lookup_insert_ne; congruence.
    + intros gid g' Hg' Hn. destruct (decide (gid = ei_GrantID in_)) as [->|Hne]; [|rewrite lookup_insert_ne in Hg'; congruence].
      rewrite lookup_insert_eq in Hg'. injection Hg' as <-. done.
Qed.
End Issue.

Import RefLedger Sample.

(** A free-tier allowance for November 2023. *)
Definition allowance : entitlementInsert :=
  mkEntitlement "period-1" product "cycle-1" "free_tier" "policy-1" "" "" "" "product" product "" "" "v1" "active"
    "not_required" "recurrence" "" "free_tier:policy-1:2023-11" "grant-1" org 5000 (go_date 2023 11 1 0) (go_date 2023 12 1 0).

Definition issued : world state := (insertEntitlementAndGrantTx allowance w1).2.

Lemma issued_run : insertEntitlementAndGrantTx allowance w1 = (Ret tt, issued).
Proof. unfold issued. apply (run_Ret (insertEntitlementAndGrantTx allowance) w1 tt). vm_compute. reflexivity. Qed.

Lemma issued_again : insertEntitlementAndGrantTx allowance issued = (Ret tt, (insertEntitlementAndGrantTx allowance issued).2).
Proof. apply (run_Ret (insertEntitlementAndGrantTx allowance) issued tt). vm_compute. reflexivity. Qed.

(** Issued, and materialised again. *)
Lemma entitlement_issued_once_witness :
  issues allowance (w_db w1) (w_db issued)
  /\ issues allowance (w_db issued) (w_db (insertEntitlementAndGrantTx allowance issued).2).
Proof.
  split; [exact (entitlement_issued_once allowance w1 issued issued_run)|].
  exact (entitlement_issued_once allowance issued _ issued_again).
Defined.

(** ** Derived ids *)

Lemma format_uint_nul_free z : nul_free (format_uint z).
Proof.
  unfold nul_free. rewrite format_uint_bytes. eapply Forall_impl; [apply dec_digits_ascii; constructor|].
  intros b Hb. simpl in Hb. lia.
Qed.

(** Two inputs of the digest with the same first sixteen bytes in hex. *)
Definition digest_collision `{Digest} : Prop :=
  exists x y, x <> y /\ hex_encode (take 16 (digest x)) = hex_encode (take 16 (digest y)).

Lemma string_app_inj a s t : a +:+ s = a +:+ t -> s = t.
Proof. induction a as [|c a IH]; [done|]. intros [= H]. by apply IH. Qed.

#[local] Transparent textID.
Lemma textID_collision `{Digest} kind ps1 ps2 :
  nul_free kind -> Forall nul_free ps1 -> Forall nul_free ps2 ->
  textID kind ps1 = textID kind ps2 -> ps1 = ps2 \/ digest_collision.
Proof.
  intros Hk H1 H2 E. apply string_app_inj, string_app_inj in E.
  destruct (decide (textID_preimage kind ps1 = textID_preimage kind ps2)) as [Ep|Ep].
  - left. by apply textID_preimage_inj in Ep as [_ ->].
  - right. by eexists _, _.
Qed.
#[local] Opaque textID.

(** Two sources have the same window id only when organisation, product,
    source and sequence agree, unless the hash collides; so a reservation is
    never answered with another source's window.  Parts containing a NUL byte
    are excluded: it is the separator of the hashed text. *)
Theorem window_id_identifies_source `{Digest} o1 o2 p1 p2 t1 t2 r1 r2 n1 n2 :
  Forall nul_free [orgIDText o1; p1; t1; r1] -> Forall nul_free [orgIDText o2; p2; t2; r2] ->
  is_u32 n1 -> is_u32 n2 ->
  billingWindowID o1 p1 t1 r1 n1 = billingWindowID o2 p2 t2 r2 n2 ->
  (orgIDText o1 = orgIDText o2 /\ p1 = p2 /\ t1 = t2 /\ r1 = r2 /\ n1 = n2) \/ digest_collision.
Proof.
  intros H1 H2 Hn1 Hn2 E. unfold is_u32 in *. apply textID_collision in E as [E|E]; [left|by right|..].
  - injection E as -> -> -> -> E. apply format_uint_inj in E; [done|lia|lia].
  - by repeat constructor.
  - apply (Forall_app_2 _ [_; _; _; _] [_] H1). auto using format_uint_nul_free.
  - apply (Forall_app_2 _ [_; _; _; _] [_] H2). auto using format_uint_nul_free.
Qed.

Lemma window_id_identifies_source_witness : orgIDText org = orgIDText " org-1 " \/ digest_collision.
Proof.
  assert (Forall nul_free [orgIDText org; product; "execution"%string; "run-1"%string]) as H
    by (vm_compute; repeat constructor; discriminate).
  destruct (window_id_identifies_source org " org-1 " product product "execution" "execution" "run-1" "run-1" 7 7 H H
    ltac:(by vm_compute) ltac:(by vm_compute) ltac:(vm_compute; reflexivity)) as [(Ho & _)|Hc]; [left; exact Ho|right; exact Hc].
Defined.
