(* ===== verification/ContractRun.v ===== *)
(** * A contract on the sample installation

    The catalogue gets two paid plans; the organisation of Samples.v buys the
    smaller one, cancels it, resumes it, schedules a downgrade or upgrades.
    Time is moved with the business clock.  The worlds reached here evaluate
    the theorems on contracts and documents. *)

From stdpp Require Import relations.
From S2P Require Import Prelude GoFloat GoStd GoTime GoFormat Json Types Ids Ledger Charges Grants Store Events.
From S2P Require Import LedgerCommands LedgerGrants Cycles Entitlements ContractStore DocumentStore DueChanges.
From S2P Require Import WindowStore Windows.
From S2P Require Import Statements Finalizations Dispatcher Contracts Catalog Samples Frames PeriodSystem.
From S2P Require Import ContractSystem.
From S2P Require Import Legs WindowInv PrepareTx ReserveTx WindowSystem Service ContractRuns Settlement.
From S2P Require Import SampleRun.

Import RefLedger Sample.

Definition plan_row (name : string) (cents : Z) : planRow :=
  mkPlanRow product name "prepaid" name "usd" cents 0 true false.

Definition policy_row (amount : Z) : policyRow :=
  mkPolicyRow "contract" product "product" product "" "" amount "monthly" "billing_cycle" "none" "v1" 0 None.

Definition plans_catalog : catalogTables :=
  mkCatalog (ca_products catalog)
    (<["pro" := plan_row "pro" 2000]> (<["max" := plan_row "max" 5000]> (ca_plans catalog)))
    (ca_rates catalog) (ca_skus catalog) (ca_buckets catalog)
    {["pro-credits" := policy_row 2000000; "max-credits" := policy_row 6000000]}
    [mkPlanEntitlementRow "pro" "pro-credits" 1; mkPlanEntitlementRow "max" "max-credits" 1].

(** The same database at another business time. *)
Definition at_time (t : time) (w : world state) : world state :=
  let d := w_db w in
  with_db (mkDB (db_windows d) (db_legs d) (db_commands d) (db_accounts d) (db_grants d) (db_periods d) (db_cycles d)
             (db_orgs d) (db_events d) (db_deliveries d) (db_drifts d) (db_contracts d) (db_documents d) (db_jobs d)
             plans_catalog
             {[("global"%string, ""%string) := mkClockRow t 1]} (db_providers d)) w.

Definition bought : time := go_date 2023 11 14 0.
Definition contract_id : string := contractID org product.
Definition pro_phase : string := phaseID contract_id "pro" bought.

Definition k0 : world state := at_time bought w1.
Definition k1 : world state := (activateCatalogContract org product "pro" contract_id pro_phase bought bought k0).2.
Definition k2 : world state := (CancelContract 5 org contract_id k1).2.
Definition k3 : world state := (ApplyDueBillingWork 5 org product (at_time (go_date 2023 12 20 0) k2)).2.

(** The record the service returns, and the cycle open at that time, for use
    in the next call. *)
Definition with_contract {A} (f : ContractRecord -> billingCycle -> @B state A) : @B state A :=
  do! record <- GetContract 5 org contract_id;
  do! cycle <- EnsureOpenBillingCycle 5 org product;
  f record cycle.

(** Resumed after the cancellation, and cancelled once more. *)
Definition k4 : world state := (with_contract (fun r _ => resumeCurrentPlan org r) k2).2.
Definition k5 : world state := (with_contract (fun _ c => cancelContractTx org product contract_id c bought) k4).2.

(** Bought on the larger plan, with a downgrade at the end of the cycle. *)
Definition max_phase : string := phaseID contract_id "max" bought.
Definition m1 : world state := (activateCatalogContract org product "max" contract_id max_phase bought bought k0).2.
Definition m2 : world state := (with_contract (fun r _ => scheduleDowngrade 5 org r "pro") m1).2.

(** An upgrade of the smaller plan, ordered six days into the cycle. *)
Definition order_upgrade : @B state contractChangeQuote :=
  do! record <- GetContract 5 org contract_id;
  do! current <- loadPlan "pro";
  do! target <- loadPlan "max";
  do! quote <- prepareUpgradeQuote 5 org record current target;
  insertPendingUpgrade quote.

Definition u1 : world state := at_time (go_date 2023 11 20 0) k1.
Definition u2 : world state := (order_upgrade u1).2.

Definition ret_or {A} (a : A) (r : res A) : A := match r with Ret x => x | _ => a end.

Definition no_cycle : billingCycle := mkCycle "" "" "" 0 0 "" 0 0.
Definition november : billingCycle := ret_or no_cycle (EnsureOpenBillingCycle 5 org product k1).1.

(** The change that is due at the end of that cycle. *)
Definition due_in (w : world state) : dueContractChange :=
  match ListDueContractChanges org product (bc_EndsAt november) (w_db w) with
  | kv :: _ => dueChangeOfRow kv
  | [] => mkDueChange "" "" "" "" "" "" 0
  end.

Definition quote : contractChangeQuote :=
  ret_or (mkQuote "" "" "" "" "" "" "" "" "" 0 0 0 0 "" 0 0 [] []) (order_upgrade u1).1.

(** ** Facts about the run *)

Lemma lookup_test {A} (o : option A) (test : A -> bool) :
  match o with Some x => test x | None => false end = true -> exists x, o = Some x /\ test x = true.
Proof. destruct o as [x|]; intros H; [exists x; auto|congruence]. Qed.

Lemma november_ends : is_zero (bc_EndsAt november) = false.
Proof. vm_compute. reflexivity. Qed.

Lemma k2_cancel_run : (applyScheduledCancelTx org product november bought (due_in k2) k2).1 = Ret tt.
Proof. vm_compute. reflexivity. Qed.

Lemma running_contract (w : world state) (id : string) (test : contractState -> bool) :
  match contracts_of (w_db w) !! id with
  | Some c => bool_decide (ct_org_id c = orgIDText org) && test (ct_state c)
  | None => false
  end = true ->
  exists c, contracts_of (w_db w) !! id = Some c /\ ct_org_id c = orgIDText org /\ test (ct_state c) = true.
Proof.
  intros (c & Hc & [Ho Ht]%andb_prop)%lookup_test. exists c. split; [exact Hc|]. split; [|exact Ht].
  exact (bool_decide_eq_true_1 _ Ho).
Qed.

Lemma k2_contract : exists c, contracts_of (w_db k2) !! dc_ContractID (due_in k2) = Some c
  /\ ct_org_id c = orgIDText org /\ running (ct_state c) = true.
Proof. apply (running_contract k2 (dc_ContractID (due_in k2)) running). vm_compute. reflexivity. Qed.

Definition is_active (s : contractState) : bool := bool_decide (s = KActive).

Lemma k4_contract : exists c, contracts_of (w_db k4) !! contract_id = Some c
  /\ ct_org_id c = orgIDText org /\ is_active (ct_state c) = true.
Proof. apply (running_contract k4 contract_id is_active). vm_compute. reflexivity. Qed.

Lemma k4_change : exists r, changes_of (w_db k4) !! cancelChangeID contract_id (bc_EndsAt november) = Some r
  /\ bool_decide (ch_contract_id r = contract_id /\ ch_idempotency_key r = cancelChangeID contract_id (bc_EndsAt november)
                  /\ ch_state r = ChCanceled) = true.
Proof. apply lookup_test. vm_compute. reflexivity. Qed.

Lemma k4_cancel_run : (cancelContractTx org product contract_id november bought k4).1 = Ret tt.
Proof. vm_compute. reflexivity. Qed.

Lemma m2_downgrade_run : (applyScheduledDowngradeTx org product november bought (due_in m2) m2).1 = Ret tt.
Proof. vm_compute. reflexivity. Qed.

Lemma m2_from : dc_FromPhaseID (due_in m2) <> "".
Proof. vm_compute. discriminate. Qed.

Lemma m2_to : dc_ToPhaseID (due_in m2) <> "".
Proof. vm_compute. discriminate. Qed.

Lemma m2_to_new : phases_of (w_db m2) !! dc_ToPhaseID (due_in m2) = None.
Proof. vm_compute. reflexivity. Qed.

Lemma m2_contract : exists c, contracts_of (w_db m2) !! dc_ContractID (due_in m2) = Some c
  /\ ct_org_id c = orgIDText org /\ running (ct_state c) = true.
Proof. apply (running_contract m2 (dc_ContractID (due_in m2)) running). vm_compute. reflexivity. Qed.

Lemma m2_phase : exists p, phases_of (w_db m2) !! dc_FromPhaseID (due_in m2) = Some p
  /\ bool_decide (ph_contract_id p = dc_ContractID (due_in m2) /\ phase_open p = true) = true.
Proof. apply lookup_test. vm_compute. reflexivity. Qed.

Lemma u2_upgrade_run : (applyUpgradeTx quote "in_1" u2).1 = Ret tt.
Proof. vm_compute. reflexivity. Qed.

Lemma u2_change : exists r, changes_of (w_db u2) !! qt_ChangeID quote = Some r
  /\ bool_decide (ch_state r = ChAwaitingPayment) = true.
Proof. apply lookup_test. vm_compute. reflexivity. Qed.

Lemma u2_phase : exists p, phases_of (w_db u2) !! qt_FromPhaseID quote = Some p
  /\ bool_decide (ph_contract_id p = qt_ContractID quote /\ phase_current p = true) = true.
Proof. apply lookup_test. vm_compute. reflexivity. Qed.

Lemma u2_to_new : phases_of (w_db u2) !! qt_ToPhaseID quote = None.
Proof. vm_compute. reflexivity. Qed.

Lemma quote_effective : is_zero (qt_EffectiveAt quote) = false.
Proof. vm_compute. reflexivity. Qed.

Lemma u2_contract : exists c, contracts_of (w_db u2) !! qt_ContractID quote = Some c
  /\ ct_org_id c = orgIDText (qt_OrgID quote) /\ running (ct_state c) = true.
Proof.
  replace (orgIDText (qt_OrgID quote)) with (orgIDText org) by (vm_compute; reflexivity).
  apply (running_contract u2 (qt_ContractID quote) running). vm_compute. reflexivity.
Qed.

(** ** The tables along the run *)

Lemma period_run {A} (m : @B state A) w : handler A m -> rtc period_step (w_db w) (w_db (m w).2).
Proof. intros H. exact (proj1 (handler_period A m H w)). Qed.

Lemma no_rows {A} checks (conflict : A -> A -> bool) : table_ok checks conflict ∅.
Proof. split; [apply map_Forall_empty|]. intros i j x y _ H. by rewrite lookup_empty in H. Qed.

Lemma w0_tables : tables_ok (w_db w0).
Proof. split; apply no_rows. Qed.

Lemma clock_step t (w : world state) : rtc period_step (w_db w) (w_db (at_time t w)).
Proof. apply rtc_once, period_step_other; reflexivity. Qed.

Lemma k0_steps : rtc period_step (w_db w0) (w_db k0).
Proof.
  transitivity (w_db w1).
  - unfold w1. exact (period_run EnsureLedgerBootstrapped w0 (or_intror (or_introl h_bootstrap))).
  - unfold k0. exact (clock_step bought w1).
Qed.

Lemma k1_steps : rtc period_step (w_db k0) (w_db k1).
Proof. unfold k1. refine (period_run _ k0 (or_intror (or_introl _))). apply h_catalog_contract. Qed.

Lemma k2_steps : rtc period_step (w_db k1) (w_db k2).
Proof. unfold k2. refine (period_run _ k1 (or_intror (or_introl _))). apply h_cancel. Qed.

Lemma k3_steps : rtc period_step (w_db k2) (w_db k3).
Proof.
  transitivity (w_db (at_time (go_date 2023 12 20 0) k2)).
  - exact (clock_step (go_date 2023 12 20 0) k2).
  - unfold k3. refine (period_run _ (at_time (go_date 2023 12 20 0) k2) (or_intror (or_introl _))). apply h_due.
Qed.

Lemma k2_tables : tables_ok (w_db k2).
Proof.
  refine (period_step_tables _ _ _ w0_tables). transitivity (w_db k0); [exact k0_steps|].
  transitivity (w_db k1); [exact k1_steps|exact k2_steps].
Qed.

(** The contract ended when the cycle did. *)
Lemma k3_contract : exists c, contracts_of (w_db k3) !! contract_id = Some c
  /\ ct_closed_at c = Some (bc_EndsAt november).
Proof.
  assert (exists c, contracts_of (w_db k3) !! contract_id = Some c
    /\ bool_decide (ct_closed_at c = Some (bc_EndsAt november)) = true) as (c & Hc & H)
    by (apply lookup_test; vm_compute; reflexivity).
  exists c. split; [exact Hc|]. by apply bool_decide_eq_true in H.
Qed.

Definition k6 : world state := (CancelContract 5 org contract_id k3).2.

Lemma k6_steps : rtc period_step (w_db k3) (w_db k6).
Proof. unfold k6. refine (period_run _ k3 (or_intror (or_introl _))). apply h_cancel. Qed.

(** ** A finalization that is pending

    The cycle of the cancelled contract rolled over, but not finalized yet. *)

Definition f0 : world state := at_time (go_date 2023 12 20 0) k2.
Definition f1 : world state := (WithTx (rollDueCycleTx org product) f0).2.

Definition pending : string :=
  match ListPendingBillingFinalizations 1 (w_db f1) with id :: _ => id | [] => "" end.

Lemma f1_steps : rtc period_step (w_db f0) (w_db f1).
Proof.
  unfold f1. assert (evolves (rtc period_step) ledger_grows (WithTx (rollDueCycleTx org product) : @B state _)) as H.
  { apply evolves_WithTx; [apply _..|]. apply rollDue_evolves; [apply _|apply account_period|apply _|apply Dispatch_grows|apply write_period]. }
  exact (proj1 (H f0)).
Qed.

Lemma f1_tables : tables_ok (w_db f1).
Proof.
  refine (period_step_tables _ _ _ k2_tables). transitivity (w_db f0); [exact (clock_step (go_date 2023 12 20 0) k2)|exact f1_steps].
Qed.

Lemma f1_pending : exists f, finalizations_of (w_db f1) !! pending = Some f /\ finalization_due f = true.
Proof. apply lookup_test. vm_compute. reflexivity. Qed.

Lemma f1_run : FinalizeFinalization pending f1 = (Ret true, (FinalizeFinalization pending f1).2).
Proof. apply (run_Ret (FinalizeFinalization pending) f1 true). vm_compute. reflexivity. Qed.
