(* ===== verification/ContractTheorems.v ===== *)
(** * Theorems on contracts

    What the scheduled changes of a contract do when they fall due, what a
    paid upgrade does, and what no request can do any more once a contract
    has ended. *)

From stdpp Require Import relations.
From S2P Require Import Prelude GoFloat GoStd GoFormat GoTime Json Types Ids Charges Ledger Grants Store Events.
From S2P Require Import LedgerCommands LedgerGrants Cycles Entitlements ContractStore DocumentStore DueChanges.
From S2P Require Import WindowStore Windows Statements Finalizations Dispatcher Contracts Catalog Samples Frames.
From S2P Require Import PeriodSystem ContractSystem Legs WindowInv PrepareTx ReserveTx WindowSystem Service.
From S2P Require Import ContractRuns Settlement SampleRun ContractRun.

(** ** Invariants of the tables *)


(** C10: A contract that has been closed is final: no request, in whatever
    order requests interleave, changes its row again. *)
Theorem closed_contract_final d d' id c :
  tables_ok d -> rtc period_step d d' -> contracts_of d !! id = Some c -> ct_closed_at c <> None ->
  contracts_of d' !! id = Some c.
Proof.
  intros H Hs Hc Hcl. apply (period_step_kept _ _ Hs id c Hc). split; [by destruct (ct_closed_at c)|].
  exact (proj2 (proj1 (contracts_ok d H) id c Hc)).
Qed.

Section Theorems.
Context {St : Type} `{HE : Env} `{HD : Digest}.

(** ** Scheduled changes *)

Definition cancelable (contract org product : string) (e : time) (p : phaseRow) : Prop :=
  of_contract contract org p = true /\ ph_product_id p = product /\ phase_open p = true /\ ph_effective_start p < e.

Lemma cancelable_listed contract org product e d id :
  id ∈ (ListCancelableContractPhases contract org product e d).*1
  <-> exists p, phases_of d !! id = Some p /\ cancelable contract org product e p.
Proof.
  unfold ListCancelableContractPhases. rewrite <- list_fmap_compose. rewrite list_elem_of_fmap. split.
  - intros ([i p] & -> & Hi). rewrite sort_slice_perm in Hi. apply list_elem_of_filter in Hi as [Hc Hi].
    exists p. apply elem_of_map_to_list in Hi. split; [done|]. exact Hc.
  - intros (p & Hp & Hc). exists (id, p). split; [done|]. rewrite sort_slice_perm. apply list_elem_of_filter.
    split; [exact Hc|by apply elem_of_map_to_list].
Qed.

Lemma listed_nonempty contract org product e d :
  table_ok phase_checks phases_conflict (phases_of d) ->
  Forall (fun id => id <> "") (ListCancelableContractPhases contract org product e d).*1.
Proof.
  intros [Hok _]. apply Forall_forall. intros id (p & Hp & _)%cancelable_listed. by destruct (Hok id p Hp).
Qed.

(** C13: A cancellation that falls due ends its contract at the end of the
    cycle: the contract is ended and closed, every open phase that started
    before is closed, no phase of another contract is touched, and the change
    is marked applied. *)
Theorem due_cancellation_ends_contract org p cycle now ch (w w' : world St) c :
  applyScheduledCancelTx org p cycle now ch w = (Ret tt, w') ->
  tables_ok (w_db w) -> is_zero (bc_EndsAt cycle) = false ->
  contracts_of (w_db w) !! dc_ContractID ch = Some c -> ct_org_id c = orgIDText org -> running (ct_state c) = true ->
  let e := pg_timestamptz (bc_EndsAt cycle) in
  (exists c', contracts_of (w_db w') !! dc_ContractID ch = Some c' /\ ct_state c' = KEnded /\ ct_closed_at c' = Some e
     /\ ct_entitlement_state c' = "closed" /\ ct_cancel_at c' = coalesce (ct_cancel_at c) (Some e))
  /\ (forall id ph, phases_of (w_db w) !! id = Some ph ->
        phases_of (w_db w') !! id =
          Some (if decide (cancelable (dc_ContractID ch) (orgIDText org) p e ph) then closed_phase e ph else ph))
  /\ (forall r, changes_of (w_db w) !! dc_ChangeID ch = Some r ->
        exists r', changes_of (w_db w') !! dc_ChangeID ch = Some r' /\ ch_state r' = ChApplied
          /\ ch_actual_effective_at r' = Some e).
Proof.
  intros H Hok Hz Hc Ho Hr e. unfold applyScheduledCancelTx, markContractChangeApplyingTx, markContractChangeAppliedTx in H.
  apply mbindM_Ret_inv in H as ([] & w1 & H1 & H). apply statement_Ret, update_change_Ret in H1 as (C1 & P1 & X1).
  apply mbindM_Ret_inv in H as (phs & w2 & H2 & H). apply listAt_Ret in H2 as [-> ->]; [|done].
  apply mbindM_Ret_inv in H as ([] & w2 & H2 & H). apply close_phases_Ret in H2 as (C2 & X2 & P2);
    [|done|by apply (Forall_fmap fst (fun id => id <> "")), listed_nonempty; rewrite P1; apply phases_ok].
  apply mbindM_Ret_inv in H as ([] & w3 & H3 & H). rewrite (timestamptz_Some _ Hz) in H3.
  apply statement_Ret in H3. eapply update_contract_Ret in H3; [|by rewrite C2, C1|done|done].
  apply mbindM_Ret_inv in H as ([] & w4 & H4 & H). apply statement_Ret, update_change_Ret in H4 as (C4 & P4 & X4).
  apply append_same in H. unfold same_contracts in H. unfold contracts_of, phases_of, changes_of in *. rewrite H.
  split_and!.
  - rewrite C4, H3. cbn [kt_contracts]. rewrite lookup_insert_eq. eexists. by split_and!.
  - intros id ph Hph. rewrite P4, H3. cbn [kt_phases]. rewrite P2, P1, Hph. case_decide as Hin.
    + apply cancelable_listed in Hin as (q & Hq & Hcq). unfold phases_of in Hq. rewrite P1, Hph in Hq. injection Hq as <-.
      rewrite decide_True by done. simpl. f_equal. unfold close_open. destruct Hcq as (H5 & _ & H6 & _).
      unfold of_contract in H5. zbool. by rewrite H6, andb_true_r; match goal with Hb : bool_decide (ph_contract_id _ = _) = true |- _ => rewrite Hb end.
    + rewrite decide_False; [done|]. intros Hcq. apply Hin, cancelable_listed. exists ph. split; [|done].
      unfold phases_of. by rewrite P1.
  - intros r Hr'. rewrite X4, H3. cbn [kt_changes]. rewrite lookup_alter_eq, X2, X1, lookup_alter_eq, Hr'.
    rewrite (timestamptz_Some _ Hz). eexists. split; [reflexivity|]. done.
Qed.

(** C25: A cancellation that is resumed and requested again in the same cycle is
    lost: the contract is marked for cancellation, but the change that would
    end it at the end of the cycle stays canceled, and no other is written. *)
Theorem repeated_cancellation_lost org p contract cycle now (w w' : world St) c r :
  cancelContractTx org p contract cycle now w = (Ret tt, w') -> is_zero (bc_EndsAt cycle) = false ->
  contracts_of (w_db w) !! contract = Some c -> ct_org_id c = orgIDText org -> ct_state c = KActive ->
  let id := cancelChangeID contract (bc_EndsAt cycle) in
  changes_of (w_db w) !! id = Some r -> ch_contract_id r = contract -> ch_idempotency_key r = id ->
  changes_of (w_db w') = changes_of (w_db w)
  /\ exists c', contracts_of (w_db w') !! contract = Some c' /\ ct_state c' = KCancelScheduled
     /\ ct_cancel_at c' = Some (pg_timestamptz (bc_EndsAt cycle)).
Proof.
  intros H Hz Hc Ho Hst id Hr Hk1 Hk2. unfold cancelContractTx in H. rewrite (timestamptz_Some _ Hz) in H.
  apply mbindM_Ret_inv in H as ([] & w1 & H1 & H). apply statement_Ret in H1.
  eapply update_contract_Ret in H1; [|done|done|by rewrite Hst].
  apply mbindM_Ret_inv in H as ([] & w2 & H2 & H). apply statement_Ret, update_phases_kept in H2 as [C2 X2].
  apply mbindM_Ret_inv in H as ([] & w3 & H3 & H). apply statement_Ret in H3.
  apply append_same in H. unfold same_contracts, contracts_of, changes_of in *. rewrite H.
  assert (w_db w3 = w_db w2) as ->.
  { unfold InsertCancellationContractChange in H3. apply obind_Ret_inv in H3 as (t1 & _ & H3).
    apply obind_Ret_inv in H3 as (t2 & _ & H3). unfold insertChangeOrNothing in H3.
    match type of H3 with context [change_by_key ?row ?d] => destruct (change_by_key row d) as [kv|] eqn:E end; [by injection H3 as <-|].
    exfalso. eapply change_by_key_None in E; [|unfold changes_of; rewrite X2, H1; exact Hr].
    unfold same_change_key in E. simpl in E. by rewrite Hk1, Hk2, !bool_decide_true in E. }
  rewrite C2, X2, H1. cbn [kt_changes kt_contracts]. split; [done|]. rewrite lookup_insert_eq. eexists. by split_and!.
Qed.

(** C12: A downgrade that falls due hands the contract over at the end of the
    cycle without a gap: the old phase is closed, the new one is active on the
    target plan from exactly then on, no other phase changes, the contract is
    active with no end, and the change is marked applied. *)
Theorem due_downgrade_hands_over org p cycle now ch (w w' : world St) c from :
  applyScheduledDowngradeTx org p cycle now ch w = (Ret tt, w') -> is_zero (bc_EndsAt cycle) = false ->
  dc_FromPhaseID ch <> "" -> dc_ToPhaseID ch <> "" ->
  phases_of (w_db w) !! dc_FromPhaseID ch = Some from -> ph_contract_id from = dc_ContractID ch -> phase_open from = true ->
  phases_of (w_db w) !! dc_ToPhaseID ch = None ->
  contracts_of (w_db w) !! dc_ContractID ch = Some c -> ct_org_id c = orgIDText org -> running (ct_state c) = true ->
  let e := pg_timestamptz (bc_EndsAt cycle) in
  (exists to, new_phase to (dc_ContractID ch) (orgIDText org) p (dc_TargetPlanID ch) "paid" PhActive e
     /\ phases_of (w_db w') = <[dc_ToPhaseID ch := to]> (<[dc_FromPhaseID ch := closed_phase e from]> (phases_of (w_db w))))
  /\ (exists c', contracts_of (w_db w') !! dc_ContractID ch = Some c' /\ ct_state c' = KActive
      /\ ct_display_name c' = dc_TargetPlanID ch /\ ct_ends_at c' = None /\ ct_cancel_at c' = None)
  /\ (forall r, changes_of (w_db w) !! dc_ChangeID ch = Some r ->
        exists r', changes_of (w_db w') !! dc_ChangeID ch = Some r' /\ ch_state r' = ChApplied
          /\ ch_actual_effective_at r' = Some e).
Proof.
  intros H Hz Hf0 Ht0 Hf Hfc Hfo Ht Hc Ho Hr e.
  unfold applyScheduledDowngradeTx, markContractChangeApplyingTx, markContractChangeAppliedTx in H.
  case_decide as Htp; [done|]. apply mbindM_Ret_inv in H as (ps & w1 & Hq & H). apply planEntitlementPolicies_Ret in Hq as ->.
  rewrite !(decide_False (P := dc_ToPhaseID ch = "")), (decide_False (P := dc_FromPhaseID ch = "")) in H by done.
  apply mbindM_Ret_inv in H as (fr & w1 & Hfr & H). injection Hfr as <- <-.
  apply mbindM_Ret_inv in H as ([] & w1 & H1 & H). apply statement_Ret, update_change_Ret in H1 as (C1 & P1 & X1).
  apply mbindM_Ret_inv in H as (pl & w2 & Hq & H). apply phasePlanIDTx_Ret in Hq as ->.
  apply mbindM_Ret_inv in H as ([] & w2 & H2 & H). apply closeContractPhaseTx_Ret in H2; [|done|done].
  apply mbindM_Ret_inv in H as ([] & w3 & H3 & H). apply insertContractPhaseTx_Ret in H3 as (to & Hto & H3); [|done|].
  2: { unfold phases_of at 1. rewrite H2. cbn [kt_phases]. rewrite lookup_alter_ne by congruence. by rewrite P1. }
  apply mbindM_Ret_inv in H as ([] & w4 & Hq & H). apply copyLines_Ret in Hq as (C4 & P4 & X4).
  apply mbindM_Ret_inv in H as ([] & w5 & H5 & H). apply statement_Ret in H5.
  assert (contracts_of (w_db w3) = contracts_of (w_db w)) as C3
    by (unfold contracts_of; rewrite H3; unfold contracts_of; rewrite H2; exact C1).
  eapply update_contract_Ret in H5; [|by rewrite C4, C3|done|done].
  apply mbindM_Ret_inv in H as ([] & w6 & H6 & H). apply statement_Ret, update_change_Ret in H6 as (C6 & P6 & X6).
  unfold downgradeEvents in H. apply mbindM_Ret_inv in H as ([] & w7 & H7 & H). apply append_same in H7, H.
  unfold same_contracts, contracts_of, phases_of, changes_of in *. rewrite H, H7. split_and!.
  - exists to. split; [done|]. rewrite P6, H5. cbn [kt_phases]. rewrite P4, H3. cbn [kt_phases]. rewrite H2. cbn [kt_phases].
    f_equal. apply map_eq. intros i. rewrite P1. destruct (decide (i = dc_FromPhaseID ch)) as [->|Hi].
    + rewrite lookup_alter_eq, lookup_insert_eq, Hf. simpl. unfold close_open. by rewrite bool_decide_true, Hfo.
    + by rewrite lookup_alter_ne, lookup_insert_ne.
  - rewrite C6, H5. cbn [kt_contracts]. rewrite lookup_insert_eq. eexists. by split_and!.
  - intros r Hr'. rewrite X6, H5. cbn [kt_changes]. rewrite lookup_alter_eq, X4, H3. cbn [kt_changes]. rewrite H2.
    cbn [kt_changes]. rewrite X1, lookup_alter_eq, Hr'. rewrite (timestamptz_Some _ Hz). eexists. split; [reflexivity|done].
Qed.

Lemma upgradePhases_Ret q (w w' : world St) p :
  upgradePhasesTx q w = (Ret tt, w') -> is_zero (qt_EffectiveAt q) = false ->
  phases_of (w_db w) !! qt_FromPhaseID q = Some p -> ph_contract_id p = qt_ContractID q -> phase_current p = true ->
  phases_of (w_db w) !! qt_ToPhaseID q = None ->
  let e := pg_timestamptz (qt_EffectiveAt q) in
  exists to, new_phase to (qt_ContractID q) (orgIDText (qt_OrgID q)) (qt_ProductID q) (qt_TargetPlanID q) "paid" PhActive e
    /\ contracts_of (w_db w') = contracts_of (w_db w) /\ changes_of (w_db w') = changes_of (w_db w)
    /\ phases_of (w_db w') = <[qt_ToPhaseID q := to]>
                               (<[qt_FromPhaseID q := superseded_phase e (qt_ToPhaseID q) p]> (phases_of (w_db w))).
Proof.
  intros H Hz Hp Hc Ho Hn e. assert (qt_FromPhaseID q <> qt_ToPhaseID q) as Hne by congruence. unfold upgradePhasesTx in H.
  apply mbindM_Ret_inv in H as (b & w1 & H1 & H). eapply supersede_Ret in H1; [|done..].
  apply mbindM_Ret_inv in H as ([] & w2 & H2 & H).
  assert (same_contracts w1 w2) as E2 by (destruct b; [by apply append_same in H2|by injection H2 as <-]).
  apply mbindM_Ret_inv in H as ([] & w3 & H3 & H). unfold same_contracts in E2.
  apply insertContractPhaseTx_Ret in H3 as (to & Hto & H3); [|done|].
  2: { unfold phases_of in *. rewrite E2, H1. cbn [kt_phases]. by rewrite lookup_insert_ne. }
  apply mbindM_Ret_inv in H as ([] & w4 & H4 & H). apply append_same in H4. unfold same_contracts in H4.
  apply statement_Ret in H. unfold contracts_of, phases_of, changes_of in *.
  eapply link_superseded_Ret in H; cycle 1.
  { unfold phases_of. rewrite H4, H3. cbn [kt_phases]. rewrite lookup_insert_ne by done. rewrite E2, H1. apply lookup_insert_eq. }
  { exact Hc. }
  { done. }
  exists to. split; [done|]. rewrite H. unfold contracts_of, phases_of, changes_of. cbn [kt_contracts kt_changes kt_phases].
  rewrite H4, H3. cbn [kt_contracts kt_changes kt_phases]. rewrite E2, H1. cbn [kt_contracts kt_changes kt_phases].
  split_and!; [done..|]. rewrite (insert_insert_ne _ (qt_FromPhaseID q)), !insert_insert_eq by done. reflexivity.
Qed.

(** C11: A paid upgrade takes effect once: the old phase is superseded at the
    effective time (voided if it had not begun), the new one is active on the
    target plan from exactly then on, no other phase changes, the contract is
    active on the target plan and the change is applied with its invoice; a
    further payment notice for the change then has no effect at all. *)
Theorem paid_upgrade_applied_once q invoice (w w' : world St) p c r :
  applyUpgradeTx q invoice w = (Ret tt, w') -> is_zero (qt_EffectiveAt q) = false ->
  changes_of (w_db w) !! qt_ChangeID q = Some r -> ch_state r = ChAwaitingPayment \/ ch_state r = ChProviderPending ->
  phases_of (w_db w) !! qt_FromPhaseID q = Some p -> ph_contract_id p = qt_ContractID q -> phase_current p = true ->
  phases_of (w_db w) !! qt_ToPhaseID q = None ->
  contracts_of (w_db w) !! qt_ContractID q = Some c -> ct_org_id c = orgIDText (qt_OrgID q) ->
  let e := pg_timestamptz (qt_EffectiveAt q) in
  (exists to, new_phase to (qt_ContractID q) (orgIDText (qt_OrgID q)) (qt_ProductID q) (qt_TargetPlanID q) "paid" PhActive e
     /\ phases_of (w_db w') = <[qt_ToPhaseID q := to]>
                                (<[qt_FromPhaseID q := superseded_phase e (qt_ToPhaseID q) p]> (phases_of (w_db w))))
  /\ (exists c', contracts_of (w_db w') !! qt_ContractID q = Some c' /\ ct_state c' = KActive
      /\ ct_display_name c' = qt_TargetPlanID q /\ ct_cancel_at c' = None)
  /\ (exists r', changes_of (w_db w') !! qt_ChangeID q = Some r' /\ ch_state r' = ChApplied
      /\ ch_actual_effective_at r' = Some e /\ ch_provider_invoice_id r' = invoice)
  /\ (forall invoice' (w2 : world St), changes_of (w_db w2) = changes_of (w_db w') -> applyUpgradeTx q invoice' w2 = (Ret tt, w2)).
Proof.
  intros H Hz Hr Hst Hp Hpc Hpo Hn Hc Ho e. unfold applyUpgradeTx in H.
  apply mbindM_Ret_inv in H as (st & w1 & Hq & H). apply query_Ret in Hq as [-> ->].
  unfold GetContractChangeStateForUpdate in H. rewrite Hr in H. simpl in H.
  assert (upgradeEffectsTx q invoice w = (Ret tt, w')) as HE' by (destruct Hst as [E|E]; by rewrite E in H). clear H.
  unfold upgradeEffectsTx in HE'. cbv zeta in HE'. rewrite !(timestamptz_Some _ Hz) in HE'. rename HE' into H.
  apply mbindM_Ret_inv in H as ([] & w1 & H1 & H). eapply upgradePhases_Ret in H1 as (to & Hto & C1 & X1 & P1); [|done..].
  apply mbindM_Ret_inv in H as ([] & w2 & H2 & H). apply copyLines_Ret in H2 as (C2 & P2 & X2).
  apply mbindM_Ret_inv in H as ([] & w3 & H3 & H). apply delta_grants_same in H3.
  apply mbindM_Ret_inv in H as ([] & w4 & H4 & H). apply statement_Ret in H4. unfold same_contracts in H3.
  eapply update_contract_Ret in H4; [|by unfold contracts_of in *; rewrite H3, C2, C1|done|done].
  apply mbindM_Ret_inv in H as ([] & w5 & H5 & H). apply statement_Ret, update_change_Ret in H5 as (C5 & P5 & X5).
  apply mbindM_Ret_inv in H as ([] & w6 & H6 & H). apply statement_Ret, document_paid_same in H6.
  apply mbindM_Ret_inv in H as ([] & w7 & H7 & H). apply statement_Ret, finalization_paid_same in H7.
  apply append_same in H. unfold same_contracts in H.
  assert (exists r', changes_of (w_db w') !! qt_ChangeID q = Some r' /\ ch_state r' = ChApplied
            /\ ch_actual_effective_at r' = Some e /\ ch_provider_invoice_id r' = invoice) as Hch.
  { unfold changes_of in *. rewrite H, H7, H6, X5, H4. cbn [kt_changes]. rewrite lookup_alter_eq, H3, X2, X1, Hr.
    eexists. split; [reflexivity|done]. }
  unfold contracts_of, phases_of, changes_of in *. split_and!.
  - exists to. split; [done|]. rewrite H, H7, H6, P5, H4. cbn [kt_phases]. by rewrite H3, P2, P1.
  - rewrite H, H7, H6, C5, H4. cbn [kt_contracts]. rewrite lookup_insert_eq. eexists. by split_and!.
  - exact Hch.
  - intros invoice' w8 E8. destruct Hch as (r' & Hr' & Hs' & _). unfold applyUpgradeTx, mbindM, query.
    unfold GetContractChangeStateForUpdate, changes_of. rewrite E8, Hr'. simpl. by rewrite Hs'.
Qed.
End Theorems.

(** ** The theorems on the run of ContractRun.v *)

Import RefLedger Sample.


Lemma closed_contract_final_witness : exists c, contracts_of (w_db k3) !! contract_id = Some c
  /\ contracts_of (w_db k6) !! contract_id = Some c.
Proof.
  destruct k3_contract as (c & Hc & Hclosed). exists c. split; [exact Hc|].
  refine (closed_contract_final (w_db k3) (w_db k6) contract_id c _ k6_steps Hc _).
  - exact (period_step_tables _ _ k3_steps k2_tables).
  - rewrite Hclosed. discriminate.
Defined.

Lemma due_cancellation_ends_contract_witness :
  exists w c, applyScheduledCancelTx org product november bought (due_in k2) k2 = (Ret tt, w)
    /\ contracts_of (w_db w) !! dc_ContractID (due_in k2) = Some c /\ ct_state c = KEnded.
Proof.
  pose proof (run_Ret _ k2 tt k2_cancel_run) as Hrun. destruct k2_contract as (c & Hc & Ho & Hr).
  destruct (due_cancellation_ends_contract org product november bought (due_in k2) k2 _ c Hrun k2_tables november_ends Hc Ho Hr)
    as [(c' & H1 & H2 & _) _].
  eexists _, c'. split; [exact Hrun|]. split; [exact H1|exact H2].
Defined.

Lemma repeated_cancellation_lost_witness :
  exists w, cancelContractTx org product contract_id november bought k4 = (Ret tt, w)
    /\ changes_of (w_db w) = changes_of (w_db k4).
Proof.
  pose proof (run_Ret _ k4 tt k4_cancel_run) as Hrun. destruct k4_contract as (c & Hc & Ho & Hs).
  destruct k4_change as (r & Hr & Hk). apply bool_decide_eq_true_1 in Hk as (H1 & H2 & _).
  eexists. split; [exact Hrun|].
  exact (proj1 (repeated_cancellation_lost org product contract_id november bought k4 _ c r Hrun november_ends Hc Ho
    (bool_decide_eq_true_1 _ Hs) Hr H1 H2)).
Defined.

Lemma due_downgrade_hands_over_witness :
  exists w to, applyScheduledDowngradeTx org product november bought (due_in m2) m2 = (Ret tt, w)
    /\ ph_plan_id to = dc_TargetPlanID (due_in m2) /\ phases_of (w_db w) !! dc_ToPhaseID (due_in m2) = Some to.
Proof.
  pose proof (run_Ret _ m2 tt m2_downgrade_run) as Hrun. destruct m2_contract as (c & Hc & Ho & Hr).
  destruct m2_phase as (p & Hp & Hk). apply bool_decide_eq_true_1 in Hk as [H1 H2].
  destruct (due_downgrade_hands_over org product november bought (due_in m2) m2 _ c p Hrun november_ends m2_from m2_to Hp H1 H2
    m2_to_new Hc Ho Hr) as [(to & (_ & _ & _ & Hto & _) & Hph) _].
  eexists _, to. split; [exact Hrun|]. split; [exact Hto|]. rewrite Hph. apply lookup_insert_eq.
Defined.

Lemma paid_upgrade_applied_once_witness :
  exists w to, applyUpgradeTx quote "in_1" u2 = (Ret tt, w)
    /\ ph_plan_id to = qt_TargetPlanID quote /\ phases_of (w_db w) !! qt_ToPhaseID quote = Some to
    /\ applyUpgradeTx quote "in_2" w = (Ret tt, w).
Proof.
  pose proof (run_Ret _ u2 tt u2_upgrade_run) as Hrun. destruct u2_contract as (c & Hc & Ho & _).
  destruct u2_change as (r & Hr & Hs). apply bool_decide_eq_true_1 in Hs.
  destruct u2_phase as (p & Hp & Hk). apply bool_decide_eq_true_1 in Hk as [H1 H2].
  destruct (paid_upgrade_applied_once quote "in_1" u2 _ p c r Hrun quote_effective Hr (or_introl Hs) Hp H1 H2 u2_to_new Hc Ho)
    as [(to & (_ & _ & _ & Hto & _) & Hph) (_ & _ & Hagain)].
  eexists _, to. split; [exact Hrun|]. split; [exact Hto|]. split; [rewrite Hph; apply lookup_insert_eq|].
  exact (Hagain "in_2" _ eq_refl).
Defined.

(** * Internal promotions

    An internal promotion inserts a phase of kind 'internal' that names its
    plan; the schema allows a plan only on phases of kind 'catalog_plan'. *)

Section Promotions.
Context {St : Type} `{HE : Env} `{HD : Digest} `{HC : TBCodec} `{!TigerBeetle St}.

(** [m] does not succeed from [w]. *)
Definition never {A} (m : @B St A) (w : world St) : Prop := forall a, (m w).1 <> Ret a.

(** Besides, the database is what it was. *)
Definition refused {A} (m : @B St A) (w : world St) : Prop := never m w /\ w_db (m w).2 = w_db w.

Definition anything (s s' : St) : Prop := True.

#[local] Instance anything_preorder : PreOrder anything.
Proof. by split. Qed.

Lemma never_bind {A C} (P : DB -> Prop) (m : @B St A) (f : A -> @B St C) w :
  evolves (keeps P) anything m -> P (w_db w) -> (forall a w1, P (w_db w1) -> never (f a) w1) -> never (mbindM m f) w.
Proof.
  intros Hm Hw Hf b. unfold mbindM. destruct (Hm w) as [H1 _]. destruct (m w) as [[a|e|] w1]; [|done|done].
  apply Hf. by apply H1.
Qed.

Lemma never_first {A C} (m : @B St A) (f : A -> @B St C) w : never m w -> never (mbindM m f) w.
Proof. intros H b. unfold mbindM. specialize (H : never m w). destruct (m w) as [[a|e|] w1] eqn:E; [|done|done]. by destruct (H a); rewrite E. Qed.

Lemma refused_bind {A C} (m : @B St A) (f : A -> @B St C) w :
  evolves eq anything m -> (forall a w1, w_db w1 = w_db w -> refused (f a) w1) -> refused (mbindM m f) w.
Proof.
  intros Hm Hf. unfold refused, never, mbindM. destruct (Hm w) as [H1 _]. destruct (m w) as [[a|e|] w1]; simpl in *; [|done..].
  destruct (Hf a w1 (eq_sym H1)) as [Hn Hd]. split; [done|congruence].
Qed.

Lemma refused_first {A C} (m : @B St A) (f : A -> @B St C) w : refused m w -> refused (mbindM m f) w.
Proof.
  intros [H Hd]. unfold refused, never, mbindM in *. destruct (m w) as [[a|e|] w1]; simpl in *; [|done..]. by destruct (H a).
Qed.

Lemma refused_WithTx {A} (m : @B St A) w : (forall w1, w_db w1 = w_db w -> never m w1) -> refused (WithTx m) w.
Proof.
  intros H. unfold refused, never, WithTx. simpl.
  match goal with |- context [m ?x] => specialize (H x eq_refl); unfold never in H; destruct (m x) as [[a|e|] w2] end;
    simpl in *; [by destruct (H a)|done..].
Qed.

Lemma refused_fail {A} e (w : world St) : refused (mfail e : @B St A) w.
Proof. done. Qed.

(** ** The activation never commits *)

Definition no_phase (ph : string) (d : DB) : Prop := phases_of d !! ph = None.

Lemma writes_fixed_phases {A} ph (f : DB -> res (A * DB)) :
  writes (fun d d' => phases_of d' = phases_of d) f -> evolves (St := St) (keeps (no_phase ph)) anything (statement f).
Proof.
  intros Hf. apply evolves_statement; [apply _..|]. intros d a d' H Hn. unfold no_phase. by rewrite (Hf _ _ _ H).
Qed.

Lemma CloseContractPhase_absent ph id c e :
  evolves (St := St) (keeps (no_phase ph)) anything (statement (CloseContractPhase id c e)).
Proof.
  apply evolves_statement; [apply _..|]. intros d n d' H Hn. unfold CloseContractPhase, update_row in H.
  destruct (phases_of d !! id) as [p|] eqn:Ep; [|by injection H as _ <-].
  destruct (_ && _); [|by injection H as _ <-]. apply obind_Ret_inv in H as (d1 & H & Hr). injection Hr as _ <-.
  apply put_row_Ret in H as (_ & _ & _ & ->). unfold no_phase, phases_of in *. simpl.
  rewrite lookup_insert_ne; [done|]. intros ->. congruence.
Qed.

(** The split writes cycles and finalizations, not contracts. *)
Lemma split_absent ph o p t : evolves (St := St) (keeps (no_phase ph)) anything (splitCycleForContractActivationTx o p t).
Proof.
  assert (RS : forall d d', account_step d d' -> keeps (no_phase ph) d d').
  { intros d d' (_ & E & _) Hn. unfold no_phase, phases_of. by rewrite E. }
  assert (RDoc : forall d d', documents_only d d' -> keeps (no_phase ph) d d').
  { intros d d' (dt & cy & ->) Hn. exact Hn. }
  assert (RT : forall pl s, anything s (Dispatch ledger_configured pl s).2) by done.
  pose proof (fun k o p c => upsertCycleTx_ok (St := St) _ RS anything RT k o p c) as Hu.
  pose proof (fun i s => LinkSuccessorBillingCycle_ok (St := St) _ RS anything RT i s) as Hl.
  pose proof (fun ev => appendEvent_ok (St := St) _ RS anything RT ev) as He.
  assert (forall id c0 o0 p0 t0, evolves (St := St) (keeps (no_phase ph)) anything (statement (InsertCycleFinalization id c0 o0 p0 t0))) as Hi.
  { intros. eapply evolves_writes; [apply _..|exact RDoc|by_definition]. }
  assert (forall c0 f, evolves (St := St) (keeps (no_phase ph)) anything (statement (LinkCycleFinalization c0 f))) as Hf.
  { intros. eapply evolves_writes; [apply _..|exact RDoc|by_definition]. }
  assert (forall id, evolves (St := St) (keeps (no_phase ph)) anything (statement (InsertJob id))) as Hj.
  { intros. apply enqueue_evolves; [apply _..|]. intros d d' (ev & de & jo & ->) Hn. exact Hn. }
  assert (forall id t0, evolves (St := St) (keeps (no_phase ph)) anything (statement (CloseFreeCycleAtActivation id t0))) as Hc.
  { intros. eapply evolves_writes; [apply _..|exact RDoc|by_definition]. }
  unfold splitCycleForContractActivationTx, insertActivationCycleTx, openBillingCycleContainingTx, queryAt.
  simpl ensureCycleFinalizationTx. unfold ensureCycleFinalization. frame.
Qed.

Lemma activation_never o p pl c ph ps t t' (w : world St) :
  pl <> "" -> no_phase ph (w_db w) -> never (activatePromotionTx o p pl c ph ps t t') w.
Proof.
  intros Hpl Hw. unfold activatePromotionTx. eapply never_bind; [apply evolves_query; apply _|exact Hw|]. intros active w1 H1.
  assert (HJ : forall b : bool, evolves (keeps (no_phase ph)) anything
    (if b then mret ""%string else
       do! split <- splitCycleForContractActivationTx o p t;
       do! phases <- listAt t (ListCancelableContractPhases c (orgIDText o) p);
       exec! forEach (closePhaseForPromotion o p c ph t) phases;
       exec! statement (CancelScheduledContractChangesForResume c (orgIDText o) p);
       mret split.2 : @B St string)).
  { pose proof (split_absent ph o p t). pose proof (CloseContractPhase_absent ph).
    assert (forall ev, evolves (St := St) (keeps (no_phase ph)) anything (appendEvent ev)) as He.
    { intros ev. apply appendEvent_evolves; [apply _..|]. intros d d' (e & v & j & ->) Hn. exact Hn. }
    assert (evolves (St := St) (keeps (no_phase ph)) anything (statement (CancelScheduledContractChangesForResume c (orgIDText o) p))) as Hx.
    { apply writes_fixed_phases. eapply writes_mono; [|apply cancel_changes_phases]. done. }
    unfold listAt, closePhaseForPromotion. intros []; frame. }
  eapply never_bind; [apply (HJ active)|exact H1|]. intros fin w2 H2.
  eapply never_bind; [|exact H2|].
  { apply writes_fixed_phases. intros d a d' H. unfold UpsertInternalContract in H. inv_ret. by eapply upsertContract_phases. }
  intros _ w3 H3. apply never_first. unfold insertInternalPromotionalContractPhaseTx.
  eapply never_bind; [unfold loadPlan; frame|exact H3|]. intros plan w4 H4 [] Hr.
  unfold statement in Hr. destruct (UpsertInternalContractPhase _ _ _ _ _ _ _ _) as [[x d]| |] eqn:E; [|done..].
  unfold UpsertInternalContractPhase, upsertPhase in E. apply obind_Ret_inv in E as (from & _ & E). unfold no_phase in H4. rewrite H4 in E.
  apply obind_Ret_inv in E as (d1 & E & _). apply put_row_Ret in E as (_ & E & _). unfold phase_checks in E. simpl in E.
  rewrite (bool_decide_false (pl = "")) in E by done. by zbool.
Qed.

(** C24: An internal promotion is never applied: as long as the phase it would
    insert does not exist, the request is refused, whatever the state of the
    organisation, the plan and the contract, and it changes nothing. *)
Theorem promotion_never_applied org product plan percentOff reason (w : world St) :
  no_phase (internalPromotionPhaseID (contractID org (trim_space product)) (trim_space plan)) (w_db w) ->
  (forall r, (ApplyPlanPromotion org product plan percentOff reason w).1 <> Ret r)
  /\ w_db (ApplyPlanPromotion org product plan percentOff reason w).2 = w_db w.
Proof.
  intros Hw. change (refused (ApplyPlanPromotion org product plan percentOff reason) w). unfold ApplyPlanPromotion. cbv zeta.
  case_decide as Hne; [apply refused_fail|]. destruct (negb (percentOff =? 100)); [apply refused_fail|].
  apply refused_bind; [unfold requireOrg; frame|]. intros _ w1 E1.
  apply refused_bind; [unfold loadPlan; frame|]. intros pl w2 E2.
  destruct (negb _); [apply refused_fail|]. apply refused_bind; [frame|]. intros now w3 E3.
  apply refused_first. unfold activateInternalPromotionalContract.
  apply refused_bind; [unfold planEntitlementPolicies; frame|]. intros ps w4 E4.
  apply refused_first, refused_WithTx. intros w5 E5. apply activation_never; [naive_solver|].
  by rewrite E5, E4, E3, E2, E1.
Qed.
End Promotions.

Import RefLedger Sample.

Lemma promotion_never_applied_witness :
  w_db (ApplyPlanPromotion org product "pro" 100 "launch" k0).2 = w_db k0.
Proof.
  refine (proj2 (promotion_never_applied org product "pro" 100 "launch" k0 _)). unfold no_phase. vm_compute. reflexivity.
Defined.
