(* ===== verification/DocumentTheorems.v ===== *)
(** * Theorems on documents

    Document numbers, the outcome of a finalization and the arithmetic of
    statements. *)

From stdpp Require Import relations.
From S2P Require Import Prelude GoFloat GoStd GoTime GoFormat Json Types Ids Ledger Charges Grants Store Events.
From S2P Require Import LedgerCommands LedgerGrants Cycles Entitlements ContractStore DocumentStore DueChanges.
From S2P Require Import WindowStore Windows.
From S2P Require Import Statements Finalizations Dispatcher Contracts Catalog Samples Frames PeriodSystem.
From S2P Require Import ContractSystem.
From S2P Require Import Legs WindowInv PrepareTx ReserveTx WindowSystem Service ContractRuns Settlement.
From S2P Require Import SampleRun ContractRun.

(** ** Document numbers *)

Definition document_number (year n : Z) : string := "VS-" +:+ format_int year +:+ "-" +:+ pad_uint 6 n.

Lemma split_at (c : Z) l1 l2 r1 r2 : c ∉ l1 -> c ∉ l2 -> l1 ++ c :: r1 = l2 ++ c :: r2 -> l1 = l2 /\ r1 = r2.
Proof.
  revert l2. induction l1 as [|x l1 IH]; intros [|y l2] H1 H2 E; simpl in E; simplify_eq.
  - done.
  - exfalso. set_solver.
  - exfalso. set_solver.
  - destruct (IH l2) as [-> ->]; [set_solver..|done|done].
Qed.

Lemma digits_no_dash z : 45 ∉ bytes_of_string (format_uint z).
Proof.
  rewrite format_uint_bytes. intros Hin. assert (Forall (fun b => 48 <= b <= 57) (dec_digits (S (Z.to_nat (Z.log2 z))) z [])) as H
    by (apply dec_digits_ascii; constructor). rewrite Forall_forall in H. specialize (H _ Hin). simpl in H. lia.
Qed.

Lemma pad_uint_value width z : 0 <= z -> dec_fold 0 (bytes_of_string (pad_uint width z)) = z.
Proof.
  intros Hz. unfold pad_uint. rewrite bytes_of_string_app, bytes_of_string_of_bytes.
  - unfold dec_fold. rewrite foldl_app. assert (forall k, foldl (fun a b => a * 10 + (b - 48)) 0 (replicate k 48) = 0) as ->.
    { induction k as [|k IH]; [done|]. exact IH. }
    by apply format_uint_value.
  - apply Forall_replicate. unfold is_byte. lia.
Qed.

Lemma document_number_inj y1 n1 y2 n2 :
  0 <= y1 -> 0 <= y2 -> 0 <= n1 -> 0 <= n2 -> document_number y1 n1 = document_number y2 n2 -> y1 = y2 /\ n1 = n2.
Proof.
  intros H1 H2 H3 H4 E. unfold document_number in E. apply (f_equal bytes_of_string) in E.
  rewrite !bytes_of_string_app in E. apply (app_inj_1 _ _ _ _ eq_refl) in E as [_ E]. unfold format_int in E.
  rewrite !(proj2 (Z.ltb_ge _ _)) in E by done.
  apply (split_at 45) in E as [Ey En]; [|apply digits_no_dash..].
  split; [apply format_uint_inj; [done..|by apply bytes_of_string_inj]|].
  rewrite <- (pad_uint_value 6 n1), <- (pad_uint_value 6 n2) by done. congruence.
Qed.

Definition allocators_of (d : DB) : gmap Z Z := dt_allocators (db_documents d).

(** CHECK (document_year >= 2000), and next_number starts at 1. *)
Definition allocators_ok (d : DB) : Prop := map_Forall (fun year next => 2000 <= year /\ 1 <= next) (allocators_of d).

Definition allocators_grow (d d' : DB) : Prop :=
  allocators_ok d ->
  allocators_ok d' /\ forall y n, allocators_of d !! y = Some n -> exists n', allocators_of d' !! y = Some n' /\ n <= n'.

#[export] Instance allocators_grow_preorder : PreOrder allocators_grow.
Proof.
  split.
  - intros d H. split; [done|]. intros y n Hn. exists n. split; [done|lia].
  - intros d1 d2 d3 H12 H23 H1. destruct (H12 H1) as [H2 G12]. destruct (H23 H2) as [H3 G23]. split; [done|].
    intros y n Hn. destruct (G12 y n Hn) as (n2 & Hn2 & ?). destruct (G23 y n2 Hn2) as (n3 & Hn3 & ?).
    exists n3. split; [done|lia].
Qed.

Lemma allocators_same d d' : allocators_of d' = allocators_of d -> allocators_grow d d'.
Proof. intros E H. unfold allocators_ok. rewrite E. split; [done|]. intros y n Hn. exists n. split; [done|lia]. Qed.

Lemma allocators_put y n d :
  2000 <= y -> 1 <= n -> (forall n0, allocators_of d !! y = Some n0 -> n0 <= n) ->
  allocators_grow d (set_dt_allocators (<[y := n]> (dt_allocators (db_documents d))) d).
Proof.
  intros Hy Hn Hle H. unfold allocators_ok, allocators_of in *. simpl. split; [by apply map_Forall_insert_2|].
  intros y' n' Hn'. destruct (decide (y' = y)) as [->|Hne].
  - rewrite lookup_insert_eq. exists n. split; [done|auto].
  - rewrite lookup_insert_ne by done. exists n'. split; [done|lia].
Qed.

Lemma Ensure_grows y : writes allocators_grow (EnsureDocumentNumberAllocator y).
Proof.
  intros d [] d' H. unfold EnsureDocumentNumberAllocator in H. destruct (dt_allocators (db_documents d) !! y) eqn:E.
  - injection H as <-. done.
  - unfold check_constraint in H. destruct (2000 <=? y) eqn:Ey; [|done]. injection H as <-. apply allocators_put; [lia..|].
    unfold allocators_of. congruence.
Qed.

Lemma Advance_grows y : writes allocators_grow (AdvanceDocumentNumberAllocator y).
Proof.
  intros d [] d' H Hok. unfold AdvanceDocumentNumberAllocator in H.
  destruct (dt_allocators (db_documents d) !! y) as [n|] eqn:E; [|by injection H as <-; apply allocators_same].
  destruct (_ <? _); [done|]. injection H as <-. destruct (Hok y n E) as [Hy Hn]. apply allocators_put; [lia..| |done].
  unfold allocators_of. intros n0 E0. rewrite E in E0. injection E0 as <-. lia.
Qed.

(** Every other statement leaves the allocators alone. *)
Definition numbers_fixed (d d' : DB) : Prop := allocators_of d' = allocators_of d.

#[export] Instance numbers_fixed_preorder : PreOrder numbers_fixed.
Proof. split; [done|]. unfold numbers_fixed. congruence. Qed.

Lemma put_finalization_numbers id c d d' : put_finalization id c d = Ret d' -> numbers_fixed d d'.
Proof. by intros (_ & _ & _ & ->)%put_row_Ret. Qed.

Lemma put_document_numbers id c d d' : put_document id c d = Ret d' -> numbers_fixed d d'.
Proof. by intros (_ & _ & _ & ->)%put_row_Ret. Qed.

Lemma put_document_line_numbers id c d d' :
  put_row document_line_checks (fun _ _ => false) set_dt_line_items (dt_line_items (db_documents d)) id c d = Ret d' ->
  numbers_fixed d d'.
Proof. by intros (_ & _ & _ & ->)%put_row_Ret. Qed.

Lemma put_cycle_numbers id c d d' : put_cycle id c d = Ret d' -> numbers_fixed d d'.
Proof. intros H. unfold put_cycle, check_constraint in H. repeat case_match; by simplify_eq/=. Qed.

Lemma set_cycles_numbers cy d : numbers_fixed d (set_cycles cy d).
Proof. done. Qed.

#[local] Hint Resolve put_finalization_numbers put_document_numbers put_document_line_numbers put_cycle_numbers
  set_cycles_numbers : writes.

Lemma insertFinalization_numbers id row d nd : insertFinalization id row d = Ret nd -> numbers_fixed d nd.2.
Proof. unfold insertFinalization. intros H. repeat case_match; inv_ret; try done. by eapply put_finalization_numbers. Qed.

#[local] Hint Extern 1 (numbers_fixed _ _) => match goal with
  | Hu : insertFinalization _ _ _ = Ret ?nd |- _ => exact (insertFinalization_numbers _ _ _ nd Hu) end : writes.

Lemma contracts_numbers d d' : contracts_only d d' -> numbers_fixed d d'.
Proof. by intros (kt & ->). Qed.

Lemma period_stmt_numbers A (f : DB -> res (A * DB)) : period_stmt A f -> writes allocators_grow f.
Proof.
  destruct 1; try solve [apply Ensure_grows | apply Advance_grows].
  all: apply (writes_mono numbers_fixed); [exact allocators_same|].
  all: first [by_definition | apply (writes_mono contracts_only); [exact contracts_numbers|by_definition]].
Qed.

Lemma period_step_numbers d d' : rtc period_step d d' -> allocators_grow d d'.
Proof.
  induction 1 as [|d d1 d2 Hs _ IH]; [done|]. etrans; [|exact IH]. destruct Hs as [(A & f & a & Hf & E)|H1 H2].
  - by eapply period_stmt_numbers.
  - apply allocators_same. unfold allocators_of. by rewrite H2.
Qed.

Section Numbers.
Context {St : Type} `{HE : Env} `{HD : Digest}.

(** A number that is handed out is the next one of its year. *)
Lemma allocate_Ret t (w w' : world St) s :
  allocateDocumentNumberTx t w = (Ret s, w') -> allocators_ok (w_db w) ->
  exists y n, s = document_number y n /\ 2000 <= y /\ 1 <= n /\ allocators_of (w_db w') !! y = Some (n + 1)
    /\ (forall n0, allocators_of (w_db w) !! y = Some n0 -> n0 = n) /\ allocators_ok (w_db w').
Proof.
  intros H Hok. unfold allocateDocumentNumberTx in H. destruct (date_of t) as [[y mo] da] eqn:Ed.
  apply mbindM_Ret_inv in H as (y' & w1 & H1 & H). apply mlift_Ret in H1 as [Hy ->].
  unfold checkedInt32FromInt in Hy. destruct (_ || _); [done|]. injection Hy as <-.
  apply mbindM_Ret_inv in H as ([] & w1 & H1 & H). apply statement_Ret in H1. destruct (Ensure_grows _ _ _ _ H1 Hok) as [Hok1 G1].
  apply mbindM_Ret_inv in H as (next & w2 & H2 & H). apply query_Ret in H2 as [-> ->].
  destruct (LockDocumentNumberAllocator y (w_db w1)) as [n|] eqn:En; [|done].
  apply mbindM_Ret_inv in H as ([] & w2 & H2 & H). apply statement_Ret in H2. injection H as <- <-.
  destruct (Advance_grows _ _ _ _ H2 Hok1) as [Hok2 _]. destruct (Hok1 y n En) as [Hy Hn]. exists y, n.
  unfold AdvanceDocumentNumberAllocator in H2. unfold LockDocumentNumberAllocator in En. rewrite En in H2.
  destruct (_ <? _); [done|]. injection H2 as H2. split_and!; [done..| | |exact Hok2].
  - unfold allocators_of. rewrite <- H2. simpl. apply lookup_insert_eq.
  - intros n0 Hn0. unfold EnsureDocumentNumberAllocator in H1. unfold allocators_of in Hn0. rewrite Hn0 in H1.
    injection H1 as H1. rewrite <- H1, Hn0 in En. congruence.
Qed.

(** C15: Two documents never get the same number: whatever the service does
    between two successful allocations, in the same year or not, the number
    strings differ. *)
Theorem document_numbers_distinct t1 t2 (w1 w1' w2 w2' : world St) number1 number2 :
  allocators_ok (w_db w1) -> allocateDocumentNumberTx t1 w1 = (Ret number1, w1') ->
  rtc period_step (w_db w1') (w_db w2) -> allocateDocumentNumberTx t2 w2 = (Ret number2, w2') ->
  number1 <> number2.
Proof.
  intros Hok H1 Hs H2. apply allocate_Ret in H1 as (y1 & n1 & -> & Hy1 & Hn1 & E1 & _ & Hok1); [|done].
  destruct (period_step_numbers _ _ Hs Hok1) as [Hok2 G].
  apply allocate_Ret in H2 as (y2 & n2 & -> & Hy2 & Hn2 & _ & E2 & _); [|done].
  intros E. apply document_number_inj in E as [-> ->]; [|lia..].
  destruct (G _ _ E1) as (n' & En & Hle). apply E2 in En. lia.
Qed.
End Numbers.

Import RefLedger Sample.

Lemma k0_allocators : allocators_ok (w_db k0).
Proof. apply map_Forall_empty. Qed.

(** Two numbers handed out a month apart. *)
Definition number_at (t : time) : @B state string := allocateDocumentNumberTx t.
Definition n1 : world state := (number_at bought k0).2.

Lemma first_number : number_at bought k0 = (Ret "VS-2023-000001", n1).
Proof. unfold n1. apply (run_Ret (number_at bought) k0 "VS-2023-000001"). vm_compute. reflexivity. Qed.

Lemma second_number :
  number_at (go_date 2023 12 14 0) n1 = (Ret "VS-2023-000002", (number_at (go_date 2023 12 14 0) n1).2).
Proof. apply (run_Ret (number_at (go_date 2023 12 14 0)) n1 "VS-2023-000002"). vm_compute. reflexivity. Qed.

Lemma document_numbers_distinct_witness : "VS-2023-000001" <> "VS-2023-000002".
Proof.
  exact (document_numbers_distinct bought (go_date 2023 12 14 0) k0 n1 n1 _ _ _ k0_allocators first_number (rtc_refl _ _) second_number).
Defined.

(** ** Document lines

    The lines of a statement are keyed by plan as well; the id of a document
    line is not. *)

Section Lines.
Context {St : Type} `{HE : Env} `{HD : Digest}.

(** The second of two statement lines that differ only in their plan is
    left out of the document: inserting it succeeds and stores nothing. *)
Theorem line_of_second_plan_lost doc l1 l2 (w w1 w2 : world St) :
  insertDocumentLineItem doc l1 w = (Ret tt, w1) -> insertDocumentLineItem doc l2 w1 = (Ret tt, w2) ->
  si_ProductID l1 = si_ProductID l2 -> si_BucketID l1 = si_BucketID l2 -> si_SKUID l1 = si_SKUID l2 ->
  si_PricingPhase l1 = si_PricingPhase l2 -> si_UnitRate l1 = si_UnitRate l2 ->
  dt_line_items (db_documents (w_db w2)) = dt_line_items (db_documents (w_db w1)).
Proof.
  intros H1 H2 E1 E2 E3 E4 E5. unfold insertDocumentLineItem in *.
  apply mbindM_Ret_inv in H1 as (r1 & w3 & Hr1 & H1). apply mlift_Ret in Hr1 as [_ ->]. apply statement_Ret in H1.
  apply mbindM_Ret_inv in H2 as (r2 & w3 & Hr2 & H2). apply mlift_Ret in Hr2 as [_ ->]. apply statement_Ret in H2.
  assert (documentLineID doc l2 = documentLineID doc l1) as E by (unfold documentLineID; congruence). rewrite E in H2.
  assert (exists r, dt_line_items (db_documents (w_db w1)) !! documentLineID doc l1 = Some r) as [r Hr].
  { unfold InsertBillingDocumentLineItem in H1. destruct (dt_line_items (db_documents (w_db w)) !! _) as [r|] eqn:Er.
    - injection H1 as <-. by exists r.
    - apply obind_Ret_inv in H1 as (d1 & Hp & H1). injection H1 as ->. apply put_row_Ret in Hp as (_ & _ & _ & ->).
      exists r1. apply lookup_insert_eq. }
  unfold InsertBillingDocumentLineItem in H2. rewrite Hr in H2. by injection H2 as <-.
Qed.
End Lines.

(** Two plans that price a SKU alike. *)
Definition line_of_plan (plan : string) : StatementLineItem :=
  mkLineItem product plan "compute" 1 "Compute" "cpu" "CPU" "ms" "on_demand" f64_zero 7 21 0 21 0 0 0 0 0.

Definition first_line : world state := (insertDocumentLineItem "doc" (line_of_plan "pro") k0).2.
Definition second_line : world state := (insertDocumentLineItem "doc" (line_of_plan "max") first_line).2.

Lemma first_line_run : insertDocumentLineItem "doc" (line_of_plan "pro") k0 = (Ret tt, first_line).
Proof. unfold first_line. apply (run_Ret (insertDocumentLineItem "doc" (line_of_plan "pro")) k0 tt). vm_compute. reflexivity. Qed.

Lemma second_line_run : insertDocumentLineItem "doc" (line_of_plan "max") first_line = (Ret tt, second_line).
Proof.
  unfold second_line. apply (run_Ret (insertDocumentLineItem "doc" (line_of_plan "max")) first_line tt). vm_compute. reflexivity.
Qed.

Lemma line_of_second_plan_lost_witness :
  dt_line_items (db_documents (w_db second_line)) = dt_line_items (db_documents (w_db first_line)).
Proof.
  exact (line_of_second_plan_lost "doc" (line_of_plan "pro") (line_of_plan "max") k0 first_line second_line first_line_run
    second_line_run eq_refl eq_refl eq_refl eq_refl eq_refl).
Defined.
