(* ===== verification/StatementTheorems.v ===== *)
(** * Theorems on statements

    The arithmetic of Statements.v: whatever windows a cycle has, the charge of
    a statement and of each of its lines is what the funding sources paid. *)

From stdpp Require Import relations.
From S2P Require Import Prelude GoFloat GoStd GoTime GoFormat Json Types Ids Ledger Charges Grants Store Events.
From S2P Require Import LedgerCommands LedgerGrants Cycles Entitlements WindowStore Windows Dispatcher Finalizations.
From S2P Require Import Statements.
From S2P Require Import Samples Frames.
From S2P Require Import Legs WindowInv PrepareTx ReserveTx WindowSystem Settlement SampleRun.

(** ** Sums modulo 2^64 *)

Definition same64 (a b : Z) : Prop := a mod 2 ^ 64 = b mod 2 ^ 64.

#[export] Instance same64_equivalence : Equivalence same64.
Proof. unfold same64. split; [done|intros a b H; congruence|intros a b c H1 H2; congruence]. Qed.

#[export] Instance add_same64 : Proper (same64 ==> same64 ==> same64) Z.add.
Proof. unfold same64. intros a a' Ha b b' Hb. by rewrite (Zplus_mod a), Ha, Hb, <- Zplus_mod. Qed.

Lemma u64_add_same a b : same64 (u64_add a b) (a + b).
Proof. apply Zmod_mod. Qed.

Lemma same64_eq a b : a = b -> same64 a b.
Proof. by intros ->. Qed.

(** ** Legs by source *)

Definition sources : list string := ["free_tier"; "contract"; "purchase"; "promo"; "refund"; "receivable"]%string.

Definition known_sources (legs : list fundingLeg) : Prop := Forall (fun l => fl_Source l ∈ sources) legs.

Definition amount_of (source : string) (l : fundingLeg) : Z := if decide (fl_Source l = source) then fl_Amount l else 0.

Lemma guarded_sum (P : fundingLeg -> Prop) `{forall l, Decision (P l)} legs a :
  same64 (foldl (fun out l => if decide (P l) then u64_add out (fl_Amount l) else out) a legs)
         (a + zsum ((fun l => if decide (P l) then fl_Amount l else 0) <$> legs)).
Proof.
  revert a. induction legs as [|l legs IH]; intros a; [apply same64_eq; unfold zsum; simpl; lia|].
  simpl foldl. rewrite IH. zsum_simpl. case_decide; [rewrite u64_add_same|]; apply same64_eq; lia.
Qed.

Lemma sources_amount l : fl_Source l ∈ sources -> zsum ((fun s => amount_of s l) <$> sources) = fl_Amount l.
Proof.
  unfold sources, amount_of. intros H. repeat (apply elem_of_cons in H as [E|H]; [rewrite E; unfold zsum; simpl; lia|]).
  by apply elem_of_nil in H.
Qed.

Lemma sources_total legs :
  known_sources legs -> zsum ((fun s => zsum (amount_of s <$> legs)) <$> sources) = zsum (fl_Amount <$> legs).
Proof.
  induction 1 as [|l legs Hl _ IH]; [done|]. zsum_simpl. rewrite <- IH, <- (sources_amount l Hl).
  unfold sources. zsum_simpl. rewrite !fmap_nil. change (zsum []) with 0. lia.
Qed.

Lemma sourceTotal_sum legs s : same64 (sourceTotal legs s) (zsum (amount_of s <$> legs)).
Proof. unfold sourceTotal. by rewrite (guarded_sum (fun l => fl_Source l = s)). Qed.

Lemma componentSourceTotal_sum legs sku s :
  same64 (componentSourceTotal legs sku s) (zsum (amount_of s <$> legs_of_sku sku legs)).
Proof.
  unfold componentSourceTotal. rewrite (guarded_sum (fun l => fl_Source l = s /\ fl_ComponentSKUID l = sku)).
  apply same64_eq. rewrite Z.add_0_l. unfold legs_of_sku, amount_of. induction legs as [|l legs IH]; [done|].
  rewrite filter_cons. zsum_simpl. rewrite IH. repeat case_decide; zsum_simpl; try tauto; try lia; rewrite ?decide_True by tauto;
    rewrite ?decide_False by tauto; lia.
Qed.

(** ** Balanced lines and totals *)

Definition line_sources (i : StatementLineItem) : Z :=
  si_FreeTierUnits i + si_ContractUnits i + si_PurchaseUnits i + si_PromoUnits i + si_RefundUnits i + si_ReceivableUnits i.

Definition totals_sources (t : StatementTotals) : Z :=
  st_FreeTierUnits t + st_ContractUnits t + st_PurchaseUnits t + st_PromoUnits t + st_RefundUnits t + st_ReceivableUnits t.

(** The charge is a uint64 and what the sources paid, modulo 2^64. *)
Definition line_balanced (i : StatementLineItem) : Prop :=
  is_u64 (si_ChargeUnits i) /\ same64 (si_ChargeUnits i) (line_sources i).

Definition totals_balanced (t : StatementTotals) : Prop :=
  is_u64 (st_ChargeUnits t) /\ same64 (st_ChargeUnits t) (totals_sources t) /\ st_TotalDueUnits t = st_ReceivableUnits t.

Definition charged (lines : gmap statementLineKey StatementLineItem) : Z := msum (si_ChargeUnits <$> lines).

Definition lines_balanced (lines : statementLines) : Prop := map_Forall (fun _ i => line_balanced i) lines.

Lemma same64_u64 a b : is_u64 a -> same64 a b -> a = b mod 2 ^ 64.
Proof. unfold is_u64, same64, u64_max. intros Ha <-. symmetry. apply Z.mod_small. lia. Qed.

Lemma line_sources_settled w sku charge i :
  known_sources (pw_FundingLegs w) ->
  same64 (line_sources (settledLine w sku charge i)) (line_sources i + sku_funded (pw_FundingLegs w) sku).
Proof.
  intros Hs. assert (known_sources (legs_of_sku sku (pw_FundingLegs w))) as Hk.
  { apply Forall_forall. intros l Hl. apply list_elem_of_filter in Hl as [_ Hl]. unfold known_sources in Hs.
    rewrite Forall_forall in Hs. auto. }
  unfold sku_funded. rewrite <- (sources_total _ Hk). unfold line_sources, settledLine, sources. cbn [si_FreeTierUnits
    si_ContractUnits si_PurchaseUnits si_PromoUnits si_RefundUnits si_ReceivableUnits].
  rewrite !u64_add_same, !componentSourceTotal_sum. apply same64_eq. zsum_simpl. rewrite fmap_nil. change (zsum []) with 0. lia.
Qed.

Lemma totals_sources_settled w t :
  known_sources (pw_FundingLegs w) ->
  same64 (totals_sources (settledTotals w t)) (totals_sources t + zsum (fl_Amount <$> pw_FundingLegs w)).
Proof.
  intros Hs. rewrite <- (sources_total _ Hs). unfold totals_sources, settledTotals, sources. cbn [st_FreeTierUnits
    st_ContractUnits st_PurchaseUnits st_PromoUnits st_RefundUnits st_ReceivableUnits].
  rewrite !u64_add_same, !sourceTotal_sum. apply same64_eq. zsum_simpl. rewrite fmap_nil. change (zsum []) with 0. lia.
Qed.

(** Neither a reservation nor the bucket order changes what is balanced. *)
Lemma charged_insert (k : statementLineKey) (i : StatementLineItem) (lines : gmap statementLineKey StatementLineItem) :
  charged (<[k := i]> lines) = si_ChargeUnits i + charged lines - default 0 (si_ChargeUnits <$> lines !! k).
Proof. unfold charged. rewrite (fmap_insert si_ChargeUnits), msum_insert, lookup_fmap. done. Qed.

Lemma statementLine_charge lines w sku rate :
  si_ChargeUnits (statementLine lines w sku rate) = default 0 (si_ChargeUnits <$> lines !! lineKey w sku rate).
Proof. unfold statementLine. destruct (lines !! lineKey w sku rate); simpl; by destruct (_ <? _). Qed.

Lemma zero_balanced i : si_ChargeUnits i = 0 -> line_sources i = 0 -> line_balanced i.
Proof. unfold line_balanced, is_u64, u64_max. intros -> ->. done. Qed.

Lemma statementLine_balanced lines w sku rate :
  lines_balanced lines -> line_balanced (statementLine lines w sku rate).
Proof.
  intros H. unfold statementLine. assert (line_balanced (default (newLine w sku rate) (lines !! lineKey w sku rate))) as Hb.
  { destruct (lines !! lineKey w sku rate) eqn:E; [exact (H _ _ E)|by apply zero_balanced]. }
  by destruct (_ <? _).
Qed.

(** ** One window *)

(** What the invariant of a settled window means for its statement. *)
Record billed_window (w : persistedWindow) (charges : gmap string Z) : Prop := mkBilled {
  bw_charges : forall sku c, charges !! sku = Some c <->
    exists u rate, pw_Allocation w !! sku = Some u /\ SKURates (pw_RateContext w) !! sku = Some rate
                   /\ chargeUnitsForQuantity u rate (pw_BillableQuantity w) = Ret c;
  bw_billed : same64 (pw_BilledChargeUnits w) (msum charges);
  bw_funded : forall sku, sku_funded (pw_FundingLegs w) sku = map_u64 charges sku;
  bw_known : known_sources (pw_FundingLegs w)
}.

Section Window.
Context (w : persistedWindow) (charges : gmap string Z) (Hw : billed_window w charges).

Lemma settledSKU_charge sku rate c :
  SKURates (pw_RateContext w) !! sku = Some rate ->
  chargeUnitsForQuantity (default f64_zero (pw_Allocation w !! sku)) rate (pw_BillableQuantity w) = Ret c ->
  c = map_u64 charges sku.
Proof using Hw.
  intros Hr H. unfold map_u64. destruct (pw_Allocation w !! sku) as [u|] eqn:Eu.
  - assert (charges !! sku = Some c) as -> by (apply (bw_charges _ _ Hw); eauto). done.
  - destruct (charges !! sku) as [c'|] eqn:Ec; [apply (bw_charges _ _ Hw) in Ec as (u & r & E & _); congruence|].
    simpl in H. unfold chargeUnitsForQuantity in H. simpl in H. by injection H as <-.
Qed.

Lemma settledSKU_Ret lines sku rate lines' :
  settledSKU w lines (sku, rate) = Ret lines' -> SKURates (pw_RateContext w) !! sku = Some rate -> lines_balanced lines ->
  lines_balanced lines' /\ same64 (charged lines') (charged lines + map_u64 charges sku).
Proof using Hw.
  intros H Hr Hb. unfold settledSKU in H. apply obind_Ret_inv in H as (c & Hc & H).
  apply settledSKU_charge in Hc as ->; [|done]. destruct (_ =? 0) eqn:E0; injection H as <-.
  - apply Z.eqb_eq in E0. rewrite E0, Z.add_0_r. done.
  - set (i := statementLine lines w sku rate). assert (line_balanced i) as [_ Hi] by by apply statementLine_balanced.
    split.
    + apply map_Forall_insert_2; [|done]. split; [apply u64_add_is_u64|].
      rewrite line_sources_settled by apply Hw. rewrite (bw_funded _ _ Hw). simpl. rewrite u64_add_same. by rewrite Hi.
    + rewrite charged_insert, <- statementLine_charge. fold i. simpl.
      rewrite <- Z.add_sub_assoc. rewrite u64_add_same. apply same64_eq. lia.
Qed.

(** Summing over the priced SKUs is summing over the charges. *)
Lemma charges_over_rates :
  zsum ((fun kv => map_u64 charges kv.1) <$> map_to_list (SKURates (pw_RateContext w))) = msum charges.
Proof using Hw.
  change (fun kv : string * Z => map_u64 charges kv.1) with (map_u64 charges ∘ @fst string Z). rewrite list_fmap_compose. set (rates := (map_to_list (SKURates (pw_RateContext w))).*1).
  assert (msum charges = zsum (map_u64 charges <$> (map_to_list charges).*1)) as ->.
  { unfold msum. rewrite <- list_fmap_compose. apply zsum_ext, Forall_forall. intros [sku c] Hin%elem_of_map_to_list.
    simpl. unfold map_u64. by rewrite Hin. }
  assert ((map_to_list charges).*1 ⊆+ rates) as (rest & Hp)%submseteq_Permutation.
  { apply NoDup_submseteq; [apply NoDup_fst_map_to_list|]. intros sku ([sku' c] & -> & Hin%elem_of_map_to_list)%list_elem_of_fmap.
    apply (bw_charges _ _ Hw) in Hin as (u & rate & _ & Hr & _). apply list_elem_of_fmap. exists (sku', rate).
    split; [done|by apply elem_of_map_to_list]. }
  pose proof (NoDup_fst_map_to_list (SKURates (pw_RateContext w))) as Hnd. fold rates in Hnd. rewrite Hp in Hnd |- *.
  rewrite fmap_app, zsum_app. apply NoDup_app in Hnd as (_ & Hnd & _).
  assert (zsum (map_u64 charges <$> rest) = zsum ((fun _ : string => 0) <$> rest)) as ->.
  { apply zsum_ext, Forall_forall. intros sku Hin. unfold map_u64. destruct (charges !! sku) as [c|] eqn:E; [|done].
    destruct (Hnd sku); [|done]. apply list_elem_of_fmap. exists (sku, c). split; [done|by apply elem_of_map_to_list]. }
  clear. induction rest as [|x rest IH]; [zsum_simpl; rewrite fmap_nil; change (zsum []) with 0; lia|]. zsum_simpl. lia.
Qed.

Lemma settled_lines l lines lines' :
  l ⊆ map_to_list (SKURates (pw_RateContext w)) -> outcome_fold (settledSKU w) lines l = Ret lines' -> lines_balanced lines ->
  lines_balanced lines' /\ same64 (charged lines') (charged lines + zsum ((fun kv => map_u64 charges kv.1) <$> l)).
Proof using Hw.
  revert lines. induction l as [|[sku rate] l IH]; intros lines Hl H Hb.
  - injection H as <-. split; [done|]. rewrite fmap_nil. apply same64_eq. change (zsum []) with 0. lia.
  - simpl in H. apply obind_Ret_inv in H as (lines1 & H1 & H).
    apply settledSKU_Ret in H1 as [Hb1 E1]; [|apply elem_of_map_to_list, Hl; left|done].
    destruct (IH lines1) as [Hb2 E2]; [by intros x Hx; apply Hl; right|done..|]. split; [done|].
    rewrite E2, E1. zsum_simpl. simpl. apply same64_eq. lia.
Qed.
End Window.

(** The totals and lines of a statement under construction. *)
Definition balanced (acc : StatementTotals * statementLines) : Prop :=
  totals_balanced acc.1 /\ lines_balanced acc.2 /\ same64 (charged acc.2) (st_ChargeUnits acc.1).

Lemma sku_totals (legs : list fundingLeg) (charges : gmap string Z) :
  (forall sku, sku_funded legs sku = map_u64 charges sku) -> zsum (fl_Amount <$> legs) = msum charges.
Proof.
  revert charges. induction legs as [|l legs IH]; intros charges H.
  - assert (forall sku c, charges !! sku = Some c -> c = 0) as Hz.
    { intros sku c Hc. specialize (H sku). unfold sku_funded, legs_of_sku, map_u64 in H. rewrite Hc in H. by simpl in H. }
    rewrite fmap_nil. clear H. induction charges as [|sku c m Hm IH] using map_ind; [symmetry; apply (msum_empty (K := string))|].
    rewrite msum_insert_new by done. rewrite <- IH; [|intros s v Hv; apply (Hz s v); rewrite lookup_insert_ne; [done|congruence]].
    rewrite (Hz sku c) by apply lookup_insert_eq. done.
  - set (sku := fl_ComponentSKUID l). zsum_simpl.
    rewrite (IH (<[sku := map_u64 charges sku - fl_Amount l]> charges)).
    + rewrite msum_insert. unfold map_u64. simpl. lia.
    + intros s. specialize (H s). unfold sku_funded, legs_of_sku in *. rewrite filter_cons in H. fold sku in H.
      unfold map_u64. destruct (decide (sku = s)) as [<-|Hne].
      * rewrite lookup_insert_eq. simpl. revert H. zsum_simpl. unfold map_u64. lia.
      * rewrite lookup_insert_ne by done. exact H.
Qed.

Lemma settled_balanced w charges totals lines acc :
  billed_window w charges -> addSettledStatementWindow totals lines w = Ret acc -> balanced (totals, lines) -> balanced acc.
Proof.
  intros Hw H (Ht & Hl & Hc). unfold addSettledStatementWindow in H. apply obind_Ret_inv in H as (lines' & H & Hr).
  injection Hr as <-. eapply settled_lines in H as [Hl' E]; [|exact Hw|done|done]. rewrite charges_over_rates in E by done.
  destruct Ht as (Hu & Hs & Hd). simpl in *. split_and!; simpl.
  - split; [apply u64_add_is_u64|]. split; [|simpl; by rewrite Hd].
    rewrite totals_sources_settled by apply Hw. simpl. rewrite u64_add_same, Hs, (bw_billed _ _ Hw).
    rewrite (sku_totals _ charges) by apply Hw. reflexivity.
  - done.
  - rewrite E, u64_add_same, Hc, (bw_billed _ _ Hw). reflexivity.
Qed.

Lemma reserved_balanced w totals lines :
  balanced (totals, lines) -> balanced (addReservedStatementWindow totals lines w).
Proof.
  unfold addReservedStatementWindow. generalize (pw_FundingLegs w) as legs. intros legs. revert totals lines.
  induction legs as [|l legs IH]; intros totals lines H; [done|]. simpl. destruct H as (Ht & Hl & Hc).
  assert (totals_balanced (addReserved (fl_Amount l) totals)) as Ht' by exact Ht.
  case_decide; apply IH; [done|]. split; [done|]. simpl.
  set (i := statementLine lines w (fl_ComponentSKUID l) _).
  assert (line_balanced i) as Hi by by apply statementLine_balanced.
  split; [by apply map_Forall_insert_2|]. rewrite charged_insert, <- statementLine_charge. fold i. simpl.
  simpl in Hc. rewrite <- Hc. apply same64_eq. lia.
Qed.

(** What a window must be for its statement to balance. *)
Definition statement_window (w : persistedWindow) : Prop := pw_State w = WSettled -> exists charges, billed_window w charges.

Lemma windows_balanced windows acc acc' :
  Forall statement_window windows -> outcome_fold addStatementWindow acc windows = Ret acc' -> balanced acc -> balanced acc'.
Proof.
  intros Hw. revert acc. induction Hw as [|w windows Hw _ IH]; intros acc H Hb; [by injection H as <-|].
  simpl in H. apply obind_Ret_inv in H as (acc1 & H1 & H). apply (IH acc1); [done|]. unfold addStatementWindow in H1.
  destruct acc as [totals lines]. destruct (pw_State w) eqn:Es; simpl in H1; try (injection H1 as <-).
  - by apply reserved_balanced.
  - by apply reserved_balanced.
  - by apply reserved_balanced.
  - destruct (Hw Es) as (charges & Hc). by eapply settled_balanced.
  - done.
Qed.

(** ** The windows of a cycle *)

Section Theorems.
Context {St : Type} `{HE : Env} `{HD : Digest} `{HC : TBCodec} `{!TigerBeetle St}.

(** The settled windows were funded by grants or on receivable. *)
Definition funded_by_known (d : DB) : Prop :=
  forall id r, db_windows d !! id = Some r -> w_state r = WSettled -> known_sources (w_funding_legs r).

Lemma leg_amounts sku L legs :
  Forall2 funding_of (filter (fun l => 0 < l_amount_posted l) L) legs -> Forall (fun l => 0 <= l_amount_posted l) L ->
  sku_funded legs sku = zsum (l_amount_posted <$> filter (fun l => l_component_sku_id l = sku) L).
Proof.
  unfold sku_funded, legs_of_sku. intros HF HL. revert legs HF. induction HL as [|l L Hl _ IH]; intros legs HF.
  - apply Forall2_nil_inv_l in HF as ->. done.
  - rewrite (filter_cons (fun l => l_component_sku_id l = sku)). rewrite filter_cons in HF. case_decide as Hp.
    + apply Forall2_cons_inv_l in HF as (f & fs & (Ea & _ & _ & Es & _) & HF & ->). rewrite filter_cons, Es.
      destruct (decide (l_component_sku_id l = sku)); zsum_simpl; rewrite (IH fs HF); lia.
    + assert (l_amount_posted l = 0) as E by lia. destruct (decide (l_component_sku_id l = sku)); zsum_simpl; rewrite (IH legs HF); lia.
Qed.

Lemma loaded_window d id r w :
  Inv d -> funded_by_known d -> db_windows d !! id = Some r -> windowOfRow id r = Ret w -> statement_window w.
Proof.
  intros (HI & _) Hk Hr Hw Hs.
  apply windowOfRow_fields in Hw as (_ & Est & _ & _ & Ea & Ec & _ & _ & _ & Eb & _ & Ebu & _ & El). specialize (HI id).
  unfold window_inv in HI. rewrite Hr in HI. destruct HI as [(Ht & Hru & Hok) _]. rewrite Est in Hs. rewrite Hs in Hok.
  destruct Hok as [(Hsp & Hb & _ & Hf & (c & Hc & Hbu & Htot) & _) _]. exists (components c). unfold charges_at in Hc. split.
  - intros sku ch. rewrite Ea, Ec, Eb. exact (computeWindowCharges_components _ _ _ _ _ _ _ Hc).
  - rewrite Ebu, Hbu, sumUint64Map_mod. unfold same64. by rewrite Zmod_mod.
  - intros sku. rewrite El, <- Htot. unfold leg_total. apply leg_amounts; [exact Hf|].
    apply Forall_fmap. eapply Forall_impl; [exact Hsp|]. by intros e (H & _).
  - rewrite El. by eapply Hk.
Qed.

Lemma loadWindows_Ret ids (w w' : world St) l :
  loadWindows ids w = (Ret l, w') -> Inv (w_db w) -> funded_by_known (w_db w) -> w' = w /\ Forall statement_window l.
Proof.
  intros H HI Hk. revert l w' H. induction ids as [|id ids IH]; intros l w' H; [by injection H as <- <-|].
  simpl in H. apply mbindM_Ret_inv in H as (p & w1 & H1 & H). apply loadWindow_Ret in H1 as (-> & r & Hr & Hp).
  apply mbindM_Ret_inv in H as (ps & w1 & H1 & H). apply IH in H1 as [-> Hps]. injection H as <- <-.
  split; [done|]. constructor; [by eapply loaded_window|done].
Qed.

(** C8: A statement balances: modulo 2^64, its charge and the charge of every
    line are what free tier, contract, purchase, promo, refund and receivable
    funding paid, the charges of the lines add up to the charge of the
    statement, and what is due is exactly the receivable part. *)
Theorem statement_balances org p cycle t balances (w w' : world St) s :
  statementForCycle org p cycle t balances w = (Ret s, w') -> Inv (w_db w) -> funded_by_known (w_db w) ->
  st_ChargeUnits (sm_Totals s) = totals_sources (sm_Totals s) mod 2 ^ 64
  /\ st_TotalDueUnits (sm_Totals s) = st_ReceivableUnits (sm_Totals s)
  /\ Forall (fun i => si_ChargeUnits i = line_sources i mod 2 ^ 64) (sm_LineItems s)
  /\ st_ChargeUnits (sm_Totals s) = zsum (si_ChargeUnits <$> sm_LineItems s) mod 2 ^ 64.
Proof.
  intros H HI Hk. unfold statementForCycle, statementWindows in H.
  apply mbindM_Ret_inv in H as (ws & w1 & H1 & H). apply mbindM_Ret_inv in H1 as (ids & w2 & H2 & H1).
  injection H2 as <- <-. apply loadWindows_Ret in H1 as [-> Hws]; [|done..].
  apply mbindM_Ret_inv in H as (gs & w2 & _ & H). apply mbindM_Ret_inv in H as (acc & w3 & Hf & H).
  injection Hf as Hf _. injection H as <- _. simpl.
  assert (balanced acc) as ((Hu & Hs & Hd) & Hl & Hc).
  { eapply windows_balanced; [exact Hws|exact Hf|]. split; [|split]; [by split; [vm_compute|]|done|]. done. }
  assert (sortedStatementLines acc.2 ≡ₚ (map_to_list acc.2).*2) as Hp by (unfold sortedStatementLines; by rewrite sort_slice_perm).
  split_and!.
  - by apply same64_u64.
  - done.
  - rewrite Hp. apply Forall_fmap, Forall_forall. intros [k i] Hi%elem_of_map_to_list. simpl.
    apply same64_u64; apply (Hl k i Hi).
  - apply same64_u64; [done|]. rewrite <- Hc. apply same64_eq. unfold charged, msum. rewrite Hp.
    by rewrite map_to_list_fmap, <- !list_fmap_compose.
Qed.
End Theorems.

(** ** The statement of the sample run *)

Lemma known_check d :
  forallb (fun kv => forallb (fun l => bool_decide (fl_Source l ∈ sources)) (w_funding_legs kv.2)) (map_to_list (db_windows d)) = true ->
  funded_by_known d.
Proof.
  intros H id r Hr _. rewrite forallb_forall in H. specialize (H (id, r)). simpl in H.
  assert (forallb (fun l => bool_decide (fl_Source l ∈ sources)) (w_funding_legs r) = true) as Hl
    by (apply H, list_elem_of_In; by apply elem_of_map_to_list).
  rewrite forallb_forall in Hl. apply Forall_forall. intros l Hin. apply list_elem_of_In, Hl in Hin.
  exact (bool_decide_eq_true_1 _ Hin).
Qed.

Import RefLedger Sample.

(** The cycle the window of the run is in. *)
Definition run_cycle : billingCycle :=
  match (EnsureOpenBillingCycle 5 org product w4).1 with Ret c => c | _ => mkCycle "" "" "" 0 0 "" 0 0 end.

Definition run_statement : @B state Statement := statementForCycle org product run_cycle base_time None.

Lemma run_statement_ok : is_ret (run_statement w4).1 = true.
Proof. vm_compute. reflexivity. Qed.

(** Half a minute of CPU at 7 units a millisecond. *)
Lemma run_statement_charge s :
  (run_statement w4).1 = Ret s -> st_ChargeUnits (sm_Totals s) = 210000 /\ length (sm_LineItems s) = 1%nat.
Proof.
  intros H. assert (match (run_statement w4).1 with
                    | Ret s => bool_decide (st_ChargeUnits (sm_Totals s) = 210000 /\ length (sm_LineItems s) = 1%nat)
                    | _ => false end = true) as E by (vm_compute; reflexivity).
  rewrite H in E. exact (bool_decide_eq_true_1 _ E).
Qed.

Lemma statement_balances_witness :
  exists s, (run_statement w4).1 = Ret s /\ 210000 = totals_sources (sm_Totals s) mod 2 ^ 64.
Proof.
  destruct (run_ok run_statement w4 run_statement_ok) as [s Hrun]. exists s.
  assert ((run_statement w4).1 = Ret s) as Hs by (rewrite Hrun; reflexivity). split; [exact Hs|].
  rewrite <- (proj1 (run_statement_charge s Hs)).
  refine (proj1 (statement_balances org product run_cycle base_time None w4 _ s Hrun w4_Inv _)).
  apply known_check. vm_compute. reflexivity.
Defined.
