(* ===== verification/EventTheorems.v ===== *)
(** * Theorems on the delivery of events

    What one round of ProjectPendingBillingEventDeliveries does with the
    deliveries it claims: all of them on success, and what is left of them
    when one fails. *)

From stdpp Require Import relations.
From S2P Require Import Prelude GoFloat GoStd GoTime GoFormat Json Types Ids Ledger Charges Grants Store Events.
From S2P Require Import LedgerCommands LedgerGrants Cycles Entitlements ContractStore DocumentStore DueChanges.
From S2P Require Import WindowStore Windows.
From S2P Require Import Statements Finalizations Dispatcher Contracts Catalog Samples Frames PeriodSystem.
From S2P Require Import ContractSystem.
From S2P Require Import Legs WindowInv PrepareTx ReserveTx WindowSystem Service ContractRuns Settlement.
From S2P Require Import SampleRun ContractRun.

Section Theorems.
Context {St : Type} `{HE : Env} `{HD : Digest}.

(** The row ClickHouse gets for a delivery, if its event can be projected. *)
Definition projected (d : DB) (key : deliveryKey) (row : clickhouseRow) : Prop :=
  exists e p, db_events d !! key.1.1 = Some e /\ projectionOfEvent key.1.1 e = Ret p /\ row = BillingEventRow p.

Lemma project_Ret key (w w' : world St) :
  projectBillingEventDelivery key w = (Ret tt, w') ->
  exists row, projected (w_db w) key row /\ w_clickhouse w' = w_clickhouse w ++ [row]
    /\ w_db w' = set_deliveries (delete key (db_deliveries (w_db w))) (w_db w).
Proof.
  intros H. unfold projectBillingEventDelivery in H. apply mbindM_Ret_inv in H as (ev & w1 & Hq & H).
  apply query_Ret in Hq as [-> ->]. destruct (db_events (w_db w) !! key.1.1) as [e|] eqn:Ee; [|done].
  apply mbindM_Ret_inv in H as (p & w1 & Hp & H). apply mlift_Ret in Hp as [Hp ->].
  apply mbindM_Ret_inv in H as ([] & w1 & Hc & H). unfold clickhouseInsert in Hc. destruct (clickhouse_accepts _); [|done].
  injection Hc as <-. unfold statement, MarkBillingEventDeliverySucceeded in H. injection H as <-.
  exists (BillingEventRow p). split; [by exists e, p|]. done.
Qed.

Lemma project_Err key (w w' : world St) e :
  projectBillingEventDelivery key w = (Err e, w') -> w_db w' = w_db w /\ w_clickhouse w' = w_clickhouse w.
Proof.
  intros H. unfold projectBillingEventDelivery, mbindM, query in H. destruct (db_events (w_db w) !! key.1.1) as [ev|]; [|by injection H as _ <-].
  unfold mlift in H. destruct (projectionOfEvent key.1.1 ev) as [p|e'|]; [|by injection H as _ <-|done].
  unfold clickhouseInsert in H. destruct (clickhouse_accepts _); [done|by injection H as _ <-].
Qed.

Definition without (keys : list deliveryKey) (m : gmap deliveryKey deliveryRow) : gmap deliveryKey deliveryRow :=
  foldr delete m keys.

Lemma delete_delivery (key k : deliveryKey) (m : gmap deliveryKey deliveryRow) :
  delete key m !! k = if decide (k = key) then None else m !! k.
Proof. case_decide as E; [subst; apply lookup_delete_eq|by apply lookup_delete_ne]. Qed.

Lemma without_lookup keys m k : without keys m !! k = if decide (k ∈ keys) then None else m !! k.
Proof.
  induction keys as [|key keys IH]; [reflexivity|]. unfold without in *. cbn [foldr].
  rewrite delete_delivery, IH. repeat case_decide; set_solver.
Qed.

Lemma without_cons key keys m : without keys (delete key m) = without (key :: keys) m.
Proof. apply map_eq. intros k. rewrite !without_lookup, delete_delivery. repeat case_decide; set_solver. Qed.

(** All of the claimed deliveries are written, in order, and removed. *)
Lemma projectDeliveries_Ret keys n (w w' : world St) k :
  projectDeliveries keys n w = (Ret k, w') ->
  k = n + Z.of_nat (length keys)
  /\ (exists rows, Forall2 (projected (w_db w)) keys rows /\ w_clickhouse w' = w_clickhouse w ++ rows)
  /\ w_db w' = set_deliveries (without keys (db_deliveries (w_db w))) (w_db w).
Proof.
  revert n w. induction keys as [|key keys IH]; intros n w H.
  - injection H as <- <-. split; [simpl; lia|]. split; [exists []; by rewrite app_nil_r|]. by destruct (w_db w).
  - simpl in H. apply mbindM_Ret_inv in H as (r & w1 & Ha & H). unfold attempt in Ha.
    destruct (projectBillingEventDelivery key w) as [[[]|e|] w2] eqn:E; [|injection Ha as <- <-|done].
    + injection Ha as <- <-. apply project_Ret in E as (row & Hrow & Hc & Hd). apply IH in H as (-> & (rows & Hrows & Hc') & Hd').
      split; [simpl length; lia|]. split.
      * exists (row :: rows). split.
        -- constructor; [done|]. eapply Forall2_impl; [exact Hrows|]. intros k' r'. unfold projected. by rewrite Hd.
        -- rewrite Hc', Hc. by rewrite <- app_assoc.
      * rewrite Hd', Hd. simpl. by rewrite without_cons.
    + apply mbindM_Ret_inv in H as (now & w1 & _ & H). by apply mbindM_Ret_inv in H as (? & ? & _ & H).
Qed.

Lemma projectDeliveries_Err keys n (w w' : world St) e :
  projectDeliveries keys n w = (Err e, w') ->
  exists sent key rest rows now, keys = sent ++ key :: rest
    /\ Forall2 (projected (w_db w)) sent rows /\ w_clickhouse w' = w_clickhouse w ++ rows
    /\ w_db w' = set_deliveries (alter (failed_delivery now deliveryLease (errorText e)) key
                                   (without sent (db_deliveries (w_db w)))) (w_db w).
Proof.
  revert n w. induction keys as [|key keys IH]; intros n w H; [done|].
  simpl in H. unfold mbindM at 1 in H. unfold attempt in H.
  destruct (projectBillingEventDelivery key w) as [[[]|e'|] w2] eqn:E; [| |done].
  - apply project_Ret in E as (row & Hrow & Hc & Hd). apply IH in H as (sent & k & rest & rows & now & -> & Hrows & Hc' & Hd').
    exists (key :: sent), k, rest, (row :: rows), now. split; [done|]. split_and!.
    + constructor; [done|]. eapply Forall2_impl; [exact Hrows|]. intros k' r'. unfold projected. by rewrite Hd.
    + rewrite Hc', Hc. by rewrite <- app_assoc.
    + rewrite Hd', Hd. cbn [db_deliveries set_deliveries]. by rewrite without_cons.
  - apply project_Err in E as [Ed Ec]. exists [], key, keys, []. unfold mbindM, pgNow, timeNow in H.
    destruct (w_txnow w2) as [t|]; unfold ignoreError, statement, MarkBillingEventDeliveryFailed in H; simpl in H;
      injection H as <- <-; eexists; (split; [done|]); (split; [done|]); simpl; rewrite Ed, app_nil_r; done.
Qed.

Definition claim_limit (limit : Z) : Z := if limit <=? 0 then 100 else limit.

(** What one round claims at the time [now]. *)
Definition claimed_at (limit : Z) (now : time) (d : DB) : list (deliveryKey * deliveryRow) :=
  take (Z.to_nat (claim_limit limit)) (due_deliveries clickHouseBillingEventsSink now d).

Lemma claimed_NoDup limit now d : NoDup (claimed_at limit now d).*1.
Proof.
  unfold claimed_at. rewrite fmap_take. apply (sublist_NoDup _ (due_deliveries clickHouseBillingEventsSink now d).*1);
    [|apply sublist_take]. unfold due_deliveries. rewrite sort_slice_perm. apply NoDup_fmap_fst.
  - intros k r1 r2 [_ H1%elem_of_map_to_list]%list_elem_of_filter [_ H2%elem_of_map_to_list]%list_elem_of_filter. congruence.
  - apply NoDup_filter, NoDup_map_to_list.
Qed.

Lemma claimed_row limit now d k r :
  (k, r) ∈ claimed_at limit now d -> db_deliveries d !! k = Some r /\ delivery_due clickHouseBillingEventsSink now (k, r) = true.
Proof.
  intros H%elem_of_take. destruct H as (i & H & _). apply list_elem_of_lookup_2 in H. unfold due_deliveries in H.
  rewrite sort_slice_perm in H. apply list_elem_of_filter in H as [Hd Hin]. split; [by apply elem_of_map_to_list|done].
Qed.

(** The deliveries after the claim. *)
Definition leased_rows (now : time) (attempt : string) (rows : list (deliveryKey * deliveryRow))
    (m : gmap deliveryKey deliveryRow) : gmap deliveryKey deliveryRow :=
  foldr (fun kv m => <[kv.1 := leased_delivery now deliveryLease "billing-service" attempt kv.2]> m) m rows.

Lemma leased_other now attempt rows m k : k ∉ rows.*1 -> leased_rows now attempt rows m !! k = m !! k.
Proof.
  induction rows as [|[k' r'] rows IH]; [done|]. simpl. intros Hk. rewrite lookup_insert_ne by set_solver. apply IH. set_solver.
Qed.

Lemma leased_in now attempt rows m k r :
  NoDup rows.*1 -> (k, r) ∈ rows ->
  leased_rows now attempt rows m !! k = Some (leased_delivery now deliveryLease "billing-service" attempt r).
Proof.
  induction rows as [|[k' r'] rows IH]; intros Hnd Hin; [by apply elem_of_nil in Hin|]. simpl. simpl in Hnd.
  apply NoDup_cons in Hnd as [Hn Hnd]. apply elem_of_cons in Hin as [[= -> ->]|Hin]; [apply lookup_insert_eq|].
  rewrite lookup_insert_ne; [by apply IH|]. intros ->. apply Hn, list_elem_of_fmap. by exists (k, r).
Qed.

Lemma round_start limit (w w' : world St) (r : res Z) :
  ProjectPendingBillingEventDeliveries limit w = (r, w') -> clickhouse_configured = true -> r <> Panic ->
  exists now attempt w1,
    w_db w1 = set_deliveries (leased_rows now attempt (claimed_at limit now (w_db w)) (db_deliveries (w_db w))) (w_db w)
    /\ w_clickhouse w1 = w_clickhouse w /\ projectDeliveries (claimed_at limit now (w_db w)).*1 0 w1 = (r, w').
Proof.
  intros H Hc Hp. unfold ProjectPendingBillingEventDeliveries in H. rewrite Hc in H. cbn [negb] in H.
  fold (claim_limit limit) in H. unfold mbindM at 1 in H. unfold timeNow at 1 in H.
  unfold mbindM at 1 in H. unfold mlift, checkedInt32FromInt in H. destruct (_ || _) in H; [by injection H as <-|].
  unfold mbindM, pgNow, timeNow in H. simpl in H. destruct (w_txnow w) as [t|];
    unfold statement, ClaimBillingEventDeliveries in H; simpl in H; (eexists _, _, _; split; [|split; [|exact H]]); reflexivity.
Qed.

(** A round of event delivery that succeeds writes exactly one row to
    ClickHouse for every delivery it claimed, in the order of the queue, takes
    those deliveries off the queue, and changes nothing else. *)
Theorem deliveries_projected_once limit (w w' : world St) k :
  ProjectPendingBillingEventDeliveries limit w = (Ret k, w') -> clickhouse_configured = true ->
  exists now rows, let keys := (claimed_at limit now (w_db w)).*1 in
    NoDup keys /\ k = Z.of_nat (length keys)
    /\ Forall2 (projected (w_db w)) keys rows /\ w_clickhouse w' = w_clickhouse w ++ rows
    /\ w_db w' = set_deliveries (without keys (db_deliveries (w_db w))) (w_db w).
Proof.
  intros H Hc. destruct (round_start _ _ _ _ H Hc) as (now & attempt & w1 & Hd & Hcl & Hp); [done|].
  apply projectDeliveries_Ret in Hp as (-> & (rows & Hrows & Hc') & Hd'). exists now, rows. split_and!.
  - apply claimed_NoDup.
  - lia.
  - eapply Forall2_impl; [exact Hrows|]. intros k r. unfold projected. by rewrite Hd.
  - by rewrite Hc', Hcl.
  - rewrite Hd', Hd. cbn [db_deliveries set_deliveries].
    assert (forall m, without (claimed_at limit now (w_db w)).*1 (leased_rows now attempt (claimed_at limit now (w_db w)) m)
              = without (claimed_at limit now (w_db w)).*1 m) as E.
    { intros m. apply map_eq. intros i. rewrite !without_lookup. case_decide as Hi; [done|]. by apply leased_other. }
    by rewrite E.
Qed.

(** C23: When a delivery fails, those before it are sent and off the queue, it
    is scheduled again 30 seconds later or retired after 25 attempts, and
    those claimed after it stay in progress: no later round, at any time,
    considers them due. *)
Theorem failed_delivery_strands_rest limit (w w' : world St) e :
  ProjectPendingBillingEventDeliveries limit w = (Err e, w') -> clickhouse_configured = true ->
  exists now now' sent failed rest rows, claimed_at limit now (w_db w) = sent ++ failed :: rest
    /\ Forall2 (projected (w_db w)) sent.*1 rows /\ w_clickhouse w' = w_clickhouse w ++ rows
    /\ (forall k, k ∈ sent.*1 -> db_deliveries (w_db w') !! k = None)
    /\ (exists attempt, db_deliveries (w_db w') !! failed.1
          = Some (failed_delivery now' deliveryLease (errorText e)
                    (leased_delivery now deliveryLease "billing-service" attempt failed.2)))
    /\ (forall k r, (k, r) ∈ rest -> exists r', db_deliveries (w_db w') !! k = Some r' /\ dl_state r' = DInProgress
          /\ dl_attempts r' = dl_attempts r + 1 /\ forall t, delivery_due clickHouseBillingEventsSink t (k, r') = false).
Proof.
  intros H Hc. destruct (round_start _ _ _ _ H Hc) as (now & attempt & w1 & Hd & Hcl & Hp); [done|].
  apply projectDeliveries_Err in Hp as (sent & key & rest & rows & now' & Hk & Hrows & Hc' & Hd').
  pose proof (claimed_NoDup limit now (w_db w)) as Hnd.
  apply fmap_app_inv in Hk as (sentr & tail & -> & Ht & Hk). symmetry in Ht. apply fmap_cons_inv in Ht as (failed & restr & -> & -> & ->).
  exists now, now', sentr, failed, restr, rows. rewrite Hd in Hd'. cbn [db_deliveries set_deliveries] in Hd'. rewrite Hk in Hd', Hnd |- *.
  rewrite fmap_app, fmap_cons in Hnd. apply NoDup_app in Hnd as (_ & Hx & [Hf _]%NoDup_cons).
  assert (failed.1 ∉ sentr.*1) as Hfs by (intros Hin; apply (Hx _ Hin); left).
  split_and!; [done| | | | |].
  - eapply Forall2_impl; [exact Hrows|]. intros k r. unfold projected. by rewrite Hd.
  - by rewrite Hc', Hcl.
  - intros k Hin. rewrite Hd'. simpl. rewrite lookup_alter_ne by congruence. rewrite without_lookup. by rewrite decide_True.
  - exists attempt. rewrite Hd'. simpl. rewrite lookup_alter_eq, without_lookup, decide_False by done.
    rewrite <- Hk. rewrite (leased_in _ _ _ _ failed.1 failed.2); [done|apply claimed_NoDup|].
    rewrite Hk. apply elem_of_app. right. destruct failed. left.
  - intros k r Hin. assert (k ∈ restr.*1) as Hkr by (apply list_elem_of_fmap; by exists (k, r)).
    exists (leased_delivery now deliveryLease "billing-service" attempt r). split_and!; [|done..|].
    + rewrite Hd'. simpl. rewrite lookup_alter_ne by congruence. rewrite without_lookup, decide_False.
      * rewrite <- Hk. apply leased_in; [apply claimed_NoDup|]. rewrite Hk. set_solver.
      * intros Hin'. apply (Hx _ Hin'). by right.
    + intros t. unfold delivery_due. apply andb_false_iff. left. apply andb_false_iff. right. reflexivity.
Qed.
End Theorems.

(** ** A ClickHouse that accepts, and one that fails *)

Import RefLedger Sample.

(** The sample installation with ClickHouse, which refuses one insert. *)
Definition streaming (refused : nat) : Env := {|
  now_at := now_at;
  id_at := id_at;
  ledger_configured := true;
  runtime_configured := false;
  stripe_configured := false;
  clickhouse_configured := true;
  clickhouse_accepts n := negb (Nat.eqb n refused);
  float_overflow := float_overflow
|}.

(** Ten of the twelve deliveries of the contract run. *)
Definition one_round (refused : nat) : world state -> res Z * world state :=
  @ProjectPendingBillingEventDeliveries state (streaming refused) checksum 10.

Lemma round_sent : one_round 0 k3 = (Ret 10, (one_round 0 k3).2).
Proof. apply (run_Ret (one_round 0)). vm_compute. reflexivity. Qed.

Lemma deliveries_projected_once_witness :
  exists rows, length rows = 10%nat /\ w_clickhouse (one_round 0 k3).2 = w_clickhouse k3 ++ rows.
Proof.
  destruct (@deliveries_projected_once state (streaming 0) checksum 10 k3 _ 10 round_sent eq_refl)
    as (now & rows & _ & Hk & Hrows & Hc & _).
  exists rows. split; [|exact Hc]. rewrite <- (Forall2_length _ _ _ Hrows). lia.
Defined.

(** The third insert is refused. *)
Lemma round_failed : one_round 16 k3 = (Err (Errorf "send ClickHouse batch"), (one_round 16 k3).2).
Proof.
  assert ((one_round 16 k3).1 = Err (Errorf "send ClickHouse batch")) as H by (vm_compute; reflexivity).
  rewrite <- H. apply surjective_pairing.
Qed.

Lemma stranded_rows :
  length (filter (fun kv => dl_state kv.2 = DInProgress) (map_to_list (db_deliveries (w_db (one_round 16 k3).2)))) = 7%nat.
Proof. vm_compute. reflexivity. Qed.

Lemma failed_delivery_strands_rest_witness :
  exists now sent failed rest, claimed_at 10 now (w_db k3) = sent ++ failed :: rest
    /\ (forall k, k ∈ sent.*1 -> db_deliveries (w_db (one_round 16 k3).2) !! k = None).
Proof.
  destruct (@failed_delivery_strands_rest state (streaming 16) checksum 10 k3 _ (Errorf "send ClickHouse batch") round_failed eq_refl)
    as (now & now' & sent & failed & rest & rows & H1 & _ & _ & H2 & _).
  exists now, sent, failed, rest. split; [exact H1|exact H2].
Defined.
