(* ===== verification/ViewTheorems.v ===== *)
(** * What the entitlements view shows

    Every slot of the view is found at a [path]; [key_at] is the scope it
    stands for.  A grant is added to the slot whose scope is the grant's, and
    to no other, so that each slot shows the sums over its grants
    ([entitlement_slot_totals]).  Storage quotas are one of three. *)

From S2P Require Import Prelude GoFloat GoStd GoTime GoFormat Json Types Ids Ledger Charges Grants Store Events.
From S2P Require Import LedgerCommands LedgerGrants Cycles Entitlements ContractStore DocumentStore DueChanges.
From S2P Require Import WindowStore Windows EntitlementsView Samples.

(** ** Scopes and paths *)

Abbreviation scope := (string * string * string * string)%type.






Inductive path : Type :=
| PUniversal
| PProduct (i : nat)
| PBucket (i j : nat)
| PSku (i j n : nat).

#[export] Instance path_eq_dec : EqDecision path.
Proof. solve_decision. Defined.

Definition section_at (v : EntitlementsView) (i j : nat) : option EntitlementBucketSection :=
  p ← ev_Products v !! i; ps_Buckets p !! j.

Definition slot_at (v : EntitlementsView) (x : path) : option EntitlementSlot :=
  match x with
  | PUniversal => Some (ev_Universal v)
  | PProduct i => ev_Products v !! i ≫= ps_ProductSlot
  | PBucket i j => section_at v i j ≫= bs_BucketSlot
  | PSku i j n => b ← section_at v i j; bs_SKUSlots b !! n
  end.


Abbreviation skeleton := (list (string * list (string * list string))).





(** ** Index maps *)

Section Index.
Context {A : Type} (key : A -> string).








End Index.

(** ** One grant *)























(** ** All grants *)





Section Totals.
Context (defaultNow : time) (nowByProduct : gmap string time).










End Totals.

(** ** The slots of the view *)






(** ** The catalogue has unique ids *)






















(** *** On the sample catalogue *)

Definition sample_grant (id scope product bucket sku : string) (n : Z) : GrantBalance :=
  mkGrant "org" id scope product bucket sku "purchase" id "" "v1" "" "" "" 0 None None None n n n 0 1 zeroID.

Definition sample_grants : list GrantBalance :=
  [sample_grant "a" "account" "" "" "" 5; sample_grant "s" "sku" "vm" "compute" "cpu" 7; sample_grant "t" "sku" "vm" "compute" "cpu" 9;
   sample_grant "b" "bucket" "vm" "compute" "" 3].

Definition sample_view : EntitlementsView :=
  buildEntitlementsView "org" 0 ∅ (catalogOfRows (ListEntitlementCatalogRows Sample.db0)) sample_grants.

Definition cpu_slot : EntitlementSlot := default (ev_Universal sample_view) (slot_at sample_view (PSku 0 0 0)).

Example cpu_slot_available : sl_AvailableUnits cpu_slot = 16.
Proof. vm_compute. reflexivity. Qed.


