(* ===== verification/FinalizationTheorems.v ===== *)
(** * Theorems on finalizations

    What FinalizeBillingFinalization does with a finalization: it claims it
    once, issues its document and finalizes its cycle, or records the failure. *)

From stdpp Require Import relations.
From S2P Require Import Prelude GoFloat GoStd GoTime GoFormat Json Types Ids Ledger Charges Grants Store Events.
From S2P Require Import LedgerCommands LedgerGrants Cycles Entitlements ContractStore DocumentStore DueChanges.
From S2P Require Import WindowStore Windows.
From S2P Require Import Statements Finalizations Dispatcher Contracts Catalog Samples Frames PeriodSystem.
From S2P Require Import ContractSystem.
From S2P Require Import Legs WindowInv PrepareTx ReserveTx WindowSystem Service ContractRuns Settlement.
From S2P Require Import SampleRun ContractRun.

(** ** Rows under a constraint *)


(** ** Runs *)

Section Runs.
Context {St : Type} `{HE : Env} `{HD : Digest}.

Definition no_ledger (s s' : St) : Prop := True.

#[local] Instance no_ledger_preorder : PreOrder no_ledger.
Proof. by split. Qed.

(** [m] only reads the database. *)
Abbreviation reads m := (evolves (St := St) eq no_ledger m).





(** The tables a finalization's document does not touch; documents stay. *)
Definition document_step (d d' : DB) : Prop :=
  finalizations_of d' = finalizations_of d /\ db_cycles d' = db_cycles d
  /\ forall id, is_Some (documents_of d !! id) -> is_Some (documents_of d' !! id).

#[export] Instance document_step_preorder : PreOrder document_step.
Proof.
  split; [done|]. intros d1 d2 d3 (F1 & C1 & D1) (F2 & C2 & D2). split; [congruence|]. split; [congruence|auto].
Qed.

Lemma put_document_step id o d d' : put_document id o d = Ret d' -> document_step d d'.
Proof.
  intros (_ & _ & _ & ->)%put_row_Ret. split; [done|]. split; [done|]. intros i Hi. unfold documents_of. simpl.
  destruct (decide (i = id)) as [->|Hne]; [by rewrite lookup_insert_eq|by rewrite lookup_insert_ne].
Qed.

Lemma put_line_item_step id o d d' :
  put_row document_line_checks (fun _ _ => false) set_dt_line_items (dt_line_items (db_documents d)) id o d = Ret d' ->
  document_step d d'.
Proof. by intros (_ & _ & _ & ->)%put_row_Ret. Qed.

Lemma allocators_step x d : document_step d (set_dt_allocators x d).
Proof. done. Qed.

#[local] Hint Resolve put_document_step put_line_item_step allocators_step : writes.

Lemma document_stmt {A} (f : DB -> res (A * DB)) :
  writes document_step f -> evolves (St := St) document_step no_ledger (statement f).
Proof. apply evolves_writes; [apply _..|done]. Qed.

#[local] Hint Extern 1 (evolves document_step no_ledger (statement _)) => apply document_stmt; by_definition : frame.










End Runs.

Import RefLedger Sample.

