(* ===== verification/DueWorkTheorems.v ===== *)
(** * The loop of ApplyDueBillingWork terminates

    Each iteration of the loop is one transaction that closes a due cycle and
    opens its successor.  [due_run] is the loop without fuel; it always has a
    result as long as the business clock is bounded while it runs, because
    every iteration moves the end of the open cycle of the account forward. *)

From stdpp Require Import relations.
From S2P Require Import Prelude GoFloat GoStd GoTime GoFormat Json Types Ids Ledger Charges Grants Store Events.
From S2P Require Import LedgerCommands LedgerGrants Cycles Entitlements ContractStore DocumentStore DueChanges.
From S2P Require Import WindowStore Windows.
From S2P Require Import Statements Finalizations Dispatcher Contracts Catalog Samples Frames PeriodSystem.
From S2P Require Import ContractSystem.
From S2P Require Import Legs WindowInv PrepareTx ReserveTx WindowSystem Service ContractRuns Settlement.
From S2P Require Import SampleRun.
From S2P Require Import CycleTheorems ContractRun.

(** ** The open cycles of an account *)

Section Account.
Context (org product : string).

Definition open_end (c : cycleRow) : option time :=
  if bool_decide (cy_org_id c = org) && bool_decide (cy_product_id c = product) && cycle_open c then Some (cy_ends_at c) else None.

Definition open_ends (d : DB) : gmap string time := omap open_end (db_cycles d).

(** Neither the open cycles of the account nor the business clock change. *)
Definition cycles_kept (d d' : DB) : Prop := open_ends d' = open_ends d /\ db_clock d' = db_clock d.

#[export] Instance cycles_kept_preorder : PreOrder cycles_kept.
Proof. split; [done|]. intros d1 d2 d3 [H1 H2] [H3 H4]. split; congruence. Qed.

Lemma cycles_kept_same d d' : db_cycles d' = db_cycles d -> db_clock d' = db_clock d -> cycles_kept d d'.
Proof. intros H1 H2. split; [unfold open_ends; by rewrite H1|done]. Qed.

Lemma open_ends_insert id c d :
  open_ends (set_cycles (<[id := c]> (db_cycles d)) d)
  = match open_end c with Some e => <[id := e]> (open_ends d) | None => delete id (open_ends d) end.
Proof.
  unfold open_ends. simpl. apply map_eq. intros i. rewrite lookup_omap. destruct (decide (i = id)) as [->|Hne].
  - rewrite lookup_insert_eq. simpl. destruct (open_end c); [by rewrite lookup_insert_eq|by rewrite lookup_delete_eq].
  - rewrite lookup_insert_ne by done. destruct (open_end c); [rewrite lookup_insert_ne by done|rewrite lookup_delete_ne by done];
      by rewrite lookup_omap.
Qed.

Lemma cycles_kept_update id c c' d :
  db_cycles d !! id = Some c -> open_end c' = open_end c -> cycles_kept d (set_cycles (<[id := c']> (db_cycles d)) d).
Proof.
  intros Hc E. split; [|done]. rewrite open_ends_insert, E. unfold open_ends. apply map_eq. intros i.
  destruct (open_end c) as [e|] eqn:Ee; (destruct (decide (i = id)) as [->|Hne];
    [rewrite ?lookup_insert_eq, ?lookup_delete_eq, lookup_omap, Hc; simpl; congruence|]).
  - by rewrite lookup_insert_ne.
  - by rewrite lookup_delete_ne.
Qed.

(** *** The statements of the period work keep them *)

Lemma put_finalization_cycles id c d d' : put_finalization id c d = Ret d' -> cycles_kept d d'.
Proof. by intros (_ & _ & _ & ->)%put_row_Ret. Qed.

Lemma put_document_cycles id c d d' : put_document id c d = Ret d' -> cycles_kept d d'.
Proof. by intros (_ & _ & _ & ->)%put_row_Ret. Qed.

Lemma put_line_item_cycles id c d d' :
  put_row document_line_checks (fun _ _ => false) set_dt_line_items (dt_line_items (db_documents d)) id c d = Ret d' ->
  cycles_kept d d'.
Proof. by intros (_ & _ & _ & ->)%put_row_Ret. Qed.

Lemma allocators_cycles x d : cycles_kept d (set_dt_allocators x d).
Proof. done. Qed.

#[local] Hint Resolve put_finalization_cycles put_document_cycles put_line_item_cycles allocators_cycles : writes.

Lemma insertFinalization_cycles id row d nd : insertFinalization id row d = Ret nd -> cycles_kept d nd.2.
Proof. unfold insertFinalization. intros H. repeat case_match; inv_ret; try done. by eapply put_finalization_cycles. Qed.

#[local] Hint Extern 1 (cycles_kept _ _) => match goal with
  | Hu : insertFinalization _ _ _ = Ret ?nd |- _ => exact (insertFinalization_cycles _ _ _ nd Hu) end : writes.

Lemma LinkCycleFinalization_cycles c f : writes cycles_kept (LinkCycleFinalization c f).
Proof.
  intros d [] d' H. unfold LinkCycleFinalization in H. destruct (db_cycles d !! c) as [row|] eqn:E; [|by injection H as <-].
  case_decide; injection H as <-; [by eapply cycles_kept_update|done].
Qed.

Lemma MarkFinalized_cycles c f t : writes cycles_kept (MarkBillingCycleFinalized c f t).
Proof.
  intros d [] d' H. unfold MarkBillingCycleFinalized in H. destruct (db_cycles d !! c) as [row|] eqn:E; [|by injection H as <-].
  case_decide as Hs; [|by injection H as <-]. apply obind_Ret_inv in H as (d1 & Hp & H). injection H as <-.
  apply put_cycle_Ret in Hp as [_ ->].
  eapply cycles_kept_update; [done|]. unfold open_end, cycle_open. simpl. by destruct Hs as [-> | ->].
Qed.

Lemma contracts_cycles d d' : contracts_only d d' -> cycles_kept d d'.
Proof. by intros (kt & ->). Qed.

Lemma period_stmt_cycles A (f : DB -> res (A * DB)) : period_stmt A f -> writes cycles_kept f.
Proof.
  destruct 1; first [ apply LinkCycleFinalization_cycles | apply MarkFinalized_cycles | by_definition
                    | apply (writes_mono contracts_only); [exact contracts_cycles|by_definition] ].
Qed.

Lemma period_write_cycles d d' : period_write d d' -> cycles_kept d d'.
Proof. intros (A & f & a & Hf & H). by eapply period_stmt_cycles. Qed.

Lemma events_cycles d d' : events_only d d' -> cycles_kept d d'.
Proof. by intros (ev & de & jo & ->). Qed.

(** *** The measure *)

(** How far the open cycles that end by [T] are from having passed it. *)
Definition due_measure (T : time) (m : gmap string time) : Z := msum ((fun e => Z.max 0 (T - e + 1)) <$> m).

Lemma due_measure_nonneg T m : 0 <= due_measure T m.
Proof. apply msum_nonneg. intros k v Hk. apply lookup_fmap_Some in Hk as (e & <- & _). lia. Qed.

Lemma due_measure_insert T m id e : m !! id = None -> due_measure T (<[id := e]> m) = Z.max 0 (T - e + 1) + due_measure T m.
Proof.
  intros H. unfold due_measure. rewrite (fmap_insert (fun e => Z.max 0 (T - e + 1))), msum_insert_new; [done|].
  by rewrite lookup_fmap, H.
Qed.

Lemma due_measure_delete T m id e : m !! id = Some e -> due_measure T m = Z.max 0 (T - e + 1) + due_measure T (delete id m).
Proof. intros H. rewrite <- (due_measure_insert T _ id) by apply lookup_delete_eq. by rewrite insert_delete_id. Qed.

Lemma successor_end_later k e : e < pg_timestamptz (cycleEndAfter k e).
Proof.
  assert (microsecond < day_ns) by (vm_compute; done). pose proof day_ns_pos.
  pose proof (pg_timestamptz_le (cycleEndAfter k e)) as Hp. unfold cycleEndAfter in *. repeat case_decide.
  - rewrite add_date_years in *. pose proof (month_first_mono (month_of e) (month_of e + 12 * 1) ltac:(lia)). nia.
  - pose proof (add_month_bounds e). lia.
  - rewrite month_pg_next. rewrite nextMonth_eq. apply month_start_bounds.
Qed.
End Account.

(** ** One iteration *)

Section Loop.
Context {St : Type} `{HE : Env} `{HD : Digest} `{HC : TBCodec} `{!TigerBeetle St} (org product : string).

Abbreviation account := (orgIDText org).
Abbreviation kept := (cycles_kept account product).

Definition no_ledger (s s' : St) : Prop := True.

#[local] Instance no_ledger_preorder : PreOrder no_ledger.
Proof. by split. Qed.

#[local] Instance kept_preorder : PreOrder kept := cycles_kept_preorder account product.

Lemma due_changes_kept o p c t : evolves (St := St) kept no_ledger (applyDueContractChangesTx o p c t).
Proof.
  apply applyDueContractChanges_evolves; [apply _..|apply events_cycles|apply period_write_cycles].
Qed.

Lemma finalization_kept o p c t : evolves (St := St) kept no_ledger (ensureCycleFinalizationTx o p c t).
Proof. apply ensureCycleFinalization_evolves; [apply _..|apply events_cycles|apply period_write_cycles]. Qed.

Lemma finalize_kept id : evolves (St := St) kept no_ledger (FinalizeBillingFinalization id).
Proof. apply FinalizeFinalization_evolves; [apply _..|apply events_cycles|apply period_write_cycles]. Qed.

Lemma nextDue_Ret now (w w' : world St) due :
  nextDueOpenCycleTx org product now w = (Ret due, w') ->
  w' = w /\ match due with
            | Some cycle => exists c, cycle = billingCycleFromStore (bc_CycleID cycle, c)
                /\ db_cycles (w_db w) !! bc_CycleID cycle = Some c
                /\ open_end account product c = Some (bc_EndsAt cycle) /\ bc_EndsAt cycle <= pg_timestamptz now
            | None => is_zero now = false -> forall id e, open_ends account product (w_db w) !! id = Some e -> pg_timestamptz now < e
            end.
Proof.
  unfold nextDueOpenCycleTx, queryAt, timestamptz, mbindM. destruct (is_zero now) eqn:Hz; [by intros [= <- <-]|]. unfold query.
  destruct (GetNextDueOpenCycleForUpdate _ _ _ _) as [[id c]|] eqn:E; intros [= <- <-]; (split; [done|]).
  - apply head_sorted_elem in E. unfold open_cycles in E. rewrite !list_elem_of_filter in E.
    destruct E as (Ht & (Ho & Hp & Hop) & Hin). apply elem_of_map_to_list in Hin. simpl in *. exists c.
    split; [done|]. split; [done|]. split; [|done]. unfold open_end. by rewrite !bool_decide_true, Hop.
  - intros _ id e He. unfold open_ends in He. apply lookup_omap_Some in He as (c & Hc & Hin). unfold open_end in Hc.
    destruct (_ && _) eqn:Eb in Hc; [|done]. injection Hc as <-.
    apply andb_prop in Eb as [[Ho Hp]%andb_prop Hop]. apply Z.nle_gt. intros Hle.
    unfold GetNextDueOpenCycleForUpdate in E. apply head_None in E.
    assert ((id, c) ∈ @nil (string * cycleRow)) as Hn; [|by apply elem_of_nil in Hn].
    rewrite <- E, sort_slice_perm. unfold open_cycles. rewrite !list_elem_of_filter. simpl.
    split; [done|]. split; [|by apply elem_of_map_to_list].
    split; [exact (bool_decide_eq_true_1 _ Ho)|]. split; [exact (bool_decide_eq_true_1 _ Hp)|done].
Qed.

Lemma append_kept ev (w w' : world St) a : appendEvent ev w = (Ret a, w') -> kept (w_db w) (w_db w').
Proof. intros H. apply appendEvent_only in H as [H _]. by apply events_cycles. Qed.

Lemma close_Ret cycle now (w w' : world St) c :
  closeCycleForUsageTx org product cycle now w = (Ret tt, w') -> db_cycles (w_db w) !! bc_CycleID cycle = Some c ->
  cycle_open c = true ->
  open_ends account product (w_db w') = delete (bc_CycleID cycle) (open_ends account product (w_db w))
  /\ db_clock (w_db w') = db_clock (w_db w).
Proof.
  intros H Hc Ho. unfold closeCycleForUsageTx in H. apply mbindM_Ret_inv in H as (n & w1 & H1 & H). apply statement_Ret in H1.
  unfold CloseCycleForUsage in H1. rewrite Hc, Ho in H1. apply obind_Ret_inv in H1 as (d1 & Hp & E). injection E as <- ->.
  apply put_cycle_Ret in Hp as [_ Ed]. simpl in H. apply append_kept in H as [H1 H2]. rewrite H1, H2, Ed.
  rewrite open_ends_insert. unfold open_end at 1. simpl. by rewrite andb_false_r.
Qed.

Lemma openSuccessor_Ret cycle now T (w w' : world St) :
  openSuccessorCycleTx org product cycle now w = (Ret tt, w') ->
  db_clock (w_db w') = db_clock (w_db w)
  /\ due_measure T (open_ends account product (w_db w'))
     <= Z.max 0 (T - bc_EndsAt cycle) + due_measure T (open_ends account product (w_db w)).
Proof.
  intros H. unfold openSuccessorCycleTx in H. apply mbindM_Ret_inv in H as (n & w1 & Hu & H).
  apply upsertCycleTx_Ret in Hu as [(-> & -> & _)|(-> & _ & row & Ed & Hst & _ & He & _ & _ & _ & Hn & Ho)].
  - injection H as <-. split; [done|]. lia.
  - cbn [Z.eqb] in H. apply mbindM_Ret_inv in H as ([] & w2 & Hl & H). apply append_kept in H as [E1 E2]. rewrite E1, E2.
    apply statement_Ret in Hl.
    assert (kept (w_db w1) (w_db w2)) as [F1 F2].
    { unfold LinkSuccessorBillingCycle in Hl. destruct (db_cycles (w_db w1) !! bc_CycleID cycle) as [c|] eqn:Ec; [|by injection Hl as <-].
      case_decide; injection Hl as <-; [by eapply cycles_kept_update|done]. }
    rewrite F1, F2, Ed. split; [done|]. rewrite open_ends_insert. set (sid := bc_CycleID _) in *.
    assert (open_ends account product (w_db w) !! sid = None) as Hnone.
    { unfold open_ends. rewrite lookup_omap. destruct (db_cycles (w_db w) !! sid) as [old|]; [|done]. simpl.
      destruct (Ho old eq_refl) as (Hv & _). unfold open_end. unfold cycle_voided in Hv.
      apply bool_decide_eq_true_1 in Hv. unfold cycle_open. rewrite Hv. by rewrite andb_false_r. }
    destruct (open_end account product row) as [e|] eqn:Ee.
    + rewrite due_measure_insert by done. unfold open_end in Ee. destruct (_ && _) in Ee; [|done]. injection Ee as <-.
      rewrite He. simpl. pose proof (successor_end_later (bc_CadenceKind cycle) (bc_EndsAt cycle)). lia.
    + rewrite delete_id by done. pose proof (due_measure_nonneg T (open_ends account product (w_db w))). lia.
Qed.

(** The business clock of the account never passes [T]. *)
Definition clock_below (T : time) (d : DB) : Prop :=
  (forall n, pg_timestamptz (now_at n) <= T) /\ forall t, business_clock d account product = Some t -> pg_timestamptz t <= T.

Lemma BusinessNow_Ret (w w' : world St) now t :
  BusinessNow org product w = (Ret now, w') -> w_txnow w = Some t ->
  w' = w /\ now = default t (business_clock (w_db w) account product).
Proof.
  intros H Ht. unfold BusinessNow, mbindM, query in H. destruct (business_clock _ _ _); [by injection H as <- <-|].
  unfold pgNow in H. rewrite Ht in H. by injection H as <- <-.
Qed.

Lemma WithTx_Ret {A} (m : @B St A) (w w' : world St) a :
  WithTx m w = (Ret a, w') ->
  exists w1 w2, m w1 = (Ret a, w2) /\ w_db w1 = w_db w /\ w_txnow w1 = Some (pg_timestamptz (now_at (w_ticks w)))
    /\ w_db w' = w_db w2.
Proof.
  intros H. unfold WithTx in H. simpl in H. match type of H with context [m ?x] => destruct (m x) as [[y|e|] w2] eqn:E end;
    [|done|done]. injection H as -> <-. eexists _, w2. by split; [exact E|].
Qed.

(** An iteration that rolled a cycle over has moved its end forward. *)
Lemma roll_Some T (w w' : world St) x :
  WithTx (rollDueCycleTx org product) w = (Ret (Some x), w') -> clock_below T (w_db w) ->
  db_clock (w_db w') = db_clock (w_db w)
  /\ due_measure T (open_ends account product (w_db w')) < due_measure T (open_ends account product (w_db w)).
Proof.
  intros (w1 & w2 & E & E1 & Et & ->)%WithTx_Ret [Hwall Hclock]. rewrite <- E1 in *.
  unfold rollDueCycleTx in E. apply mbindM_Ret_inv in E as (now & w3 & Hn & E).
  eapply BusinessNow_Ret in Hn as [-> Hn]; [|exact Et].
  assert (pg_timestamptz now <= T) as Hnow.
  { rewrite Hn. destruct (business_clock (w_db w1) account product) as [t|] eqn:Eb; [by apply Hclock|].
    simpl. rewrite pg_timestamptz_idemp. apply Hwall. }
  apply mbindM_Ret_inv in E as (due & w4 & Hd & E). apply nextDue_Ret in Hd as [-> Hd].
  destruct due as [cycle|]; [|done]. destruct Hd as (c & _ & Hc & He & Hle).
  apply mbindM_Ret_inv in E as ([] & w5 & Hcl & E). eapply close_Ret in Hcl as [Ecl Ccl]; [|exact Hc|].
  2: { unfold open_end in He. destruct (cycle_open c); [done|]. by rewrite andb_false_r in He. }
  apply mbindM_Ret_inv in E as (n & w6 & Ha & E). apply (evolves_run _ _ _ _ _ _ (due_changes_kept _ _ _ _)) in Ha as [[Ea Ca] _].
  apply mbindM_Ret_inv in E as (fin & w7 & Hf & E). apply (evolves_run _ _ _ _ _ _ (finalization_kept _ _ _ _)) in Hf as [[Ef Cf] _].
  apply mbindM_Ret_inv in E as ([] & w8 & Ho & E). injection E as _ <-. apply (openSuccessor_Ret _ _ T) in Ho as [Co Ho].
  split; [congruence|]. rewrite Ef, Ea, Ecl in Ho.
  rewrite (due_measure_delete T (open_ends account product (w_db w1)) (bc_CycleID cycle) (bc_EndsAt cycle)); [lia|].
  unfold open_ends. by rewrite lookup_omap, Hc.
Qed.

(** ** The loop without fuel *)

(** The finalization of the cycle just rolled over, inside the loop. *)
Definition finalizeRolled (finalization : string) : @B St unit :=
  if negb (bool_decide (finalization = "")) && negb runtime_configured
  then do! _ <- FinalizeBillingFinalization finalization; mret tt
  else mret tt.

Definition rolled_summary (s : DueWorkSummary) (applied : Z) : DueWorkSummary :=
  mkDueWork (CyclesRolledOver s + 1) (ContractChangesApplied s + applied).

(** An outcome that is not a value, at another type. *)
Definition same_failure {A C} (o : res A) : res C := match o with Ret _ => Panic | Err e => Err e | Panic => Panic end.

Definition stopped {A} (o : res A) : Prop := forall a, o <> Ret a.

Inductive due_run : DueWorkSummary -> world St -> res DueWorkSummary * world St -> Prop :=
| due_done s w w' : WithTx (rollDueCycleTx org product) w = (Ret None, w') -> due_run s w (Ret s, w')
| due_roll_failed s w o w' :
    WithTx (rollDueCycleTx org product) w = (o, w') -> stopped o -> due_run s w (same_failure o, w')
| due_finalize_failed s w applied finalization w1 o w' :
    WithTx (rollDueCycleTx org product) w = (Ret (Some (applied, finalization)), w1) ->
    finalizeRolled finalization w1 = (o, w') -> stopped o -> due_run s w (same_failure o, w')
| due_next s w applied finalization w1 w2 r :
    WithTx (rollDueCycleTx org product) w = (Ret (Some (applied, finalization)), w1) ->
    finalizeRolled finalization w1 = (Ret tt, w2) -> due_run (rolled_summary s applied) w2 r -> due_run s w r.

Lemma applyDueLoop_next fuel s (w w1 : world St) ap fin :
  WithTx (rollDueCycleTx org product) w = (Ret (Some (ap, fin)), w1) ->
  applyDueLoop (S fuel) org product s w
  = mbindM (finalizeRolled fin) (fun _ => applyDueLoop fuel org product (rolled_summary s ap)) w1.
Proof. intros H. simpl. unfold mbindM at 1. by rewrite H. Qed.

(** With fuel to spare, the loop computes what the relation says. *)
Lemma due_run_fuel s w r : due_run s w r -> exists n, forall fuel, (n <= fuel)%nat -> applyDueLoop fuel org product s w = r.
Proof.
  induction 1 as [s w w' H|s w o w' H Hs|s w ap fin w1 o w' H Hf Hs|s w ap fin w1 w2 r H Hf _ [n IH]].
  - exists 1%nat. intros [|fuel] Hle; [lia|]. simpl. unfold mbindM. by rewrite H.
  - exists 1%nat. intros [|fuel] Hle; [lia|]. simpl. unfold mbindM. rewrite H. destruct o as [a|e|]; [by destruct (Hs a)|done..].
  - exists 1%nat. intros [|fuel] Hle; [lia|]. rewrite (applyDueLoop_next _ _ _ _ _ _ H). unfold mbindM. rewrite Hf. destruct o as [a|e|]; [by destruct (Hs a)|done..].
  - exists (S n). intros [|fuel] Hle; [lia|]. rewrite (applyDueLoop_next _ _ _ _ _ _ H). unfold mbindM. rewrite Hf.
    apply IH. lia.
Qed.

Lemma finalizeRolled_kept fin (w w' : world St) o : finalizeRolled fin w = (o, w') -> kept (w_db w) (w_db w').
Proof.
  intros H. assert (evolves (St := St) kept no_ledger (finalizeRolled fin)) as He
    by (pose proof finalize_kept; unfold finalizeRolled; frame).
  by apply (evolves_run _ _ _ _ _ _ He) in H as [H _].
Qed.

Lemma due_run_total T s w :
  clock_below T (w_db w) -> exists r, due_run s w r.
Proof.
  remember (Z.to_nat (due_measure T (open_ends account product (w_db w)))) as n eqn:En.
  revert s w En. induction n as [n IH] using lt_wf_ind. intros s w -> Hc.
  destruct (WithTx (rollDueCycleTx org product) w) as [[[[ap fin]|]|e|] w1] eqn:E.
  - destruct (roll_Some T _ _ _ E Hc) as [Ec Hlt]. destruct (finalizeRolled fin w1) as [o w2] eqn:Ef.
    pose proof (finalizeRolled_kept _ _ _ _ Ef) as [Ek Ck].
    destruct o as [[]|e|]; [|eexists; by eapply due_finalize_failed|eexists; by eapply due_finalize_failed].
    destruct (IH (Z.to_nat (due_measure T (open_ends account product (w_db w2))))
      ltac:(rewrite Ek; pose proof (due_measure_nonneg T (open_ends account product (w_db w1))); lia)
      (rolled_summary s ap) w2 eq_refl) as [r Hr].
    { destruct Hc as [H1 H2]. split; [done|]. unfold business_clock in *. by rewrite Ck, Ec. }
    exists r. by eapply due_next.
  - eexists. by apply due_done.
  - eexists. by eapply due_roll_failed.
  - eexists. by eapply due_roll_failed.
Qed.

(** C16: ApplyDueBillingWork terminates: as long as the business clock of the
    account stays below some time while it runs, the loop, which has no bound
    of its own, has a result, and that result is what the model computes with
    any sufficient fuel. *)
Theorem due_work_terminates T (w : world St) :
  clock_below T (w_db w) ->
  exists n r, due_run (mkDueWork 0 0) w r /\ forall fuel, (n <= fuel)%nat -> ApplyDueBillingWork fuel org product w = r.
Proof.
  intros H. destruct (due_run_total T (mkDueWork 0 0) w H) as [r Hr]. destruct (due_run_fuel _ _ _ Hr) as [n Hn].
  by exists n, r.
Qed.

(** ** What holds when it returns *)


End Loop.

(** ** The loop on the contract run *)

Import RefLedger Sample.

(** Any time after the readings of the sample clock: it stands still in the
    witness, at the end of 2023. *)
Definition still : Env := {|
  now_at _ := base_time;
  id_at := id_at;
  ledger_configured := true;
  runtime_configured := false;
  stripe_configured := false;
  clickhouse_configured := false;
  clickhouse_accepts _ := true;
  float_overflow := float_overflow
|}.

Lemma f0_clock : business_clock (w_db f0) (orgIDText org) product = Some (go_date 2023 12 20 0).
Proof. vm_compute. reflexivity. Qed.

Section Still.
#[local] Existing Instance still.

Lemma due_work_terminates_witness :
  exists n r, forall fuel, (n <= fuel)%nat -> ApplyDueBillingWork fuel org product f0 = r.
Proof.
  destruct (due_work_terminates (HE := still) org product (go_date 2023 12 20 0) f0) as (n & r & _ & H).
  - split.
    + intros k. vm_compute. discriminate.
    + intros t Ht. rewrite f0_clock in Ht. injection Ht as <-. vm_compute. discriminate.
  - exists n, r. exact H.
Defined.
End Still.


