(* ===== verification/ClockTheorems.v ===== *)
(** * Theorems on the business clock

    What setting, advancing and clearing the clock of an account leave behind,
    and what the reset to the wall clock repairs. *)

From stdpp Require Import relations.
From S2P Require Import Prelude GoFloat GoStd GoTime GoFormat GoURL Json Types StripeApi Ids Ledger Charges Grants.
From S2P Require Import Store.
From S2P Require Import Events LedgerCommands LedgerGrants Cycles Entitlements ContractStore.
From S2P Require Import DocumentStore.
From S2P Require Import DueChanges WindowStore Windows Statements Finalizations Dispatcher Contracts Catalog.
From S2P Require Import EntitlementsView.
From S2P Require Import Clock StripeStore Stripe ContractRequests Runtime Samples Frames PeriodSystem ContractSystem.
From S2P Require Import AdminFrames Legs WindowInv PrepareTx ReserveTx WindowSystem Service.
From S2P Require Import ContractRuns Settlement SampleRun CycleTheorems ContractRun DueWorkTheorems.

(** ** Setting the clock *)

Definition same_clock (d d' : DB) : Prop := db_clock d' = db_clock d.

#[export] Instance same_clock_preorder : PreOrder same_clock.
Proof. split; [done|]. unfold same_clock. congruence. Qed.

(** The override of an account as a state reports it. *)
Definition clock_reported (org productID : string) (d : DB) (s : BusinessClockState) : Prop :=
  match db_clock d !! orgProductClockScope org productID with
  | Some r => bk_HasOverride s = true /\ bk_BusinessNow s = clk_business_now r /\ bk_Generation s = clk_generation r
  | None => bk_HasOverride s = false /\ bk_Generation s = 0
  end.

(** From [d] to [d'] the override of the account, and no other, is set to [t],
    one generation after the previous one. *)
Definition clock_set_to (org productID : string) (t : time) (d d' : DB) : Prop :=
  let scope := orgProductClockScope org productID in
  let generation := match db_clock d !! scope with Some r => clk_generation r + 1 | None => 1 end in
  db_clock d' = <[scope := mkClockRow (pg_timestamptz t) generation]> (db_clock d).

(** The business time of an account, when the wall clock shows [wall]. *)
Definition account_time (org productID : string) (wall : time) (d : DB) : time :=
  default wall (business_clock d (orgIDText org) productID).

Section ClockRuns.
Context {St : Type} `{HE : Env} `{HD : Digest} `{HC : TBCodec} `{!TigerBeetle St} `{HS : StripeAPI} `{HU : NetURL}.

Lemma elsewhere_clock d d' : elsewhere d d' -> same_clock d d'.
Proof. by intros (_ & _ & E & _). Qed.

Lemma account_step_clock d d' : account_step d d' -> same_clock d d'.
Proof. intros [_ H]. by apply elsewhere_clock. Qed.

Lemma period_write_clock d d' : period_write d d' -> same_clock d d'.
Proof.
  intros (A & f & a & Hf & H). destruct (period_stmt_only _ _ Hf) as [Hw|Hw]; apply Hw in H.
  - by destruct H as (kt & ->).
  - by destruct H as (dt & cy & ->).
Qed.

Lemma account_write_clock d d' : account_write d d' -> same_clock d d'.
Proof. by destruct 1. Qed.

Lemma append_clock ev (w w' : world St) o : appendEvent ev w = (o, w') -> same_clock (w_db w) (w_db w').
Proof. intros H. apply appendEvent_only in H as [(e & v & j & E) _]. by rewrite E. Qed.

Lemma GetBusinessClock_Ret org p (w w' : world St) s :
  GetBusinessClock org p w = (Ret s, w') -> w_db w' = w_db w /\ clock_reported org p (w_db w) s.
Proof.
  unfold GetBusinessClock. destruct (decide (p = "")); [done|]. intros H. cbv zeta in H.
  apply mbindM_Ret_inv in H as (now & w1 & Hn & H). assert (w_db w1 = w_db w) as E1.
  { unfold BusinessNow, mbindM, query in Hn. destruct (business_clock _ _ _); [by injection Hn as _ <-|].
    unfold pgNow in Hn. destruct (w_txnow w); by injection Hn as _ <-. }
  apply mbindM_Ret_inv in H as (row & w2 & Hq & H). apply query_Ret in Hq as [-> ->]. unfold clock_reported.
  unfold GetBusinessClockOverride in H. rewrite E1 in H. destruct (db_clock (w_db w) !! _) as [r|].
  - apply mbindM_Ret_inv in H as (g & w2 & Hg & H). apply mlift_Ret in Hg as [[-> _]%checkedUint64_Ret ->]. by injection H as <- <-.
  - by injection H as <- <-.
Qed.

Lemma reconcile_Ret fuel org p (w w' : world St) s :
  reconcileClockTarget fuel org p w = (Ret s, w') -> same_clock (w_db w) (w_db w') /\ clock_reported org p (w_db w') s.
Proof.
  intros H. unfold reconcileClockTarget in H.
  pose proof (fun w o w' => evolves_run same_clock ledger_grows _ w o w' (ad_due (St := St) same_clock account_step_clock period_write_clock account_write_clock fuel org p)) as Hd.
  pose proof (fun w o w' => evolves_run same_clock ledger_grows _ w o w' (ad_entitlements (St := St) same_clock account_step_clock period_write_clock account_write_clock org p)) as He.
  pose proof (fun w o w' => evolves_run same_clock ledger_grows _ w o w' (ad_deposits (St := St) same_clock account_step_clock period_write_clock account_write_clock org p)) as Hp.
  apply mbindM_Ret_inv in H as (due & w1 & H1 & H). apply Hd in H1 as [H1 _].
  apply mbindM_Ret_inv in H as ([] & w2 & H2 & H). apply He in H2 as [H2 _].
  apply mbindM_Ret_inv in H as (n & w3 & H3 & H). apply Hp in H3 as [H3 _].
  apply mbindM_Ret_inv in H as (st & w4 & H4 & H). injection H as <- <-. apply GetBusinessClock_Ret in H4 as [E4 H4].
  rewrite E4. split; [congruence|]. exact H4.
Qed.

Lemma upsert_clock_Ret org p t g (d d' : DB) :
  UpsertBusinessClockOverride (orgProductClockScope org p) (timestamptz t) d = Ret (g, d') -> clock_set_to org p t d d'.
Proof.
  unfold UpsertBusinessClockOverride, clock_set_to. intros H. apply obind_Ret_inv in H as (now & Hn & H).
  apply not_null_timestamptz in Hn as ->. cbv zeta in H. destruct (i64_max <? _); [done|].
  apply obind_Ret_inv in H as ([] & _ & H). by injection H as <- <-.
Qed.
Lemma clock_set_time org p t wall (d d' : DB) : clock_set_to org p t d d' -> account_time org p wall d' = pg_timestamptz t.
Proof.
  unfold clock_set_to, account_time, business_clock. intros ->. cbv zeta. rewrite lookup_fmap.
  change ("org_product"%string, orgIDText org +:+ ":" +:+ p) with (orgProductClockScope org p). by rewrite lookup_insert_eq.
Qed.

Lemma setClockTx_Ret org p t reason (w w' : world St) :
  setClockTx org p t reason w = (Ret tt, w') -> clock_set_to org p t (w_db w) (w_db w').
Proof.
  intros H. unfold setClockTx in H. cbv zeta in H. apply mbindM_Ret_inv in H as (g & w1 & Hs & H).
  apply statement_Ret, upsert_clock_Ret in Hs. apply mbindM_Ret_inv in H as (now & w2 & Hn & H). injection Hn as _ <-.
  apply append_clock in H. unfold clock_set_to. by rewrite H.
Qed.

Lemma advanceClockTx_Ret org p delta reason wall (w w' : world St) :
  advanceClockTx org p delta reason w = (Ret tt, w') -> w_txnow w = Some wall ->
  clock_set_to org p (account_time org p wall (w_db w) + delta) (w_db w) (w_db w').
Proof.
  intros H Hw. unfold advanceClockTx in H. cbv zeta in H. apply mbindM_Ret_inv in H as (base & w1 & Hb & H).
  destruct (BusinessNow_Ret _ _ _ _ _ _ Hb Hw) as [-> Eb]. subst base. apply mbindM_Ret_inv in H as (locked & w1 & Hl & H).
  apply query_Ret in Hl as [-> ->].
  assert (default (default wall (business_clock (w_db w) (orgIDText org) p))
            (LockBusinessClockOverride (orgProductClockScope org p) (w_db w)) = account_time org p wall (w_db w)) as E.
  { unfold account_time, business_clock, LockBusinessClockOverride. cbv zeta. rewrite !lookup_fmap.
    change ("org_product"%string, orgIDText org +:+ ":" +:+ p) with (orgProductClockScope org p).
    by destruct (db_clock (w_db w) !! orgProductClockScope org p). }
  rewrite E in H. apply mbindM_Ret_inv in H as (g & w1 & Hs & H). apply statement_Ret, upsert_clock_Ret in Hs.
  apply mbindM_Ret_inv in H as (now & w2 & Hn & H). injection Hn as _ <-. apply append_clock in H.
  unfold clock_set_to. by rewrite H.
Qed.

Lemma clearClockTx_Ret org p reason (w w' : world St) :
  clearClockTx org p reason w = (Ret tt, w') -> db_clock (w_db w') = delete (orgProductClockScope org p) (db_clock (w_db w)).
Proof.
  intros H. unfold clearClockTx in H. cbv zeta in H. apply mbindM_Ret_inv in H as ([] & w1 & Hs & H).
  apply statement_Ret in Hs. injection Hs as Hs. apply mbindM_Ret_inv in H as (now & w2 & Hn & H). injection Hn as _ <-.
  apply append_clock in H. rewrite H. by rewrite <- Hs.
Qed.

(** The transaction of a clock request, then the reconciliation. *)
Lemma clock_request {A} (P : DB -> DB -> Prop) (tx : @B St A) fuel org p (w w' : world St) s :
  (exec! WithTx tx; reconcileClockTarget fuel org p) w = (Ret s, w') ->
  (forall w1 w2 a, tx w1 = (Ret a, w2) -> w_txnow w1 = Some (pg_timestamptz (now_at (w_ticks w))) -> P (w_db w1) (w_db w2)) ->
  exists d, P (w_db w) d /\ same_clock d (w_db w') /\ clock_reported org p (w_db w') s.
Proof.
  intros H Hp. apply mbindM_Ret_inv in H as (a & w1 & Htx & H). apply WithTx_Ret in Htx as (w2 & w3 & Htx & E2 & Hn & E3).
  apply Hp in Htx; [|done]. rewrite E2, <- E3 in Htx. apply reconcile_Ret in H as [H1 H2]. exists (w_db w1). by split.
Qed.

(** Administering the clock of an account: setting it makes the given time
    its business time, advancing it makes it the business time it had plus the
    duration, in the next generation of the override; clearing removes the
    override; in each case no other override changes, however much due work
    the request then applies, and the state returned reports the override. *)
Theorem clock_administered fuel org p (w w' : world St) s :
  (forall t reason, SetBusinessClock fuel org p t reason w = (Ret s, w') ->
     clock_set_to org p t (w_db w) (w_db w') /\ (forall wall, account_time org p wall (w_db w') = pg_timestamptz t)
     /\ clock_reported org p (w_db w') s)
  /\ (forall delta reason, AdvanceBusinessClock fuel org p delta reason w = (Ret s, w') ->
     let t := account_time org p (pg_timestamptz (now_at (w_ticks w))) (w_db w) + delta in
     clock_set_to org p t (w_db w) (w_db w') /\ (forall wall, account_time org p wall (w_db w') = pg_timestamptz t)
     /\ clock_reported org p (w_db w') s)
  /\ (forall reason, ClearBusinessClock fuel org p reason w = (Ret s, w') ->
     db_clock (w_db w') = delete (orgProductClockScope org p) (db_clock (w_db w)) /\ bk_HasOverride s = false).
Proof.
  split; [|split].
  - intros t reason H. unfold SetBusinessClock in H. destruct (is_zero t); [done|]. destruct (decide (p = "")); [done|].
    apply (clock_request (clock_set_to org p t)) in H as (d & Hd & E & Hs); [|by intros ? ? [] ? _; eapply setClockTx_Ret].
    assert (clock_set_to org p t (w_db w) (w_db w')) as Hset by (unfold clock_set_to; by rewrite E).
    split; [done|]. split; [|done]. intros wall. by eapply clock_set_time.
  - intros delta reason H. cbv zeta. unfold AdvanceBusinessClock in H. destruct (delta <=? 0); [done|].
    destruct (decide (p = "")); [done|].
    apply (clock_request (fun d d' =>
      clock_set_to org p (account_time org p (pg_timestamptz (now_at (w_ticks w))) d + delta) d d')) in H as (d & Hd & E & Hs);
      [|by intros ? ? [] ? ?; eapply advanceClockTx_Ret].
    assert (clock_set_to org p (account_time org p (pg_timestamptz (now_at (w_ticks w))) (w_db w) + delta) (w_db w) (w_db w'))
      as Hset by (unfold clock_set_to; by rewrite E).
    split; [done|]. split; [|done]. intros wall. by eapply clock_set_time.
  - intros reason H. unfold ClearBusinessClock in H. destruct (decide (p = "")); [done|].
    apply (clock_request (fun d d' => db_clock d' = delete (orgProductClockScope org p) (db_clock d))) in H as (d & Hd & E & Hs);
      [|by intros ? ? [] ? _; eapply clearClockTx_Ret].
    rewrite E. split; [done|]. unfold clock_reported in Hs. rewrite E, Hd, lookup_delete_eq in Hs. tauto.
Qed.
End ClockRuns.

(** ** The reset to the wall clock *)

(** The tables of an account which the reset reads and repairs. *)
Definition repaired_tables (d d' : DB) : Prop :=
  db_cycles d' = db_cycles d /\ db_grants d' = db_grants d /\ db_windows d' = db_windows d /\ db_clock d' = db_clock d.

#[export] Instance repaired_tables_preorder : PreOrder repaired_tables.
Proof. split; [done|]. intros d1 d2 d3 (? & ? & ? & ?) (? & ? & ? & ?). unfold repaired_tables. split_and!; congruence. Qed.

Lemma events_repaired d d' : events_only d d' -> repaired_tables d d'.
Proof. by intros (ev & de & jo & ->). Qed.

Definition owns_cycle (account productID : string) (c : cycleRow) : Prop :=
  cy_org_id c = account /\ cy_product_id c = productID.

(** The cycle [id] is the only open cycle of the account; it is the target,
    and no other cycle of the account that counts overlaps it. *)
Definition repaired_cycles (account productID : string) (t : resetTarget) (id : string) (d d' : DB) : Prop :=
  (exists c, db_cycles d' !! id = Some c /\ cy_status c = CyOpen /\ owns_cycle account productID c
     /\ cy_starts_at c = pg_timestamptz (rt_starts t) /\ cy_ends_at c = pg_timestamptz (rt_ends t)
     /\ cy_cycle_seq c = rt_seq t)
  /\ (forall i c, i <> id -> db_cycles d' !! i = Some c -> owns_cycle account productID c -> cycle_voided c = false ->
        cycle_open c = false
        /\ (cy_ends_at c <= pg_timestamptz (rt_starts t) \/ pg_timestamptz (rt_ends t) <= cy_starts_at c))
  /\ (forall i c, i <> id -> db_cycles d !! i = Some c -> ~ owns_cycle account productID c -> db_cycles d' !! i = Some c).

Lemma update_where_lookup {A} where_ (f : A -> A) m i x :
  update_where where_ f m !! i = Some x -> exists y, m !! i = Some y /\ x = if where_ y then f y else y.
Proof. unfold update_where. rewrite lookup_fmap. destruct (m !! i) as [y|]; [|done]. intros [= <-]. by exists y. Qed.

Lemma update_where_keeps {A} where_ (f : A -> A) m i x :
  m !! i = Some x -> where_ x = false -> update_where where_ f m !! i = Some x.
Proof. intros H E. unfold update_where. by rewrite lookup_fmap, H; simpl; rewrite E. Qed.

Lemma closable_recurring org p s e d g : recurring_source (g_source g) = false -> closableGrant org p s e d g = false.
Proof. unfold closableGrant. intros ->. by rewrite !andb_false_r. Qed.

Lemma reopenable_recurring org p s e d g : recurring_source (g_source g) = false -> reopenableGrant org p s e d g = false.
Proof. unfold reopenableGrant. intros ->. by rewrite !andb_false_r. Qed.

Lemma resetCycle_owner account p s e c : resetCycle account p s e c = true -> owns_cycle account p c.
Proof. unfold resetCycle. intros H. zbool. by repeat match goal with H : bool_decide _ = true |- _ => apply bool_decide_eq_true in H end. Qed.

(** A cycle of the account that is still valid after the sweep is closed and
    disjoint from the target. *)
Lemma survives_sweep account p s e now c c' :
  c' = (if resetCycle account p s e c then voidedCycle now c else c) -> owns_cycle account p c' -> cycle_voided c' = false ->
  cycle_open c' = false /\ (cy_ends_at c' <= s \/ e <= cy_starts_at c').
Proof.
  destruct (resetCycle account p s e c) eqn:Hr; intros -> [Ho Hp] Hv; [done|].
  unfold resetCycle in Hr. rewrite (bool_decide_eq_true_2 _ Ho), (bool_decide_eq_true_2 _ Hp), Hv in Hr. simpl in Hr.
  apply orb_false_iff in Hr as [-> Hr]. split; [done|]. destruct (cy_starts_at c <? e) eqn:E; simpl in Hr; zbool; lia.
Qed.

Lemma resetTarget_contains paid wall :
  let t := resetTargetOf paid wall in
  (wp_ok paid = true -> wall < wp_anchorAt paid + 28 * 2401 * day_ns) -> rt_starts t <= wall < rt_ends t.
Proof.
  cbv zeta. intros Hw. unfold resetTargetOf. destruct (wp_ok paid).
  - pose proof (Hw eq_refl) as Hl. cbv zeta. destruct (cycleBoundsContaining _ _ _) as [[s e] n] eqn:E. cbn [rt_starts rt_ends].
    refine (proj1 (cycle_bounds_contain _ _ _ _ _ _ E (or_intror _))). destruct (_ || _) in |- *; [|exact Hl]. change (28 * 2401 * day_ns) with 5808499200000000000. lia.
  - cbn [rt_starts rt_ends]. rewrite monthStartUTC_eq, nextMonth_eq. apply month_start_bounds.
Qed.

Section ResetRuns.
Context {St : Type} `{HE : Env} `{HD : Digest} `{HC : TBCodec} `{!TigerBeetle St} `{!PeriodWork St}.

Lemma shift_repaired paid wall (w w' : world St) :
  shiftActiveContractToWallClockTx paid wall w = (Ret tt, w') -> repaired_tables (w_db w) (w_db w').
Proof.
  intros H. apply mbindM_Ret_inv in H as ([] & w1 & H1 & H). apply statement_Ret, exec_row_Ret in H1.
  apply statement_Ret, exec_row_Ret in H. transitivity (w_db w1).
  - by destruct H1 as [[_ ->]|(c & _ & (_ & _ & _ & ->)%put_row_Ret)].
  - by destruct H as [[_ ->]|(p & _ & (_ & _ & _ & ->)%put_row_Ret)].
Qed.

Lemma insertWallClockResetCycleTx_Ret org p t wall (w w' : world St) c :
  insertWallClockResetCycleTx org p t wall w = (Ret c, w') ->
  open_cycles (orgIDText org) p (w_db w) = [] ->
  (forall old, db_cycles (w_db w) !! bc_CycleID c = Some old -> owns_cycle (orgIDText org) p old) ->
  bc_CycleID c = cycleID org p (rt_starts t) /\
  exists row, repaired_tables (set_cycles (<[bc_CycleID c := row]> (db_cycles (w_db w))) (w_db w)) (w_db w')
    /\ cy_status row = CyOpen /\ owns_cycle (orgIDText org) p row /\ cy_starts_at row = pg_timestamptz (rt_starts t)
    /\ cy_ends_at row = pg_timestamptz (rt_ends t) /\ cy_cycle_seq row = rt_seq t.
Proof.
  intros H Hopen Hown. unfold insertWallClockResetCycleTx in H. cbv zeta in H. apply mbindM_Ret_inv in H as (n & w1 & Hu & H).
  apply upsertCycleTx_Ret in Hu as [(-> & -> & _)|(-> & _ & row & E & Hst & Hs & He & _ & Hq & _ & Hn & Ho)].
  - change (0 =? 0) with true in H. apply mbindM_Ret_inv in H as (ex & w2 & Hex & H). destruct ex as [c1|]; [|done].
    apply openBillingCycleContainingTx_covers in Hex as [_ (row & Hl & Hop & Hg & Hp & _)]. exfalso.
    enough ((bc_CycleID c1, row) ∈ open_cycles (orgIDText org) p (w_db w)) as Hin by (rewrite Hopen in Hin; by apply elem_of_nil in Hin).
    unfold open_cycles. rewrite list_elem_of_filter. split; [done|]. by apply elem_of_map_to_list.
  - change (1 =? 0) with false in H. apply mbindM_Ret_inv in H as ([] & w2 & Hev & H). apply appendEvent_only in Hev as [Hev _].
    injection H as <- <-. cbn [bc_CycleID bc_StartsAt bc_EndsAt bc_CycleSeq] in *. split; [done|]. exists row.
    rewrite <- E. split; [by apply events_repaired|]. split_and!; try done.
    unfold owns_cycle. destruct (db_cycles (w_db w) !! _) as [old|].
    + destruct (Ho old eq_refl) as (_ & -> & ->). by apply Hown.
    + by destruct (Hn eq_refl) as (-> & -> & _).
Qed.

(** The sweep leaves the account without an open cycle. *)
Lemma sweep_closes_all account p s e now (d : DB) d1 ids :
  VoidCyclesForWallClockReset account p s e now d = Ret (ids, d1) -> open_cycles account p d1 = [].
Proof.
  intros H. injection H as _ <-. unfold open_cycles. destruct (filter _ _) as [|[i c] l] eqn:E; [done|]. exfalso.
  assert ((i, c) ∈ (i, c) :: l) as Hin by constructor. rewrite <- E, list_elem_of_filter in Hin.
  destruct Hin as [(Ho & Hp & Hop) Hin]. simpl in *. apply elem_of_map_to_list, update_where_lookup in Hin as (y & _ & Hy).
  assert (cycle_voided c = false) as Hv by (unfold cycle_open in Hop; unfold cycle_voided; by destruct (cy_status c)).
  destruct (survives_sweep _ _ _ _ _ _ _ Hy (conj Ho Hp) Hv) as [Hn _]. congruence.
Qed.

Lemma repairTargetTx_Ret org p t wall previous (w w' : world St) r :
  let account := orgIDText org in let s := pg_timestamptz (rt_starts t) in let e := pg_timestamptz (rt_ends t) in
  repairTargetTx org p t wall previous w = (Ret r, w') ->
  (forall old, db_cycles (w_db w) !! rp_CurrentCycleID r = Some old -> owns_cycle account p old) ->
  rp_PreviousBusinessNow r = previous /\ db_clock (w_db w') = db_clock (w_db w)
  /\ rp_CurrentCycleID r = cycleID org p (rt_starts t)
  /\ repaired_cycles account p t (rp_CurrentCycleID r) (w_db w) (w_db w')
  /\ (forall i g, db_grants (w_db w) !! i = Some g -> recurring_source (g_source g) = false -> db_grants (w_db w') !! i = Some g)
  /\ db_windows (w_db w') = update_where (reassignableWindow account p (rp_CurrentCycleID r) s e)
       (with_cycle (rp_CurrentCycleID r)) (db_windows (w_db w)).
Proof.
  cbv zeta. intros H Hown. unfold repairTargetTx in H. cbv zeta in H.
  apply mbindM_Ret_inv in H as (voided & w1 & H1 & H). apply statement_Ret in H1. pose proof (sweep_closes_all _ _ _ _ _ _ _ _ H1) as Hc.
  apply mbindM_Ret_inv in H as (closed & w2 & H2 & H). apply statement_Ret in H2.
  apply mbindM_Ret_inv in H as ([] & w3 & H3 & H). apply statement_Ret in H3.
  apply mbindM_Ret_inv in H as ([] & w4 & H4 & H). apply statement_Ret in H4.
  apply mbindM_Ret_inv in H as ([] & w5 & H5 & H). apply statement_Ret in H5.
  apply mbindM_Ret_inv in H as (c & w6 & H6 & H). apply mbindM_Ret_inv in H as (rea & w7 & H7 & H). apply statement_Ret in H7.
  injection H as <- <-. cbn [rp_PreviousBusinessNow rp_CurrentCycleID] in *.
  injection H1 as _ E1. injection H2 as _ E2. injection H3 as E3. injection H4 as E4. injection H5 as E5. injection H7 as _ E7.
  assert (Ecy : db_cycles (w_db w5) = update_where (resetCycle (orgIDText org) p (pg_timestamptz (rt_starts t))
    (pg_timestamptz (rt_ends t))) (voidedCycle (pg_timestamptz wall)) (db_cycles (w_db w))) by by rewrite <- E5, <- E4, <- E3, <- E2, <- E1.
  assert (Ewin : db_windows (w_db w5) = db_windows (w_db w)) by by rewrite <- E5, <- E4, <- E3, <- E2, <- E1.
  assert (Eclk : db_clock (w_db w5) = db_clock (w_db w)) by by rewrite <- E5, <- E4, <- E3, <- E2, <- E1.
  assert (Hgr : forall i g, db_grants (w_db w) !! i = Some g -> recurring_source (g_source g) = false ->
    db_grants (w_db w5) !! i = Some g).
  { intros i g Hg Hr. rewrite <- E5. apply update_where_keeps; [|by apply reopenable_recurring].
    rewrite <- E4, <- E3. rewrite <- E2. apply update_where_keeps; [|by apply closable_recurring]. by rewrite <- E1. }
  apply insertWallClockResetCycleTx_Ret in H6 as (Eid & row & (Rcy & Rgr & Rwin & Rclk) & Hst & Hro & Hs & He & Hq).
  - rewrite <- E7. simpl in *. rewrite Rwin, Rclk, Rgr, Ewin, Eclk. split_and!; try done.
    split; [|split].
    + exists row. simpl. rewrite Rcy. simpl. by rewrite lookup_insert_eq.
    + intros i c' Hi Hl. simpl in Hl. rewrite Rcy in Hl. simpl in Hl.
      rewrite lookup_insert_ne, Ecy in Hl by congruence.
      apply update_where_lookup in Hl as (y & _ & Hy). by eapply survives_sweep.
    + intros i c' Hi Hl Ho. simpl. rewrite Rcy. simpl. rewrite lookup_insert_ne, Ecy by congruence. apply update_where_keeps; [done|].
      apply not_true_is_false. intros Hr. by apply resetCycle_owner in Hr.
  - revert Hc. unfold open_cycles. rewrite <- E5, <- E4, <- E3, <- E2. done.
  - intros old Ho. rewrite Ecy in Ho. apply update_where_lookup in Ho as (y & Hy & ->). pose proof (Hown _ Hy) as Hy'.
    by destruct (resetCycle _ _ _ _ y).
Qed.
End ResetRuns.

Section Reset.
Context {St : Type} `{HE : Env} `{HD : Digest} `{HC : TBCodec} `{!TigerBeetle St} `{!PeriodWork St}.

Lemma paid_phase_Ret org p wall (w w' : world St) paid :
  activePaidPhaseForWallClockResetTx org p wall w = (Ret paid, w') -> w' = w.
Proof.
  intros H. apply mbindM_Ret_inv in H as (row & w1 & Hq & H). apply query_Ret in Hq as [_ ->].
  destruct row as [[[id ph] s]|]; by injection H as _ <-.
Qed.

(** C31: The reset to the wall clock removes the override of the account and
    leaves it exactly one open cycle, the one reported: the interval of the
    target, the anniversary of the paid contract or else the calendar month,
    which contains the wall clock.  Every other cycle of the account still
    valid is closed and disjoint from it, no cycle of another account and no
    grant that is not a recurring entitlement changes, and the windows that
    started in the target are the ones moved to its cycle. *)
Theorem reset_repairs org p reason wall (w w' : world St) r :
  let account := orgIDText org in let scope := orgProductClockScope org p in let current := rp_CurrentCycleID r in
  resetClockTx org p reason wall w = (Ret r, w') ->
  (forall old, db_cycles (w_db w) !! current = Some old -> owns_cycle account p old) ->
  exists paid, let t := resetTargetOf paid wall in
    (activePaidPhaseForWallClockResetTx org p wall w).1 = Ret paid /\ current = cycleID org p (rt_starts t)
    /\ ((wp_ok paid = true -> wall < wp_anchorAt paid + 28 * 2401 * day_ns) -> rt_starts t <= wall < rt_ends t)
    /\ repaired_cycles account p t current (w_db w) (w_db w')
    /\ db_clock (w_db w') = delete scope (db_clock (w_db w))
    /\ rp_PreviousBusinessNow r = clk_business_now <$> db_clock (w_db w) !! scope
    /\ (forall i g, db_grants (w_db w) !! i = Some g -> recurring_source (g_source g) = false -> db_grants (w_db w') !! i = Some g)
    /\ (forall i v, db_windows (w_db w) !! i = Some v -> db_windows (w_db w') !! i = Some
          (if reassignableWindow account p current (pg_timestamptz (rt_starts t)) (pg_timestamptz (rt_ends t)) v
           then with_cycle current v else v)).
Proof.
  cbv zeta. intros H Hown. unfold resetClockTx in H. cbv zeta in H.
  apply mbindM_Ret_inv in H as (prev & w1 & H1 & H). apply query_Ret in H1 as [-> ->].
  apply mbindM_Ret_inv in H as ([] & w1 & H1 & H). apply statement_Ret in H1. injection H1 as E1.
  apply mbindM_Ret_inv in H as (paid & w2 & Hp & H). pose proof (paid_phase_Ret _ _ _ _ _ _ Hp) as ->.
  apply mbindM_Ret_inv in H as ([] & w3 & H3 & H).
  assert (repaired_tables (w_db w1) (w_db w3)) as (Ecy & Egr & Ewi & Ecl).
  { destruct (wp_ok paid); [by apply shift_repaired in H3|by injection H3 as <-]. }
  apply mbindM_Ret_inv in H as (r' & w4 & H4 & H). apply mbindM_Ret_inv in H as ([] & w5 & H5 & H). injection H as -> ->.
  apply appendEvent_only in H5 as [(Rcy & Rgr & Rwi & Rcl)%events_repaired _].
  rewrite <- E1 in Ecy, Egr, Ewi, Ecl. simpl in Ecy, Egr, Ewi, Ecl.
  apply repairTargetTx_Ret in H4 as (Hprev & Hcl & Hid & (Hc1 & Hc2 & Hc3) & Hg & Hwi); [|by rewrite Ecy].
  exists paid. rewrite Rgr, Rwi, Rcl, Hcl, Ecl, Hwi, Ewi.
  split; [|split; [exact Hid|split; [apply resetTarget_contains|]]].
  { revert Hp. unfold activePaidPhaseForWallClockResetTx, mbindM, query.
    replace (w_db w1) with (set_clock (delete (orgProductClockScope org p) (db_clock (w_db w))) (w_db w)) by exact E1.
    change (GetActivePaidPhaseForWallClockReset ?a ?b ?c (set_clock ?m ?d)) with (GetActivePaidPhaseForWallClockReset a b c d).
    destruct (GetActivePaidPhaseForWallClockReset _ _ _ _) as [[[i ph] s]|]; by intros [= <-]. }
  rewrite Egr in Hg. rewrite Ecy in Hc3. split_and!; try done.
  - unfold repaired_cycles. rewrite Rcy. done.
  - intros i v Hv. unfold update_where. by rewrite lookup_fmap, Hv.
Qed.
End Reset.

(** ** The clock on the contract run

    The organisation that bought the smaller plan moves its clock two months
    ahead, which rolls two cycles over, and goes back to the wall clock. *)

Import RefLedger Sample.

#[local] Abbreviation in_january := (SetBusinessClock 10 org product (go_date 2024 1 20 0) "demo" : @B state BusinessClockState).
#[local] Abbreviation c0 := ((in_january k1).2).
#[local] Abbreviation back := (resetClockTx org product "demo over" base_time : @B state BusinessClockRepairSummary).
#[local] Abbreviation c1 := ((back c0).2).

Lemma c0_run : exists s, in_january k1 = (Ret s, c0).
Proof. apply (run_ok in_january k1). vm_compute. reflexivity. Qed.

Lemma clock_administered_witness :
  exists s, clock_set_to org product (go_date 2024 1 20 0) (w_db k1) (w_db c0)
    /\ (forall wall, account_time org product wall (w_db c0) = pg_timestamptz (go_date 2024 1 20 0))
    /\ clock_reported org product (w_db c0) s.
Proof.
  destruct c0_run as [s Hrun]. exists s.
  exact (proj1 (clock_administered 10 org product k1 c0 s) (go_date 2024 1 20 0) "demo" Hrun).
Defined.

Lemma c1_run : exists r, back c0 = (Ret r, c1).
Proof. apply (run_ok back c0). vm_compute. reflexivity. Qed.

Definition account_cycle (d : DB) (id : string) : bool :=
  match db_cycles d !! id with
  | Some c => bool_decide (cy_org_id c = orgIDText org) && bool_decide (cy_product_id c = product)
  | None => true
  end.

Lemma account_cycle_spec d id old : account_cycle d id = true -> db_cycles d !! id = Some old -> owns_cycle (orgIDText org) product old.
Proof. unfold account_cycle. intros H Hl. rewrite Hl in H. apply andb_prop in H as [Ho%bool_decide_eq_true Hp%bool_decide_eq_true]. by split. Qed.

Lemma c0_owned r : back c0 = (Ret r, c1) -> account_cycle (w_db c0) (rp_CurrentCycleID r) = true.
Proof.
  intros H. assert (r = ret_or noRepair (back c0).1) as -> by (rewrite H; reflexivity). vm_compute. reflexivity.
Qed.

Lemma reset_repairs_witness :
  exists r paid, repaired_cycles (orgIDText org) product (resetTargetOf paid base_time) (rp_CurrentCycleID r) (w_db c0) (w_db c1).
Proof.
  destruct c1_run as [r Hrun].
  destruct (reset_repairs org product "demo over" base_time c0 c1 r Hrun
              (fun old => account_cycle_spec _ _ old (c0_owned r Hrun))) as (paid & _ & _ & _ & H & _).
  exists r, paid. exact H.
Defined.

(** A cycle finalized ahead of the wall clock stays as it is, with the
    identifier the successor of the target will need. *)
Definition after_target : string := cycleID org product (bc_EndsAt november).

Lemma reset_keeps_later_cycle :
  match db_cycles (w_db c1) !! after_target with
  | Some c => bool_decide (cy_status c = CyFinalized) && (base_time <? cy_starts_at c)
  | None => false
  end = true.
Proof. vm_compute. reflexivity. Qed.

(** So, once that time comes, the target rolls over without a successor. *)
Definition c2 : world state := (SetBusinessClock 10 org product (go_date 2023 12 20 0) "the time comes" c1).2.

Lemma reset_blocks_successor :
  omap (fun kv => if cycle_open kv.2 then Some (cy_starts_at kv.2, cy_ends_at kv.2) else None)
    (map_to_list (db_cycles (w_db c2))) = [].
Proof. vm_compute. reflexivity. Qed.
