(* ===== verification/StripeTheorems.v ===== *)
(** * Theorems on the Stripe integration

    The life cycle of a recorded webhook event along every execution of the
    service, what applying one event does, how an upgrade is collected, and
    the way of the credits a customer pays for. *)

From stdpp Require Import relations.
From S2P Require Import Prelude GoFloat GoStd GoTime GoFormat GoURL Json Types StripeApi Ids Ledger Charges Grants.
From S2P Require Import Store.
From S2P Require Import Events LedgerCommands LedgerGrants Cycles Entitlements ContractStore.
From S2P Require Import DocumentStore.
From S2P Require Import DueChanges WindowStore Windows Statements Finalizations Dispatcher Contracts Catalog.
From S2P Require Import EntitlementsView.
From S2P Require Import Clock StripeStore Stripe ContractRequests Runtime Samples Frames PeriodSystem ContractSystem.
From S2P Require Import AdminFrames Legs WindowInv PrepareTx ReserveTx WindowSystem Service.
From S2P Require Import ContractRuns Settlement SampleRun CycleTheorems EntitlementTheorems DueWorkTheorems ContractRun.

(** ** The life cycle of a provider event *)

Inductive event_state_step : providerEventState -> providerEventState -> Prop :=
| ev_claim s : event_waiting s = true -> event_state_step s PvApplying
| ev_apply : event_state_step PvApplying PvApplied
| ev_ignore : event_state_step PvApplying PvIgnored
| ev_retry : event_state_step PvApplying PvFailed
| ev_bury : event_state_step PvApplying PvDeadLetter
| ev_redeliver s : event_closed s = false -> event_state_step s PvReceived.

(** What the first delivery of a webhook fixes; the payload is the last one
    delivered and the product the first one named. *)
Definition event_identity (e : providerEventRow) :=
  (pv_provider_event_id e, pv_provider e, pv_event_type e, pv_provider_object_type e, pv_provider_object_id e,
   pv_provider_customer_id e, pv_provider_invoice_id e, pv_provider_payment_intent_id e, pv_contract_id e, pv_change_id e,
   pv_finalization_id e, pv_document_id e, pv_org_id e, pv_received_at e, pv_provider_created_at e, pv_livemode e).

(** How far it has been applied. *)
Definition event_progress (e : providerEventRow) :=
  (pv_state e, pv_attempts e, pv_next_attempt_at e, pv_applied_at e, pv_last_error e).

Definition event_le (e e' : providerEventRow) : Prop :=
  event_identity e' = event_identity e /\ rtc event_state_step (pv_state e) (pv_state e')
  /\ pv_attempts e <= pv_attempts e'
  /\ (event_closed (pv_state e) = true -> event_progress e' = event_progress e).

Lemma event_state_final s s' : rtc event_state_step s s' -> event_closed s = true -> s' = s.
Proof.
  intros [|s1 s2 s3 Hs _] Hc; [done|]. destruct Hs as [x Hw| | | | |x Hn]; [by destruct x|done..|congruence].
Qed.

#[export] Instance event_le_preorder : PreOrder event_le.
Proof.
  split; [intros e; repeat split; [constructor|lia]|]. intros e1 e2 e3 (I1 & S1 & A1 & C1) (I2 & S2 & A2 & C2).
  split; [congruence|]. split; [by etrans|]. split; [lia|]. intros H. rewrite C2; [by apply C1|].
  specialize (C1 H). injection C1 as E _ _ _ _. by rewrite E.
Qed.

Definition events_history (d d' : DB) : Prop :=
  forall id e, provider_events_of d !! id = Some e -> exists e', provider_events_of d' !! id = Some e' /\ event_le e e'.

#[export] Instance events_history_preorder : PreOrder events_history.
Proof.
  split; [intros d id e H; by exists e|]. intros d1 d2 d3 H1 H2 id e H.
  destruct (H1 _ _ H) as (e2 & Hd2 & L1). destruct (H2 _ _ Hd2) as (e3 & Hd3 & L2). exists e3. split; [done|by etrans].
Qed.

(** The bookkeeping of an event in each state. *)
Definition event_ok (e : providerEventRow) : Prop :=
  match pv_state e with
  | PvReceived => 0 <= pv_attempts e
  | PvQueued => False
  | PvApplying => 1 <= pv_attempts e
  | PvApplied | PvIgnored => 1 <= pv_attempts e /\ is_Some (pv_applied_at e)
  | PvFailed => 1 <= pv_attempts e < 25 /\ is_Some (pv_next_attempt_at e)
  | PvDeadLetter => 25 <= pv_attempts e
  end.

Definition events_ok (d : DB) : Prop :=
  table_ok provider_event_checks provider_events_conflict (provider_events_of d)
  /\ map_Forall (fun _ e => event_ok e) (provider_events_of d).

Lemma provider_events_conflict_sym x y : provider_events_conflict x y = provider_events_conflict y x.
Proof. unfold provider_events_conflict. by rewrite (bool_decide_sym (pv_provider x)), (bool_decide_sym (pv_provider_event_id x)). Qed.

(** Both together, as what every handler respects. *)
Definition events_step (d d' : DB) : Prop := events_history d d' /\ (events_ok d -> events_ok d').

#[export] Instance events_step_preorder : PreOrder events_step.
Proof. split; [by intros d; split|]. intros d1 d2 d3 [H1 K1] [H2 K2]. split; [by etrans|auto]. Qed.

Lemma events_step_same d d' : provider_events_of d' = provider_events_of d -> events_step d d'.
Proof. intros E. split; [intros id e H; exists e; by rewrite E|]. unfold events_ok. by rewrite E. Qed.

Lemma put_event_step id e d d' :
  put_provider_event id e d = Ret d' ->
  (forall old, provider_events_of d !! id = Some old -> event_le old e) ->
  (events_ok d -> event_ok e) -> events_step d d'.
Proof.
  intros (Hid & Hc & Hn & ->)%put_row_Ret Hle Hok. split.
  - intros i x Hi. destruct (decide (i = id)) as [->|Hne].
    + exists e. split; [apply lookup_insert_eq|by apply Hle].
    + exists x. split; [|done]. unfold provider_events_of at 1. simpl. by rewrite lookup_insert_ne.
  - intros HO. specialize (Hok HO). destruct HO as [T O]. split; simpl.
    + by apply table_put; [apply provider_events_conflict_sym|..].
    + by apply map_Forall_insert_2.
Qed.

Lemma conflicting_Some {A} same (row : A) m id x : conflicting same row m = Some (id, x) -> m !! id = Some x /\ same row x = true.
Proof.
  unfold conflicting. intros H. destruct (filter _ _) as [|kv l] eqn:E; [done|]. injection H as ->.
  assert ((id, x) ∈ filter (fun kv => same row kv.2 = true) (map_to_list m)) as Hin by (rewrite E; constructor).
  apply list_elem_of_filter in Hin as [Hs Hin]. by apply elem_of_map_to_list in Hin.
Qed.

Lemma event_with_le e payload product st attempts next applied err :
  rtc event_state_step (pv_state e) st -> pv_attempts e <= attempts -> event_closed (pv_state e) = false ->
  event_le e (provider_event_with payload product st attempts next applied err e).
Proof. intros Hs Ha Hc. split; [done|]. split; [done|]. split; [done|]. by rewrite Hc. Qed.

Lemma waiting_not_closed s : event_waiting s = true -> event_closed s = false.
Proof. by destruct s. Qed.

Lemma event_stmt_step A (f : DB -> res (A * DB)) d a d' : event_stmt A f -> f d = Ret (a, d') -> events_step d d'.
Proof.
  destruct 1 as [id row Hs Ha|id|id st t Hst|id err t]; intros H.
  - unfold InsertStripeProviderEvent, upsert_row in H. apply obind_Ret_inv in H as ([] & _ & H).
    destruct (conflicting _ _ _) as [[i old]|] eqn:Ec.
    + apply conflicting_Some in Ec as [Hold _]. inv_ret. eapply put_event_step; [eassumption|..].
      * intros old' Ho. rewrite Hold in Ho. injection Ho as <-. destruct (event_closed (pv_state old)) eqn:Hc.
        -- repeat split; [simpl; constructor|simpl; lia].
        -- apply event_with_le; [by apply rtc_once, ev_redeliver|lia|done].
      * intros [_ HO]. apply (map_Forall_lookup_1 _ _ _ _ HO) in Hold. unfold event_ok in *. simpl.
        destruct (pv_state old) eqn:Es; simpl; rewrite ?bool_decide_true by (rewrite !elem_of_cons; tauto); simpl; try lia; done.
    + destruct (provider_events_of d !! id) eqn:Ei; [done|]. inv_ret. eapply put_event_step; [eassumption|by rewrite Ei|].
      intros _. unfold event_ok. rewrite Hs. lia.
  - unfold ClaimProviderEvent in H. destruct (provider_events_of d !! id) as [e|] eqn:Ee; [|by inv_ret].
    destruct (event_waiting (pv_state e)) eqn:Hw; [|by inv_ret]. inv_ret. eapply put_event_step; [eassumption|..].
    + intros old Ho. rewrite Ee in Ho. injection Ho as <-.
      apply event_with_le; [by apply rtc_once, ev_claim|lia|by apply waiting_not_closed].
    + intros [_ HO]. apply (map_Forall_lookup_1 _ _ _ _ HO) in Ee. unfold event_ok in *. simpl. destruct (pv_state e); try done; lia.
  - unfold MarkProviderEventFinal in H. destruct (provider_events_of d !! id) as [e|] eqn:Ee; [|by inv_ret].
    case_decide as Hs; [|by inv_ret]. inv_ret. eapply put_event_step; [eassumption|..].
    + intros old Ho. rewrite Ee in Ho. injection Ho as <-.
      apply event_with_le; [|lia|by rewrite Hs]. rewrite Hs. apply rtc_once. destruct Hst as [-> | ->]; constructor.
    + intros [_ HO]. apply (map_Forall_lookup_1 _ _ _ _ HO) in Ee. unfold event_ok in *. simpl. rewrite Hs in Ee.
      destruct Hst as [-> | ->]; by split.
  - unfold FailProviderEvent, exec_rows, update_row in H. destruct (provider_events_of d !! id) as [e|] eqn:Ee; [|by inv_ret].
    destruct (bool_decide _) eqn:Hs; [|by inv_ret]. apply bool_decide_eq_true in Hs. inv_ret. eapply put_event_step; [eassumption|..].
    + intros old Ho. rewrite Ee in Ho. injection Ho as <-.
      apply event_with_le; [|lia|by rewrite Hs]. rewrite Hs. apply rtc_once. destruct (_ <=? _); constructor.
    + intros [_ HO]. apply (map_Forall_lookup_1 _ _ _ _ HO) in Ee. unfold event_ok in *. simpl. rewrite Hs in Ee.
      destruct (Z.leb_spec 25 (pv_attempts e)); [done|]. split; [lia|]. by eexists.
Qed.

(** ** What applying an event does to its row *)

Definition same_events (d d' : DB) : Prop := provider_events_of d' = provider_events_of d.

#[export] Instance same_events_preorder : PreOrder same_events.
Proof. split; [done|]. unfold same_events. congruence. Qed.

Lemma elsewhere_events d d' : elsewhere d d' -> same_events d d'.
Proof. intros (_ & _ & _ & E). unfold same_events, provider_events_of. by rewrite E. Qed.

Lemma period_write_events d d' : period_write d d' -> same_events d d'.
Proof.
  intros (A & f & a & Hf & H). destruct (period_stmt_only _ _ Hf) as [Hw|Hw]; apply Hw in H.
  - by destruct H as (kt & ->).
  - by destruct H as (dt & cy & ->).
Qed.

Lemma account_write_events d d' : account_write d d' -> same_events d d'.
Proof. by destruct 1. Qed.

(** Rewriting a row of a sound table without touching its key succeeds. *)
Lemma put_row_same_key {A} checks (conflict : A -> A -> bool) set (m : gmap string A) id x y d :
  table_ok checks conflict m -> m !! id = Some x -> checks y = true -> (forall z, conflict y z = conflict x z) ->
  put_row checks conflict set m id y d = Ret (set (<[id := y]> m) d).
Proof.
  intros [H1 H2] Hx Hy Hk. unfold put_row. destruct (map_Forall_lookup_1 _ _ _ _ H1 Hx) as [Hid _].
  rewrite (bool_decide_false _ Hid), Hy. simpl.
  destruct (conflicts conflict id y m) eqn:Ec; [|done]. exfalso. unfold conflicts in Ec.
  apply existsb_exists in Ec as ([i z] & Hin & Hc). apply list_elem_of_In, elem_of_map_to_list in Hin. simpl in Hc.
  apply andb_true_iff in Hc as [Hi Hc]. rewrite negb_true_iff, bool_decide_eq_false in Hi.
  by rewrite Hk, (H2 id i x z) in Hc by (done || congruence).
Qed.

(** The event of [d] in [d'], one attempt later and in a given state. *)
Definition attempted (id : string) (e : providerEventRow) (st : providerEventState) (d' : DB) : Prop :=
  exists e', provider_events_of d' !! id = Some e' /\ event_identity e' = event_identity e
    /\ pv_payload e' = pv_payload e /\ pv_attempts e' = pv_attempts e + 1 /\ pv_state e' = st.

Section Apply.
Context {St : Type} `{HE : Env} `{HD : Digest} `{HC : TBCodec} `{!TigerBeetle St} `{HS : StripeAPI} `{HU : NetURL}.

Lemma append_events ev (w w' : world St) a : appendEvent ev w = (Ret a, w') -> same_events (w_db w) (w_db w').
Proof. intros H. apply appendEvent_only in H as [(e & v & j & E) _]. by rewrite E. Qed.

Lemma claim_Ret id (d d' : DB) payload e :
  ClaimProviderEvent id d = Ret (Some payload, d') -> provider_events_of d !! id = Some e ->
  payload = pv_payload e /\ event_waiting (pv_state e) = true
  /\ provider_events_of d' !! id
     = Some (provider_event_with (pv_payload e) (pv_product_id e) PvApplying (pv_attempts e + 1) None (pv_applied_at e) "" e).
Proof.
  intros H He. unfold ClaimProviderEvent in H. rewrite He in H. destruct (event_waiting (pv_state e)); [|done].
  apply obind_Ret_inv in H as (d1 & Hp & H). injection H as <- <-. apply put_row_Ret in Hp as (_ & _ & _ & ->).
  split; [done|]. split; [done|]. apply lookup_insert_eq.
Qed.

Lemma markFinal_Ret id st e (w w' : world St) :
  markProviderEventFinal id st w = (Ret tt, w') -> provider_events_of (w_db w) !! id = Some e -> pv_state e = PvApplying ->
  exists t, provider_events_of (w_db w') !! id
     = Some (provider_event_with (pv_payload e) (pv_product_id e) st (pv_attempts e) (pv_next_attempt_at e) (Some t) "" e).
Proof.
  intros H He Hs. unfold markProviderEventFinal in H. apply mbindM_Ret_inv in H as (t & w1 & Hn & H).
  assert (w_db w1 = w_db w) as E1. { unfold pgNow in Hn. destruct (w_txnow w); by injection Hn as _ <-. }
  apply mbindM_Ret_inv in H as (row & w2 & Hm & H). apply statement_Ret in Hm. rewrite E1 in Hm.
  unfold MarkProviderEventFinal in Hm. rewrite He, decide_True in Hm by done.
  apply obind_Ret_inv in Hm as (d1 & Hp & Hm). injection Hm as <- Hd. apply put_row_Ret in Hp as (_ & _ & _ & ->).
  exists t. assert (same_events (w_db w2) (w_db w')) as Hsame.
  { apply mbindM_Ret_inv in H as (org & w3 & Ho & H). apply mlift_Ret in Ho as [_ ->].
    destruct (decide _); [by injection H as <-|]. apply WithTx_Ret in H as (w3 & w4 & H & E3 & _ & ->).
    apply mbindM_Ret_inv in H as (wall & w5 & Hw & H). injection Hw as _ <-. apply append_events in H. by rewrite <- E3. }
  rewrite Hsame, <- Hd. apply lookup_insert_eq.
Qed.

Lemma fail_outcome id cause e (w w' : world St) o :
  ignoreError (failProviderEvent id cause) w = (o, w') -> events_ok (w_db w) ->
  provider_events_of (w_db w) !! id = Some e -> pv_state e = PvApplying ->
  exists next, provider_events_of (w_db w') !! id
    = Some (provider_event_with (pv_payload e) (pv_product_id e) (if 25 <=? pv_attempts e then PvDeadLetter else PvFailed)
              (pv_attempts e) next (pv_applied_at e) (errorText cause) e).
Proof.
  intros H [HT _] He Hs. unfold ignoreError, failProviderEvent, mbindM in H.
  destruct (pgNow w) as [[t|err|] w1] eqn:Hn; [|by unfold pgNow in Hn; destruct (w_txnow w)..].
  assert (w_db w1 = w_db w) as E1. { unfold pgNow in Hn. destruct (w_txnow w); by injection Hn as _ <-. }
  unfold statement, FailProviderEvent, exec_rows, update_row in H. rewrite E1, He, Hs, bool_decide_true in H by done.
  destruct (map_Forall_lookup_1 _ _ _ _ (proj1 HT) He) as [_ Hck].
  unfold put_provider_event in H. rewrite (put_row_same_key _ _ _ _ _ e) in H; [|done..].
  simpl in H. injection H as _ <-. simpl. eexists. apply lookup_insert_eq.
Qed.

Lemma handler_same_events fuel type handle ev (w : world St) :
  eventHandler fuel type = Some handle -> same_events (w_db w) (w_db (applyEvent handle ev w).2).
Proof.
  intros H. assert (evolves same_events ledger_grows (applyEvent handle ev : @B St _)) as Hev; [|exact (proj1 (Hev w))].
  eapply applyEvent_evolves; [apply _|..|exact H].
  - intros d d' [_ Hd]. by apply elsewhere_events.
  - apply period_write_events.
  - apply account_write_events.
Qed.

(** The row of a claimed event after its handler has run and succeeded,
    failed or was missing. *)
Lemma finish_event id e (w w1 : world St) :
  events_ok (w_db w) -> provider_events_of (w_db w) !! id = Some e -> event_waiting (pv_state e) = true ->
  ClaimProviderEvent id (w_db w) = Ret (Some (pv_payload e), w_db w1) ->
  exists e1, provider_events_of (w_db w1) !! id = Some e1 /\ event_identity e1 = event_identity e
    /\ pv_payload e1 = pv_payload e /\ pv_attempts e1 = pv_attempts e + 1 /\ pv_state e1 = PvApplying /\ events_ok (w_db w1).
Proof.
  intros HO He Hw Hc. destruct (claim_Ret _ _ _ _ _ Hc He) as (_ & _ & E1). eexists. split; [exact E1|].
  split_and!; try done. by apply (event_stmt_step _ _ _ _ _ (es_claim id) Hc).
Qed.

(** The two ways to end an attempt, from any world with the events of the claim. *)
Lemma failed_attempt id e e1 (w1 w2 w' : world St) cause ok :
  events_ok (w_db w1) -> provider_events_of (w_db w1) !! id = Some e1 -> event_identity e1 = event_identity e ->
  pv_payload e1 = pv_payload e -> pv_attempts e1 = pv_attempts e + 1 -> pv_state e1 = PvApplying ->
  same_events (w_db w1) (w_db w2) -> (exec! ignoreError (failProviderEvent id cause); mret true) w2 = (Ret ok, w') ->
  ok = true /\ attempted id e (if 25 <=? pv_attempts e + 1 then PvDeadLetter else PvFailed) (w_db w').
Proof.
  intros HO E1 I1 P1 A1 S1 Es Hf. apply mbindM_Ret_inv in Hf as ([] & w3 & Hf & Hr). injection Hr as <- <-. split; [done|].
  assert (events_ok (w_db w2)) as HO2 by (unfold events_ok; by rewrite Es). rewrite <- Es in E1.
  destruct (fail_outcome _ _ _ _ _ _ Hf HO2 E1 S1) as (next & E3).
  eexists. split; [exact E3|]. simpl. by rewrite A1.
Qed.

Lemma final_attempt id e e1 (w1 w2 w' : world St) st ok :
  provider_events_of (w_db w1) !! id = Some e1 -> event_identity e1 = event_identity e ->
  pv_payload e1 = pv_payload e -> pv_attempts e1 = pv_attempts e + 1 -> pv_state e1 = PvApplying ->
  same_events (w_db w1) (w_db w2) -> (exec! markProviderEventFinal id st; mret true) w2 = (Ret ok, w') ->
  ok = true /\ attempted id e st (w_db w').
Proof.
  intros E1 I1 P1 A1 S1 Es Hf. apply mbindM_Ret_inv in Hf as ([] & w3 & Hf & Hr). injection Hr as <- <-. split; [done|].
  rewrite <- Es in E1. destruct (markFinal_Ret _ _ _ _ _ Hf E1 S1) as (t & E3). eexists. by split; [exact E3|].
Qed.

(** The state in which applying an event leaves it: what its handler comes to
    in the world [w] of the claim. *)
Definition outcome_state (fuel : nat) (e : providerEventRow) (w : world St) : providerEventState :=
  let failed := if 25 <=? pv_attempts e + 1 then PvDeadLetter else PvFailed in
  match decode_event (pv_payload e) with
  | Ret ev =>
      match eventHandler fuel (ev_Type ev) with
      | None => PvIgnored
      | Some handle => if is_ret (applyEvent handle ev w).1 then PvApplied else failed
      end
  | _ => failed
  end.

Lemma apply_event_settles fuel id (w w' : world St) ok :
  ApplyProviderEvent fuel id w = (Ret ok, w') -> events_ok (w_db w) ->
  match provider_events_of (w_db w) !! id with
  | Some e =>
      if event_waiting (pv_state e) then
        exists w1, ClaimProviderEvent id (w_db w) = Ret (Some (pv_payload e), w_db w1)
          /\ ok = true /\ attempted id e (outcome_state fuel e w1) (w_db w')
      else ok = false /\ w_db w' = w_db w
  | None => ok = false /\ w_db w' = w_db w
  end.
Proof.
  intros H HO. unfold ApplyProviderEvent in H. apply mbindM_Ret_inv in H as (claimed & w1 & Hc & H).
  apply statement_Ret in Hc. destruct (provider_events_of (w_db w) !! id) as [e|] eqn:He.
  2: { unfold ClaimProviderEvent in Hc. rewrite He in Hc. injection Hc as <- Hd. injection H as <- <-. by rewrite Hd. }
  destruct (event_waiting (pv_state e)) eqn:Hw.
  2: { unfold ClaimProviderEvent in Hc. rewrite He, Hw in Hc. injection Hc as <- Hd. injection H as <- <-. by rewrite Hd. }
  destruct claimed as [payload|].
  2: { unfold ClaimProviderEvent in Hc. rewrite He, Hw in Hc. by apply obind_Ret_inv in Hc as (d1 & _ & [=]). }
  destruct (claim_Ret _ _ _ _ _ Hc He) as (-> & _ & _). exists w1. split; [done|].
  destruct (finish_event _ _ _ _ HO He Hw Hc) as (e1 & E1 & I1 & P1 & A1 & S1 & HO1).
  pose proof (failed_attempt id e e1 w1) as Hfail. pose proof (final_attempt id e e1 w1) as Hfinal.
  unfold outcome_state. destruct (decode_event (pv_payload e)) as [ev|err|]; [|by eapply Hfail|done].
  destruct (eventHandler fuel (ev_Type ev)) as [handle|] eqn:Eh; [|by eapply Hfinal].
  apply mbindM_Ret_inv in H as (applied & w2 & Ha & H). pose proof (handler_same_events fuel _ _ ev w1 Eh) as Es.
  unfold attempt in Ha. destruct (applyEvent handle ev w1) as [[x|err|] w3]; [| |done]; injection Ha as <- <-; simpl in *;
    [by eapply Hfinal|by eapply Hfail].
Qed.


(** ** Along every execution *)

Lemma handler_events A (m : @B St A) : handler A m -> evolves events_step ledger_grows m.
Proof.
  apply handler_evolves; [apply _|..]; intros d d' H.
  - by apply events_step_same, elsewhere_events.
  - by apply events_step_same, period_write_events.
  - by apply events_step_same, account_write_events.
  - destruct H as [x|A' f a d' Hf H|o p c s e ids d' H]; [by apply events_step_same|by eapply event_stmt_step|].
    injection H as _ <-. by apply events_step_same.
Qed.

End Apply.

(** ** A round of pending events *)

(** Every event but one is as it was. *)
Definition other_events (id : string) (d d' : DB) : Prop :=
  forall i, i <> id -> provider_events_of d' !! i = provider_events_of d !! i.

#[export] Instance other_events_preorder id : PreOrder (other_events id).
Proof. split; [done|]. intros d1 d2 d3 H1 H2 i Hi. by rewrite (H2 i Hi), (H1 i Hi). Qed.

Lemma put_event_other id e d d' : put_provider_event id e d = Ret d' -> other_events id d d'.
Proof.
  intros (_ & _ & _ & ->)%put_row_Ret i Hi. unfold provider_events_of at 1. simpl. by rewrite lookup_insert_ne.
Qed.

#[local] Hint Resolve put_event_other : writes.

Lemma claim_other id : writes (other_events id) (ClaimProviderEvent id).
Proof. by_definition. Qed.

Lemma final_other id st t : writes (other_events id) (MarkProviderEventFinal id st t).
Proof. by_definition. Qed.

Lemma fail_other id e t : writes (other_events id) (FailProviderEvent id e t).
Proof.
  intros d [] d' H. unfold FailProviderEvent, exec_rows, update_row in H.
  destruct (provider_events_of d !! id); [case_match|]; inv_ret; [by eapply put_event_other|done..].
Qed.

(** The states in which an attempt leaves an event. *)
Definition settled_event (st : providerEventState) : Prop := st = PvApplied \/ st = PvIgnored \/ st = PvFailed \/ st = PvDeadLetter.

Section Others.
Context {St : Type} `{HE : Env} `{HD : Digest} `{HC : TBCodec} `{!TigerBeetle St} `{HS : StripeAPI} `{HU : NetURL}.
#[local] Abbreviation ok id m := (evolves (St := St) (other_events id) ledger_grows m).

Lemma other_of_same id d d' : same_events d d' -> other_events id d d'.
Proof. intros E i _. by rewrite E. Qed.

Lemma same_other {A} id (m : @B St A) : evolves same_events ledger_grows m -> ok id m.
Proof. apply evolves_mono; [apply _|apply _|apply other_of_same|done]. Qed.

Lemma statement_other {A} id (f : DB -> res (A * DB)) : writes (other_events id) f -> ok id (statement f).
Proof. intros Hf. apply evolves_statement; [apply _..|]. intros d a d'. apply Hf. Qed.

#[local] Hint Resolve statement_other claim_other final_other fail_other : frame.

Lemma append_other id ev : ok id (appendEvent ev).
Proof. apply appendEvent_evolves; [apply _..|]. intros d d' (e & v & j & ->). by intros i _. Qed.

#[local] Hint Resolve append_other : frame.

Lemma ApplyProviderEvent_other fuel id : ok id (ApplyProviderEvent fuel id).
Proof.
  assert (forall type handle ev, eventHandler fuel type = Some handle -> ok id (applyEvent handle ev)) as Hh.
  { intros type handle ev H. apply same_other. eapply applyEvent_evolves; [apply _|..|exact H].
    - intros d d' [_ Hd]. by apply elsewhere_events.
    - apply period_write_events.
    - apply account_write_events. }
  unfold ApplyProviderEvent, failProviderEvent, markProviderEventFinal. apply evolves_bind; [apply _..|frame|].
  intros [payload|]; [|frame]. destruct (decode_event payload) as [ev|e|]; [|frame..].
  destruct (eventHandler fuel (ev_Type ev)) as [h|] eqn:Eh; [|frame].
  apply evolves_bind; [apply _..|apply evolves_attempt; [apply _..|by eapply Hh]|]. intros r. frame.
Qed.

Lemma ApplyProviderEvent_ok fuel id (w : world St) : events_ok (w_db w) -> events_ok (w_db (ApplyProviderEvent fuel id w).2).
Proof. apply (handler_events _ _ (or_intror (or_intror (h_provider_event fuel id))) w). Qed.

(** What became of the events of [d] when those of [ids] were applied. *)
Definition round_done (ids : list string) (d d' : DB) : Prop :=
  forall id e, provider_events_of d !! id = Some e ->
    if decide (id ∈ ids) then exists st, settled_event st /\ attempted id e st d' else provider_events_of d' !! id = Some e.

Lemma outcome_settled fuel e (w : world St) : settled_event (outcome_state fuel e w).
Proof.
  unfold outcome_state, settled_event. destruct (decode_event _) as [ev|err|]; [destruct (eventHandler _ _) as [h|]|..];
    repeat case_match; tauto.
Qed.

Lemma applyEvents_round fuel ids k (w w' : world St) n :
  applyEvents fuel ids k w = (Ret n, w') -> NoDup ids -> events_ok (w_db w) ->
  (forall id, id ∈ ids -> exists e, provider_events_of (w_db w) !! id = Some e /\ event_waiting (pv_state e) = true) ->
  n = k + Z.of_nat (length ids) /\ round_done ids (w_db w) (w_db w').
Proof.
  revert k w. induction ids as [|id ids IH]; intros k w H Hnd HO Hids; simpl in H.
  { injection H as <- <-. split; [simpl; lia|]. intros id e He. by rewrite decide_False by apply not_elem_of_nil. }
  apply mbindM_Ret_inv in H as (ok & w1 & Ha & H). inversion_clear Hnd as [|x y Hn Hnd'].
  destruct (Hids id) as (e & He & Hw); [left|].
  pose proof (apply_event_settles _ _ _ _ _ Ha HO) as Hs. rewrite He, Hw in Hs. destruct Hs as (wc & _ & -> & Hat).
  pose proof (proj1 (ApplyProviderEvent_other fuel id w)) as Ho. pose proof (ApplyProviderEvent_ok fuel id w HO) as HO1.
  rewrite Ha in Ho, HO1. simpl in Ho, HO1.
  apply IH in H as [-> Hr]; [|done..|]; last first.
  { intros i Hi. destruct (Hids i) as (x' & Hx & Hwx); [by right|]. exists x'. split; [|done].
    rewrite Ho; [done|]. by intros ->. }
  split; [simpl; lia|]. intros i x Hx. destruct (decide (i = id)) as [->|Hne].
  - rewrite He in Hx. injection Hx as <-. rewrite decide_True by left.
    exists (outcome_state fuel e wc). split; [apply outcome_settled|]. destruct Hat as (e' & E' & Hat).
    specialize (Hr _ _ E'). rewrite decide_False in Hr by done. by exists e'.
  - rewrite <- (Ho _ Hne) in Hx. specialize (Hr _ _ Hx). destruct (decide (i ∈ ids)) as [Hin|Hin].
    + by rewrite decide_True by by right.
    + rewrite decide_False; [done|]. rewrite elem_of_cons. tauto.
Qed.

Lemma pending_events_waiting limit now d id :
  id ∈ ListPendingStripeProviderEventIDs limit now d ->
  exists e, provider_events_of d !! id = Some e /\ event_waiting (pv_state e) = true.
Proof.
  unfold ListPendingStripeProviderEventIDs. intros H.
  apply elem_of_take in H as (j & H & _). apply list_elem_of_lookup_2, list_elem_of_fmap in H as ([i e] & -> & H).
  rewrite sort_slice_perm, list_elem_of_filter in H. destruct H as [(_ & Hw & _) Hin].
  exists e. split; [by apply elem_of_map_to_list in Hin|done].
Qed.

Lemma pending_events_nodup limit now d : NoDup (ListPendingStripeProviderEventIDs limit now d).
Proof.
  unfold ListPendingStripeProviderEventIDs. eapply sublist_NoDup; [|apply sublist_take]. rewrite sort_slice_perm.
  eapply sublist_NoDup; [apply (NoDup_fst_map_to_list (provider_events_of d))|apply fmap_sublist, sublist_filter].
Qed.

(** C29: A round over the pending provider events that succeeds has attempted
    every one of them exactly once, whatever came of the attempts, left every
    other event as it was, and returns how many there were. *)
Theorem pending_events_attempted fuel limit (w w' : world St) n :
  ApplyPendingProviderEvents fuel limit w = (Ret n, w') -> events_ok (w_db w) ->
  exists now, (pgNow w).1 = Ret now /\
    let ids := ListPendingStripeProviderEventIDs (if limit <=? 0 then 100 else limit) now (w_db w) in
    n = Z.of_nat (length ids) /\ round_done ids (w_db w) (w_db w').
Proof.
  intros H HO. unfold ApplyPendingProviderEvents in H.
  apply mbindM_Ret_inv in H as (limit32 & w1 & H1 & H). apply mlift_Ret in H1 as [Hl ->].
  apply mbindM_Ret_inv in H as (now & w2 & H2 & H). apply mbindM_Ret_inv in H as (ids & w3 & H3 & H).
  apply query_Ret in H3 as [-> ->]. assert (w_db w2 = w_db w) as E2. { unfold pgNow in H2. destruct (w_txnow w); by injection H2 as _ <-. }
  exists now. split; [by rewrite H2|]. unfold checkedInt32FromInt in Hl. destruct (_ || _); [done|]. injection Hl as <-.
  rewrite E2 in H. apply applyEvents_round in H as [-> Hr].
  - split; [done|]. by rewrite E2 in Hr.
  - apply pending_events_nodup.
  - by rewrite E2.
  - intros id Hid. rewrite E2. by eapply pending_events_waiting.
Qed.
End Others.

(** ** On the sample run *)

Import RefLedger Sample.

(** A payment reported by webhook, and a report of a type the service has no
    handler for. *)
Definition payment_payload : string :=
  stripe_payload "payment_intent.succeeded" "pi_1" [("org_id", org); ("product_id", product); ("ledger_units", "50000000")]%string.
Definition charge_payload : string := stripe_payload "charge.updated" "ch_1" [].

Definition received (payload : string) : world state -> world state := fun w =>
  match sample_event payload with
  | Ret ev => (recordStripeProviderEvent ev payload w).2
  | _ => w
  end.

Definition e1 : world state := received charge_payload (received payment_payload w1).
Definition payment_event : string := textID "provider_event" ["stripe"; "evt_pi_1"]%string.
Definition e2 : world state := (ApplyProviderEvent 5 payment_event e1).2.
Definition e3 : world state := (ApplyPendingProviderEvents 5 0 e1).2.


Lemma e3_run : ApplyPendingProviderEvents 5 0 e1 = (Ret 2, e3).
Proof. unfold e3. apply (run_Ret (ApplyPendingProviderEvents 5 0) e1). vm_compute. reflexivity. Qed.

Lemma no_events_ok d : provider_events_of d = ∅ -> events_ok d.
Proof. intros E. unfold events_ok. rewrite E. split; [split; [apply map_Forall_empty|]|apply map_Forall_empty].
  intros i j x y _ Hx. by rewrite lookup_empty in Hx. Qed.

Lemma record_ok ev payload (w : world state) : events_ok (w_db w) -> events_ok (w_db (recordStripeProviderEvent ev payload w).2).
Proof.
  intros H.
  assert (evolves events_step ledger_grows (recordStripeProviderEvent ev payload : @B state _)) as Hev.
  { apply recordStripeProviderEvent_evolves; [apply _|..].
    - intros d d' [_ Hd]. by apply events_step_same, elsewhere_events.
    - intros d d' Hd. by apply events_step_same, period_write_events.
    - intros d d' Hd. by apply events_step_same, account_write_events.
    - intros d d' Hd. destruct Hd as [x|A f a d' Hf Hd|o p c s e ids d' Hd]; [by apply events_step_same|by eapply event_stmt_step|].
      injection Hd as _ <-. by apply events_step_same. }
  apply (proj2 (proj1 (Hev w))), H.
Qed.

Lemma received_ok payload w : events_ok (w_db w) -> events_ok (w_db (received payload w)).
Proof. intros H. unfold received. destruct (sample_event payload); [by apply record_ok|done..]. Qed.

Lemma e1_ok : events_ok (w_db e1).
Proof. unfold e1. apply received_ok, received_ok, no_events_ok. vm_compute. reflexivity. Qed.





Lemma pending_events_attempted_witness : exists now,
  length (ListPendingStripeProviderEventIDs 100 now (w_db e1)) = 2%nat
  /\ round_done (ListPendingStripeProviderEventIDs 100 now (w_db e1)) (w_db e1) (w_db e3).
Proof.
  destruct (pending_events_attempted 5 0 e1 e3 2 e3_run e1_ok) as (now & _ & Hn & Hr). exists now.
  split; [apply (inj Z.of_nat); symmetry; exact Hn|exact Hr].
Defined.
