(* ===== verification/PaymentTheorems.v ===== *)
(** * Theorems on payments

    The way of the credits a customer pays for, from the checkout session to
    the grant, and how the invoice of an upgrade is collected. *)

From stdpp Require Import relations.
From S2P Require Import Prelude GoFloat GoStd GoTime GoFormat GoURL Json Types StripeApi Ids Ledger Charges Grants.
From S2P Require Import Store.
From S2P Require Import Events LedgerCommands LedgerGrants Cycles Entitlements ContractStore.
From S2P Require Import DocumentStore.
From S2P Require Import DueChanges WindowStore Windows Statements Finalizations Dispatcher Contracts Catalog.
From S2P Require Import EntitlementsView.
From S2P Require Import Clock StripeStore Stripe ContractRequests Runtime Samples Frames PeriodSystem ContractSystem.
From S2P Require Import AdminFrames Legs WindowInv PrepareTx ReserveTx WindowSystem Service.
From S2P Require Import ContractRuns Settlement SampleRun LedgerTheorems EntitlementTheorems DueWorkTheorems.
From S2P Require Import ContractRun.

(** ** Posting leaves the terms of grants alone *)

(** A grant without how far its deposit got. *)
Definition grant_terms (g : grantRow) : grantRow := with_posting GPending None "" g.

Definition same_terms (d d' : DB) : Prop := grant_terms <$> db_grants d' = grant_terms <$> db_grants d.

#[export] Instance same_terms_preorder : PreOrder same_terms.
Proof. split; [done|]. unfold same_terms. congruence. Qed.

Lemma same_terms_grants d d' : db_grants d' = db_grants d -> same_terms d d'.
Proof. unfold same_terms. by intros ->. Qed.

Lemma same_terms_lookup d d' gid g :
  same_terms d d' -> db_grants d !! gid = Some g -> exists g', db_grants d' !! gid = Some g' /\ grant_terms g' = grant_terms g.
Proof.
  intros H Hg. assert ((grant_terms <$> db_grants d') !! gid = Some (grant_terms g)) as E by (by rewrite H, lookup_fmap, Hg).
  by rewrite lookup_fmap, fmap_Some in E; destruct E as (g' & ? & ?); exists g'.
Qed.

Lemma same_terms_sym d d' : same_terms d d' -> same_terms d' d.
Proof. by unfold same_terms. Qed.

Lemma posting_terms st t e gid g d :
  db_grants d !! gid = Some g -> same_terms d (set_grants (<[gid := with_posting st t e g]> (db_grants d)) d).
Proof.
  intros Hg. unfold same_terms. simpl. rewrite fmap_insert. apply insert_id. by rewrite lookup_fmap, Hg.
Qed.

Section Posting.
Context {St : Type} `{HE : Env} `{HD : Digest} `{HC : TBCodec} `{!TigerBeetle St}.
#[local] Abbreviation ok m := (evolves (St := St) same_terms ledger_grows m).

Lemma terms_statement {A} (f : DB -> res (A * DB)) : writes same_terms f -> ok (statement f).
Proof. intros Hf. apply evolves_statement; [apply _..|]. intros d a d'. apply Hf. Qed.

Lemma terms_append ev : ok (appendEvent ev).
Proof. apply appendEvent_evolves; [apply _..|]. by intros d d' (e & v & j & ->). Qed.

Lemma in_progress_terms gid : writes same_terms (MarkGrantLedgerPostingInProgress gid).
Proof.
  intros d [] d' H. unfold MarkGrantLedgerPostingInProgress in H. destruct (db_grants d !! gid) eqn:Hg; [|by injection H as <-].
  case_match; injection H as <-; first [by apply posting_terms|done].
Qed.

Lemma posted_terms gid t : writes same_terms (MarkGrantLedgerPostingPosted gid t).
Proof.
  intros d a d' H. unfold MarkGrantLedgerPostingPosted in H. destruct (db_grants d !! gid) eqn:Hg; [|by injection H as _ <-].
  case_decide; injection H as _ <-; [done|by apply posting_terms].
Qed.

Lemma failed_terms gid e : writes same_terms (MarkGrantLedgerPostingFailed gid e).
Proof.
  intros d a d' H. unfold MarkGrantLedgerPostingFailed in H. destruct (db_grants d !! gid) eqn:Hg; [|by injection H as _ <-].
  injection H as _ <-. by apply posting_terms.
Qed.

Lemma command_terms id row : writes same_terms (InsertLedgerCommand id row).
Proof. intros d a d' H. unfold InsertLedgerCommand in H. repeat case_match; by simplify_eq. Qed.

Lemma dispatch_terms cid : ok (dispatchLedgerCommand cid).
Proof. eapply evolves_mono; [apply _|apply _|apply same_terms_grants|done|apply dispatchLedgerCommand_grants]. Qed.

#[local] Hint Resolve terms_statement terms_append in_progress_terms posted_terms failed_terms command_terms dispatch_terms : frame.

Lemma postGrantDeposit_terms gid : ok (postGrantDeposit gid).
Proof.
  unfold postGrantDeposit, createGrantDepositTx, loadGrantLedgerRowTx, operatorLedgerAccountsTx, grantDepositPayload, unixMillis,
    createLedgerCommandTx, markGrantLedgerPostingPosted, markGrantLedgerPostingFailed.
  frame.
Qed.
End Posting.

(** ** The credits of a payment *)

(** The grant is the organisation's purchase with a given reference. *)
Definition purchase_of (org ref : string) (g : grantRow) : Prop :=
  g_org_id g = org /\ g_source g = "purchase"%string /\ g_scope_type g = "account"%string
  /\ g_scope_product_id g = ""%string /\ g_scope_bucket_id g = ""%string /\ g_scope_sku_id g = ""%string
  /\ g_source_reference_id g = ref.

(** From [d] to [d'] the organisation has been given the purchase [ref] of
    [units] once: no grant was lost or changed its terms, the purchase is there,
    and what is new is that purchase, which was not there before. *)
Definition credited_once (org ref : string) (units : Z) (d d' : DB) : Prop :=
  (forall gid g, db_grants d !! gid = Some g -> exists g', db_grants d' !! gid = Some g' /\ grant_terms g' = grant_terms g)
  /\ (exists gid g, db_grants d' !! gid = Some g /\ purchase_of org ref g)
  /\ (forall gid g, db_grants d' !! gid = Some g -> db_grants d !! gid = None ->
        purchase_of org ref g /\ g_amount g = units /\ forall k x, db_grants d !! k = Some x -> ~ purchase_of org ref x).

Lemma same_reference_purchase org ref row g :
  purchase_of org ref row -> same_grant_reference row g = true <-> purchase_of org ref g.
Proof.
  intros (E1 & E2 & E3 & E4 & E5 & E6 & E7). unfold same_grant_reference. rewrite E1, E2, E3, E4, E5, E6, E7.
  rewrite !andb_true_iff, !bool_decide_eq_true. unfold purchase_of. split; [intros [[[[[[]]]]]]|intros (? & ? & ? & ? & ? & ? & ?)];
    repeat split; first [assumption|symmetry; assumption].
Qed.

Lemma insert_credits org ref gid row d n d' :
  InsertCreditGrant gid row d = Ret (n, d') -> purchase_of org ref row -> credited_once org ref (g_amount row) d d'.
Proof.
  intros H Hp. destruct (InsertCreditGrant_Ret _ _ _ _ _ H) as [[-> ->]|(-> & Hnew & Href & ->)].
  - split; [by intros gid' g Hg; exists g|]. split; [|by intros gid' g -> ].
    unfold InsertCreditGrant in H. destruct (existsb _ _) eqn:Ex.
    + apply existsb_exists in Ex as ([k g] & Hin & Hs). apply list_elem_of_In, elem_of_map_to_list in Hin.
      exists k, g. split; [done|]. by eapply same_reference_purchase.
    + destruct (db_grants d !! gid); [done|]. by inv_ret.
  - split; [|split]; simpl.
    + intros gid' g Hg. exists g. split; [|done]. rewrite lookup_insert_ne; [done|congruence].
    + exists gid, row. split; [apply lookup_insert_eq|done].
    + intros gid' g Hg Hn. apply lookup_insert_Some in Hg as [[-> <-]|[_ Hg]]; [|congruence].
      split; [done|]. split; [done|]. intros k x Hk Hx. apply (same_reference_purchase _ _ row) in Hx; [|done].
      by rewrite (Href _ _ Hk) in Hx.
Qed.

Lemma purchase_of_terms org ref g g' : grant_terms g' = grant_terms g -> purchase_of org ref g -> purchase_of org ref g'.
Proof.
  intros E. unfold purchase_of. change (g_org_id g') with (g_org_id (grant_terms g')).
  change (g_source g') with (g_source (grant_terms g')). change (g_scope_type g') with (g_scope_type (grant_terms g')).
  change (g_scope_product_id g') with (g_scope_product_id (grant_terms g')).
  change (g_scope_bucket_id g') with (g_scope_bucket_id (grant_terms g')).
  change (g_scope_sku_id g') with (g_scope_sku_id (grant_terms g')).
  change (g_source_reference_id g') with (g_source_reference_id (grant_terms g')). by rewrite E.
Qed.

Lemma credited_terms org ref units d d1 d' :
  credited_once org ref units d d1 -> same_terms d1 d' -> credited_once org ref units d d'.
Proof.
  intros (H1 & (gid & g & Hg & Hp) & H3) Hs. split; [|split].
  - intros i x Hx. destruct (H1 _ _ Hx) as (x1 & Hx1 & E1). destruct (same_terms_lookup _ _ _ _ Hs Hx1) as (x2 & Hx2 & E2).
    exists x2. split; [done|congruence].
  - destruct (same_terms_lookup _ _ _ _ Hs Hg) as (g' & Hg' & E). exists gid, g'. split; [done|]. by eapply purchase_of_terms.
  - intros i x Hx Hn. destruct (same_terms_lookup _ _ _ _ (same_terms_sym _ _ Hs) Hx) as (x1 & Hx1 & E1).
    destruct (H3 _ _ Hx1 Hn) as (Hp1 & Ha & Hr). split; [by eapply purchase_of_terms|]. split; [|done].
    apply (f_equal g_amount) in E1. simpl in E1. by rewrite <- E1.
Qed.

Section Credits.
Context {St : Type} `{HE : Env} `{HD : Digest} `{HC : TBCodec} `{!TigerBeetle St} `{HS : StripeAPI} `{HU : NetURL}.

Lemma append_terms ev (w w' : world St) o : appendEvent ev w = (o, w') -> same_terms (w_db w) (w_db w').
Proof. intros H. apply (evolves_run _ _ _ _ _ _ (terms_append ev) H). Qed.

Lemma deposit_credits org ref units startsAt (w w' : world St) g :
  DepositCredits (purchaseGrant org ref units startsAt) w = (Ret g, w') -> ref <> "" ->
  credited_once (orgIDText org) ref units (w_db w) (w_db w').
Proof.
  intros H Href. unfold DepositCredits in H. cbv zeta in H. cbn [purchaseGrant gb_OrgID gb_Source gb_ScopeType gb_OriginalAmount
    gb_Amount gb_SourceReferenceID gb_GrantID gb_StartsAt] in H. rewrite (decide_False (P := ref = ""%string)) in H by done.
  destruct (decide (orgIDText org = "")) as [|_]; [done|]. destruct (firstUint64 [0; units] =? 0) eqn:Hu; [done|].
  assert (firstUint64 [0; units] = units) as E. { simpl. destruct (Z.eqb_spec units 0); [done|done]. }
  rewrite E in H. apply mbindM_Ret_inv in H as (ref' & w1 & H1 & H). injection H1 as <- <-.
  apply mbindM_Ret_inv in H as (start & w1 & H1 & H).
  assert (w_db w1 = w_db w) as D1 by (destruct (is_zero startsAt); by injection H1 as _ <-).
  apply mbindM_Ret_inv in H as (account & w2 & H2 & H). apply mbindM_Ret_inv in H as (deposit & w3 & H3 & H).
  assert (w_db w3 = w_db w) as D3. { injection H2 as _ <-. injection H3 as _ <-. exact D1. }
  apply mbindM_Ret_inv in H as ([] & w4 & Htx & H). apply mbindM_Ret_inv in H as ([] & w5 & Hpost & H). injection H as _ <-.
  eapply credited_terms; [|apply (evolves_run _ _ _ _ _ _ (postGrantDeposit_terms _) Hpost)].
  apply WithTx_Ret in Htx as (w6 & w7 & Htx & D6 & _ & ->).
  apply mbindM_Ret_inv in Htx as (amount & w8 & Ha & Htx). apply mlift_Ret in Ha as [[-> _]%checkedInt64_Ret ->].
  apply mbindM_Ret_inv in Htx as (st & w9 & Hst & Htx). apply mlift_Ret in Hst as [_ ->].
  apply mbindM_Ret_inv in Htx as (n & w10 & Hi & Htx). apply statement_Ret in Hi. rewrite D6, D3 in Hi.
  eapply credited_terms; [eapply insert_credits in Hi; [exact Hi|]|].
  - repeat split.
  - apply append_terms in Htx. exact Htx.
Qed.
(** What a payment intent is worth and to whom, as its metadata say. *)
Lemma intent_credits raw intent orgID (w w' : world St) :
  decode_payment_intent raw = Ret intent -> handlePaymentIntentSucceeded raw w = (Ret tt, w') ->
  parseOrgID (meta (pin_Metadata intent) "org_id") = Ret orgID -> orgIDText orgID <> "" ->
  meta (pin_Metadata intent) "product_id" <> "" -> parse_uint (meta (pin_Metadata intent) "ledger_units") <> 0 ->
  credited_once (orgIDText orgID) ("stripe_payment_intent:" +:+ pin_ID intent)
    (parse_uint (meta (pin_Metadata intent) "ledger_units")) (w_db w) (w_db w').
Proof.
  intros Hd H Ho Hne Hp Hu. unfold handlePaymentIntentSucceeded in H.
  apply mbindM_Ret_inv in H as (x & w1 & H1 & H). rewrite Hd in H1. injection H1 as <- <-.
  apply mbindM_Ret_inv in H as (o & w1 & H1 & H). apply mlift_Ret in H1 as [H1 ->]. rewrite Ho in H1. injection H1 as <-.
  rewrite decide_False in H by done. cbv zeta in H. rewrite decide_False in H by tauto.
  apply mbindM_Ret_inv in H as (startsAt & w2 & Hn & H). apply mbindM_Ret_inv in H as (g & w3 & Hc & H). injection H as <-.
  assert (w_db w2 = w_db w) as E2.
  { unfold BusinessNow, mbindM, query in Hn. destruct (business_clock _ _ _); [by injection Hn as _ <-|].
    unfold pgNow in Hn. destruct (w_txnow w); by injection Hn as _ <-. }
  apply deposit_credits in Hc; [by rewrite E2 in Hc|done].
Qed.

Lemma parse_ledger_units cents :
  0 <= cents -> cents * ledgerUnitsPerCent <= i64_max ->
  parse_uint (format_int (i64_mul cents ledgerUnitsPerCent)) = cents * ledgerUnitsPerCent.
Proof.
  intros H0 H1. unfold i64_max, ledgerUnitsPerCent in *. unfold i64_mul. rewrite Z.mod_small by lia.
  replace (cents * 100000 + 2 ^ 63 - 2 ^ 63) with (cents * 100000) by lia. unfold format_int.
  destruct (Z.ltb_spec (cents * 100000) 0); [lia|]. apply parse_format_uint. unfold is_u64, u64_max. lia.
Qed.

Lemma credit_metadata org product cents :
  let m := creditsMetadata org product cents in
  meta m "org_id" = orgIDText org /\ meta m "product_id" = product
  /\ meta m "ledger_units" = format_int (i64_mul cents ledgerUnitsPerCent).
Proof. repeat split. Qed.

(** C26: The credits of a checkout session come to what the customer pays,
    converted at the fixed rate: the one request of the session charges the
    amount and carries metadata from which every later success report of the
    payment credits the organisation, once, exactly that many units (for
    amounts whose units fit an int64). *)
Theorem purchase_credited org product params (w w1 : world St) url :
  stripe_configured = true -> CreateCheckoutSession org product params w = (Ret url, w1) ->
  orgIDText org <> "" -> product <> "" -> cp_AmountCents params * ledgerUnitsPerCent <= i64_max ->
  exists request,
    w_stripe w1 = w_stripe w ++ [CheckoutSessionsCreate request]
    /\ cl_UnitAmount <$> co_LineItems request = [cp_AmountCents params]
    /\ co_PaymentIntentMetadata request = Some (creditsMetadata org product (cp_AmountCents params))
    /\ forall raw intent (w2 w3 : world St),
        decode_payment_intent raw = Ret intent ->
        pin_Metadata intent = creditsMetadata org product (cp_AmountCents params) ->
        handlePaymentIntentSucceeded raw w2 = (Ret tt, w3) ->
        credited_once (orgIDText org) ("stripe_payment_intent:" +:+ pin_ID intent)
          (cp_AmountCents params * ledgerUnitsPerCent) (w_db w2) (w_db w3).
Proof.
  intros Hconf H Hne Hp Hmax. unfold CreateCheckoutSession in H. destruct (Z.leb_spec (cp_AmountCents params) 0) as [|Hpos]; [done|].
  rewrite Hconf in H. cbn [negb] in H. apply mbindM_Ret_inv in H as (name & w2 & Hq & H). apply query_Ret in Hq as [-> ->].
  destruct (GetProductDisplayName _ _) as [name|]; [|done]. apply mbindM_Ret_inv in H as (customer & w2 & Hc & H).
  assert (w2 = w) as ->.
  { unfold attempt, lookupStripeCustomer, mbindM, query in Hc. destruct (LookupStripeCustomer _ _); by injection Hc as _ <-. }
  cbv zeta in H. apply mbindM_Ret_inv in H as (session & w2 & Hs & H). injection H as _ <-.
  unfold wrapped, onError, stripeDo in Hs. rewrite Hconf in Hs. unfold stripeCall in Hs.
  destruct (checkout_sessions_create _ _) as [u|e|]; [|done..]. injection Hs as _ <-.
  eexists. split; [reflexivity|]. split; [reflexivity|]. split; [reflexivity|].
  intros raw intent w3 w4 Hd Hm Hh. pose proof (intent_credits raw intent (orgIDText org) w3 w4 Hd Hh) as Hcr.
  destruct (credit_metadata org product (cp_AmountCents params)) as (M1 & M2 & M3).
  rewrite Hm, M1, M2, M3 in Hcr.
  rewrite parse_ledger_units in Hcr by lia. unfold orgIDText, parseOrgID in *.
  rewrite !trim_space_trimmed in Hcr. rewrite decide_False in Hcr by done. apply Hcr; [done|done|done|].
  unfold ledgerUnitsPerCent. lia.
Qed.
End Credits.

(** ** Collecting an upgrade *)

(** The four requests of a collection; each idempotency key is made of the
    quote alone. *)
Definition upgrade_requests `{Digest} (q : contractChangeQuote) (customer method invoice finalized : string) : list stripeRequest :=
  [InvoicesCreate (upgradeInvoiceParams q customer method);
   InvoiceItemsCreate (upgradeItemParams q customer invoice (qt_PriceDeltaCents q));
   InvoicesFinalize invoice false (upgradeKey q "finalize");
   InvoicesPay finalized method false (upgradeKey q "pay")].

(** The customer is bound already, or is created first. *)
Definition customer_setup (org customer : string) (d : DB) (setup : list stripeRequest) : Prop :=
  (setup = [] /\ LookupStripeCustomer org d = Some customer) \/ (exists p, setup = [CustomersCreate p]).

(** What is recorded of the invoice a collection ends with. *)
Definition invoice_recorded `{Digest} (q : contractChangeQuote) (receipt : stripeInvoice) (d d' : DB) : Prop :=
  let paid := bool_decide (in_Status receipt = "paid"%string) in
  (forall c, changes_of d !! qt_ChangeID q = Some c ->
     changes_of d' !! qt_ChangeID q = Some (change_with (if paid then ch_state c else ChProviderPending)
       (ch_actual_effective_at c) (ch_attempts c) (ch_provider_request_id c) (in_ID receipt) c))
  /\ (forall o, documents_of d !! documentID "contract_change" (qt_ChangeID q) = Some o ->
     documents_of d' !! documentID "contract_change" (qt_ChangeID q)
     = Some (document_paying (in_ID receipt) (in_HostedInvoiceURL receipt) (in_InvoicePDF receipt)
               (if paid then "paid" else "issued") (if paid then "paid" else "pending") o)).

Section Collection.
Context {St : Type} `{HE : Env} `{HD : Digest} `{HC : TBCodec} `{!TigerBeetle St} `{HS : StripeAPI} `{HU : NetURL}.

Lemma wrapped_Ret {A} t (m : @B St A) w a w' : wrapped t m w = (Ret a, w') -> m w = (Ret a, w').
Proof. unfold wrapped, onError. by destruct (m w) as [[x|e|] w1]. Qed.

Lemma stripeDo_Ret {A} r (f : nat -> res A) (w w' : world St) a :
  stripeDo r f w = (Ret a, w') -> f (w_ticks w) = Ret a /\ w_stripe w' = w_stripe w ++ [r] /\ w_db w' = w_db w.
Proof. unfold stripeDo. destruct stripe_configured; [|done]. by intros [= E <-]. Qed.

Lemma statement_stripe {A} (f : DB -> res (A * DB)) (w w' : world St) o : statement f w = (o, w') -> w_stripe w' = w_stripe w.
Proof. unfold statement. destruct (f (w_db w)) as [[a d]| |]; by intros [= _ <-]. Qed.

Lemma lookupStripeCustomer_attempt org (w w' : world St) r :
  attempt (lookupStripeCustomer org) w = (Ret r, w') ->
  w' = w /\ match r with inl c => LookupStripeCustomer (orgIDText org) (w_db w) = Some c | inr _ => True end.
Proof.
  unfold attempt, lookupStripeCustomer, mbindM, query. destruct (LookupStripeCustomer _ _) as [c|] eqn:E; by intros [= <- <-].
Qed.

Lemma createStripeCustomer_Ret org (w w' : world St) c :
  createStripeCustomer org w = (Ret c, w') -> (exists p, w_stripe w' = w_stripe w ++ [CustomersCreate p]) /\ bindings_only (w_db w) (w_db w').
Proof.
  unfold createStripeCustomer. destruct stripe_configured; [|done]. cbn [negb]. intros H.
  apply mbindM_Ret_inv in H as (email & w1 & H1 & H). apply query_Ret in H1 as [_ ->].
  apply mbindM_Ret_inv in H as (id & w1 & H1 & H). apply wrapped_Ret, stripeDo_Ret in H1 as (_ & S1 & D1).
  apply mbindM_Ret_inv in H as (now & w2 & Hn & H). assert (w_db w2 = w_db w1 /\ w_stripe w2 = w_stripe w1) as [D2 S2].
  { unfold pgNow in Hn. destruct (w_txnow w1); by injection Hn as _ <-. }
  apply mbindM_Ret_inv in H as ([] & w3 & Hs & H). injection H as <- <-. apply wrapped_Ret in Hs. split.
  - apply statement_stripe in Hs. eexists. by rewrite Hs, S2, S1.
  - apply statement_Ret in Hs. apply UpsertBinding_only in Hs. by rewrite <- D1, <- D2.
Qed.

Lemma ensureStripeCustomer_Ret org (w w' : world St) c :
  ensureStripeCustomer org w = (Ret c, w') ->
  exists setup, w_stripe w' = w_stripe w ++ setup /\ customer_setup (orgIDText org) c (w_db w) setup
    /\ bindings_only (w_db w) (w_db w').
Proof.
  intros H. unfold ensureStripeCustomer in H. apply mbindM_Ret_inv in H as (r & w1 & H1 & H).
  apply lookupStripeCustomer_attempt in H1 as [-> Hl].
  assert (forall wx, createStripeCustomer org w = (Ret c, wx) -> exists setup, w_stripe wx = w_stripe w ++ setup
    /\ customer_setup (orgIDText org) c (w_db w) setup /\ bindings_only (w_db w) (w_db wx)) as Hc.
  { intros wx Hx. apply createStripeCustomer_Ret in Hx as [[p E] Hb]. exists [CustomersCreate p]. split; [done|]. split; [|done].
    right. by exists p. }
  destruct r as [c0|e]; [|by apply Hc]. destruct (decide (c0 = "")); [by apply Hc|]. injection H as <- <-.
  exists []. rewrite app_nil_r. split; [done|]. split; [by left|done].
Qed.

Lemma updateUpgradeInvoiceProvider_Ret q inv hosted pdf status payment (w w' : world St) :
  updateUpgradeInvoiceProvider q inv hosted pdf status payment w = (Ret tt, w') ->
  w_stripe w' = w_stripe w
  /\ (forall c, changes_of (w_db w) !! qt_ChangeID q = Some c ->
        changes_of (w_db w') !! qt_ChangeID q = Some (change_with (if decide (payment = "paid") then ch_state c else ChProviderPending)
          (ch_actual_effective_at c) (ch_attempts c) (ch_provider_request_id c) inv c))
  /\ (forall o, documents_of (w_db w) !! documentID "contract_change" (qt_ChangeID q) = Some o ->
        documents_of (w_db w') !! documentID "contract_change" (qt_ChangeID q)
        = Some (document_paying inv hosted pdf status payment o)).
Proof.
  intros H. unfold updateUpgradeInvoiceProvider in H. apply mbindM_Ret_inv in H as ([] & w1 & H1 & H).
  apply wrapped_Ret in H1. pose proof (statement_stripe _ _ _ _ H1) as S1. pose proof (statement_stripe _ _ _ _ H) as S2.
  split; [congruence|]. apply statement_Ret in H1, H.
  apply exec_row_Ret in H1, H.
  assert (changes_of (w_db w1) = changes_of (w_db w)) as E1.
  { destruct H1 as [[_ ->]|(o & _ & (_ & _ & _ & ->)%put_row_Ret)]; done. }
  assert (documents_of (w_db w') = documents_of (w_db w1)) as E2.
  { destruct H as [[_ ->]|(c & _ & (_ & _ & _ & ->)%put_row_Ret)]; done. }
  split.
  - intros c Hc. rewrite <- E1 in Hc. destruct H as [[Hn _]|(c' & Hc' & (_ & _ & _ & ->)%put_row_Ret)]; [congruence|].
    rewrite Hc in Hc'. injection Hc' as <-. apply lookup_insert_eq.
  - intros o Ho. rewrite E2. destruct H1 as [[Hn _]|(o' & Ho' & (_ & _ & _ & ->)%put_row_Ret)]; [congruence|].
    rewrite Ho in Ho'. injection Ho' as <-. apply lookup_insert_eq.
Qed.
(** A collection that came to an invoice, from [w] to [w']. *)
Definition collected (q : contractChangeQuote) (inv : string) (paid : bool) (w w' : world St) : Prop :=
  exists customer method setup invoice finalized receipt,
    customer_setup (orgIDText (qt_OrgID q)) customer (w_db w) setup
    /\ GetDefaultStripePaymentMethod (orgIDText (qt_OrgID q)) (w_db w) = Some method
    /\ w_stripe w' = w_stripe w ++ setup ++ upgrade_requests q customer method invoice finalized
    /\ (exists n, invoices_pay n finalized method = Ret receipt)
    /\ inv = in_ID receipt /\ paid = bool_decide (in_Status receipt = "paid"%string)
    /\ invoice_recorded q receipt (w_db w) (w_db w').

Lemma payUpgradeInvoice_Ret q method finalized (w w' : world St) receipt :
  payUpgradeInvoice q method finalized w = (Ret receipt, w') ->
  (exists n, invoices_pay n (in_ID finalized) method = Ret receipt)
  /\ w_stripe w' = w_stripe w ++ [InvoicesPay (in_ID finalized) method false (upgradeKey q "pay")] /\ w_db w' = w_db w.
Proof.
  unfold payUpgradeInvoice, onError. destruct (stripeDo _ _ w) as [[r|e|] w1] eqn:E; [|..|done].
  - intros [= -> ->]. apply stripeDo_Ret in E as (Hp & S1 & D1). split; [by eexists|done].
  - intros H. apply mbindM_Ret_inv in H as (x & w2 & _ & H). done.
Qed.

Lemma collectUpgradeInvoice_Ret q (w w' : world St) url inv paid :
  collectUpgradeInvoice q w = (Ret (url, inv, paid), w') -> collected q inv paid w w'.
Proof.
  intros H. unfold collectUpgradeInvoice in H. apply mbindM_Ret_inv in H as (customer & w1 & H1 & H).
  apply ensureStripeCustomer_Ret in H1 as (setup & S1 & Hsetup & x & D1).
  apply mbindM_Ret_inv in H as (method & w2 & H2 & H).
  assert (w2 = w1 /\ GetDefaultStripePaymentMethod (orgIDText (qt_OrgID q)) (w_db w) = Some method) as [-> Hm].
  { unfold defaultStripePaymentMethod in H2. apply mbindM_Ret_inv in H2 as (row & w3 & Hq & H2). apply query_Ret in Hq as [-> ->].
    rewrite D1 in H2. change (GetDefaultStripePaymentMethod _ (set_pt_bindings x (w_db w)))
      with (GetDefaultStripePaymentMethod (orgIDText (qt_OrgID q)) (w_db w)) in H2.
    destruct (GetDefaultStripePaymentMethod _ _); [|done]. by injection H2 as <- <-. }
  cbv zeta in H. apply mbindM_Ret_inv in H as (invoice & w3 & H3 & H). apply wrapped_Ret, stripeDo_Ret in H3 as (_ & S3 & D3).
  apply mbindM_Ret_inv in H as (cents & w4 & Hc & H). apply mlift_Ret in Hc as [[-> _]%checkedInt64_Ret ->].
  apply mbindM_Ret_inv in H as ([] & w5 & H5 & H). apply wrapped_Ret, stripeDo_Ret in H5 as (_ & S5 & D5).
  apply mbindM_Ret_inv in H as (finalized & w6 & H6 & H). apply wrapped_Ret, stripeDo_Ret in H6 as (_ & S6 & D6).
  apply mbindM_Ret_inv in H as (receipt & w7 & H7 & H). apply payUpgradeInvoice_Ret in H7 as (Hpay & S7 & D7).
  apply mbindM_Ret_inv in H as ([] & w8 & H8 & H). injection H as <- <- <- <-.
  apply updateUpgradeInvoiceProvider_Ret in H8 as (S8 & Hchange & Hdocument).
  assert (w_db w7 = set_pt_bindings x (w_db w)) as D by congruence. rewrite D in Hchange, Hdocument.
  exists customer, method, setup, (in_ID invoice), (in_ID finalized), receipt. split; [done|]. split; [done|].
  unfold invoice_recorded. cbv zeta. split_and!.
  - rewrite S8, S7, S6, S5, S3, S1. unfold upgrade_requests. by rewrite <- !app_assoc.
  - done.
  - done.
  - destruct (decide (in_Status receipt = "paid")) as [E|E]; [by rewrite (bool_decide_true _ E)|by rewrite (bool_decide_false _ E)].
  - intros c Hc. rewrite (Hchange c Hc).
    destruct (decide (in_Status receipt = "paid")) as [E|E]; [by rewrite (bool_decide_true _ E)|by rewrite (bool_decide_false _ E)].
  - intros o Ho. rewrite (Hdocument o Ho).
    destruct (decide (in_Status receipt = "paid")) as [E|E]; [by rewrite (bool_decide_true _ E)|by rewrite (bool_decide_false _ E)].
Qed.

(** C30: Collecting the payment of an upgrade: for a change that is applied,
    canceled or unknown nothing is sent and nothing changes; for one that is
    awaiting payment the invoice is created, itemised at the quoted difference,
    finalized and paid, under idempotency keys made of the quote alone, what
    Stripe answered is recorded on the change and its document, and the upgrade
    is applied exactly when Stripe says paid; no other change is collected. *)
Theorem upgrade_payment_collected changeID (w w' : world St) applied :
  CollectContractUpgradePayment changeID w = (Ret applied, w') ->
  match changes_of (w_db w) !! changeID with
  | None => applied = false /\ w' = w
  | Some c =>
      if bool_decide (ch_state c ∈ [ChApplied; ChCanceled]) then applied = false /\ w' = w
      else
        (ch_state c = ChAwaitingPayment \/ ch_state c = ChProviderPending) /\ ch_change_type c = "upgrade"%string
        /\ exists inv w1, let q := default zeroQuote (ch_payload c) in
             collected q inv applied w w1 /\ if applied then applyPaidUpgrade q inv w1 = (Ret tt, w') else w' = w1
  end.
Proof.
  intros H. unfold CollectContractUpgradePayment in H. apply mbindM_Ret_inv in H as (st & w1 & Hq & H). apply query_Ret in Hq as [-> ->].
  unfold GetContractChangeStatus in H. destruct (changes_of (w_db w) !! changeID) as [c|] eqn:Ec; simpl in H; [|by injection H as <- <-].
  destruct (negb (bool_decide (ch_change_type c = "upgrade"))) eqn:Et; [done|].
  apply negb_false_iff, bool_decide_eq_true in Et.
  assert (forall m : world St, (do! q <- loadContractChangeQuote changeID;
     do! collected <- collectUpgradeInvoice q; let '(_, providerInvoiceID, paid) := collected in
     if paid : bool then exec! applyPaidUpgrade q providerInvoiceID; mret true else mret false) w = (Ret applied, m) ->
     exists inv w1, collected (default zeroQuote (ch_payload c)) inv applied w w1
       /\ if applied then applyPaidUpgrade (default zeroQuote (ch_payload c)) inv w1 = (Ret tt, m) else m = w1) as Hc.
  { intros m Hm. apply mbindM_Ret_inv in Hm as (q & w1 & Hl & Hm). unfold loadContractChangeQuote in Hl.
    apply mbindM_Ret_inv in Hl as (p & w2 & Hq & Hl). apply query_Ret in Hq as [-> ->].
    unfold GetContractChangePayload in Hl. rewrite Ec in Hl. injection Hl as <- <-.
    apply mbindM_Ret_inv in Hm as ([[url inv] paid] & w2 & Hcol & Hm). apply collectUpgradeInvoice_Ret in Hcol.
    destruct paid.
    - apply mbindM_Ret_inv in Hm as ([] & w3 & Ha & Hm). injection Hm as <- <-. by exists inv, w2.
    - injection Hm as <- <-. by exists inv, w2. }
  destruct (ch_state c) eqn:Es; simpl in H |- *; try done; try (by injection H as <- <-);
    (split; [tauto|]; split; [done|]; by apply Hc).
Qed.
End Collection.

(** ** On the sample run, with Stripe configured *)

Import RefLedger Sample.

Section Paying.
Definition paying_env : Env := {|
  now_at := @now_at env; id_at := @id_at env; ledger_configured := true; runtime_configured := false; stripe_configured := true;
  clickhouse_configured := false; clickhouse_accepts := @clickhouse_accepts env; float_overflow := @float_overflow env
|}.

#[local] Existing Instance paying_env.

(** Five dollars of credits, and Stripe's report of the payment. *)
Definition five_dollars : CheckoutParams := mkCheckout 500 "https://console.example/ok" "https://console.example/no".

Definition paid_intent : rawMessage :=
  Some (AnyObject [("id", AnyText "pi_1");
    ("metadata", AnyObject [("org_id", AnyText org); ("product_id", AnyText product); ("ledger_units", AnyText "50000000")])]%string).

Definition sample_intent : stripePaymentIntent := mkPaymentIntent "pi_1" (raw_metadata paid_intent).

Definition shop : world state := (CreateCheckoutSession org product five_dollars w1).2.
Definition credited : world state := (handlePaymentIntentSucceeded paid_intent shop).2.

Lemma shop_run : CreateCheckoutSession org product five_dollars w1 = (Ret "https://checkout.example/payment"%string, shop).
Proof. unfold shop. apply (run_Ret (CreateCheckoutSession org product five_dollars) w1). vm_compute. reflexivity. Qed.

Lemma credited_run : handlePaymentIntentSucceeded paid_intent shop = (Ret tt, credited).
Proof. unfold credited. apply (run_Ret (handlePaymentIntentSucceeded paid_intent) shop). vm_compute. reflexivity. Qed.

Lemma credited_again :
  handlePaymentIntentSucceeded paid_intent credited = (Ret tt, (handlePaymentIntentSucceeded paid_intent credited).2).
Proof. apply (run_Ret (handlePaymentIntentSucceeded paid_intent) credited). vm_compute. reflexivity. Qed.

Lemma five_dollars_fit : cp_AmountCents five_dollars * ledgerUnitsPerCent <= i64_max.
Proof. vm_compute. discriminate. Qed.

Lemma org_named : orgIDText org <> "".
Proof. vm_compute. discriminate. Qed.

Lemma product_named : product <> "".
Proof. vm_compute. discriminate. Qed.

Lemma sample_metadata : pin_Metadata sample_intent = creditsMetadata org product (cp_AmountCents five_dollars).
Proof. vm_compute. reflexivity. Qed.

Lemma paying_configured : stripe_configured = true.
Proof. reflexivity. Qed.

(** Reported twice, credited once. *)
Lemma purchase_credited_witness :
  credited_once (orgIDText org) "stripe_payment_intent:pi_1" 50000000 (w_db shop) (w_db credited)
  /\ credited_once (orgIDText org) "stripe_payment_intent:pi_1" 50000000 (w_db credited)
       (w_db (handlePaymentIntentSucceeded paid_intent credited).2).
Proof.
  destruct (purchase_credited org product five_dollars w1 shop _ paying_configured shop_run org_named product_named five_dollars_fit)
    as (request & _ & _ & _ & H).
  split; [exact (H paid_intent sample_intent shop credited eq_refl sample_metadata credited_run)|].
  exact (H paid_intent sample_intent credited _ eq_refl sample_metadata credited_again).
Defined.
(** The ordered upgrade of ContractRun.v, and a card to charge. *)
Definition card : paymentMethodRow :=
  mkPaymentMethodRow (orgIDText org) "stripe" "cus_1" "pm_1" "seti_1" "active" true "visa" "4242" None None None base_time.

Definition carded : world state := with_db (set_pt_payment_methods {["card" := card]} (w_db u2)) u2.

Definition collection_run : world state := (CollectContractUpgradePayment (qt_ChangeID quote) carded).2.

Lemma collection_Ret : CollectContractUpgradePayment (qt_ChangeID quote) carded = (Ret true, collection_run).
Proof. unfold collection_run. apply (run_Ret (CollectContractUpgradePayment (qt_ChangeID quote)) carded). vm_compute. reflexivity. Qed.

Lemma awaiting_change :
  exists c, changes_of (w_db carded) !! qt_ChangeID quote = Some c /\ bool_decide (ch_state c = ChAwaitingPayment) = true.
Proof. apply lookup_test. vm_compute. reflexivity. Qed.

Lemma upgrade_payment_collected_witness :
  exists c inv w, changes_of (w_db carded) !! qt_ChangeID quote = Some c
    /\ collected (default zeroQuote (ch_payload c)) inv true carded w
    /\ applyPaidUpgrade (default zeroQuote (ch_payload c)) inv w = (Ret tt, collection_run).
Proof.
  pose proof (upgrade_payment_collected (qt_ChangeID quote) carded collection_run true collection_Ret) as H.
  destruct awaiting_change as (c & Hc & Hs). apply bool_decide_eq_true_1 in Hs. rewrite Hc, Hs in H.
  destruct H as (_ & _ & inv & w & H1 & H2). exists c, inv, w. split; [exact Hc|]. split; [exact H1|exact H2].
Defined.
End Paying.
