(* ===== verification/RequestTheorems.v ===== *)
(** * Theorems on contract requests and on the jobs

    The URL a contract request returns to carries what it says and keeps what
    it had; the workers of the job runtime keep the invariants of the
    service. *)

From stdpp Require Import relations.
From S2P Require Import Prelude GoFloat GoStd GoTime GoFormat GoURL Json Types StripeApi Ids Ledger Charges Grants.
From S2P Require Import Store.
From S2P Require Import Events LedgerCommands LedgerGrants Cycles Entitlements ContractStore.
From S2P Require Import DocumentStore.
From S2P Require Import DueChanges WindowStore Windows Statements Finalizations Dispatcher Contracts Catalog.
From S2P Require Import EntitlementsView.
From S2P Require Import Clock StripeStore Stripe ContractRequests Runtime Samples Frames PeriodSystem ContractSystem.
From S2P Require Import AdminFrames Legs WindowInv PrepareTx ReserveTx WindowSystem Service.
From S2P Require Import ContractRuns Settlement SampleRun ContractRun.

(** ** Return URLs *)

Lemma set_value_wf m k v : wf_values m -> wf_values (set_value m k v).
Proof. intros H. by apply map_Forall_insert_2. Qed.

Lemma setParams_wf m params : wf_values m -> wf_values (setParams m params).
Proof.
  revert m. induction params as [|kv params IH]; intros m H; [done|]. simpl. apply IH.
  case_decide; [done|by apply set_value_wf].
Qed.

Lemma parse_query_wf query : wf_values (parse_query query).
Proof.
  unfold parse_query. assert (wf_values ∅) as H by apply map_Forall_empty. revert H. generalize (∅ : values).
  induction (split_bytes 38 (bytes_of_string query)) as [|s l IH]; intros m H; [done|]. simpl. apply IH.
  unfold add_setting, add_value. destruct (parse_setting s) as [[k v]|]; [|done]. apply map_Forall_insert_2; [|done].
  intros E. by apply app_nil in E as [_ E].
Qed.

(** The parameters that are set have distinct names, as the keys of a map. *)
Lemma setParams_other m params k :
  (forall v, (k, v) ∈ params -> v = "") -> setParams m params !! k = m !! k.
Proof.
  revert m. induction params as [|[k' v'] params IH]; intros m H; [done|]. simpl. rewrite IH.
  - case_decide as Hv; [done|]. unfold set_value. apply lookup_insert_ne. intros ->. apply Hv, H. constructor.
  - intros v Hv. apply H. by constructor.
Qed.

Lemma setParams_set m params k v :
  NoDup params.*1 -> (k, v) ∈ params -> v <> "" -> setParams m params !! k = Some [v].
Proof.
  revert m. induction params as [|[k' v'] params IH]; intros m Hnd Hin Hv; [by apply elem_of_nil in Hin|].
  rewrite fmap_cons, NoDup_cons in Hnd. destruct Hnd as [Hk Hnd]. simpl in *.
  apply elem_of_cons in Hin as [[= <- <-]|Hin]; [|by apply IH].
  rewrite decide_False by done. rewrite setParams_other; [apply lookup_insert_eq|].
  intros v' Hv'. destruct Hk. apply list_elem_of_fmap. by exists (k, v').
Qed.

Section ReturnURLs.
Context `{HU : NetURL}.

(** Assigning RawQuery, and printing a URL that was parsed and whose query was
    encoded. *)
Context (raw_query_set : forall q u, url_raw_query (url_with_query q u) = q).
Context (reparse : forall raw u m, url_parse raw = Some u -> wf_values m ->
  url_parse (url_string (url_with_query (encode_query m) u)) = Some (url_with_query (encode_query m) u)).

(** The return URL of a contract request still parses, and its query holds
    every parameter of the request that is not empty, once, and what the URL
    already said of any other name. *)
Theorem return_url_params raw params u :
  raw <> "" -> url_parse raw = Some u -> NoDup params.*1 ->
  exists u', url_parse (contractReturnURL raw params) = Some u'
    /\ (forall k v, (k, v) ∈ params -> v <> "" -> parse_query (url_raw_query u') !! k = Some [v])
    /\ (forall k, (forall v, (k, v) ∈ params -> v = "") ->
          parse_query (url_raw_query u') !! k = parse_query (url_raw_query u) !! k).
Proof using All.
  intros Hraw Hu Hnd. unfold contractReturnURL. rewrite bool_decide_false by done. simpl.
  destruct (bool_decide_reflect (params = [])) as [->|_].
  - exists u. split; [done|]. split; [|done]. intros k v Hin. by apply elem_of_nil in Hin.
  - rewrite Hu. pose proof (setParams_wf _ params (parse_query_wf (url_raw_query u))) as Hwf.
    eexists. split; [by apply reparse with raw|]. rewrite raw_query_set, parse_encode_query by done.
    split; [intros; by apply setParams_set|intros; by apply setParams_other].
Qed.
End ReturnURLs.

(** ** The workers *)

Section Workers.
Context {St : Type} `{HE : Env} `{HD : Digest} `{HC : TBCodec} `{!TigerBeetle St} `{HS : StripeAPI} `{HU : NetURL}.

Lemma discard_state {A} (m : @B St A) w : w_db (discard m w).2 = w_db (m w).2 /\ w_tb (discard m w).2 = w_tb (m w).2.
Proof. unfold discard, mbindM. by destruct (m w) as [[a|e|] w']. Qed.

(** What a worker runs is an operation of the client. *)
Lemma work_handler fuel order job : exists A (m : @B St A), Work fuel order job = discard m /\ handler A m.
Proof.
  destruct job; simpl; do 2 eexists; (split; [reflexivity|]); unfold handler;
    first [left; constructor | right; left; constructor | right; right; constructor].
Qed.

(** The jobs run one after the other, whatever their outcomes. *)
Definition run_jobs (fuel : nat) (order : gmap string ID -> list ID) (w : world St) (jobs : list jobRequest) : world St :=
  foldl (fun w job => (Work fuel order job w).2) w jobs.

Lemma run_jobs_steps fuel order jobs w :
  rtc (service_step (St := St)) (w_db w) (w_db (run_jobs fuel order w jobs))
  /\ ledger_grows (w_tb w) (w_tb (run_jobs fuel order w jobs)).
Proof.
  revert w. induction jobs as [|job jobs IH]; intros w; [by split|]. simpl.
  destruct (work_handler fuel order job) as (A & m & Hm & Hh). destruct (discard_state m w) as [Ed Et].
  destruct (IH (Work fuel order job w).2) as [I1 I2]. rewrite Hm in *. split.
  - eapply rtc_l; [|exact I1]. rewrite Ed. by exists A, m, w.
  - rewrite Et in *. destruct (handler_window _ _ Hh w) as [_ Hg]. by etransitivity.
Qed.

Definition queue_configured (opts : insertOpts) : Prop := op_Queue opts ∈ queueConfig.*1 /\ 0 < op_MaxAttempts opts.

(** Whatever jobs the workers run, in whatever order and with whatever
    outcomes, the window invariant and the constraints of the contract and
    document tables keep holding, closed contracts stay as they are and no
    transfer of the ledger is altered or lost; and every job the service
    inserts goes to a queue that has workers and may be attempted. *)
Theorem workers_sound fuel order jobs (w : world St) cadence :
  Inv (w_db w) -> tables_ok (w_db w) ->
  let w' := run_jobs fuel order w jobs in
  (Inv (w_db w') /\ history (w_db w) (w_db w') /\ tables_ok (w_db w') /\ closed_kept (w_db w) (w_db w')
   /\ ledger_grows (w_tb w) (w_tb w'))
  /\ Forall (fun job => queue_configured job.2) (maintenanceJobs cadence)
  /\ (forall job opts, txInsertOpts job = Some opts -> queue_configured opts).
Proof.
  intros HI HT. cbv zeta. destruct (run_jobs_steps fuel order jobs w) as [Hs Hg]. split; [|split].
  - apply service_steps in Hs as [Hw Hp]. destruct (reachable_good _ _ Hw) as [G1 G2].
    split_and!; [by apply G1|by apply G2|by eapply period_step_tables|by apply period_step_kept|done].
  - unfold queue_configured. repeat constructor; simpl; set_solver.
  - intros job opts. destruct job; intros [= <-]; (split; [simpl; set_solver|done]).
Qed.
End Workers.

(** ** On the sample installation *)

Import RefLedger Sample.

Lemma cut_bytes_fst (P : Z -> Prop) sep l :
  Forall P l -> Forall P (cut_bytes sep l).1 /\ Forall (fun x => x <> sep) (cut_bytes sep l).1.
Proof.
  induction 1 as [|b l Hb Hl [IH1 IH2]]; [by split|]. simpl. destruct (Z.eqb_spec b sep); simpl; by repeat constructor.
Qed.

Lemma cut_bytes_none sep l : Forall (fun x => x <> sep) l -> cut_bytes sep l = (l, []).
Proof. induction 1 as [|b l Hb Hl IH]; [done|]. simpl. destruct (Z.eqb_spec b sep); [done|]. by rewrite IH. Qed.

Lemma sample_raw_query q (u : @goURL net_url) : url_raw_query (url_with_query q u) = q.
Proof. apply string_of_bytes_of_string. Qed.

Lemma sample_reparse raw (u : @goURL net_url) m :
  url_parse raw = Some u -> wf_values m ->
  url_parse (url_string (url_with_query (encode_query m) u)) = Some (url_with_query (encode_query m) u).
Proof.
  intros [= <-] _. simpl. destruct (cut_bytes_fst is_byte 63 _ (bytes_are_bytes raw)) as [Hb Hn].
  pose proof (bytes_are_bytes (encode_query m)) as Hq. f_equal. destruct (bytes_of_string (encode_query m)) as [|b q].
  - by rewrite app_nil_r, bytes_of_string_of_bytes, cut_bytes_none.
  - rewrite bytes_of_string_of_bytes, cut_bytes_sep; [done..|]. apply Forall_app. split; [done|]. by constructor.
Qed.

Definition plans_url : string := "https://shop.example/plans?tab=compute&targetPlanID=old".

Lemma return_url_params_witness :
  exists u', url_parse (contractReturnURL plans_url [("contractAction", "start"); ("targetPlanID", "pro&max")]%string) = Some u'
    /\ parse_query (url_raw_query u') !! "targetPlanID"%string = Some ["pro&max"%string]
    /\ parse_query (url_raw_query u') !! "tab"%string = Some ["compute"%string].
Proof.
  destruct (return_url_params sample_raw_query sample_reparse plans_url
    [("contractAction", "start"); ("targetPlanID", "pro&max")]%string (cut_bytes 63 (bytes_of_string plans_url))
    ltac:(vm_compute; discriminate) eq_refl) as (u' & Hu & Hs & Ho).
  { simpl. apply NoDup_cons. split; [|apply NoDup_singleton]. intros H%list_elem_of_singleton. discriminate. }
  exists u'. split; [exact Hu|]. split; [apply Hs; [right; left|vm_compute; discriminate]|].
  rewrite Ho; [vm_compute; reflexivity|]. intros v Hv. exfalso. apply elem_of_cons in Hv as [Hv|Hv%list_elem_of_singleton]; discriminate (f_equal fst Hv).
Defined.

Lemma workers_sound_witness :
  let w := run_jobs 5 (fun _ => []) w0 (maintenanceJobs second).*1 in Inv (w_db w) /\ tables_ok (w_db w).
Proof.
  destruct (workers_sound 5 (fun _ => []) (maintenanceJobs second).*1 w0 second w0_Inv w0_tables)
    as [(H1 & _ & H2 & _) _].
  split; [exact H1|exact H2].
Defined.
