(* ===== verification/ServiceTheorems.v ===== *)
(** * Theorems on the service as a whole

    Every operation of the billing client conforms to the two transition
    systems, so their invariants hold of whatever sequence of calls the
    service serves. *)

From stdpp Require Import relations.
From S2P Require Import Prelude GoFloat GoStd GoTime GoFormat Json Types Ids Ledger Charges Grants Store Events.
From S2P Require Import LedgerCommands LedgerGrants Cycles Entitlements ContractStore DocumentStore DueChanges.
From S2P Require Import WindowStore Windows StripeApi GoURL.
From S2P Require Import Statements Finalizations Dispatcher Contracts Catalog Samples Frames PeriodSystem.
From S2P Require Import ContractSystem.
From S2P Require Import Legs WindowInv PrepareTx ReserveTx WindowSystem Service ContractRuns Settlement.
From S2P Require Import SampleRun.
From S2P Require Import ContractRun DocumentTheorems.

Section Theorems.
Context {St : Type} `{HE : Env} `{HD : Digest} `{HC : TBCodec} `{!TigerBeetle St} `{HS : StripeAPI} `{HU : NetURL}.

(** C3: Whatever its outcome, every operation of the billing client changes
    windows, legs and settlement commands only through the transactions of the
    window life cycle, changes contracts and documents only through the
    statements of the period system, and never alters or loses a transfer of
    the ledger. *)
Theorem operations_conform A (m : @B St A) :
  handler A m -> evolves (rtc window_tx) ledger_grows m /\ evolves (rtc period_step) ledger_grows m.
Proof. intros H. split; [by apply handler_window|by apply handler_period]. Qed.

(** C1: After any sequence of calls, whatever their outcomes, the window
    invariant and the constraints of the contract and document tables hold,
    windows and legs have only moved along their life cycle, closed contracts
    are as they were, and document numbers have only grown. *)
Theorem service_sound d d' :
  Inv d -> tables_ok d -> allocators_ok d -> rtc (service_step (St := St)) d d' ->
  Inv d' /\ history d d' /\ tables_ok d' /\ closed_kept d d' /\ allocators_ok d'
  /\ forall y n, allocators_of d !! y = Some n -> exists n', allocators_of d' !! y = Some n' /\ n <= n'.
Proof.
  intros HI HT HA Hs. apply service_steps in Hs as [Hw Hp]. destruct (reachable_good _ _ Hw) as [G1 G2].
  destruct (period_step_numbers _ _ Hp HA) as [A1 A2].
  split_and!; [by apply G1|by apply G2|by eapply period_step_tables|by apply period_step_kept|done|done].
Qed.
End Theorems.

Import RefLedger Sample.

Lemma operations_conform_witness : evolves (rtc period_step) ledger_grows (CancelContract 5 org contract_id : @B state _).
Proof. exact (proj2 (operations_conform _ (CancelContract 5 org contract_id) (or_intror (or_introl (h_cancel 5 org contract_id))))). Defined.

Lemma bootstrap_step : service_step (St := state) (w_db w0) (w_db w1).
Proof. exists unit, EnsureLedgerBootstrapped, w0. split; [right; left; constructor|]. split; reflexivity. Qed.

Lemma w0_allocators : allocators_ok (w_db w0).
Proof. apply map_Forall_empty. Qed.

Lemma service_sound_witness : Inv (w_db w1) /\ tables_ok (w_db w1).
Proof.
  destruct (service_sound (w_db w0) (w_db w1) w0_Inv w0_tables w0_allocators (rtc_once _ _ bootstrap_step)) as (H1 & _ & H2 & _).
  split; [exact H1|exact H2].
Defined.
