(* ===== verification/ProjectTypes.v ===== *)
(** * Projects: data, normalisation and validation

    Models projects/types.go and safeconv.go of the projects service
    (src/src/services/projects-service/internal/projects).

    An error is one of the sentinels of types.go; the text that wraps it is
    left out, since callers test it with errors.Is.  A nil map is [None], a
    nil pointer is [None].  A UUID is a 128-bit number; generating, printing
    and parsing one are operations of google/uuid and so of [ProjectsEnv],
    with the wall clock and the trace context of a request. *)

From S2P Require Import Prelude GoStd GoTime GoFormat Json GoText.

Abbreviation uuid := Z.
Definition uuid_Nil : uuid := 0.

Class ProjectsEnv : Type := {
  clock_at : nat -> time;
  uuid_New : nat -> uuid;
  uuid_String : uuid -> string;
  uuid_Parse : string -> option uuid;
  (** trace id and traceparent of the request's span *)
  trace_context : string * string
}.

Inductive projectError : Type :=
| ErrInvalid
| ErrNotFound
| ErrConflict
| ErrArchived
| ErrStoreUnavailable.

#[export] Instance projectError_eq_dec : EqDecision projectError.
Proof. solve_decision. Defined.

Abbreviation pres := (outcome projectError).

Inductive lifeState : Type := StateActive | StateArchived.

#[export] Instance lifeState_eq_dec : EqDecision lifeState.
Proof. solve_decision. Defined.

Definition state_text (st : lifeState) : string :=
  match st with StateActive => "active" | StateArchived => "archived" end.

Definition state_of_text (s : string) : option lifeState :=
  if decide (s = "active") then Some StateActive else if decide (s = "archived") then Some StateArchived else None.

Definition EnvironmentKindProduction : string := "production".
Definition EnvironmentKindPreview : string := "preview".
Definition EnvironmentKindDevelopment : string := "development".
Definition EnvironmentKindCustom : string := "custom".

Definition environment_kinds : list string :=
  [EnvironmentKindProduction; EnvironmentKindPreview; EnvironmentKindDevelopment; EnvironmentKindCustom].

Abbreviation goMap := (option (gmap string string)).

Record Principal : Type := mkPrincipal { pc_Subject : string; pc_OrgID : string; pc_Email : string }.

Record Project : Type := mkProject {
  pj_ID : uuid;
  pj_OrgID : string;
  pj_Slug : string;
  pj_RedirectedFromSlug : string;
  pj_DisplayName : string;
  pj_Description : string;
  pj_State : lifeState;
  pj_Version : Z;
  pj_CreatedBy : string;
  pj_UpdatedBy : string;
  pj_CreatedAt : time;
  pj_UpdatedAt : time;
  pj_ArchivedAt : option time
}.

Record Environment : Type := mkEnvironment {
  en_ID : uuid;
  en_ProjectID : uuid;
  en_OrgID : string;
  en_Slug : string;
  en_DisplayName : string;
  en_Kind : string;
  en_State : lifeState;
  en_ProtectionPolicy : goMap;
  en_Version : Z;
  en_CreatedBy : string;
  en_UpdatedBy : string;
  en_CreatedAt : time;
  en_UpdatedAt : time;
  en_ArchivedAt : option time
}.

Record ProjectEvent : Type := mkProjectEvent {
  pe_ID : uuid;
  pe_OrgID : string;
  pe_ProjectID : uuid;
  pe_EnvironmentID : uuid;
  pe_EventType : string;
  pe_ActorID : string;
  pe_Payload : gmap string string;
  pe_TraceID : string;
  pe_Traceparent : string;
  pe_CreatedAt : time
}.

Record CreateProjectRequest : Type := mkCreateProject {
  cr_Slug : string;
  cr_DisplayName : string;
  cr_Description : string;
  cr_IdempotencyKey : string
}.

Record UpdateProjectRequest : Type := mkUpdateProject {
  up_ProjectID : uuid;
  up_Version : Z;
  up_Slug : option string;
  up_DisplayName : option string;
  up_Description : option string;
  up_IdempotencyKey : string
}.

Record ProjectLifecycleRequest : Type := mkProjectLifecycle {
  pl_ProjectID : uuid;
  pl_Version : Z;
  pl_IdempotencyKey : string
}.

Record ListProjectsRequest : Type := mkListProjects { ls_State : string; ls_Limit : Z; ls_Cursor : string }.

Record CreateEnvironmentRequest : Type := mkCreateEnvironment {
  ce_ProjectID : uuid;
  ce_Slug : string;
  ce_DisplayName : string;
  ce_Kind : string;
  ce_ProtectionPolicy : goMap;
  ce_IdempotencyKey : string
}.

Record UpdateEnvironmentRequest : Type := mkUpdateEnvironment {
  ue_ProjectID : uuid;
  ue_EnvironmentID : uuid;
  ue_Version : Z;
  ue_DisplayName : string;
  ue_ProtectionPolicy : goMap;
  ue_IdempotencyKey : string
}.

Record EnvironmentLifecycleRequest : Type := mkEnvironmentLifecycle {
  el_ProjectID : uuid;
  el_EnvironmentID : uuid;
  el_Version : Z;
  el_IdempotencyKey : string
}.

Record ResolveProjectRequest : Type := mkResolveProject {
  rq_OrgID : string;
  rq_ProjectID : uuid;
  rq_Slug : string;
  rq_RequireActive : bool
}.

Record ResolveEnvironmentRequest : Type := mkResolveEnvironment {
  re_OrgID : string;
  re_ProjectID : uuid;
  re_EnvironmentID : uuid;
  re_Slug : string;
  re_RequireActive : bool
}.

(** [if cond { return ErrInvalid }] *)
Definition invalid_if (b : bool) : pres unit := if b then Err ErrInvalid else Ret tt.

Definition ValidatePrincipal (principal : Principal) : pres unit :=
  let! _ := invalid_if (bool_decide (trim_space (pc_Subject principal) = "")) in
  invalid_if (bool_decide (trim_space (pc_OrgID principal) = "")).

(** ** Text *)

Definition normalizeHumanText (value : string) : string := join_strings " " (fields (trim_space value)).

(** U+202A to U+202E and U+2066 to U+2069 *)
Definition isBidiOverride (r : Z) : bool := (8234 <=? r) && (r <=? 8238) || (8294 <=? r) && (r <=? 8297).

Definition validateHumanText (value : string) (minRunes maxRunes maxBytes : Z) : pres unit :=
  let rs := runes value in
  let! _ := invalid_if (Z.of_nat (length rs) <? minRunes) in
  let! _ := invalid_if ((maxRunes <? Z.of_nat (length rs)) || (maxBytes <? Z.of_nat (String.length value))) in
  invalid_if (existsb (fun r => is_control r || isBidiOverride r) rs).

Definition slug_alnum (b : Z) : bool := (97 <=? b) && (b <=? 122) || (48 <=? b) && (b <=? 57).

(** The loop of normalizeSlug; [out] is the text built so far, last byte
    first.  Spaces are found by their encodings; any other byte outside ASCII
    belongs to a rune the loop skips. *)
Fixpoint slug_loop (fuel : nat) (previousDash : bool) (out l : list Z) : list Z :=
  match fuel with
  | O => out
  | S fuel' =>
      let dash l' :=
        match previousDash, out with
        | false, _ :: _ => slug_loop fuel' true (45 :: out) l'
        | _, _ => slug_loop fuel' previousDash out l'
        end in
      match strip_any space_bytes l, l with
      | Some l', _ => dash l'
      | None, b :: l' =>
          if slug_alnum b then slug_loop fuel' false (b :: out) l'
          else if (b =? 45) || (b =? 95) then dash l'
          else slug_loop fuel' previousDash out l'
      | None, [] => out
      end
  end.

(** strings.Trim(s, "-") *)
Fixpoint drop_dashes (l : list Z) : list Z :=
  match l with
  | 45 :: l' => drop_dashes l'
  | _ => l
  end.

Definition trim_dashes (l : list Z) : list Z := rev (drop_dashes (rev (drop_dashes l))).

Definition normalizeSlug (value : string) : string :=
  let l := bytes_of_string (to_lower (trim_space value)) in
  string_of_bytes (trim_dashes (rev (slug_loop (length l) false [] l))).

Example normalizeSlug_ex : normalizeSlug "  My  new_Project (2) -- " = "my-new-project-2"%string.
Proof. vm_compute. reflexivity. Qed.

Definition validateSlug (value : string) : pres unit :=
  let! _ := invalid_if (Z.of_nat (String.length value) <? 1) in
  let! _ := invalid_if (80 <? Z.of_nat (String.length value)) in
  invalid_if (negb (forallb (fun b => slug_alnum b || (b =? 45)) (bytes_of_string value))).

Definition validatePolicyText (key value : string) : pres unit :=
  let key := trim_space key in
  let! _ := invalid_if (bool_decide (key = "") || (80 <? Z.of_nat (String.length key))) in
  let! _ := invalid_if (240 <? Z.of_nat (String.length value)) in
  validateHumanText value 0 120 240.

(** Every error is ErrInvalid, so the order in which the map is visited does
    not show. *)
Definition validatePolicy (policy : goMap) : pres unit :=
  invalid_if (negb (forallb (fun kv => is_ret (validatePolicyText kv.1 kv.2)) (map_to_list (default ∅ policy)))).

Definition validateOptional (check : string -> pres unit) (value : option string) : pres unit :=
  match value with Some s => check s | None => Ret tt end.

(** ** Requests *)

Definition NormalizeCreateProject (input : CreateProjectRequest) : pres CreateProjectRequest :=
  let displayName := normalizeHumanText (cr_DisplayName input) in
  let description := normalizeHumanText (cr_Description input) in
  let slug := normalizeSlug (cr_Slug input) in
  let slug := if decide (slug = "") then normalizeSlug displayName else slug in
  let! _ := validateSlug slug in
  let! _ := validateHumanText displayName 1 120 240 in
  let! _ := validateHumanText description 0 500 1000 in
  Ret (mkCreateProject slug displayName description (cr_IdempotencyKey input)).

Definition NormalizeUpdateProject (input : UpdateProjectRequest) : pres UpdateProjectRequest :=
  let! _ := invalid_if (up_Version input <? 0) in
  let slug := normalizeSlug <$> up_Slug input in
  let! _ := validateOptional validateSlug slug in
  let displayName := normalizeHumanText <$> up_DisplayName input in
  let! _ := validateOptional (fun s => validateHumanText s 1 120 240) displayName in
  let description := normalizeHumanText <$> up_Description input in
  let! _ := validateOptional (fun s => validateHumanText s 0 500 1000) description in
  Ret (mkUpdateProject (up_ProjectID input) (up_Version input) slug displayName description (up_IdempotencyKey input)).

Definition NormalizeCreateEnvironment (input : CreateEnvironmentRequest) : pres CreateEnvironmentRequest :=
  let slug := normalizeSlug (ce_Slug input) in
  let displayName := normalizeHumanText (ce_DisplayName input) in
  let! _ := validateSlug slug in
  let! _ := validateHumanText displayName 1 120 240 in
  let! kind := (if bool_decide (ce_Kind input ∈ environment_kinds) then Ret (ce_Kind input)
                else if decide (ce_Kind input = "") then Ret EnvironmentKindCustom else Err ErrInvalid) in
  let! _ := validatePolicy (ce_ProtectionPolicy input) in
  Ret (mkCreateEnvironment (ce_ProjectID input) slug displayName kind (ce_ProtectionPolicy input) (ce_IdempotencyKey input)).

Definition NormalizeUpdateEnvironment (input : UpdateEnvironmentRequest) : pres UpdateEnvironmentRequest :=
  let displayName := normalizeHumanText (ue_DisplayName input) in
  let! _ := invalid_if (ue_Version input <? 0) in
  let! _ := (if decide (displayName = "") then Ret tt else validateHumanText displayName 1 120 240) in
  let! _ := validatePolicy (ue_ProtectionPolicy input) in
  Ret (mkUpdateEnvironment (ue_ProjectID input) (ue_EnvironmentID input) (ue_Version input) displayName
         (ue_ProtectionPolicy input) (ue_IdempotencyKey input)).

(** ** safeconv.go *)

Definition int32FromInt (value : Z) : pres Z :=
  if (value <? i32_min) || (i32_max <? value) then Panic else Ret value.
