(* ===== verification/ProjectStore.v ===== *)
(** * Projects: tables and statements

    The tables of projects-service/migrations/001_initial_schema.up.sql and
    the statements of internal/store/queries.

    Conventions.  A statement fails with a unique violation, which the code
    tells apart, or with any other violation (NOT NULL, CHECK, foreign key,
    bigint range); checks come before unique indexes and those before foreign
    keys.  Rows of projects and environments are never deleted.  JSON columns
    are kept by value: what is marshalled into them is what is read back.
    Columns no query reads and indexes are left out; text columns accept any
    string; a statement does not fail for a reason outside the database. *)

From S2P Require Import Prelude GoStd GoTime Json GoText ProjectTypes.

Inductive violation : Type := UniqueViolation | OtherViolation.

Abbreviation sres := (outcome violation).

(** A constraint that must hold. *)
Definition require (v : violation) (b : bool) : sres unit := if b then Ret tt else Err v.

(** ** Rows *)

Record projectRow : Type := mkProjectRow {
  pr_org_id : string;
  pr_slug : string;
  pr_display_name : string;
  pr_description : string;
  pr_state : lifeState;
  pr_version : Z;
  pr_created_by : string;
  pr_updated_by : string;
  pr_created_at : time;
  pr_updated_at : time;
  pr_archived_at : option time
}.

Record redirectRow : Type := mkRedirectRow { rd_project_id : uuid; rd_created_by : string; rd_created_at : time }.

Record environmentRow : Type := mkEnvironmentRow {
  er_project_id : uuid;
  er_org_id : string;
  er_slug : string;
  er_display_name : string;
  er_kind : string;
  er_state : lifeState;
  er_protection_policy : goMap;
  er_version : Z;
  er_created_by : string;
  er_updated_by : string;
  er_created_at : time;
  er_updated_at : time;
  er_archived_at : option time
}.

(** idempotencyProjectPayload and idempotencyEnvironmentPayload of store.go,
    with result_kind. *)
Record idempotencyProjectPayload : Type := mkProjectPayload {
  ip_ID : uuid;
  ip_OrgID : string;
  ip_Slug : string;
  ip_DisplayName : string;
  ip_Description : string;
  ip_State : lifeState;
  ip_Version : Z;
  ip_CreatedBy : string;
  ip_UpdatedBy : string;
  ip_CreatedAt : time;
  ip_UpdatedAt : time;
  ip_ArchivedAt : option time
}.

Record idempotencyEnvironmentPayload : Type := mkEnvironmentPayload {
  ie_ID : uuid;
  ie_ProjectID : uuid;
  ie_OrgID : string;
  ie_Slug : string;
  ie_DisplayName : string;
  ie_Kind : string;
  ie_State : lifeState;
  ie_ProtectionPolicy : gmap string string;
  ie_Version : Z;
  ie_CreatedBy : string;
  ie_UpdatedBy : string;
  ie_CreatedAt : time;
  ie_UpdatedAt : time;
  ie_ArchivedAt : option time
}.

Inductive resultPayload : Type :=
| ResultProject (payload : idempotencyProjectPayload)
| ResultEnvironment (payload : idempotencyEnvironmentPayload).

Record idempotencyRow : Type := mkIdempotencyRow {
  ir_request_hash : string;
  ir_result_project_id : uuid;
  ir_result_environment_id : option uuid;
  ir_result : resultPayload;
  ir_created_at : time
}.

Record projectEventRow : Type := mkProjectEventRow {
  ev_org_id : string;
  ev_project_id : uuid;
  ev_environment_id : option uuid;
  ev_event_type : string;
  ev_actor_id : string;
  ev_payload : gmap string string;
  ev_trace_id : string;
  ev_traceparent : string;
  ev_created_at : time
}.

Record ProjectDB : Type := mkProjectDB {
  pd_projects : gmap uuid projectRow;
  pd_redirects : gmap (string * string) redirectRow;
  pd_environments : gmap uuid environmentRow;
  pd_records : gmap (string * string * string) idempotencyRow;
  pd_events : gmap uuid projectEventRow
}.

Definition set_projects x d := mkProjectDB x (pd_redirects d) (pd_environments d) (pd_records d) (pd_events d).
Definition set_redirects x d := mkProjectDB (pd_projects d) x (pd_environments d) (pd_records d) (pd_events d).
Definition set_environments x d := mkProjectDB (pd_projects d) (pd_redirects d) x (pd_records d) (pd_events d).
Definition set_records x d := mkProjectDB (pd_projects d) (pd_redirects d) (pd_environments d) x (pd_events d).
Definition set_project_events x d := mkProjectDB (pd_projects d) (pd_redirects d) (pd_environments d) (pd_records d) x.

(** ** Constraints *)

(** slug ~ '^[a-z0-9]([a-z0-9-]{0,78}[a-z0-9])?$' *)
Definition slug_check (s : string) : bool :=
  let l := bytes_of_string s in
  (Z.of_nat (length l) <=? 80) && forallb (fun b => slug_alnum b || (b =? 45)) l
  && match head l, last l with Some a, Some b => slug_alnum a && slug_alnum b | _, _ => false end.

(** length(btrim(org_id)) > 0 *)
Definition org_check (org : string) : bool := negb (forallb (Z.eqb 32) (bytes_of_string org)).

Definition hash_check (h : string) : bool :=
  let l := bytes_of_string h in
  (length l =? 64)%nat && forallb (fun b => (97 <=? b) && (b <=? 102) || (48 <=? b) && (b <=? 57)) l.

Definition nonempty (s : string) : bool := negb (bool_decide (s = "")).

Definition version_check (v : Z) : bool := (1 <=? v) && (v <=? i64_max).

Definition project_checks (p : projectRow) : bool :=
  org_check (pr_org_id p) && slug_check (pr_slug p) && nonempty (pr_display_name p) && version_check (pr_version p)
  && nonempty (pr_created_by p) && nonempty (pr_updated_by p).

Definition environment_checks (e : environmentRow) : bool :=
  org_check (er_org_id e) && slug_check (er_slug e) && nonempty (er_display_name e)
  && bool_decide (er_kind e ∈ environment_kinds) && version_check (er_version e)
  && nonempty (er_created_by e) && nonempty (er_updated_by e).

(** FOREIGN KEY (project_id, org_id) REFERENCES projects *)
Definition project_of (d : ProjectDB) (id : uuid) (org : string) : bool :=
  match pd_projects d !! id with Some p => bool_decide (pr_org_id p = org) | None => false end.

Definition environment_of (d : ProjectDB) (id project : uuid) (org : string) : bool :=
  match pd_environments d !! id with
  | Some e => bool_decide (er_project_id e = project) && bool_decide (er_org_id e = org)
  | None => false
  end.

(** A row other than [id] that satisfies the test. *)
Definition other_row {A} (test : A -> bool) (id : uuid) (m : gmap uuid A) : bool :=
  existsb (fun kv => negb (kv.1 =? id) && test kv.2) (map_to_list m).

Definition same_slug (p q : projectRow) : bool :=
  bool_decide (pr_org_id p = pr_org_id q) && bool_decide (pr_slug p = pr_slug q).

Definition same_env_slug (e f : environmentRow) : bool :=
  (er_project_id e =? er_project_id f) && bool_decide (er_slug e = er_slug f).

(** Writing a row of projects: CHECK, then UNIQUE (org_id, slug). *)
Definition put_project (id : uuid) (p : projectRow) (d : ProjectDB) : sres ProjectDB :=
  let! _ := require OtherViolation (project_checks p) in
  let! _ := require UniqueViolation (negb (other_row (same_slug p) id (pd_projects d))) in
  Ret (set_projects (<[id := p]> (pd_projects d)) d).

(** CHECK, then UNIQUE (project_id, slug). *)
Definition put_environment (id : uuid) (e : environmentRow) (d : ProjectDB) : sres ProjectDB :=
  let! _ := require OtherViolation (environment_checks e) in
  let! _ := require UniqueViolation (negb (other_row (same_env_slug e) id (pd_environments d))) in
  Ret (set_environments (<[id := e]> (pd_environments d)) d).

(** NOT NULL *)
Definition not_null {A} (x : option A) : sres A := match x with Some a => Ret a | None => Err OtherViolation end.

(** store.go: nullableUUID *)
Definition nullableUUID (value : uuid) : option uuid := if value =? uuid_Nil then None else Some value.

(** ** Commands (queries/commands.sql) *)

Definition InsertProject (id : uuid) (org slug displayName description : string) (st : lifeState) (version : Z)
    (createdBy updatedBy : string) (createdAt updatedAt : option time) (d : ProjectDB) : sres ProjectDB :=
  let! created := not_null createdAt in
  let! updated := not_null updatedAt in
  let row := mkProjectRow org slug displayName description st version createdBy updatedBy created updated None in
  let! _ := require OtherViolation (project_checks row) in
  let! _ := require UniqueViolation (bool_decide (pd_projects d !! id = None)) in
  put_project id row d.

Definition update_project_row (slug displayName description updatedBy : string) (updated : time) (p : projectRow) : projectRow :=
  mkProjectRow (pr_org_id p) slug displayName description (pr_state p) (pr_version p + 1) (pr_created_by p) updatedBy
    (pr_created_at p) updated (pr_archived_at p).

(** Returns the number of rows. *)
Definition UpdateProjectRow (org : string) (id : uuid) (slug displayName description updatedBy : string)
    (updatedAt : option time) (version : Z) (d : ProjectDB) : sres (Z * ProjectDB) :=
  match pd_projects d !! id with
  | Some p =>
      if bool_decide (pr_org_id p = org) && (pr_version p =? version) && bool_decide (pr_state p = StateActive) then
        let! updated := not_null updatedAt in
        let! d' := put_project id (update_project_row slug displayName description updatedBy updated p) d in
        Ret (1, d')
      else Ret (0, d)
  | None => Ret (0, d)
  end.

Definition set_project_row (st : lifeState) (updatedBy : string) (updated : time) (archivedAt : option time)
    (p : projectRow) : projectRow :=
  mkProjectRow (pr_org_id p) (pr_slug p) (pr_display_name p) (pr_description p) st (pr_version p + 1) (pr_created_by p)
    updatedBy (pr_created_at p) updated archivedAt.

Definition SetProjectState (org : string) (id : uuid) (st : lifeState) (updatedBy : string) (updatedAt : option time)
    (version : Z) (archivedAt : option time) (d : ProjectDB) : sres (Z * ProjectDB) :=
  match pd_projects d !! id with
  | Some p =>
      if bool_decide (pr_org_id p = org) && (pr_version p =? version) then
        let! updated := not_null updatedAt in
        let! d' := put_project id (set_project_row st updatedBy updated archivedAt p) d in
        Ret (1, d')
      else Ret (0, d)
  | None => Ret (0, d)
  end.

(** ON CONFLICT DO NOTHING *)
Definition InsertProjectSlugRedirect (org slug : string) (project : uuid) (createdBy : string) (createdAt : option time)
    (d : ProjectDB) : sres ProjectDB :=
  let! created := not_null createdAt in
  let! _ := require OtherViolation (org_check org && slug_check slug && nonempty createdBy) in
  if bool_decide (pd_redirects d !! (org, slug) = None) then
    let! _ := require OtherViolation (project_of d project org) in
    Ret (set_redirects (<[(org, slug) := mkRedirectRow project createdBy created]> (pd_redirects d)) d)
  else Ret d.

Definition InsertEnvironment (id project : uuid) (org slug displayName kind : string) (st : lifeState) (policy : goMap)
    (version : Z) (createdBy updatedBy : string) (createdAt updatedAt : option time) (d : ProjectDB) : sres ProjectDB :=
  let! created := not_null createdAt in
  let! updated := not_null updatedAt in
  let row := mkEnvironmentRow project org slug displayName kind st policy version createdBy updatedBy created updated None in
  let! _ := require OtherViolation (environment_checks row) in
  let! _ := require UniqueViolation (bool_decide (pd_environments d !! id = None)) in
  let! d' := put_environment id row d in
  let! _ := require OtherViolation (project_of d project org) in
  Ret d'.

Definition update_environment_row (displayName : string) (policy : goMap) (updatedBy : string) (updated : time)
    (e : environmentRow) : environmentRow :=
  mkEnvironmentRow (er_project_id e) (er_org_id e) (er_slug e) displayName (er_kind e) (er_state e) policy (er_version e + 1)
    (er_created_by e) updatedBy (er_created_at e) updated (er_archived_at e).

Definition UpdateEnvironmentRow (org : string) (project id : uuid) (displayName : string) (policy : goMap) (updatedBy : string)
    (updatedAt : option time) (version : Z) (d : ProjectDB) : sres (Z * ProjectDB) :=
  match pd_environments d !! id with
  | Some e =>
      if bool_decide (er_org_id e = org) && (er_project_id e =? project) && (er_version e =? version)
         && bool_decide (er_state e = StateActive) then
        let! updated := not_null updatedAt in
        let! d' := put_environment id (update_environment_row displayName policy updatedBy updated e) d in
        Ret (1, d')
      else Ret (0, d)
  | None => Ret (0, d)
  end.

Definition set_environment_row (st : lifeState) (updatedBy : string) (updated : time) (archivedAt : option time)
    (e : environmentRow) : environmentRow :=
  mkEnvironmentRow (er_project_id e) (er_org_id e) (er_slug e) (er_display_name e) (er_kind e) st (er_protection_policy e)
    (er_version e + 1) (er_created_by e) updatedBy (er_created_at e) updated archivedAt.

Definition SetEnvironmentState (org : string) (project id : uuid) (st : lifeState) (updatedBy : string)
    (updatedAt : option time) (version : Z) (archivedAt : option time) (d : ProjectDB) : sres (Z * ProjectDB) :=
  match pd_environments d !! id with
  | Some e =>
      if bool_decide (er_org_id e = org) && (er_project_id e =? project) && (er_version e =? version) then
        let! updated := not_null updatedAt in
        let! d' := put_environment id (set_environment_row st updatedBy updated archivedAt e) d in
        Ret (1, d')
      else Ret (0, d)
  | None => Ret (0, d)
  end.

Definition event_references (e : projectEventRow) (d : ProjectDB) : bool :=
  project_of d (ev_project_id e) (ev_org_id e)
  && match ev_environment_id e with
     | Some env => environment_of d env (ev_project_id e) (ev_org_id e)
     | None => true
     end.

Definition InsertProjectEvent (id : uuid) (org : string) (project : uuid) (environment : option uuid)
    (eventType actor : string) (payload : gmap string string) (traceID traceparent : string) (createdAt : option time)
    (d : ProjectDB) : sres ProjectDB :=
  let! created := not_null createdAt in
  let row := mkProjectEventRow org project environment eventType actor payload traceID traceparent created in
  let! _ := require OtherViolation (org_check org && nonempty eventType && nonempty actor) in
  let! _ := require UniqueViolation (bool_decide (pd_events d !! id = None)) in
  let! _ := require OtherViolation (event_references row d) in
  Ret (set_project_events (<[id := row]> (pd_events d)) d).

Definition record_references (org : string) (r : idempotencyRow) (d : ProjectDB) : bool :=
  project_of d (ir_result_project_id r) org
  && match ir_result_environment_id r with
     | Some env => environment_of d env (ir_result_project_id r) org
     | None => true
     end.

(** CHECK: an environment id exactly on results of kind environment. *)
Definition record_kind_check (r : idempotencyRow) : bool :=
  match ir_result r, ir_result_environment_id r with
  | ResultProject _, None | ResultEnvironment _, Some _ => true
  | _, _ => false
  end.

Definition insert_record (org operation keyHash : string) (row : idempotencyRow) (d : ProjectDB) : sres ProjectDB :=
  let! _ := require OtherViolation (org_check org && nonempty operation && hash_check keyHash
                                     && hash_check (ir_request_hash row) && record_kind_check row) in
  let! _ := require UniqueViolation (bool_decide (pd_records d !! (org, operation, keyHash) = None)) in
  let! _ := require OtherViolation (record_references org row d) in
  Ret (set_records (<[(org, operation, keyHash) := row]> (pd_records d)) d).

Definition InsertProjectIdempotencyRecord (org operation keyHash requestHash : string) (project : uuid)
    (payload : idempotencyProjectPayload) (createdAt : option time) (d : ProjectDB) : sres ProjectDB :=
  let! created := not_null createdAt in
  insert_record org operation keyHash (mkIdempotencyRow requestHash project None (ResultProject payload) created) d.

Definition InsertEnvironmentIdempotencyRecord (org operation keyHash requestHash : string) (project : uuid)
    (environment : option uuid) (payload : idempotencyEnvironmentPayload) (createdAt : option time) (d : ProjectDB)
    : sres ProjectDB :=
  let! created := not_null createdAt in
  insert_record org operation keyHash (mkIdempotencyRow requestHash project environment (ResultEnvironment payload) created) d.

(** ** Reads (queries/reads.sql) *)

Definition GetProjectByID (org : string) (id : uuid) (d : ProjectDB) : option (uuid * projectRow) :=
  match pd_projects d !! id with
  | Some p => if decide (pr_org_id p = org) then Some (id, p) else None
  | None => None
  end.

Definition has_slug (org slug : string) (p : projectRow) : bool :=
  bool_decide (pr_org_id p = org) && bool_decide (pr_slug p = slug).

Definition GetProjectBySlug (org slug : string) (d : ProjectDB) : option (uuid * projectRow) :=
  head (filter (fun kv => has_slug org slug kv.2 = true) (map_to_list (pd_projects d))).

Definition GetProjectByRedirectSlug (org slug : string) (d : ProjectDB) : option (uuid * projectRow) :=
  match pd_redirects d !! (org, slug) with
  | Some r => GetProjectByID org (rd_project_id r) d
  | None => None
  end.

Definition ProjectSlugUnavailable (org slug : string) (d : ProjectDB) : bool :=
  existsb (fun kv => has_slug org slug kv.2) (map_to_list (pd_projects d))
  || negb (bool_decide (pd_redirects d !! (org, slug) = None)).

Definition ProjectSlugUnavailableForOtherProject (org slug : string) (id : uuid) (d : ProjectDB) : bool :=
  other_row (has_slug org slug) id (pd_projects d) || negb (bool_decide (pd_redirects d !! (org, slug) = None)).

(** A position in a listing: (created_at, id). *)
Abbreviation position := (time * uuid)%type.

(** (a, i) < (b, j) *)
Definition before (p q : position) : bool := (p.1 <? q.1) || ((p.1 =? q.1) && (p.2 <? q.2)).

(** ORDER BY created_at DESC, id DESC *)
Definition newest_first {A} (at_ : A -> time) (a b : uuid * A) : bool := before (at_ b.2, b.1) (at_ a.2, a.1).

(** WHERE test AND (created_at, id) < cursor ORDER BY .. LIMIT n; no cursor
    for the queries without one. *)
Definition page {A} (at_ : A -> time) (test : A -> bool) (cursor : option position) (limit : Z) (m : gmap uuid A)
    : list (uuid * A) :=
  take (Z.to_nat limit)
    (sort_slice (newest_first at_)
       (filter (fun kv => test kv.2 && match cursor with Some c => before (at_ kv.2, kv.1) c | None => true end = true)
          (map_to_list m))).

Definition in_org (org : string) (p : projectRow) : bool := bool_decide (pr_org_id p = org).
Definition in_org_state (org : string) (st : lifeState) (p : projectRow) : bool :=
  bool_decide (pr_org_id p = org) && bool_decide (pr_state p = st).

Definition ListProjects_rows (org : string) (limit : Z) (d : ProjectDB) : list (uuid * projectRow) :=
  page pr_created_at (in_org org) None limit (pd_projects d).
Definition ListProjectsByState (org : string) (st : lifeState) (limit : Z) (d : ProjectDB) : list (uuid * projectRow) :=
  page pr_created_at (in_org_state org st) None limit (pd_projects d).
Definition ListProjectsAfterCursor (org : string) (c : position) (limit : Z) (d : ProjectDB) : list (uuid * projectRow) :=
  page pr_created_at (in_org org) (Some c) limit (pd_projects d).
Definition ListProjectsByStateAfterCursor (org : string) (st : lifeState) (c : position) (limit : Z) (d : ProjectDB)
    : list (uuid * projectRow) :=
  page pr_created_at (in_org_state org st) (Some c) limit (pd_projects d).

Definition GetEnvironmentByID (org : string) (project id : uuid) (d : ProjectDB) : option (uuid * environmentRow) :=
  match pd_environments d !! id with
  | Some e => if decide (er_org_id e = org /\ er_project_id e = project) then Some (id, e) else None
  | None => None
  end.

Definition env_in (org : string) (project : uuid) (e : environmentRow) : bool :=
  bool_decide (er_org_id e = org) && (er_project_id e =? project).

Definition GetEnvironmentBySlug (org : string) (project : uuid) (slug : string) (d : ProjectDB)
    : option (uuid * environmentRow) :=
  head (filter (fun kv => env_in org project kv.2 && bool_decide (er_slug kv.2 = slug) = true)
          (map_to_list (pd_environments d))).

(** ORDER BY kind, slug *)
Definition ListEnvironments_rows (org : string) (project : uuid) (d : ProjectDB) : list (uuid * environmentRow) :=
  sort_slice (lex_key str_eqb str_ltb (fun kv => er_kind kv.2) (on_key str_ltb (fun kv => er_slug kv.2)))
    (filter (fun kv => env_in org project kv.2 = true) (map_to_list (pd_environments d))).

Definition GetProjectIdempotencyRecord (org operation keyHash : string) (d : ProjectDB) : option idempotencyRow :=
  pd_records d !! (org, operation, keyHash).

Definition event_in_org (org : string) (e : projectEventRow) : bool := bool_decide (ev_org_id e = org).

Definition ListEvents_rows (org : string) (limit : Z) (d : ProjectDB) : list (uuid * projectEventRow) :=
  page ev_created_at (event_in_org org) None limit (pd_events d).
Definition ListEventsAfterCursor (org : string) (c : position) (limit : Z) (d : ProjectDB) : list (uuid * projectEventRow) :=
  page ev_created_at (event_in_org org) (Some c) limit (pd_events d).
