(* ===== verification/ProjectService.v ===== *)
(** * Projects: the store's operations

    Models projects/store.go.  service.go only traces each call and passes it
    on.

    An operation runs in a world of the database, the wall clock and the
    source of UUIDs.  [InTx] undoes the database changes of a failed body, as
    the deferred rollback does; a commit does not fail.  The advisory lock on
    the idempotency key needs no counterpart, because a transaction is atomic
    here.  In PostgreSQL a statement that failed has aborted its transaction,
    so that reading the record again after a unique violation fails too. *)

From S2P Require Import Prelude GoStd GoTime GoFormat Json GoText ProjectTypes ProjectStore.

Record pworld : Type := mkPWorld { pw_db : ProjectDB; pw_ticks : nat; pw_ids : nat }.

Definition defaultListLimit : Z := 50.

(** Of a request: the hashes of its key and content. *)
Record requestKey : Type := mkRequestKey {
  rk_org : string;
  rk_operation : string;
  rk_keyHash : string;
  rk_requestHash : string
}.

Section Projects.
Context `{ProjectsEnv} `{Digest}.

Abbreviation P := (M pworld projectError).

(** ** Running statements *)

Definition now : P time := fun w => (Ret (clock_at (pw_ticks w)), mkPWorld (pw_db w) (S (pw_ticks w)) (pw_ids w)).
Definition newUUID : P uuid := fun w => (Ret (uuid_New (pw_ids w)), mkPWorld (pw_db w) (pw_ticks w) (S (pw_ids w))).

Definition with_pdb (d : ProjectDB) (w : pworld) : pworld := mkPWorld d (pw_ticks w) (pw_ids w).

Definition read {A} (f : ProjectDB -> A) : P A := fun w => (Ret (f (pw_db w)), w).

(** Runs a statement; [onUnique] is the error of a unique violation. *)
Definition run {A} (onUnique : projectError) (f : ProjectDB -> sres (A * ProjectDB)) : P A := fun w =>
  match f (pw_db w) with
  | Ret (a, d) => (Ret a, with_pdb d w)
  | Err UniqueViolation => (Err onUnique, w)
  | Err OtherViolation => (Err ErrStoreUnavailable, w)
  | Panic => (Panic, w)
  end.

Definition exec (onUnique : projectError) (f : ProjectDB -> sres ProjectDB) : P unit :=
  run onUnique (fun d => let! d' := f d in Ret (tt, d')).

Definition InTx {A} (m : P A) : P A := fun w =>
  match m w with
  | (Ret a, w') => (Ret a, w')
  | (r, w') => (r, with_pdb (pw_db w) w')
  end.

(** [if cond { return err }] *)
Definition fail_if (b : bool) (e : projectError) : P unit := if b then mfail e else mret tt.

(** ** Small functions *)

Definition pgOrgID (orgID : string) : pres string :=
  let org := trim_space orgID in if decide (org = "") then Err ErrInvalid else Ret org.

Definition normalizeLimit (limit : Z) : Z := if limit <=? 0 then defaultListLimit else if 100 <? limit then 100 else limit.

Definition requireIdempotencyKey (value : string) : pres string :=
  let value := trim_space value in
  if decide (value = "") then Err ErrInvalid else Ret (hex_encode (digest (bytes_of_string value))).

Definition idempotencyRequestHash (value : list (string * jval)) : string :=
  hex_encode (digest (bytes_of_string (json_marshal (JObj value)))).

(** A map[string]string and a *string as values to marshal. *)
Definition json_map (m : goMap) : jval :=
  match m with Some m => JObj ((fun kv => (kv.1, JStr kv.2)) <$> map_to_list m) | None => JNull end.
Definition json_optional (s : option string) : jval := match s with Some s => JStr s | None => JNull end.

Definition projectFromStore (row : uuid * projectRow) : Project :=
  let '(id, p) := row in
  mkProject id (pr_org_id p) (pr_slug p) "" (pr_display_name p) (pr_description p) (pr_state p) (pr_version p)
    (pr_created_by p) (pr_updated_by p) (pr_created_at p) (pr_updated_at p) (pr_archived_at p).

Definition environmentFromStore (row : uuid * environmentRow) : Environment :=
  let '(id, e) := row in
  mkEnvironment id (er_project_id e) (er_org_id e) (er_slug e) (er_display_name e) (er_kind e) (er_state e)
    (er_protection_policy e) (er_version e) (er_created_by e) (er_updated_by e) (er_created_at e) (er_updated_at e)
    (er_archived_at e).

Definition eventFromStore (row : uuid * projectEventRow) : ProjectEvent :=
  let '(id, e) := row in
  mkProjectEvent id (ev_org_id e) (ev_project_id e) (default uuid_Nil (ev_environment_id e)) (ev_event_type e) (ev_actor_id e)
    (ev_payload e) (ev_trace_id e) (ev_traceparent e) (ev_created_at e).

Definition projectPayload (p : Project) : idempotencyProjectPayload :=
  mkProjectPayload (pj_ID p) (pj_OrgID p) (pj_Slug p) (pj_DisplayName p) (pj_Description p) (pj_State p) (pj_Version p)
    (pj_CreatedBy p) (pj_UpdatedBy p) (pj_CreatedAt p) (pj_UpdatedAt p) (pj_ArchivedAt p).

Definition projectFromPayload (p : idempotencyProjectPayload) : Project :=
  mkProject (ip_ID p) (ip_OrgID p) (ip_Slug p) "" (ip_DisplayName p) (ip_Description p) (ip_State p) (ip_Version p)
    (ip_CreatedBy p) (ip_UpdatedBy p) (ip_CreatedAt p) (ip_UpdatedAt p) (ip_ArchivedAt p).

(** cloneStringMap: a nil map becomes an empty one. *)
Definition cloneStringMap (m : goMap) : gmap string string := default ∅ m.

Definition environmentPayload (e : Environment) : idempotencyEnvironmentPayload :=
  mkEnvironmentPayload (en_ID e) (en_ProjectID e) (en_OrgID e) (en_Slug e) (en_DisplayName e) (en_Kind e) (en_State e)
    (cloneStringMap (en_ProtectionPolicy e)) (en_Version e) (en_CreatedBy e) (en_UpdatedBy e) (en_CreatedAt e)
    (en_UpdatedAt e) (en_ArchivedAt e).

Definition environmentFromPayload (e : idempotencyEnvironmentPayload) : Environment :=
  mkEnvironment (ie_ID e) (ie_ProjectID e) (ie_OrgID e) (ie_Slug e) (ie_DisplayName e) (ie_Kind e) (ie_State e)
    (Some (ie_ProtectionPolicy e)) (ie_Version e) (ie_CreatedBy e) (ie_UpdatedBy e) (ie_CreatedAt e) (ie_UpdatedAt e)
    (ie_ArchivedAt e).

(** ** Cursors *)

(** time.Time.UnixNano wraps outside the range of an int64. *)
Definition unix_nano (t : time) : Z := (t + 2 ^ 63) mod 2 ^ 64 - 2 ^ 63.

Definition encodeCursor (createdAt : time) (id : uuid) : string :=
  string_of_bytes (b64_encode (bytes_of_string (format_int (unix_nano createdAt) +:+ "|" +:+ uuid_String id))).

Definition parseCursor (cursor : string) : pres (time * uuid) :=
  let cursor := trim_space cursor in
  if decide (cursor = "") then Ret (zero_time, uuid_Nil)
  else
    match b64_decode (bytes_of_string cursor) with
    | Some raw =>
        match split_two 124 raw with
        | Some (nanos, id) =>
            match parse_int (string_of_bytes nanos), uuid_Parse (string_of_bytes id) with
            | Some nanos, Some id => Ret (nanos, id)
            | _, _ => Err ErrInvalid
            end
        | None => Err ErrInvalid
        end
    | None => Err ErrInvalid
    end.

(** ** Loading *)

Definition found {A B} (convert : uuid * A -> B) (row : option (uuid * A)) : P B :=
  match row with Some row => mret (convert row) | None => mfail ErrNotFound end.

Definition loadProjectByID (orgID : string) (id : uuid) : P Project :=
  do! org <- mlift (pgOrgID orgID);
  do! row <- read (GetProjectByID org id);
  found projectFromStore row.

Definition loadProjectBySlug (orgID slug : string) : P Project :=
  do! org <- mlift (pgOrgID orgID);
  do! row <- read (GetProjectBySlug org slug);
  found projectFromStore row.

Definition redirected (slug : string) (p : Project) : Project :=
  mkProject (pj_ID p) (pj_OrgID p) (pj_Slug p) slug (pj_DisplayName p) (pj_Description p) (pj_State p) (pj_Version p)
    (pj_CreatedBy p) (pj_UpdatedBy p) (pj_CreatedAt p) (pj_UpdatedAt p) (pj_ArchivedAt p).

Definition loadProjectByRedirectSlug (orgID slug : string) : P Project :=
  do! org <- mlift (pgOrgID orgID);
  do! row <- read (GetProjectByRedirectSlug org slug);
  found (fun r => redirected slug (projectFromStore r)) row.

Definition projectSlugAvailable (org slug : string) (current : uuid) : P bool :=
  do! unavailable <- read (if current =? uuid_Nil then ProjectSlugUnavailable org slug
                           else ProjectSlugUnavailableForOtherProject org slug current);
  mret (negb unavailable).

Definition insertProjectSlugRedirect (orgID : string) (id : uuid) (slug actor : string) (createdAt : time) : P unit :=
  do! org <- mlift (pgOrgID orgID);
  exec ErrConflict (InsertProjectSlugRedirect org slug id (trim_space actor) (timestamptz createdAt)).

Definition loadEnvironment (orgID : string) (project id : uuid) : P Environment :=
  do! org <- mlift (pgOrgID orgID);
  do! row <- read (GetEnvironmentByID org project id);
  found environmentFromStore row.

Definition loadEnvironmentBySlug (orgID : string) (project : uuid) (slug : string) : P Environment :=
  do! org <- mlift (pgOrgID orgID);
  do! row <- read (GetEnvironmentBySlug org project slug);
  found environmentFromStore row.

(** [None] when the key is new. *)
Definition loadIdempotentProject (k : requestKey) : P (option Project) :=
  do! row <- read (GetProjectIdempotencyRecord (rk_org k) (rk_operation k) (rk_keyHash k));
  match row with
  | None => mret None
  | Some r =>
      match ir_result r with
      | ResultProject payload =>
          if decide (ir_request_hash r = rk_requestHash k) then mret (Some (projectFromPayload payload)) else mfail ErrConflict
      | ResultEnvironment _ => mfail ErrConflict
      end
  end.

Definition loadIdempotentEnvironment (k : requestKey) : P (option Environment) :=
  do! row <- read (GetProjectIdempotencyRecord (rk_org k) (rk_operation k) (rk_keyHash k));
  match row with
  | None => mret None
  | Some r =>
      match ir_result r with
      | ResultEnvironment payload =>
          if decide (ir_request_hash r = rk_requestHash k) then mret (Some (environmentFromPayload payload)) else mfail ErrConflict
      | ResultProject _ => mfail ErrConflict
      end
  end.

(** ** Writing *)

Definition insertIdempotentProject (k : requestKey) (p : Project) (createdAt : time) : P unit :=
  exec ErrStoreUnavailable (InsertProjectIdempotencyRecord (rk_org k) (rk_operation k) (rk_keyHash k) (rk_requestHash k)
    (pj_ID p) (projectPayload p) (timestamptz createdAt)).

Definition insertIdempotentEnvironment (k : requestKey) (e : Environment) (createdAt : time) : P unit :=
  exec ErrStoreUnavailable (InsertEnvironmentIdempotencyRecord (rk_org k) (rk_operation k) (rk_keyHash k) (rk_requestHash k)
    (en_ProjectID e) (nullableUUID (en_ID e)) (environmentPayload e) (timestamptz createdAt)).

Definition insertEnvironment (e : Environment) : P unit :=
  exec ErrConflict (InsertEnvironment (en_ID e) (en_ProjectID e) (en_OrgID e) (en_Slug e) (en_DisplayName e) (en_Kind e)
    (en_State e) (en_ProtectionPolicy e) (en_Version e) (en_CreatedBy e) (en_UpdatedBy e) (timestamptz (en_CreatedAt e))
    (timestamptz (en_UpdatedAt e))).

Definition insertProjectEvent (orgID : string) (project environment : uuid) (eventType actor : string)
    (payload : list (string * string)) : P unit :=
  do! org <- mlift (pgOrgID orgID);
  do! id <- newUUID;
  do! createdAt <- now;
  exec ErrStoreUnavailable (InsertProjectEvent id org project (nullableUUID environment) eventType actor (list_to_map payload)
    trace_context.1 trace_context.2 (timestamptz createdAt)).

Definition defaultEnvironment (p : Project) (slug displayName kind actor : string) (at_ : time) : P Environment :=
  do! id <- newUUID;
  mret (mkEnvironment id (pj_ID p) (pj_OrgID p) slug displayName kind StateActive (Some ∅) 1 actor actor at_ at_ None).

(** A statement that must change one row. *)
Definition one_row (n : Z) : P unit := fail_if (negb (n =? 1)) ErrConflict.

(** The transaction of a request, after the record of its key has been looked
    up: the body on a new key, the recorded result on a known one. *)
Definition once {A} (existing : P (option A)) (body : P A) : P A :=
  InTx (do! result <- existing;
        match result with Some a => mret a | None => body end).

(** What a request needs before its transaction. *)
Definition requestFor (principal : Principal) (operation key : string) (content : list (string * jval)) : pres requestKey :=
  let! org := pgOrgID (pc_OrgID principal) in
  let! keyHash := requireIdempotencyKey key in
  Ret (mkRequestKey org operation keyHash (idempotencyRequestHash content)).

(** ** Projects *)

(** The default environments of CreateProject. *)
Definition insertDefaultEnvironments (p : Project) (actor : string) (at_ : time) : P unit :=
  do! production <- defaultEnvironment p "production" "Production" EnvironmentKindProduction actor at_;
  do! preview <- defaultEnvironment p "preview" "Preview" EnvironmentKindPreview actor at_;
  do! development <- defaultEnvironment p "development" "Development" EnvironmentKindDevelopment actor at_;
  exec! insertEnvironment production;
  exec! insertEnvironment preview;
  insertEnvironment development.

Definition createProjectTx (principal : Principal) (k : requestKey) (input : CreateProjectRequest) : P Project :=
  do! available <- projectSlugAvailable (rk_org k) (cr_Slug input) uuid_Nil;
  exec! fail_if (negb available) ErrConflict;
  do! t <- now;
  do! id <- newUUID;
  let actor := pc_Subject principal in
  let project := mkProject id (pc_OrgID principal) (cr_Slug input) "" (cr_DisplayName input) (cr_Description input) StateActive 1
                   actor actor t t None in
  exec! exec ErrConflict (InsertProject id (rk_org k) (pj_Slug project) (pj_DisplayName project) (pj_Description project)
          (pj_State project) (pj_Version project) actor actor (timestamptz t) (timestamptz t));
  exec! insertDefaultEnvironments project actor t;
  exec! insertProjectEvent (pj_OrgID project) id uuid_Nil "project.created" actor
          [("slug", pj_Slug project); ("display_name", pj_DisplayName project)]%string;
  exec! insertIdempotentProject k project t;
  mret project.

Definition CreateProject (principal : Principal) (input : CreateProjectRequest) : P Project :=
  exec! mlift (ValidatePrincipal principal);
  do! input <- mlift (NormalizeCreateProject input);
  do! k <- mlift (requestFor principal "project.create" (cr_IdempotencyKey input)
    [("display_name", JStr (cr_DisplayName input)); ("description", JStr (cr_Description input));
     ("slug", JStr (cr_Slug input))]%string);
  once (loadIdempotentProject k) (createProjectTx principal k input).

Definition GetProject (principal : Principal) (id : uuid) : P Project :=
  exec! mlift (ValidatePrincipal principal);
  loadProjectByID (pc_OrgID principal) id.

Definition updateProjectTx (principal : Principal) (k : requestKey) (input : UpdateProjectRequest) : P Project :=
  do! old <- loadProjectByID (pc_OrgID principal) (up_ProjectID input);
  exec! fail_if (bool_decide (pj_State old = StateArchived)) ErrArchived;
  exec! fail_if (negb (pj_Version old =? up_Version input)) ErrConflict;
  let slug := default (pj_Slug old) (up_Slug input) in
  let displayName := default (pj_DisplayName old) (up_DisplayName input) in
  let description := default (pj_Description old) (up_Description input) in
  let renamed := negb (bool_decide (slug = pj_Slug old)) in
  exec! (if renamed then
           do! available <- projectSlugAvailable (rk_org k) slug (pj_ID old);
           fail_if (negb available) ErrConflict
         else mret tt);
  do! t <- now;
  let nextVersion := pj_Version old + 1 in
  let actor := pc_Subject principal in
  do! rowsAffected <- run ErrConflict (UpdateProjectRow (pj_OrgID old) (pj_ID old) slug displayName description actor
                        (timestamptz t) (up_Version input));
  exec! one_row rowsAffected;
  exec! (if renamed then insertProjectSlugRedirect (pj_OrgID old) (pj_ID old) (pj_Slug old) actor t else mret tt);
  exec! insertProjectEvent (pj_OrgID old) (pj_ID old) uuid_Nil "project.updated" actor
          [("version", format_int nextVersion); ("slug", slug)]%string;
  do! project <- loadProjectByID (pc_OrgID principal) (up_ProjectID input);
  exec! insertIdempotentProject k project t;
  mret project.

Definition UpdateProject (principal : Principal) (input : UpdateProjectRequest) : P Project :=
  exec! mlift (ValidatePrincipal principal);
  do! input <- mlift (NormalizeUpdateProject input);
  do! k <- mlift (requestFor principal "project.update" (up_IdempotencyKey input)
    [("description", json_optional (up_Description input)); ("display_name", json_optional (up_DisplayName input));
     ("project_id", JStr (uuid_String (up_ProjectID input))); ("slug", json_optional (up_Slug input));
     ("version", JInt (up_Version input))]%string);
  once (loadIdempotentProject k) (updateProjectTx principal k input).

Definition setProjectStateTx (principal : Principal) (k : requestKey) (input : ProjectLifecycleRequest) (st : lifeState)
    (eventType : string) : P Project :=
  do! old <- loadProjectByID (pc_OrgID principal) (pl_ProjectID input);
  exec! fail_if (bool_decide (pj_State old = st)) ErrConflict;
  exec! fail_if (negb (pj_Version old =? pl_Version input)) ErrConflict;
  do! t <- now;
  let archivedAt := if decide (st = StateArchived) then timestamptz t else None in
  let actor := pc_Subject principal in
  do! rowsAffected <- run ErrStoreUnavailable (SetProjectState (pj_OrgID old) (pj_ID old) st actor (timestamptz t)
                        (pl_Version input) archivedAt);
  exec! one_row rowsAffected;
  exec! insertProjectEvent (pj_OrgID old) (pj_ID old) uuid_Nil eventType actor [("state", state_text st)]%string;
  do! project <- loadProjectByID (pc_OrgID principal) (pl_ProjectID input);
  exec! insertIdempotentProject k project t;
  mret project.

Definition setProjectState (principal : Principal) (input : ProjectLifecycleRequest) (st : lifeState) (eventType : string)
    : P Project :=
  exec! mlift (ValidatePrincipal principal);
  do! k <- mlift (requestFor principal eventType (pl_IdempotencyKey input)
    [("project_id", JStr (uuid_String (pl_ProjectID input))); ("state", JStr (state_text st));
     ("version", JInt (pl_Version input))]%string);
  once (loadIdempotentProject k) (setProjectStateTx principal k input st eventType).

Definition ArchiveProject (principal : Principal) (input : ProjectLifecycleRequest) : P Project :=
  setProjectState principal input StateArchived "project.archived".

Definition RestoreProject (principal : Principal) (input : ProjectLifecycleRequest) : P Project :=
  setProjectState principal input StateActive "project.restored".

(** ** Environments *)

Definition createEnvironmentTx (principal : Principal) (k : requestKey) (input : CreateEnvironmentRequest) : P Environment :=
  do! project <- loadProjectByID (pc_OrgID principal) (ce_ProjectID input);
  exec! fail_if (negb (bool_decide (pj_State project = StateActive))) ErrArchived;
  do! t <- now;
  do! id <- newUUID;
  let actor := pc_Subject principal in
  let env := mkEnvironment id (pj_ID project) (pj_OrgID project) (ce_Slug input) (ce_DisplayName input) (ce_Kind input)
               StateActive (ce_ProtectionPolicy input) 1 actor actor t t None in
  exec! insertEnvironment env;
  exec! insertProjectEvent (pj_OrgID project) (pj_ID project) id "project.environment.created" actor
          [("slug", en_Slug env); ("kind", en_Kind env)]%string;
  exec! insertIdempotentEnvironment k env t;
  mret env.

Definition CreateEnvironment (principal : Principal) (input : CreateEnvironmentRequest) : P Environment :=
  exec! mlift (ValidatePrincipal principal);
  do! input <- mlift (NormalizeCreateEnvironment input);
  do! k <- mlift (requestFor principal "environment.create" (ce_IdempotencyKey input)
    [("display_name", JStr (ce_DisplayName input)); ("kind", JStr (ce_Kind input));
     ("project_id", JStr (uuid_String (ce_ProjectID input))); ("protection_policy", json_map (ce_ProtectionPolicy input));
     ("slug", JStr (ce_Slug input))]%string);
  once (loadIdempotentEnvironment k) (createEnvironmentTx principal k input).

Definition ListEnvironments (principal : Principal) (projectID : uuid) : P (list Environment) :=
  exec! mlift (ValidatePrincipal principal);
  do! project <- loadProjectByID (pc_OrgID principal) projectID;
  do! rows <- read (ListEnvironments_rows (pj_OrgID project) (pj_ID project));
  mret (environmentFromStore <$> rows).

Definition updateEnvironmentTx (principal : Principal) (k : requestKey) (input : UpdateEnvironmentRequest) : P Environment :=
  do! old <- loadEnvironment (pc_OrgID principal) (ue_ProjectID input) (ue_EnvironmentID input);
  exec! fail_if (negb (bool_decide (en_State old = StateActive))) ErrArchived;
  exec! fail_if (negb (en_Version old =? ue_Version input)) ErrConflict;
  let displayName := if decide (ue_DisplayName input = "") then en_DisplayName old else ue_DisplayName input in
  let policy := match ue_ProtectionPolicy input with Some m => Some m | None => en_ProtectionPolicy old end in
  do! t <- now;
  let nextVersion := en_Version old + 1 in
  let actor := pc_Subject principal in
  do! rowsAffected <- run ErrStoreUnavailable (UpdateEnvironmentRow (en_OrgID old) (en_ProjectID old) (en_ID old) displayName
                        policy actor (timestamptz t) (ue_Version input));
  exec! one_row rowsAffected;
  exec! insertProjectEvent (en_OrgID old) (en_ProjectID old) (en_ID old) "project.environment.updated" actor
          [("version", format_int nextVersion); ("slug", en_Slug old)]%string;
  do! env <- loadEnvironment (pc_OrgID principal) (ue_ProjectID input) (ue_EnvironmentID input);
  exec! insertIdempotentEnvironment k env t;
  mret env.

Definition UpdateEnvironment (principal : Principal) (input : UpdateEnvironmentRequest) : P Environment :=
  exec! mlift (ValidatePrincipal principal);
  do! input <- mlift (NormalizeUpdateEnvironment input);
  do! k <- mlift (requestFor principal "environment.update" (ue_IdempotencyKey input)
    [("display_name", JStr (ue_DisplayName input)); ("environment_id", JStr (uuid_String (ue_EnvironmentID input)));
     ("project_id", JStr (uuid_String (ue_ProjectID input))); ("protection_policy", json_map (ue_ProtectionPolicy input));
     ("version", JInt (ue_Version input))]%string);
  once (loadIdempotentEnvironment k) (updateEnvironmentTx principal k input).

Definition setEnvironmentStateTx (principal : Principal) (k : requestKey) (input : EnvironmentLifecycleRequest)
    (st : lifeState) (eventType : string) : P Environment :=
  do! old <- loadEnvironment (pc_OrgID principal) (el_ProjectID input) (el_EnvironmentID input);
  exec! fail_if (bool_decide (en_State old = st)) ErrConflict;
  exec! fail_if (negb (en_Version old =? el_Version input)) ErrConflict;
  do! t <- now;
  let archivedAt := if decide (st = StateArchived) then timestamptz t else None in
  let actor := pc_Subject principal in
  do! rowsAffected <- run ErrStoreUnavailable (SetEnvironmentState (en_OrgID old) (en_ProjectID old) (en_ID old) st actor
                        (timestamptz t) (el_Version input) archivedAt);
  exec! one_row rowsAffected;
  exec! insertProjectEvent (en_OrgID old) (en_ProjectID old) (en_ID old) eventType actor
          [("state", state_text st); ("slug", en_Slug old)]%string;
  do! env <- loadEnvironment (pc_OrgID principal) (el_ProjectID input) (el_EnvironmentID input);
  exec! insertIdempotentEnvironment k env t;
  mret env.

Definition setEnvironmentState (principal : Principal) (input : EnvironmentLifecycleRequest) (st : lifeState)
    (eventType : string) : P Environment :=
  exec! mlift (ValidatePrincipal principal);
  do! k <- mlift (requestFor principal eventType (el_IdempotencyKey input)
    [("environment_id", JStr (uuid_String (el_EnvironmentID input))); ("project_id", JStr (uuid_String (el_ProjectID input)));
     ("state", JStr (state_text st)); ("version", JInt (el_Version input))]%string);
  once (loadIdempotentEnvironment k) (setEnvironmentStateTx principal k input st eventType).

Definition ArchiveEnvironment (principal : Principal) (input : EnvironmentLifecycleRequest) : P Environment :=
  setEnvironmentState principal input StateArchived "project.environment.archived".

(** ** Resolving *)

Definition ResolveProject (input : ResolveProjectRequest) : P Project :=
  exec! mlift (invalid_if (bool_decide (trim_space (rq_OrgID input) = "")));
  exec! mlift (invalid_if ((rq_ProjectID input =? uuid_Nil) && bool_decide (trim_space (rq_Slug input) = "")));
  do! project <- (if negb (rq_ProjectID input =? uuid_Nil) then loadProjectByID (rq_OrgID input) (rq_ProjectID input)
                  else
                    let requestedSlug := normalizeSlug (rq_Slug input) in
                    fun w =>
                      match loadProjectBySlug (rq_OrgID input) requestedSlug w with
                      | (Err ErrNotFound, w') => loadProjectByRedirectSlug (rq_OrgID input) requestedSlug w'
                      | r => r
                      end);
  exec! fail_if (rq_RequireActive input && negb (bool_decide (pj_State project = StateActive))) ErrArchived;
  mret project.

Definition ResolveEnvironment (input : ResolveEnvironmentRequest) : P Environment :=
  exec! mlift (invalid_if (bool_decide (trim_space (re_OrgID input) = "") || (re_ProjectID input =? uuid_Nil)));
  exec! mlift (invalid_if ((re_EnvironmentID input =? uuid_Nil) && bool_decide (trim_space (re_Slug input) = "")));
  exec! ResolveProject (mkResolveProject (re_OrgID input) (re_ProjectID input) "" (re_RequireActive input));
  do! env <- (if negb (re_EnvironmentID input =? uuid_Nil)
              then loadEnvironment (re_OrgID input) (re_ProjectID input) (re_EnvironmentID input)
              else loadEnvironmentBySlug (re_OrgID input) (re_ProjectID input) (normalizeSlug (re_Slug input)));
  exec! fail_if (re_RequireActive input && negb (bool_decide (en_State env = StateActive))) ErrArchived;
  mret env.

(** ** Listings *)

(** The cursor of a request, as the queries get it; [None] for the first page. *)
Definition cursorPosition (c : time * uuid) : option position :=
  if negb (is_zero c.1) && negb (c.2 =? uuid_Nil) then Some (pg_timestamptz c.1, c.2) else None.

(** One row more than the page is read, to see whether there is a next one. *)
Definition cut_page {A} (at_ : A -> time) (id : A -> uuid) (limit : Z) (items : list A) : list A * string :=
  if limit <? Z.of_nat (length items) then
    (take (Z.to_nat limit) items,
     match items !! Z.to_nat (limit - 1) with Some last => encodeCursor (at_ last) (id last) | None => ""%string end)
  else (items, ""%string).

Definition ListProjects (principal : Principal) (input : ListProjectsRequest) : P (list Project * string) :=
  exec! mlift (ValidatePrincipal principal);
  do! org <- mlift (pgOrgID (pc_OrgID principal));
  let limit := normalizeLimit (ls_Limit input) in
  do! cursor <- mlift (parseCursor (ls_Cursor input));
  do! rows <- (if decide (ls_State input = "") then
                 do! limit32 <- mlift (int32FromInt (limit + 1));
                 match cursorPosition cursor with
                 | Some c => read (ListProjectsAfterCursor org c limit32)
                 | None => read (ListProjects_rows org limit32)
                 end
               else
                 match state_of_text (ls_State input) with
                 | None => mfail ErrInvalid
                 | Some st =>
                     do! limit32 <- mlift (int32FromInt (limit + 1));
                     match cursorPosition cursor with
                     | Some c => read (ListProjectsByStateAfterCursor org st c limit32)
                     | None => read (ListProjectsByState org st limit32)
                     end
                 end);
  mret (cut_page pj_CreatedAt pj_ID limit (projectFromStore <$> rows)).

Definition ListEvents (orgID cursor : string) (limit : Z) : P (list ProjectEvent * string) :=
  do! org <- mlift (pgOrgID orgID);
  let limit := normalizeLimit limit in
  do! c <- mlift (parseCursor cursor);
  do! limit32 <- mlift (int32FromInt (limit + 1));
  do! rows <- (match cursorPosition c with
               | Some c => read (ListEventsAfterCursor org c limit32)
               | None => read (ListEvents_rows org limit32)
               end);
  mret (cut_page pe_CreatedAt pe_ID limit (eventFromStore <$> rows)).
End Projects.
