(* ===== verification/ProjectSystem.v ===== *)
(** * Projects: the store as a transition system

    [project_op] lists the operations of the store and [store_step] is one
    call of one of them, whatever its outcome.  [tables_sound] is what the
    statements keep of the tables, [kept] what they never change; both are
    shown statement by statement.  [moves] says that an
    operation changes the database along a preorder, whatever its outcome. *)

From stdpp Require Import relations.
From S2P Require Import Prelude GoStd GoFormat GoTime Json GoText ProjectTypes ProjectStore ProjectService.

(** ** What the statements keep *)

(** Row [y] is a later version of row [x]. *)
Definition later_project (x y : projectRow) : Prop :=
  pr_org_id y = pr_org_id x /\ pr_created_at y = pr_created_at x /\ pr_created_by y = pr_created_by x
  /\ pr_version x <= pr_version y.

Definition later_environment (x y : environmentRow) : Prop :=
  er_project_id y = er_project_id x /\ er_org_id y = er_org_id x /\ er_slug y = er_slug x /\ er_kind y = er_kind x
  /\ er_created_at y = er_created_at x /\ er_version x <= er_version y.

Definition rows_kept {K A} `{Countable K} (later : A -> A -> Prop) (m m' : gmap K A) : Prop :=
  forall k x, m !! k = Some x -> exists y, m' !! k = Some y /\ later x y.

(** No row is lost; redirects, results and events never change. *)
Definition kept (d d' : ProjectDB) : Prop :=
  rows_kept later_project (pd_projects d) (pd_projects d')
  /\ rows_kept eq (pd_redirects d) (pd_redirects d')
  /\ rows_kept later_environment (pd_environments d) (pd_environments d')
  /\ rows_kept eq (pd_records d) (pd_records d')
  /\ rows_kept eq (pd_events d) (pd_events d').

#[export] Instance later_project_preorder : PreOrder later_project.
Proof. split; [by intros x|]. intros x y z (A & B & C & D) (A' & B' & C' & D'). repeat split; first [congruence|lia]. Qed.

#[export] Instance later_environment_preorder : PreOrder later_environment.
Proof. split; [by intros x|]. intros x y z (A & B & C & D & E & F) (A' & B' & C' & D' & E' & F'). repeat split; first [congruence|lia]. Qed.

#[export] Instance rows_kept_preorder {K A} `{Countable K} (later : A -> A -> Prop) :
  PreOrder later -> PreOrder (rows_kept (K := K) later).
Proof.
  intros HP. split; [by intros m k x Hx; exists x|]. intros m1 m2 m3 H1 H2 k x Hx.
  destruct (H1 k x Hx) as (y & Hy & L1). destruct (H2 k y Hy) as (z & Hz & L2). exists z. split; [done|]. by transitivity y.
Qed.

#[export] Instance kept_preorder : PreOrder kept.
Proof.
  split; [by intros d; repeat split; reflexivity|].
  intros d1 d2 d3 (A & B & C & D & E) (A' & B' & C' & D' & E'). repeat split; etransitivity; eassumption.
Qed.

Lemma rows_kept_new {K A} `{Countable K} (later : A -> A -> Prop) `{!Reflexive later} (m : gmap K A) k x :
  m !! k = None -> rows_kept later m (<[k := x]> m).
Proof. intros Hn i y Hy. exists y. split; [|done]. rewrite lookup_insert_ne; [done|]. intros ->. by rewrite Hn in Hy. Qed.

Lemma rows_kept_update {K A} `{Countable K} (later : A -> A -> Prop) `{!Reflexive later} (m : gmap K A) k x y :
  m !! k = Some x -> later x y -> rows_kept later m (<[k := y]> m).
Proof.
  intros Hx Hl i z Hz. destruct (decide (i = k)) as [->|Hne].
  - rewrite Hx in Hz. injection Hz as <-. exists y. by rewrite lookup_insert_eq.
  - exists z. by rewrite lookup_insert_ne.
Qed.

(** ** The constraints of the tables *)

Definition archived_at_ok (st : lifeState) (archivedAt : option time) : Prop := st = StateArchived <-> is_Some archivedAt.

Record tables_sound (d : ProjectDB) : Prop := mkTablesSound {
  ts_project : forall i p, pd_projects d !! i = Some p -> project_checks p = true /\ archived_at_ok (pr_state p) (pr_archived_at p);
  ts_slug : forall i j p q, pd_projects d !! i = Some p -> pd_projects d !! j = Some q -> same_slug p q = true -> i = j;
  ts_redirect : forall org slug r, pd_redirects d !! (org, slug) = Some r -> project_of d (rd_project_id r) org = true;
  ts_environment : forall i e, pd_environments d !! i = Some e ->
    environment_checks e = true /\ archived_at_ok (er_state e) (er_archived_at e)
    /\ project_of d (er_project_id e) (er_org_id e) = true;
  ts_env_slug : forall i j e f, pd_environments d !! i = Some e -> pd_environments d !! j = Some f ->
    same_env_slug e f = true -> i = j;
  ts_record : forall org op key r, pd_records d !! (org, op, key) = Some r ->
    record_kind_check r = true /\ record_references org r d = true;
  ts_event : forall i e, pd_events d !! i = Some e -> event_references e d = true
}.

Definition sound_step (d d' : ProjectDB) : Prop := kept d d' /\ (tables_sound d -> tables_sound d').

#[export] Instance sound_step_preorder : PreOrder sound_step.
Proof.
  split; [by split; [reflexivity|]|]. intros d1 d2 d3 [K1 S1] [K2 S2]. split; [by transitivity d2|auto].
Qed.

(** ** References survive *)

Lemma project_of_kept d d' i org :
  rows_kept later_project (pd_projects d) (pd_projects d') -> project_of d i org = true -> project_of d' i org = true.
Proof.
  unfold project_of. intros HK H. destruct (pd_projects d !! i) as [p|] eqn:E; [|done].
  destruct (HK _ _ E) as (q & -> & (-> & _)). done.
Qed.

Lemma environment_of_kept d d' i p org :
  rows_kept later_environment (pd_environments d) (pd_environments d') -> environment_of d i p org = true ->
  environment_of d' i p org = true.
Proof.
  unfold environment_of. intros HK H. destruct (pd_environments d !! i) as [e|] eqn:E; [|done].
  destruct (HK _ _ E) as (f & -> & (-> & -> & _)). done.
Qed.

Lemma record_references_kept d d' org r :
  rows_kept later_project (pd_projects d) (pd_projects d') ->
  rows_kept later_environment (pd_environments d) (pd_environments d') ->
  record_references org r d = true -> record_references org r d' = true.
Proof.
  unfold record_references. intros HP HE [H1 H2]%andb_prop. apply andb_true_intro. split; [by eapply project_of_kept|].
  destruct (ir_result_environment_id r); [by eapply environment_of_kept|done].
Qed.

Lemma event_references_kept d d' e :
  rows_kept later_project (pd_projects d) (pd_projects d') ->
  rows_kept later_environment (pd_environments d) (pd_environments d') ->
  event_references e d = true -> event_references e d' = true.
Proof.
  unfold event_references. intros HP HE [H1 H2]%andb_prop. apply andb_true_intro. split; [by eapply project_of_kept|].
  destruct (ev_environment_id e); [by eapply environment_of_kept|done].
Qed.

(** ** Statements *)

Lemma require_Ret v b : require v b = Ret tt -> b = true.
Proof. unfold require. by destruct b. Qed.

Lemma other_row_false {A} (test : A -> bool) id (m : gmap uuid A) :
  other_row test id m = false -> forall j x, m !! j = Some x -> test x = true -> j = id.
Proof.
  intros H j x Hx Ht. destruct (decide (j = id)); [done|]. exfalso. unfold other_row in H. rewrite <- not_true_iff_false in H.
  apply H, existsb_exists. exists (j, x). rewrite <- list_elem_of_In, elem_of_map_to_list. split; [done|]. simpl.
  rewrite Ht. destruct (Z.eqb_spec j id); [done|]. done.
Qed.

Lemma put_project_Ret id p d d' :
  put_project id p d = Ret d' ->
  project_checks p = true /\ (forall j q, pd_projects d !! j = Some q -> same_slug p q = true -> j = id)
  /\ d' = set_projects (<[id := p]> (pd_projects d)) d.
Proof.
  unfold put_project. intros H. apply obind_Ret_inv in H as ([] & H1%require_Ret & H).
  apply obind_Ret_inv in H as ([] & H2%require_Ret & H). injection H as <-. split; [done|]. split; [|done].
  apply other_row_false. by apply negb_true_iff in H2.
Qed.

Lemma put_environment_Ret id e d d' :
  put_environment id e d = Ret d' ->
  environment_checks e = true /\ (forall j f, pd_environments d !! j = Some f -> same_env_slug e f = true -> j = id)
  /\ d' = set_environments (<[id := e]> (pd_environments d)) d.
Proof.
  unfold put_environment. intros H. apply obind_Ret_inv in H as ([] & H1%require_Ret & H).
  apply obind_Ret_inv in H as ([] & H2%require_Ret & H). injection H as <-. split; [done|]. split; [|done].
  apply other_row_false. by apply negb_true_iff in H2.
Qed.

Lemma same_slug_sym p q : same_slug p q = same_slug q p.
Proof. unfold same_slug. f_equal; apply bool_decide_ext; split; congruence. Qed.

Lemma same_env_slug_sym e f : same_env_slug e f = same_env_slug f e.
Proof. unfold same_env_slug. rewrite Z.eqb_sym. f_equal; apply bool_decide_ext; split; congruence. Qed.

(** Writing a project row that is new or a later version keeps the tables sound. *)
Lemma put_project_sound id p d d' :
  put_project id p d = Ret d' -> archived_at_ok (pr_state p) (pr_archived_at p) ->
  (forall q, pd_projects d !! id = Some q -> later_project q p) -> sound_step d d'.
Proof.
  intros (Hc & Hu & ->)%put_project_Ret Ha Hl.
  assert (rows_kept later_project (pd_projects d) (<[id := p]> (pd_projects d))) as HP.
  { destruct (pd_projects d !! id) as [q|] eqn:E; [apply (rows_kept_update _ _ _ _ _ E); by apply Hl|by apply (rows_kept_new _)]. }
  split; [by repeat split|]. intros [T1 T2 T3 T4 T5 T6 T7]. split; simpl; try done.
  - intros i q Hq. destruct (decide (i = id)) as [->|Hi]; [|rewrite lookup_insert_ne in Hq by done; eauto].
    rewrite lookup_insert_eq in Hq. by injection Hq as <-.
  - intros i j q r Hq Hr Hs. apply lookup_insert_Some in Hq as [[<- <-]|[Hi Hq]], Hr as [[<- <-]|[Hj Hr]]; [done|..].
    + symmetry. by eapply Hu.
    + rewrite same_slug_sym in Hs. by eapply Hu.
    + by eapply T2.
  - intros org slug r Hr. eapply (project_of_kept d); [exact HP|eauto].
  - intros i e He. destruct (T4 i e He) as (C1 & C2 & C3). split_and!; [done..|]. by eapply (project_of_kept d).
  - intros org op key r Hr. destruct (T6 _ _ _ _ Hr). split; [done|]. by eapply (record_references_kept d).
  - intros i e He. eapply (event_references_kept d); [exact HP|reflexivity|eauto].
Qed.

Lemma put_environment_sound id e d d' :
  put_environment id e d = Ret d' -> archived_at_ok (er_state e) (er_archived_at e) ->
  (forall f, pd_environments d !! id = Some f -> later_environment f e) ->
  (tables_sound d -> project_of d (er_project_id e) (er_org_id e) = true) -> sound_step d d'.
Proof.
  intros (Hc & Hu & ->)%put_environment_Ret Ha Hl Hf.
  assert (rows_kept later_environment (pd_environments d) (<[id := e]> (pd_environments d))) as HE.
  { destruct (pd_environments d !! id) as [f|] eqn:E; [apply (rows_kept_update _ _ _ _ _ E); by apply Hl|by apply (rows_kept_new _)]. }
  split; [by repeat split|]. intros HT. pose proof (Hf HT) as Hp. destruct HT as [T1 T2 T3 T4 T5 T6 T7]. split; simpl; try done.
  - intros i f Hi. destruct (decide (i = id)) as [->|Hne]; [|rewrite lookup_insert_ne in Hi by done; exact (T4 i f Hi)].
    rewrite lookup_insert_eq in Hi. by injection Hi as <-.
  - intros i j f g Hq Hr Hs. apply lookup_insert_Some in Hq as [[<- <-]|[Hi Hq]], Hr as [[<- <-]|[Hj Hr]]; [done|..].
    + symmetry. by eapply Hu.
    + rewrite same_env_slug_sym in Hs. by eapply Hu.
    + by eapply T5.
  - intros org op key r Hr. destruct (T6 _ _ _ _ Hr). split; [done|]. eapply (record_references_kept d); [reflexivity|exact HE|done].
  - intros i f Hi. eapply (event_references_kept d); [reflexivity|exact HE|eauto].
Qed.

Ltac take_step H := apply obind_Ret_inv in H as (? & ? & H).
Ltac required := repeat match goal with
  | H : require _ _ = Ret ?u |- _ => destruct u; apply require_Ret in H
  | H : not_null ?x = Ret _ |- _ => unfold not_null in H; destruct x eqn:?; [injection H as <-|done]
  end.

Lemma archived_active t : archived_at_ok StateActive None /\ archived_at_ok StateArchived (Some t : option time).
Proof. unfold archived_at_ok. split; split; by try intros [? ?]. Qed.

Lemma InsertProject_sound id org slug dn desc v cb ub ca ua d d' :
  InsertProject id org slug dn desc StateActive v cb ub ca ua d = Ret d' -> sound_step d d'.
Proof.
  unfold InsertProject. intros H. do 4 take_step H. required.
  match goal with H : bool_decide _ = true |- _ => apply bool_decide_eq_true in H as Hn end.
  eapply put_project_sound; [exact H|apply (archived_active 0)|]. by rewrite Hn.
Qed.

Lemma UpdateProject_sound org id slug dn desc ub ua v d n d' :
  UpdateProjectRow org id slug dn desc ub ua v d = Ret (n, d') -> sound_step d d'.
Proof.
  unfold UpdateProjectRow. destruct (pd_projects d !! id) as [p|] eqn:E; [|by intros [= _ <-]].
  destruct (_ && _) eqn:G; [|by intros [= _ <-]]. intros H. do 2 take_step H. injection H as _ <-. zbool.
  assert (pr_state p = StateActive) as Hst by by eapply bool_decide_eq_true.
  split.
  - match goal with H : put_project _ _ _ = _ |- _ => apply put_project_Ret in H as (_ & _ & ->) end.
    split; [|repeat split; reflexivity]. apply (rows_kept_update _ _ _ _ _ E). repeat split. simpl. lia.
  - intros HT. assert (sound_step d x0) as [_ HS]; [|by apply HS].
    eapply put_project_sound; [eassumption| |].
    + simpl. apply (ts_project d HT id p E).
    + intros q Hq. rewrite E in Hq. injection Hq as <-. repeat split. simpl. lia.
Qed.

(** The archive time that goes with a state, as both lifecycle requests compute it. *)
Definition archived_time (st : lifeState) (t : time) : option time := if decide (st = StateArchived) then timestamptz t else None.

Lemma archived_time_ok st t u : not_null (timestamptz t) = Ret u -> archived_at_ok st (archived_time st t).
Proof.
  unfold not_null, archived_time, timestamptz. destruct (is_zero t); [done|]. intros _. destruct st; [apply (archived_active 0)|].
  apply (archived_active (pg_timestamptz t)).
Qed.

Lemma SetProjectState_sound org id st ub t v d n d' :
  SetProjectState org id st ub (timestamptz t) v (archived_time st t) d = Ret (n, d') -> sound_step d d'.
Proof.
  unfold SetProjectState. destruct (pd_projects d !! id) as [p|] eqn:E; [|by intros [= _ <-]].
  destruct (_ && _) eqn:G; [|by intros [= _ <-]]. intros H. apply obind_Ret_inv in H as (u & Hu & H). take_step H. injection H as _ <-.
  eapply put_project_sound; [eassumption|by eapply archived_time_ok|].
  intros q Hq. rewrite E in Hq. injection Hq as <-. repeat split. simpl. lia.
Qed.

Lemma InsertProjectSlugRedirect_sound org slug id cb ca d d' :
  InsertProjectSlugRedirect org slug id cb ca d = Ret d' -> sound_step d d'.
Proof.
  unfold InsertProjectSlugRedirect. intros H. do 2 take_step H. destruct (bool_decide_reflect (pd_redirects d !! (org, slug) = None)) as [Hn|];
    [|by injection H as <-]. take_step H. injection H as <-. required. split.
  - split; [done|]. split; [by apply (rows_kept_new _)|done].
  - intros [T1 T2 T3 T4 T5 T6 T7]. split; simpl; try done.
    intros org' slug' r Hr. apply lookup_insert_Some in Hr as [[[= <- <-] <-]|[_ Hr]]; [done|by apply T3 in Hr].
Qed.

Lemma InsertEnvironment_sound id project org slug dn kind policy v cb ub ca ua d d' :
  InsertEnvironment id project org slug dn kind StateActive policy v cb ub ca ua d = Ret d' -> sound_step d d'.
Proof.
  unfold InsertEnvironment. intros H. do 4 take_step H. apply obind_Ret_inv in H as (d1 & Hp & H). take_step H. injection H as <-.
  required. match goal with H : bool_decide _ = true |- _ => apply bool_decide_eq_true in H as Hn end.
  eapply put_environment_sound; [exact Hp|apply (archived_active 0)|by rewrite Hn|].
  intros _. simpl. apply put_environment_Ret in Hp as (_ & _ & ->). by match goal with H : project_of _ _ _ = true |- _ => exact H end.
Qed.

Lemma UpdateEnvironment_sound org project id dn policy ub ua v d n d' :
  UpdateEnvironmentRow org project id dn policy ub ua v d = Ret (n, d') -> sound_step d d'.
Proof.
  unfold UpdateEnvironmentRow. destruct (pd_environments d !! id) as [e|] eqn:E; [|by intros [= _ <-]].
  destruct (_ && _) eqn:G; [|by intros [= _ <-]]. intros H. apply obind_Ret_inv in H as (u & Hu & H).
  apply obind_Ret_inv in H as (d1 & Hp & H). injection H as _ <-. split.
  - apply put_environment_Ret in Hp as (_ & _ & ->). split; [done|]. split; [done|]. split; [|done].
    apply (rows_kept_update _ _ _ _ _ E). repeat split. simpl. lia.
  - intros HT. pose proof (ts_environment d HT id e E) as (_ & Ha & Hf).
    assert (sound_step d d1) as [_ HS]; [|by apply HS]. eapply put_environment_sound; [exact Hp|exact Ha| |done].
    intros f He. rewrite E in He. injection He as <-. repeat split. simpl. lia.
Qed.

Lemma SetEnvironmentState_sound org project id st ub t v d n d' :
  SetEnvironmentState org project id st ub (timestamptz t) v (archived_time st t) d = Ret (n, d') -> sound_step d d'.
Proof.
  unfold SetEnvironmentState. destruct (pd_environments d !! id) as [e|] eqn:E; [|by intros [= _ <-]].
  destruct (_ && _) eqn:G; [|by intros [= _ <-]]. intros H. apply obind_Ret_inv in H as (u & Hu & H).
  apply obind_Ret_inv in H as (d1 & Hp & H). injection H as _ <-.
  eapply put_environment_sound; [exact Hp|by eapply archived_time_ok| |].
  - intros f He. rewrite E in He. injection He as <-. repeat split. simpl. lia.
  - intros HT. by destruct (ts_environment d HT id e E) as (_ & _ & Hf).
Qed.

Lemma InsertProjectEvent_sound id org project env type actor payload tid tp ca d d' :
  InsertProjectEvent id org project env type actor payload tid tp ca d = Ret d' -> sound_step d d'.
Proof.
  unfold InsertProjectEvent. intros H. do 4 take_step H. injection H as <-. required.
  match goal with H : bool_decide _ = true |- _ => apply bool_decide_eq_true in H as Hn end. split.
  - repeat split; try done. by apply (rows_kept_new _).
  - intros [T1 T2 T3 T4 T5 T6 T7]. split; simpl; try done.
    intros i e He. apply lookup_insert_Some in He as [[<- <-]|[_ He]]; [done|exact (T7 i e He)].
Qed.

Lemma insert_record_sound org op key row d d' : insert_record org op key row d = Ret d' -> sound_step d d'.
Proof.
  unfold insert_record. intros H. do 3 take_step H. injection H as <-. required.
  match goal with H : bool_decide _ = true |- _ => apply bool_decide_eq_true in H as Hn end. split.
  - repeat split; try done. by apply (rows_kept_new _).
  - intros [T1 T2 T3 T4 T5 T6 T7]. split; simpl; try done.
    intros o p k r Hr. apply lookup_insert_Some in Hr as [[[= <- <- <-] <-]|[_ Hr]]; [|exact (T6 _ _ _ _ Hr)].
    split; [by zbool|done].
Qed.

(** ** Operations along a preorder *)

(** Whatever its outcome, [m] changes the database along [R]. *)
Definition moves {A} (R : relation ProjectDB) (m : M pworld projectError A) : Prop :=
  forall w, R (pw_db w) (pw_db (m w).2).

Section Moves.
Context `{ProjectsEnv} (R : relation ProjectDB) `{!PreOrder R}.

Lemma moves_ret {A} (a : A) : moves R (mret a). Proof. by intros w. Qed.
Lemma moves_fail {A} e : moves R (mfail e : M pworld projectError A). Proof. by intros w. Qed.
Lemma moves_lift {A} (o : pres A) : moves R (mlift o). Proof. by intros w. Qed.
Lemma moves_read {A} (f : ProjectDB -> A) : moves R (read f). Proof. by intros w. Qed.
Lemma moves_now : moves R now. Proof. by intros w. Qed.
Lemma moves_newUUID : moves R newUUID. Proof. by intros w. Qed.

Lemma moves_fail_if b e : moves R (fail_if b e). Proof. destruct b; by intros w. Qed.

Lemma moves_bind {A B} (m : M pworld projectError A) (f : A -> M pworld projectError B) :
  moves R m -> (forall a, moves R (f a)) -> moves R (mbindM m f).
Proof. intros Hm Hf w. unfold mbindM. specialize (Hm w). destruct (m w) as [[a|e|] w']; [|done|done]. etransitivity; [exact Hm|apply Hf]. Qed.

Lemma moves_run {A} e (f : ProjectDB -> sres (A * ProjectDB)) :
  (forall d a d', f d = Ret (a, d') -> R d d') -> moves R (run e f).
Proof. intros Hf w. unfold run. destruct (f (pw_db w)) as [[a d]|[]|] eqn:E; [by eapply Hf|done..]. Qed.

Lemma moves_exec e (f : ProjectDB -> sres ProjectDB) : (forall d d', f d = Ret d' -> R d d') -> moves R (exec e f).
Proof.
  intros Hf. apply moves_run. intros d [] d' H1. apply obind_Ret_inv in H1 as (d1 & H1 & [= <-]). by apply Hf.
Qed.

Lemma moves_InTx {A} (m : M pworld projectError A) : moves R m -> moves R (InTx m).
Proof. intros Hm w. unfold InTx. specialize (Hm w). by destruct (m w) as [[a|e|] w']. Qed.

Lemma moves_found {A B} (f : uuid * A -> B) row : moves R (found f row).
Proof. destruct row; [apply moves_ret|apply moves_fail]. Qed.
End Moves.

Lemma InTx_kept {A} (m : M pworld projectError A) (R : relation ProjectDB) `{!PreOrder R} :
  (forall w a w', m w = (Ret a, w') -> R (pw_db w) (pw_db w')) -> moves R (InTx m).
Proof. intros Hm w. unfold InTx. destruct (m w) as [[a|e|] w'] eqn:E; simpl; [by eapply Hm|done|done]. Qed.

Lemma run_moves {A} (R : relation ProjectDB) (m : M pworld projectError A) w a w' :
  moves R m -> m w = (Ret a, w') -> R (pw_db w) (pw_db w').
Proof. intros Hm Hr. specialize (Hm w). by rewrite Hr in Hm. Qed.

Ltac moves_basic := first
  [ apply moves_ret | apply moves_fail | apply moves_lift | apply moves_read | apply moves_now | apply moves_newUUID
  | apply moves_fail_if | apply moves_found ]; apply _.

(** Follow the structure of an operation. *)
Ltac moving := repeat first
  [ match goal with |- PreOrder _ => apply _ end | solve [moves_basic] | match goal with L : forall _, _ |- moves _ _ => solve [apply L] end
  | match goal with |- moves _ (mbindM (defaultEnvironment _ _ _ _ _ _) _) => fail 1 | |- moves _ (mbindM _ _) => apply moves_bind | |- moves _ (InTx _) => apply moves_InTx end | match goal with |- forall _, _ => intro end
  | match goal with |- moves _ (match ?x with _ => _ end) => destruct x end
  | match goal with |- moves _ (let '_ := ?x in _) => destruct x end ].

Section Operations.
Context `{ProjectsEnv} `{Digest}.

Lemma loads_move R `{!PreOrder R} :
  (forall o i, moves R (loadProjectByID o i)) /\ (forall o s, moves R (loadProjectBySlug o s))
  /\ (forall o s, moves R (loadProjectByRedirectSlug o s)) /\ (forall o p i, moves R (loadEnvironment o p i))
  /\ (forall o p s, moves R (loadEnvironmentBySlug o p s)) /\ (forall o s i, moves R (projectSlugAvailable o s i))
  /\ (forall k, moves R (loadIdempotentProject k)) /\ (forall k, moves R (loadIdempotentEnvironment k)).
Proof.
  unfold loadProjectByID, loadProjectBySlug, loadProjectByRedirectSlug, loadEnvironment, loadEnvironmentBySlug,
    projectSlugAvailable, loadIdempotentProject, loadIdempotentEnvironment. split_and!; moving.
Qed.

Lemma resolve_moves R `{!PreOrder R} i : moves R (ResolveProject i).
Proof.
  destruct (loads_move R) as (L1 & L2 & L3 & _). unfold ResolveProject. moving; try done.
  intros w. specialize (L2 (rq_OrgID i) (normalizeSlug (rq_Slug i)) w).
  destruct (loadProjectBySlug _ _ w) as [[p|[]|] w']; try done. etransitivity; [exact L2|apply L3].
Qed.

Lemma reads_move R `{!PreOrder R} :
  (forall pr i, moves R (GetProject pr i)) /\ (forall pr i, moves R (ListEnvironments pr i))
  /\ (forall i, moves R (ResolveEnvironment i)) /\ (forall pr i, moves R (ListProjects pr i))
  /\ (forall o c l, moves R (ListEvents o c l)).
Proof.
  destruct (loads_move R) as (L1 & L2 & L3 & L4 & L5 & _). pose proof (resolve_moves R) as L6.
  unfold GetProject, ListEnvironments, ResolveEnvironment, ListProjects, ListEvents.
  split_and!; moving; auto.
Qed.

Lemma once_moves R `{!PreOrder R} {A} (ex : M pworld projectError (option A)) body : moves R ex -> moves R body -> moves R (once ex body).
Proof. intros H1 H2. unfold once. moving; done. Qed.

(** Every statement an operation runs. *)
Lemma writes_move :
  (forall k p t, moves sound_step (insertIdempotentProject k p t)) /\ (forall k e t, moves sound_step (insertIdempotentEnvironment k e t))
  /\ (forall o p e ty a l, moves sound_step (insertProjectEvent o p e ty a l))
  /\ (forall o i s a t, moves sound_step (insertProjectSlugRedirect o i s a t))
  /\ (forall e, en_State e = StateActive -> moves sound_step (insertEnvironment e)).
Proof.
  unfold insertIdempotentProject, insertIdempotentEnvironment, insertProjectEvent, insertProjectSlugRedirect, insertEnvironment.
  split_and!; moving; refine (moves_exec _ _ _ _); intros d d' Hd.
  - unfold InsertProjectIdempotencyRecord in Hd. take_step Hd. by eapply insert_record_sound.
  - unfold InsertEnvironmentIdempotencyRecord in Hd. take_step Hd. by eapply insert_record_sound.
  - by eapply InsertProjectEvent_sound.
  - by eapply InsertProjectSlugRedirect_sound.
  - match goal with H : en_State _ = _ |- _ => rewrite H in Hd end. by eapply InsertEnvironment_sound.
Qed.
Lemma moves_default R `{!PreOrder R} {B} p slug dn kind actor t (f : Environment -> M pworld projectError B) :
  (forall e, en_State e = StateActive -> moves R (f e)) -> moves R (mbindM (defaultEnvironment p slug dn kind actor t) f).
Proof. intros Hf w. exact (Hf (mkEnvironment _ _ _ _ _ _ _ _ _ _ _ _ _ _) eq_refl (mkPWorld (pw_db w) (pw_ticks w) (S (pw_ids w)))). Qed.

Ltac statement_moves lemma := refine (moves_run _ _ _ _); intros ? ? ?; apply lemma.

Lemma transactions_move pr k :
  (forall i, moves sound_step (createProjectTx pr k i)) /\ (forall i, moves sound_step (updateProjectTx pr k i))
  /\ (forall i st ty, moves sound_step (setProjectStateTx pr k i st ty))
  /\ (forall i, moves sound_step (createEnvironmentTx pr k i)) /\ (forall i, moves sound_step (updateEnvironmentTx pr k i))
  /\ (forall i st ty, moves sound_step (setEnvironmentStateTx pr k i st ty)).
Proof.
  destruct (loads_move sound_step) as (L1 & _ & _ & L4 & _ & L6 & _). destruct writes_move as (W1 & W2 & W3 & W4 & W5).
  unfold createProjectTx, insertDefaultEnvironments, updateProjectTx, setProjectStateTx, createEnvironmentTx, updateEnvironmentTx,
    setEnvironmentStateTx, one_row.
  split_and!; repeat (moving; try (apply moves_default; [apply _|intros ? ?])); try (by apply W5).
  - refine (moves_exec _ _ _ _). intros d d'. apply InsertProject_sound.
  - statement_moves UpdateProject_sound.
  - statement_moves SetProjectState_sound.
  - statement_moves UpdateEnvironment_sound.
  - statement_moves SetEnvironmentState_sound.
Qed.
End Operations.

(** ** The operations of the store *)

Section Store.
Context `{ProjectsEnv} `{Digest}.

Inductive project_op : forall A : Type, M pworld projectError A -> Prop :=
| op_create pr i : project_op Project (CreateProject pr i)
| op_update pr i : project_op Project (UpdateProject pr i)
| op_archive pr i : project_op Project (ArchiveProject pr i)
| op_restore pr i : project_op Project (RestoreProject pr i)
| op_create_env pr i : project_op Environment (CreateEnvironment pr i)
| op_update_env pr i : project_op Environment (UpdateEnvironment pr i)
| op_archive_env pr i : project_op Environment (ArchiveEnvironment pr i)
| op_get pr i : project_op Project (GetProject pr i)
| op_list pr i : project_op (list Project * string) (ListProjects pr i)
| op_list_env pr i : project_op (list Environment) (ListEnvironments pr i)
| op_resolve i : project_op Project (ResolveProject i)
| op_resolve_env i : project_op Environment (ResolveEnvironment i)
| op_list_events o c l : project_op (list ProjectEvent * string) (ListEvents o c l).

(** One call, whatever its outcome. *)
Definition store_step (d d' : ProjectDB) : Prop :=
  exists A (m : M pworld projectError A) w, project_op A m /\ pw_db w = d /\ pw_db (m w).2 = d'.

Lemma requestFor_org pr op key content k : requestFor pr op key content = Ret k -> pgOrgID (pc_OrgID pr) = Ret (rk_org k).
Proof.
  unfold requestFor. intros H1. apply obind_Ret_inv in H1 as (org & Ho & H1). apply obind_Ret_inv in H1 as (h & _ & [= <-]). exact Ho.
Qed.

Lemma loadIdempotentProject_same k w : (loadIdempotentProject k w).2 = w.
Proof. unfold loadIdempotentProject, mbindM, read. by repeat case_match. Qed.

Lemma loadIdempotentEnvironment_same k w : (loadIdempotentEnvironment k w).2 = w.
Proof. unfold loadIdempotentEnvironment, mbindM, read. by repeat case_match. Qed.

Lemma moves_once (R : relation ProjectDB) `{!PreOrder R} {A} (ex : M pworld projectError (option A)) body :
  (forall w, (ex w).2 = w) -> moves R (InTx body) -> moves R (once ex body).
Proof.
  intros He Hb w. unfold once, InTx, mbindM. specialize (He w). destruct (ex w) as [[[a|]|e|] w1]; simpl in He; subst w1; try done.
Qed.

Lemma moves_lift_bind (R : relation ProjectDB) `{!PreOrder R} {A B} (o : pres A) (f : A -> M pworld projectError B) :
  (forall a, o = Ret a -> moves R (f a)) -> moves R (mbindM (mlift o) f).
Proof. intros Hf w. unfold mbindM, mlift. destruct o as [a|e|]; [by apply Hf|done|done]. Qed.

(** An operation moves along every preorder along which the transactions move. *)
Lemma op_moves (R : relation ProjectDB) `{!PreOrder R} A (m : M pworld projectError A) :
  (forall pr k i, pgOrgID (pc_OrgID pr) = Ret (rk_org k) -> moves R (InTx (createProjectTx pr k i))) ->
  (forall pr k i, pgOrgID (pc_OrgID pr) = Ret (rk_org k) -> moves R (InTx (updateProjectTx pr k i))) ->
  (forall pr k i st ty, pgOrgID (pc_OrgID pr) = Ret (rk_org k) -> moves R (InTx (setProjectStateTx pr k i st ty))) ->
  (forall pr k i, moves R (InTx (createEnvironmentTx pr k i))) -> (forall pr k i, moves R (InTx (updateEnvironmentTx pr k i))) ->
  (forall pr k i st ty, moves R (InTx (setEnvironmentStateTx pr k i st ty))) ->
  project_op A m -> moves R m.
Proof.
  intros T1 T2 T3 T4 T5 T6 Hop. destruct (loads_move R) as (_ & _ & _ & _ & _ & _ & L7 & L8).
  destruct (reads_move R) as (R1 & R2 & R3 & R4 & R5). pose proof (resolve_moves R) as R6.
  destruct Hop; auto; unfold CreateProject, UpdateProject, ArchiveProject, RestoreProject, setProjectState, CreateEnvironment,
    UpdateEnvironment, ArchiveEnvironment, setEnvironmentState;
    repeat (apply moves_lift_bind; [done|]; intros ? ?);
    (apply moves_once; [done|auto using loadIdempotentProject_same, loadIdempotentEnvironment_same|]); auto;
    match goal with Hk : requestFor _ _ _ _ = Ret _ |- _ => apply requestFor_org in Hk end; auto.
Qed.
Lemma op_sound A (m : M pworld projectError A) : project_op A m -> moves sound_step m.
Proof.
  apply op_moves; [apply _| | | | | |]; intros pr k; intros; refine (moves_InTx _ _ _); by apply (transactions_move pr k).
Qed.

Lemma steps_along (R : relation ProjectDB) `{!PreOrder R} d d' :
  (forall A (m : M pworld projectError A), project_op A m -> moves R m) -> rtc store_step d d' -> R d d'.
Proof.
  intros Hop. induction 1 as [|d1 d2 d3 (A & m & w & Hm & <- & <-) _ IH]; [done|]. etransitivity; [by apply Hop|exact IH].
Qed.

Lemma steps_sound d d' : rtc store_step d d' -> sound_step d d'.
Proof. apply steps_along; [apply _|]. apply op_sound. Qed.
End Store.

(** * Projects: successful transactions

    What the transactions of ProjectService.v have done to the database when
    they succeed. *)

Section Runs.
Context `{ProjectsEnv} `{Digest}.
Abbreviation P := (M pworld projectError).

Lemma statement_run_Ret {A} e (f : ProjectDB -> sres (A * ProjectDB)) w w' a :
  run e f w = (Ret a, w') -> exists d, f (pw_db w) = Ret (a, d) /\ w' = with_pdb d w.
Proof. unfold run. destruct (f (pw_db w)) as [[b d]|[]|]; [|done..]. intros [= -> <-]. by exists d. Qed.

Lemma exec_Ret e f w w' : exec e f w = (Ret tt, w') -> exists d, f (pw_db w) = Ret d /\ w' = with_pdb d w.
Proof.
  unfold exec. intros (d & Hd & ->)%statement_run_Ret. apply obind_Ret_inv in Hd as (d1 & Hd & [= <-]). by exists d1.
Qed.

Lemma fail_if_Ret b e w w' : fail_if b e w = (Ret tt, w') -> b = false /\ w' = w.
Proof. unfold fail_if. destruct b; [done|]. by intros [= <-]. Qed.

Lemma read_Ret {A} (f : ProjectDB -> A) w w' a : read f w = (Ret a, w') -> a = f (pw_db w) /\ w' = w.
Proof. by intros [= <- <-]. Qed.

Lemma lift_Ret {A} (o : pres A) (w w' : pworld) a : mlift o w = (Ret a, w') -> o = Ret a /\ w' = w.
Proof. by intros [= -> <-]. Qed.

Lemma now_Ret w w' t : now w = (Ret t, w') -> pw_db w' = pw_db w.
Proof. by intros [= _ <-]. Qed.

Lemma newUUID_Ret w w' i : newUUID w = (Ret i, w') -> pw_db w' = pw_db w.
Proof. by intros [= _ <-]. Qed.

Lemma InTx_Ret {A} (m : P A) w a w' : InTx m w = (Ret a, w') -> m w = (Ret a, w').
Proof. unfold InTx. by destruct (m w) as [[b|e|] w1]. Qed.

(** The recorded result, or the body on a new key. *)
Lemma once_Ret {A} (ex : P (option A)) body w a w' :
  (forall w, (ex w).2 = w) -> once ex body w = (Ret a, w') ->
  (ex w = (Ret (Some a), w) /\ w' = w) \/ (ex w = (Ret None, w) /\ body w = (Ret a, w')).
Proof.
  intros He Hr. apply InTx_Ret, mbindM_Ret_inv in Hr as (r & w1 & Hex & Hr). specialize (He w). rewrite Hex in He. simpl in He. subst w1.
  destruct r as [b|]; [|by right]. injection Hr as -> ->. by left.
Qed.

(** ** Loading *)

Lemma loadProjectByID_Ret o id w w' p :
  loadProjectByID o id w = (Ret p, w') ->
  w' = w /\ exists row, pgOrgID o = Ret (pr_org_id row) /\ pd_projects (pw_db w) !! id = Some row /\ p = projectFromStore (id, row).
Proof.
  intros Hr. apply mbindM_Ret_inv in Hr as (org & w1 & [Ho ->]%lift_Ret & Hr).
  apply mbindM_Ret_inv in Hr as (r & w1 & [-> ->]%read_Ret & Hr). unfold GetProjectByID in Hr.
  destruct (pd_projects (pw_db w) !! id) as [row|]; [|done]. case_decide as Hd; [|done]. injection Hr as <- <-.
  split; [done|]. exists row. split; [by rewrite Hd|]. by split.
Qed.

Lemma loadEnvironment_Ret o project id w w' e :
  loadEnvironment o project id w = (Ret e, w') ->
  w' = w /\ exists row, pgOrgID o = Ret (er_org_id row) /\ pd_environments (pw_db w) !! id = Some row
    /\ er_project_id row = project /\ e = environmentFromStore (id, row).
Proof.
  intros Hr. apply mbindM_Ret_inv in Hr as (org & w1 & [Ho ->]%lift_Ret & Hr).
  apply mbindM_Ret_inv in Hr as (r & w1 & [-> ->]%read_Ret & Hr). unfold GetEnvironmentByID in Hr.
  destruct (pd_environments (pw_db w) !! id) as [row|]; [|done]. case_decide as Hd; [|done]. injection Hr as <- <-.
  split; [done|]. exists row. destruct Hd as [E1 E2]. split; [by rewrite E1|]. by split_and!.
Qed.

(** No other project of the organisation uses the slug. *)
Definition slug_free (org slug : string) (id : option uuid) (d : ProjectDB) : Prop :=
  pd_redirects d !! (org, slug) = None
  /\ forall j p, pd_projects d !! j = Some p -> has_slug org slug p = true -> Some j = id.

Lemma available_Ret org slug id w w' b :
  projectSlugAvailable org slug id w = (Ret b, w') ->
  w' = w /\ (b = true -> slug_free org slug (if id =? uuid_Nil then None else Some id) (pw_db w)).
Proof.
  intros Hr. apply mbindM_Ret_inv in Hr as (u & w1 & [-> ->]%read_Ret & Hr). injection Hr as <- <-. split; [done|].
  intros Hu. apply negb_true_iff in Hu. unfold slug_free.
  destruct (id =? uuid_Nil); unfold ProjectSlugUnavailable, ProjectSlugUnavailableForOtherProject in Hu;
    apply orb_false_iff in Hu as [Hu Hr]; apply negb_false_iff, bool_decide_eq_true in Hr; (split; [done|]); intros j p Hp Hs.
  - exfalso. rewrite <- not_true_iff_false in Hu. apply Hu, existsb_exists. exists (j, p).
    by rewrite <- list_elem_of_In, elem_of_map_to_list.
  - f_equal. by eapply other_row_false.
Qed.

(** ** Writing *)

Lemma insertProjectEvent_Ret o p e ty actor payload w w' :
  insertProjectEvent o p e ty actor payload w = (Ret tt, w') ->
  exists id at_, pd_events (pw_db w) !! id = None
    /\ pw_db w' = set_project_events (<[id := mkProjectEventRow (trim_space o) p (nullableUUID e) ty actor (list_to_map payload)
                                      trace_context.1 trace_context.2 at_]> (pd_events (pw_db w))) (pw_db w).
Proof.
  intros Hr. apply mbindM_Ret_inv in Hr as (org & w1 & [Ho ->]%lift_Ret & Hr).
  apply mbindM_Ret_inv in Hr as (id & w1 & E1%newUUID_Ret & Hr). apply mbindM_Ret_inv in Hr as (t & w2 & E2%now_Ret & Hr).
  apply exec_Ret in Hr as (d & Hd & ->). rewrite E2, E1 in Hd. unfold InsertProjectEvent in Hd.
  apply obind_Ret_inv in Hd as (at_ & _ & Hd). do 3 take_step Hd. injection Hd as <-. required.
  match goal with H : bool_decide _ = true |- _ => apply bool_decide_eq_true in H as Hn end.
  unfold pgOrgID in Ho. case_decide; [done|]. injection Ho as <-. by exists id, at_.
Qed.

Lemma insert_record_Ret org op key row d d' :
  insert_record org op key row d = Ret d' ->
  pd_records d !! (org, op, key) = None /\ d' = set_records (<[(org, op, key) := row]> (pd_records d)) d.
Proof.
  unfold insert_record. intros Hd. do 3 take_step Hd. injection Hd as <-. required.
  match goal with H : bool_decide _ = true |- _ => apply bool_decide_eq_true in H as Hn end. done.
Qed.

(** The result [r] is recorded for the request. *)
Definition recorded (k : requestKey) (project : uuid) (environment : option uuid) (r : resultPayload) (d d' : ProjectDB) : Prop :=
  exists at_, pd_records d !! (rk_org k, rk_operation k, rk_keyHash k) = None
    /\ d' = set_records (<[(rk_org k, rk_operation k, rk_keyHash k) := mkIdempotencyRow (rk_requestHash k) project environment r at_]>
              (pd_records d)) d.

Lemma insertIdempotentProject_Ret k p t w w' :
  insertIdempotentProject k p t w = (Ret tt, w') -> recorded k (pj_ID p) None (ResultProject (projectPayload p)) (pw_db w) (pw_db w').
Proof.
  intros (d & Hd & ->)%exec_Ret. apply obind_Ret_inv in Hd as (at_ & _ & Hd). exists at_. by apply insert_record_Ret.
Qed.

Lemma insertIdempotentEnvironment_Ret k e t w w' :
  insertIdempotentEnvironment k e t w = (Ret tt, w') ->
  recorded k (en_ProjectID e) (nullableUUID (en_ID e)) (ResultEnvironment (environmentPayload e)) (pw_db w) (pw_db w').
Proof.
  intros (d & Hd & ->)%exec_Ret. apply obind_Ret_inv in Hd as (at_ & _ & Hd). exists at_. by apply insert_record_Ret.
Qed.
(** ** Updating a project *)

(** The row an update writes. *)
Definition updated_row (actor : string) (input : UpdateProjectRequest) (at_ : time) (old : projectRow) : projectRow :=
  update_project_row (default (pr_slug old) (up_Slug input)) (default (pr_display_name old) (up_DisplayName input))
    (default (pr_description old) (up_Description input)) actor at_ old.

Definition renames (input : UpdateProjectRequest) (old : projectRow) : bool :=
  negb (bool_decide (default (pr_slug old) (up_Slug input) = pr_slug old)).

(** Unless it redirects already, the old slug now redirects to the project. *)
Definition redirect_added (org slug : string) (id : uuid) (d d' : ProjectDB) : Prop :=
  pd_redirects d' = pd_redirects d /\ is_Some (pd_redirects d !! (org, slug))
  \/ exists actor at_, pd_redirects d !! (org, slug) = None
       /\ pd_redirects d' = <[(org, slug) := mkRedirectRow id actor at_]> (pd_redirects d).

(** One event is added, and the result is recorded. *)
Definition announced (k : requestKey) (project : uuid) (environment : option uuid) (r : resultPayload) (ty : string)
    (d d' : ProjectDB) : Prop :=
  pd_environments d' = pd_environments d
  /\ (exists id e, pd_events d !! id = None /\ pd_events d' = <[id := e]> (pd_events d) /\ ev_project_id e = project
        /\ ev_event_type e = ty)
  /\ pd_records d !! (rk_org k, rk_operation k, rk_keyHash k) = None
  /\ exists at_, pd_records d' = <[(rk_org k, rk_operation k, rk_keyHash k) :=
       mkIdempotencyRow (rk_requestHash k) project environment r at_]> (pd_records d).

Lemma UpdateProjectRow_Ret org id slug dn desc ub ua v d n d' :
  UpdateProjectRow org id slug dn desc ub ua v d = Ret (n, d') ->
  n = 0 \/ (n = 1 /\ exists old at_, pd_projects d !! id = Some old /\ pr_org_id old = org /\ pr_version old = v
              /\ pr_state old = StateActive /\ ua = Some at_
              /\ put_project id (update_project_row slug dn desc ub at_ old) d = Ret d').
Proof.
  unfold UpdateProjectRow. destruct (pd_projects d !! id) as [p|] eqn:E; [|by intros [= <- _]; left].
  destruct (_ && _) eqn:G; [|by intros [= <- _]; left]. intros Hr. apply obind_Ret_inv in Hr as (t & Ht & Hr).
  apply obind_Ret_inv in Hr as (d1 & Hp & [= <- <-]). right. split; [done|].
  apply andb_prop in G as [[G1%bool_decide_eq_true G2%Z.eqb_eq]%andb_prop G3%bool_decide_eq_true].
  unfold not_null in Ht. destruct ua as [u|]; [|done]. injection Ht as ->. exists p, t. by split_and!.
Qed.

Lemma insertProjectSlugRedirect_Ret o id slug actor t w w' :
  insertProjectSlugRedirect o id slug actor t w = (Ret tt, w') ->
  redirect_added (trim_space o) slug id (pw_db w) (pw_db w')
  /\ pd_projects (pw_db w') = pd_projects (pw_db w) /\ pd_environments (pw_db w') = pd_environments (pw_db w)
  /\ pd_records (pw_db w') = pd_records (pw_db w) /\ pd_events (pw_db w') = pd_events (pw_db w).
Proof.
  intros Hr. apply mbindM_Ret_inv in Hr as (org & w1 & [Ho ->]%lift_Ret & Hr). apply exec_Ret in Hr as (d & Hd & ->).
  unfold pgOrgID in Ho. case_decide; [done|]. injection Ho as <-. unfold InsertProjectSlugRedirect in Hd.
  apply obind_Ret_inv in Hd as (at_ & _ & Hd). take_step Hd. unfold redirect_added.
  destruct (bool_decide_reflect (pd_redirects (pw_db w) !! (trim_space o, slug) = None)) as [Hn|Hs].
  - take_step Hd. injection Hd as <-. split; [right; by eexists _, at_|done].
  - injection Hd as <-. split; [|done]. left. split; [done|]. by apply not_eq_None_Some in Hs.
Qed.

Lemma pgOrgID_trimmed o org : pgOrgID o = Ret org -> trim_space org = org.
Proof. unfold pgOrgID. case_decide; [done|]. intros [= <-]. apply trim_space_trimmed. Qed.

(** The end of an update: the event, the new row and the record. *)
Lemma finish_project_Ret pr o k id ty actor payload t w p w' :
  (exec! insertProjectEvent o id uuid_Nil ty actor payload;
   do! project <- loadProjectByID (pc_OrgID pr) id; exec! insertIdempotentProject k project t; mret project) w = (Ret p, w') ->
  exists row, pd_projects (pw_db w) !! id = Some row /\ p = projectFromStore (id, row)
    /\ pd_projects (pw_db w') = pd_projects (pw_db w) /\ pd_redirects (pw_db w') = pd_redirects (pw_db w)
    /\ announced k id None (ResultProject (projectPayload p)) ty (pw_db w) (pw_db w').
Proof.
  intros Hr. apply mbindM_Ret_inv in Hr as ([] & w5 & Hev & Hr).
  apply mbindM_Ret_inv in Hr as (p' & w6 & (-> & row & _ & El & Ep)%loadProjectByID_Ret & Hr).
  apply mbindM_Ret_inv in Hr as ([] & w7 & Hrec & Hr). injection Hr as -> ->.
  apply insertProjectEvent_Ret in Hev as (ei & et & En & E5). apply insertIdempotentProject_Ret in Hrec as (rt & Ern & E7).
  rewrite E5 in El, Ern, E7. rewrite E7. exists row. do 4 (split; [done|]). split; [done|]. split.
  - exists ei. eexists. split; [done|]. split; [reflexivity|done].
  - split; [done|]. exists rt. rewrite Ep. reflexivity.
Qed.

(** What an update has done. *)
Definition update_done (actor : string) (k : requestKey) (input : UpdateProjectRequest) (p : Project) (d d' : ProjectDB) : Prop :=
  let id := up_ProjectID input in
  exists old at_, pd_projects d !! id = Some old /\ pr_org_id old = rk_org k /\ pr_state old = StateActive
    /\ pr_version old = up_Version input
    /\ let new := updated_row actor input at_ old in
       p = projectFromStore (id, new) /\ pd_projects d' = <[id := new]> (pd_projects d)
       /\ (if renames input old then
             slug_free (rk_org k) (pr_slug new) (if id =? uuid_Nil then None else Some id) d
             /\ redirect_added (rk_org k) (pr_slug old) id d d'
           else pd_redirects d' = pd_redirects d)
       /\ announced k id None (ResultProject (projectPayload p)) "project.updated" d d'.

(** The checks of an update. *)
Lemma update_guard_Ret org input id old (w w' : pworld) :
  (if renames input old then
     do! available <- projectSlugAvailable org (default (pr_slug old) (up_Slug input)) id;
     fail_if (negb available) ErrConflict
   else mret tt) w = (Ret tt, w') ->
  w' = w /\ (renames input old = true ->
    slug_free org (default (pr_slug old) (up_Slug input)) (if id =? uuid_Nil then None else Some id) (pw_db w)).
Proof.
  destruct (renames input old); [|by intros [= <-]]. intros Hr.
  apply mbindM_Ret_inv in Hr as (b & w2 & [-> Hb]%available_Ret & Hf). apply fail_if_Ret in Hf as [Hb' ->].
  split; [done|]. intros _. apply Hb. by apply negb_false_iff in Hb'.
Qed.

(** The redirect of an update. *)
Lemma update_redirect_Ret (b : bool) org id slug actor t (w w' : pworld) :
  trim_space org = org -> (if b then insertProjectSlugRedirect org id slug actor t else mret tt) w = (Ret tt, w') ->
  (if b then redirect_added org slug id (pw_db w) (pw_db w') else pd_redirects (pw_db w') = pd_redirects (pw_db w))
  /\ pd_projects (pw_db w') = pd_projects (pw_db w) /\ pd_environments (pw_db w') = pd_environments (pw_db w)
  /\ pd_records (pw_db w') = pd_records (pw_db w) /\ pd_events (pw_db w') = pd_events (pw_db w).
Proof.
  intros Ht. destruct b; [|by intros [= <-]]. intros (Hr & Ho)%insertProjectSlugRedirect_Ret. by rewrite Ht in Hr.
Qed.

Lemma updateProjectTx_Ret pr k input w p w' :
  pgOrgID (pc_OrgID pr) = Ret (rk_org k) -> updateProjectTx pr k input w = (Ret p, w') ->
  update_done (pc_Subject pr) k input p (pw_db w) (pw_db w').
Proof.
  intros Hk Hr. pose proof (pgOrgID_trimmed _ _ Hk) as Htrim. unfold updateProjectTx in Hr.
  apply mbindM_Ret_inv in Hr as (q & w1 & (-> & old & Ho & El & ->)%loadProjectByID_Ret & Hr).
  rewrite Hk in Ho. injection Ho as Ho. cbn [projectFromStore pj_State pj_Version pj_Slug pj_DisplayName pj_Description pj_OrgID pj_ID] in Hr.
  apply mbindM_Ret_inv in Hr as ([] & w1 & [_ ->]%fail_if_Ret & Hr). apply mbindM_Ret_inv in Hr as ([] & w1 & [_ ->]%fail_if_Ret & Hr).
  cbv zeta in Hr. change (negb (bool_decide (default (pr_slug old) (up_Slug input) = pr_slug old))) with (renames input old) in Hr.
  apply mbindM_Ret_inv in Hr as ([] & w1 & [-> Hfree]%update_guard_Ret & Hr).
  apply mbindM_Ret_inv in Hr as (t & w1 & E1%now_Ret & Hr). apply mbindM_Ret_inv in Hr as (n & w2 & Hup & Hr).
  apply statement_run_Ret in Hup as (d2 & Hup & ->). rewrite E1 in Hup.
  apply mbindM_Ret_inv in Hr as ([] & w3 & [Hn ->]%fail_if_Ret & Hr). apply negb_false_iff, Z.eqb_eq in Hn. subst n.
  apply UpdateProjectRow_Ret in Hup as [?|(_ & old' & at_ & El' & Eo & Ev & Es & _ & Hput)]; [done|].
  rewrite El in El'. injection El' as <-. apply put_project_Ret in Hput as (_ & _ & ->).
  apply mbindM_Ret_inv in Hr as ([] & w4 & Hred & Hr). rewrite Ho in Htrim. apply (update_redirect_Ret _ _ _ _ _ _ _ _ Htrim) in Hred as (Hred & Rp & Re & Rr & Rv).
  apply finish_project_Ret in Hr as (row & Er & -> & Fp & Fr & Fa & (ei & ev & Hev & Eev & Hp & Hty) & Hrn & rt & Hrec).
  cbn [with_pdb pw_db set_projects pd_projects pd_redirects pd_environments pd_records pd_events] in Rp, Re, Rr, Rv, Hred.
  rewrite Rp, lookup_insert_eq in Er. injection Er as <-. exists old, at_. split; [exact El|]. split; [by rewrite Ho|].
  split; [exact Es|]. split; [exact Ev|]. cbv zeta. split; [reflexivity|]. split; [by rewrite Fp, Rp|]. split.
  - destruct (renames input old); [|by rewrite Fr]. rewrite Ho in *. split; [by apply Hfree|]. unfold redirect_added in *. by rewrite Fr.
  - unfold announced. rewrite Fa, Re, Eev, Rv, Hrec, Rr. rewrite Rv in Hev. rewrite Rr in Hrn. split; [done|].
    split; [by exists ei, ev|]. split; [done|]. by exists rt.
Qed.
(** ** Changing the state of a project *)

Definition state_done (actor : string) (k : requestKey) (input : ProjectLifecycleRequest) (st : lifeState) (ty : string)
    (p : Project) (d d' : ProjectDB) : Prop :=
  let id := pl_ProjectID input in
  exists old at_, pd_projects d !! id = Some old /\ pr_org_id old = rk_org k /\ pr_state old <> st
    /\ pr_version old = pl_Version input
    /\ let new := set_project_row st actor at_ (if decide (st = StateArchived) then Some at_ else None) old in
       p = projectFromStore (id, new) /\ pd_projects d' = <[id := new]> (pd_projects d) /\ pd_redirects d' = pd_redirects d
       /\ announced k id None (ResultProject (projectPayload p)) ty d d'.

Lemma setProjectStateTx_Ret pr k input st ty w p w' :
  pgOrgID (pc_OrgID pr) = Ret (rk_org k) -> setProjectStateTx pr k input st ty w = (Ret p, w') ->
  state_done (pc_Subject pr) k input st ty p (pw_db w) (pw_db w').
Proof.
  intros Hk Hr. unfold setProjectStateTx in Hr.
  apply mbindM_Ret_inv in Hr as (q & w1 & (-> & old & Ho & El & ->)%loadProjectByID_Ret & Hr).
  rewrite Hk in Ho. injection Ho as Ho. cbn [projectFromStore pj_State pj_Version pj_OrgID pj_ID] in Hr.
  apply mbindM_Ret_inv in Hr as ([] & w1 & [Hst ->]%fail_if_Ret & Hr). apply bool_decide_eq_false in Hst.
  apply mbindM_Ret_inv in Hr as ([] & w1 & [_ ->]%fail_if_Ret & Hr).
  apply mbindM_Ret_inv in Hr as (t & w1 & E1%now_Ret & Hr). apply mbindM_Ret_inv in Hr as (n & w2 & Hup & Hr).
  apply statement_run_Ret in Hup as (d2 & Hup & ->). rewrite E1 in Hup.
  apply mbindM_Ret_inv in Hr as ([] & w3 & [Hn ->]%fail_if_Ret & Hr). apply negb_false_iff, Z.eqb_eq in Hn. subst n.
  unfold SetProjectState in Hup. rewrite El in Hup. destruct (_ && _) eqn:G; [|done].
  apply andb_prop in G as [_ G%Z.eqb_eq]. apply obind_Ret_inv in Hup as (at_ & Hat & Hup).
  apply obind_Ret_inv in Hup as (d1 & Hput & [= <-]). apply put_project_Ret in Hput as (_ & _ & ->).
  assert ((if decide (st = StateArchived) then timestamptz t else None) = (if decide (st = StateArchived) then Some at_ else None)) as Ea.
  { unfold not_null in Hat. destruct (timestamptz t); [|done]. by injection Hat as ->. }
  rewrite Ea in Hr.
  apply finish_project_Ret in Hr as (row & Er & -> & Fp & Fr & Fa & (ei & ev & Hev & Eev & Hp & Hty) & Hrn & rt & Hrec).
  simpl in Er. rewrite lookup_insert_eq in Er. injection Er as <-. exists old, at_. split; [exact El|]. split; [by rewrite Ho|].
  split; [exact Hst|]. split; [exact G|]. cbv zeta. split; [reflexivity|]. split; [exact Fp|]. split; [exact Fr|].
  split; [exact Fa|]. split; [by exists ei, ev|]. split; [exact Hrn|]. by exists rt.
Qed.

(** ** Creating a project *)

Definition default_kinds : list string := [EnvironmentKindProduction; EnvironmentKindPreview; EnvironmentKindDevelopment].

(** An active environment of that kind and slug. *)
Definition has_environment (project : uuid) (kind : string) (d : ProjectDB) : Prop :=
  exists id e, pd_environments d !! id = Some e /\ er_project_id e = project /\ er_kind e = kind /\ er_slug e = kind
    /\ er_state e = StateActive.

Lemma insertEnvironment_Ret e w w' :
  insertEnvironment e w = (Ret tt, w') ->
  exists c u, pd_environments (pw_db w) !! en_ID e = None /\ project_of (pw_db w) (en_ProjectID e) (en_OrgID e) = true
    /\ pw_db w' = set_environments (<[en_ID e := mkEnvironmentRow (en_ProjectID e) (en_OrgID e) (en_Slug e) (en_DisplayName e)
         (en_Kind e) (en_State e) (en_ProtectionPolicy e) (en_Version e) (en_CreatedBy e) (en_UpdatedBy e) c u None]>
         (pd_environments (pw_db w))) (pw_db w).
Proof.
  intros (d & Hd & ->)%exec_Ret. unfold InsertEnvironment in Hd. apply obind_Ret_inv in Hd as (c & _ & Hd).
  apply obind_Ret_inv in Hd as (u & _ & Hd). do 2 take_step Hd. apply obind_Ret_inv in Hd as (d1 & Hp & Hd). take_step Hd.
  injection Hd as <-. required. match goal with H : bool_decide _ = true |- _ => apply bool_decide_eq_true in H as Hn end.
  apply put_environment_Ret in Hp as (_ & _ & ->). by exists c, u.
Qed.

Lemma InsertProject_Ret id org slug dn desc st v cb ub ca ua d d' :
  InsertProject id org slug dn desc st v cb ub ca ua d = Ret d' ->
  exists c u, ca = Some c /\ ua = Some u /\ pd_projects d !! id = None
    /\ d' = set_projects (<[id := mkProjectRow org slug dn desc st v cb ub c u None]> (pd_projects d)) d.
Proof.
  unfold InsertProject. intros Hd. apply obind_Ret_inv in Hd as (c & Hc & Hd). apply obind_Ret_inv in Hd as (u & Hu & Hd).
  do 2 take_step Hd. required. match goal with H : bool_decide _ = true |- _ => apply bool_decide_eq_true in H as Hn end.
  apply put_project_Ret in Hd as (_ & _ & ->). by eexists _, _.
Qed.

Definition created_row (actor org : string) (input : CreateProjectRequest) (at_ : time) : projectRow :=
  mkProjectRow org (cr_Slug input) (cr_DisplayName input) (cr_Description input) StateActive 1 actor actor at_ at_ None.

(** What a creation has done. *)
Definition create_done (pr : Principal) (k : requestKey) (input : CreateProjectRequest) (p : Project) (d d' : ProjectDB) : Prop :=
  let actor := pc_Subject pr in
  exists t, let id := pj_ID p in
    p = mkProject id (pc_OrgID pr) (cr_Slug input) "" (cr_DisplayName input) (cr_Description input) StateActive 1 actor actor t t None
    /\ pc_OrgID pr = rk_org k /\ pd_projects d !! id = None /\ slug_free (rk_org k) (cr_Slug input) None d
    /\ pd_projects d' = <[id := created_row actor (rk_org k) input (pg_timestamptz t)]> (pd_projects d)
    /\ pd_redirects d' = pd_redirects d
    /\ Forall (fun kind => has_environment id kind d') default_kinds
    /\ pd_records d !! (rk_org k, rk_operation k, rk_keyHash k) = None
    /\ exists rt, pd_records d' = <[(rk_org k, rk_operation k, rk_keyHash k) :=
         mkIdempotencyRow (rk_requestHash k) id None (ResultProject (projectPayload p)) rt]> (pd_records d).

Lemma insertEnvironment_has e w w' :
  insertEnvironment e w = (Ret tt, w') ->
  (forall project kind, has_environment project kind (pw_db w) -> has_environment project kind (pw_db w'))
  /\ (en_State e = StateActive -> en_Slug e = en_Kind e -> has_environment (en_ProjectID e) (en_Kind e) (pw_db w'))
  /\ project_of (pw_db w) (en_ProjectID e) (en_OrgID e) = true /\ pd_projects (pw_db w') = pd_projects (pw_db w)
  /\ pd_redirects (pw_db w') = pd_redirects (pw_db w) /\ pd_records (pw_db w') = pd_records (pw_db w).
Proof.
  intros (c & u & Hn & Hf & ->)%insertEnvironment_Ret. split; [|split; [|done]].
  - intros project kind (id & r & Hr & Hrest). exists id, r. split; [|done]. simpl. rewrite lookup_insert_ne; [done|].
    intros <-. by rewrite Hn in Hr.
  - intros Hst Hsl. exists (en_ID e). eexists. simpl. rewrite lookup_insert_eq. by split_and!.
Qed.

(** The default environments of a new project. *)
Lemma default_environments_Ret p actor t w w' :
  insertDefaultEnvironments p actor t w = (Ret tt, w') ->
  Forall (fun kind => has_environment (pj_ID p) kind (pw_db w')) default_kinds
  /\ project_of (pw_db w) (pj_ID p) (pj_OrgID p) = true /\ pd_projects (pw_db w') = pd_projects (pw_db w)
  /\ pd_redirects (pw_db w') = pd_redirects (pw_db w) /\ pd_records (pw_db w') = pd_records (pw_db w).
Proof.
  intros Hr. apply mbindM_Ret_inv in Hr as (e1 & w1 & [= <- <-] & Hr). apply mbindM_Ret_inv in Hr as (e2 & w2 & [= <- <-] & Hr).
  apply mbindM_Ret_inv in Hr as (e3 & w3 & [= <- <-] & Hr).
  apply mbindM_Ret_inv in Hr as ([] & w4 & (K1 & N1 & F1 & P1 & R1 & C1)%insertEnvironment_has & Hr).
  apply mbindM_Ret_inv in Hr as ([] & w5 & (K2 & N2 & F2 & P2 & R2 & C2)%insertEnvironment_has & Hr).
  apply insertEnvironment_has in Hr as (K3 & N3 & F3 & P3 & R3 & C3).
  split; [|split; [exact F1|]].
  - repeat constructor; [apply K3, K2, N1|apply K3, N2|apply N3]; reflexivity.
  - simpl in *. split_and!; congruence.
Qed.
Lemma createProjectTx_Ret pr k input w p w' :
  pgOrgID (pc_OrgID pr) = Ret (rk_org k) -> createProjectTx pr k input w = (Ret p, w') ->
  create_done pr k input p (pw_db w) (pw_db w').
Proof.
  intros Hk Hr. unfold createProjectTx in Hr. apply mbindM_Ret_inv in Hr as (b & w1 & [-> Hfree]%available_Ret & Hr).
  apply mbindM_Ret_inv in Hr as ([] & w1 & [Hb ->]%fail_if_Ret & Hr). apply negb_false_iff in Hb. specialize (Hfree Hb).
  apply mbindM_Ret_inv in Hr as (t & w1 & E1%now_Ret & Hr). apply mbindM_Ret_inv in Hr as (id & w2 & E2%newUUID_Ret & Hr).
  cbv zeta in Hr. apply mbindM_Ret_inv in Hr as ([] & w3 & (d3 & Hi & ->)%exec_Ret & Hr). rewrite E2, E1 in Hi.
  apply InsertProject_Ret in Hi as (c & u & Hc & Hu & Hn & ->). rewrite Hc in Hu. injection Hu as <-.
  assert (c = pg_timestamptz t) as -> by (unfold timestamptz in Hc; destruct (is_zero t); [done|]; congruence).
  apply mbindM_Ret_inv in Hr as ([] & w4 & (Hdef & Hof & Dp & Dr & Dc)%default_environments_Ret & Hr).
  apply mbindM_Ret_inv in Hr as ([] & w5 & (ei & et & _ & E5)%insertProjectEvent_Ret & Hr).
  apply mbindM_Ret_inv in Hr as ([] & w6 & (rt & Hrn & E6)%insertIdempotentProject_Ret & Hr). injection Hr as <- <-.
  simpl in Hof, Dp, Dr, Dc. unfold project_of in Hof. simpl in Hof. rewrite lookup_insert_eq in Hof. apply bool_decide_eq_true in Hof.
  rewrite E5 in Hrn, E6. simpl in Hrn, E6. exists t. cbv zeta. simpl. rewrite E6. simpl.
  split; [done|]. split; [done|]. split; [done|]. split; [done|]. split; [by rewrite Dp|]. split; [done|].
  split; [exact Hdef|]. rewrite Dc in *. split; [done|]. by exists rt.
Qed.
End Runs.
