(* ===== verification/ProjectSamples.v ===== *)
(** * Projects: a sample run

    A concrete clock, source of UUIDs and digest, and the worlds after a
    project has been created, renamed and listed, on which the hypotheses of
    the theorems hold. *)

From stdpp Require Import relations.
From S2P Require Import Prelude GoStd GoTime GoFormat Json GoText ProjectTypes ProjectStore ProjectService.
From S2P Require Import ProjectSystem.

#[export] Instance sample_projects : ProjectsEnv := {|
  clock_at n := 1700000000 * second + Z.of_nat n * microsecond;
  uuid_New n := Z.of_nat n + 1;
  uuid_String := format_uint;
  uuid_Parse s := parse_natural (bytes_of_string s);
  trace_context := ("", "")
|}.

#[export] Instance sample_project_digest : Digest := sha256_digest.

Lemma sample_uuid_parse i : 0 <= i < 2 ^ 128 -> uuid_Parse (uuid_String i) = Some i.
Proof. intros [Hi _]. exact (digits_of_uint i Hi). Qed.

Abbreviation empty_projects := (mkPWorld (mkProjectDB ∅ ∅ ∅ ∅ ∅) 0 0).
Abbreviation alice := (mkPrincipal "alice" "org-1" "alice@example.com").

Abbreviation create_alpha := (CreateProject alice (mkCreateProject "Alpha One" "Alpha" "" "key-1")).
Abbreviation alpha_world := (create_alpha empty_projects).2.

(** Renames the project from alpha-one to beta. *)
Abbreviation beta_input := (mkUpdateProject 1 1 (Some "Beta"%string) None None "key-2").
Abbreviation rename_alpha := (UpdateProject alice beta_input).
Abbreviation beta_world := (rename_alpha alpha_world).2.

Definition result_of {A} (r : pres A * pworld) : option A := match r.1 with Ret a => Some a | _ => None end.

Lemma run_succeeds {A} (m : M pworld projectError A) w a : result_of (m w) = Some a -> m w = (Ret a, (m w).2).
Proof. unfold result_of. destruct (m w) as [[b|e|] w']; simpl; [by intros [= ->]|done..]. Qed.

Example alpha_slug : (pj_Slug <$> result_of (create_alpha empty_projects)) = Some "alpha-one"%string.
Proof. vm_compute. reflexivity. Qed.

Example beta_slug : (pj_Slug <$> result_of (rename_alpha alpha_world)) = Some "beta"%string.
Proof. vm_compute. reflexivity. Qed.

Example alpha_resolves :
  ((fun p => (pj_Slug p, pj_RedirectedFromSlug p)) <$>
    result_of (ResolveProject (mkResolveProject "org-1" uuid_Nil "alpha one" true) beta_world)) = Some ("beta", "alpha-one")%string.
Proof. vm_compute. reflexivity. Qed.

Lemma run_result {A} (m : M pworld projectError A) w : is_ret (m w).1 = true -> exists a, m w = (Ret a, (m w).2).
Proof. destruct (m w) as [[a|e|] w']; simpl; [by exists a|done..]. Qed.

Lemma alpha_created : exists p, create_alpha empty_projects = (Ret p, alpha_world).
Proof. apply run_result. vm_compute. reflexivity. Qed.

Lemma alpha_renamed : exists p, rename_alpha alpha_world = (Ret p, beta_world).
Proof. refine (run_result rename_alpha alpha_world _). vm_compute. reflexivity. Qed.

Lemma renamed_changes : pw_db beta_world <> pw_db alpha_world.
Proof. intros E. apply (f_equal (fun d => size (pd_redirects d))) in E. vm_compute in E. discriminate E. Qed.

Lemma one_step {A} (m : M pworld projectError A) w : project_op A m -> store_step (pw_db w) (pw_db (m w).2).
Proof. intros Hm. exists A, m, w. split; [exact Hm|]. split; reflexivity. Qed.

Lemma to_alpha : rtc store_step (pw_db empty_projects) (pw_db alpha_world).
Proof.
  exact (rtc_once _ _ (one_step create_alpha empty_projects (op_create alice (mkCreateProject "Alpha One" "Alpha" "" "key-1")))).
Qed.

Lemma alpha_to_beta : rtc store_step (pw_db alpha_world) (pw_db beta_world).
Proof. exact (rtc_once _ _ (one_step rename_alpha alpha_world (op_update alice beta_input))). Qed.

Lemma to_beta : rtc store_step (pw_db empty_projects) (pw_db beta_world).
Proof. exact (rtc_l _ _ _ _ (one_step create_alpha empty_projects (op_create alice (mkCreateProject "Alpha One" "Alpha" "" "key-1"))) alpha_to_beta). Qed.

Lemma empty_tables_sound : tables_sound (pw_db empty_projects).
Proof. by split. Qed.

(** A fourth environment, without a protection policy. *)
Abbreviation create_staging := (CreateEnvironment alice (mkCreateEnvironment 1 "staging" "Staging" "" None "key-3")).
Abbreviation staging_world := (create_staging beta_world).2.

Lemma staging_created : exists e, create_staging beta_world = (Ret e, staging_world).
Proof. refine (run_result create_staging beta_world _). vm_compute. reflexivity. Qed.

Abbreviation resolve_alpha := (ResolveProject (mkResolveProject "org-1" uuid_Nil "Alpha One" true)).

Lemma alpha_resolved : exists p, resolve_alpha alpha_world = (Ret p, (resolve_alpha alpha_world).2).
Proof. refine (run_result resolve_alpha alpha_world _). vm_compute. reflexivity. Qed.

Lemma beta_repeated : exists p w, rename_alpha beta_world = (Ret p, w).
Proof.
  destruct (run_result rename_alpha beta_world) as [p Hp]; [vm_compute; reflexivity|]. exists p, (rename_alpha beta_world).2. exact Hp.
Qed.

(** Resolving changes nothing, so the step to the renamed project starts there. *)
Lemma alpha_resolved_to_beta : rtc store_step (pw_db (resolve_alpha alpha_world).2) (pw_db beta_world).
Proof.
  assert (pw_db (resolve_alpha alpha_world).2 = pw_db alpha_world) as E by (vm_compute; reflexivity).
  rewrite E. exact alpha_to_beta.
Qed.

(** Two more projects. *)
Abbreviation three_world :=
  (CreateProject alice (mkCreateProject "gamma" "Gamma" "" "key-5")
    (CreateProject alice (mkCreateProject "delta" "Delta" "" "key-4") staging_world).2).2.

Example three_listed :
  ((fun page : list Project * string => pj_Slug <$> page.1) <$> result_of (ListProjects alice (mkListProjects "active" 2 "") three_world))
  = Some ["gamma"; "delta"]%string.
Proof. vm_compute. reflexivity. Qed.
