(* ===== verification/ProjectTheorems.v ===== *)
(** * Projects: the normal form of slugs

    What normalizeSlug produces: lower-case letters and digits with single
    dashes between them. *)

From stdpp Require Import relations.
From S2P Require Import Prelude GoStd GoFormat GoTime Json GoText ProjectTypes ProjectStore ProjectService.
From S2P Require Import ProjectSystem ProjectSamples.

Definition slug_byte (b : Z) : bool := slug_alnum b || (b =? 45).

(** No dash follows a dash; [dash]: one came last. *)
Fixpoint dashed (dash : bool) (l : list Z) : bool :=
  match l with
  | [] => true
  | b :: l' => if b =? 45 then negb dash && dashed true l' else slug_alnum b && dashed false l'
  end.

Definition ends_dashed (dash : bool) (l : list Z) : bool := match last l with Some b => b =? 45 | None => dash end.

(** A slug in normal form, or nothing. *)
Definition normal (l : list Z) : Prop := dashed true l = true /\ last l <> Some 45.

Lemma slug_alnum_range b : slug_alnum b = true -> 48 <= b < 128.
Proof. unfold slug_alnum. intros H. zbool; lia. Qed.

Lemma dashed_printable dash l : dashed dash l = true -> Forall printable l /\ Forall (fun b => slug_byte b = true) l.
Proof.
  revert dash. induction l as [|b l IH]; intros dash H; [by split|]. simpl in H. destruct (Z.eqb_spec b 45) as [->|].
  - apply andb_prop in H as [_ H]. destruct (IH _ H). split; constructor; try done; unfold printable; lia.
  - apply andb_prop in H as [H1 H]. destruct (IH _ H). pose proof (slug_alnum_range _ H1).
    split; constructor; try done; [unfold printable; lia|]. unfold slug_byte. by rewrite H1.
Qed.

Lemma ends_dashed_cons dash c l : ends_dashed dash (c :: l) = ends_dashed (c =? 45) l.
Proof. unfold ends_dashed. destruct l as [|x l]; [done|]. change (last (c :: x :: l)) with (last (x :: l)). destruct (last (x :: l)) eqn:E; [done|]. by apply last_None in E. Qed.

Lemma dashed_snoc dash l b :
  dashed dash (l ++ [b]) = dashed dash l && (if b =? 45 then negb (ends_dashed dash l) else slug_alnum b).
Proof.
  revert dash. induction l as [|c l IH]; intros dash.
  - unfold ends_dashed. simpl. destruct (b =? 45); by rewrite andb_true_r.
  - rewrite ends_dashed_cons. simpl. rewrite !IH. destruct (c =? 45); by rewrite andb_assoc.
Qed.

(** ** The loop *)

Lemma slug_loop_dashed fuel prev out l :
  dashed true (rev out) = true -> prev = (match out with b :: _ => b =? 45 | [] => false end) ->
  dashed true (rev (slug_loop fuel prev out l)) = true.
Proof.
  revert prev out l. induction fuel as [|fuel IH]; intros prev out l Hd Hp; [done|]. simpl.
  assert (forall l', dashed true (rev (match prev with
      | true => slug_loop fuel prev out l'
      | false => match out with [] => slug_loop fuel prev out l' | _ :: _ => slug_loop fuel true (45 :: out) l' end end)) = true) as Hdash.
  { intros l'. destruct prev; [by apply IH|]. destruct out as [|c out]; [by apply IH|]. apply IH; [|done].
    cbn [rev]. cbn [rev] in Hd. rewrite dashed_snoc, Hd. simpl. unfold ends_dashed. rewrite last_snoc. by rewrite <- Hp. }
  destruct (strip_any space_bytes l) as [l'|]; [apply Hdash|]. destruct l as [|b l]; [done|]. case_bool; zbool.
  - apply IH.
    + cbn [rev]. rewrite dashed_snoc, Hd. pose proof (slug_alnum_range b ltac:(assumption)).
      destruct (Z.eqb_spec b 45); [lia|]. done.
    + pose proof (slug_alnum_range b ltac:(assumption)). destruct (Z.eqb_spec b 45); [lia|done].
  - destruct ((b =? 45) || (b =? 95)); [apply Hdash|by apply IH].
Qed.

(** A text in normal form goes through the loop unchanged. *)
Lemma slug_loop_normal fuel prev out l :
  (length l <= fuel)%nat -> dashed (match out with [] => true | _ => prev end) l = true -> slug_loop fuel prev out l = rev l ++ out.
Proof.
  revert prev out l. induction fuel as [|fuel IH]; intros prev out l Hl Hd; [by destruct l; [|simpl in Hl; lia]|].
  simpl. rewrite strip_any_printable; [|reflexivity|by eapply dashed_printable]. destruct l as [|b l]; [done|]. simpl in Hl, Hd.
  destruct (Z.eqb_spec b 45) as [->|Hb].
  - apply andb_prop in Hd as [Hp Hd]. change (slug_alnum 45) with false. cbn [orb]. destruct out as [|c out]; [done|].
    destruct prev; [done|]. rewrite IH by (done || lia). simpl. by rewrite <- app_assoc.
  - apply andb_prop in Hd as [Hb' Hd]. rewrite Hb'. rewrite IH by (done || lia). simpl. by rewrite <- app_assoc.
Qed.

(** ** strings.Trim *)

Lemma drop_dashes_none l : head l <> Some 45 -> drop_dashes l = l.
Proof.
  destruct l as [|b l]; [done|]. intros Hb. assert (b <> 45) as Hne by (intros ->; done). simpl. clear Hb.
  destruct b as [|p|p]; try done. do 6 (destruct p as [p|p|]; try done).
Qed.

Lemma drop_dashes_one b l : b = 45 -> head l <> Some 45 -> drop_dashes (b :: l) = l.
Proof. intros -> Hl. simpl. by apply drop_dashes_none. Qed.

Lemma dashed_head l : dashed true l = true -> head l <> Some 45.
Proof. destruct l; simpl; [done|]. destruct (Z.eqb_spec z 45); [done|]. congruence. Qed.

Lemma trim_dashes_normal l : dashed true l = true -> normal (trim_dashes l) /\ (last l <> Some 45 -> trim_dashes l = l).
Proof.
  intros Hd. unfold trim_dashes. rewrite (drop_dashes_none l) by by apply dashed_head.
  destruct l as [|b l _] using rev_ind; [by repeat split|]. rewrite rev_unit, last_snoc. rewrite dashed_snoc in Hd.
  apply andb_prop in Hd as [Hd Hb]. destruct (Z.eqb_spec b 45) as [->|Hne].
  - assert (last l <> Some 45) as Hl.
    { unfold ends_dashed in Hb. destruct (last l) as [c|]; [|done]. intros [= ->]. done. }
    split; [|done]. rewrite drop_dashes_one; [rewrite rev_involutive; done|done|].
    destruct l as [|c l _] using rev_ind; [done|]. rewrite rev_unit. rewrite last_snoc in Hl. done.
  - rewrite (drop_dashes_none (b :: rev l)) by (simpl; congruence). cbn [rev]. rewrite rev_involutive. split; [|done]. split.
    + rewrite dashed_snoc, Hd. destruct (Z.eqb_spec b 45); [done|]. exact Hb.
    + rewrite last_snoc. congruence.
Qed.

(** ** normalizeSlug *)

Lemma lower_bytes_cons b l : b < 128 -> lower_bytes (b :: l) = (if (65 <=? b) && (b <=? 90) then b + 32 else b) :: lower_bytes l.
Proof. intros Hb. destruct b as [|p|p]; try done. do 8 (destruct p as [p|p|]; try done; try lia). Qed.

Lemma lower_normal l : Forall (fun b => slug_byte b = true) l -> lower_bytes l = l.
Proof.
  induction 1 as [|b l Hb _ IH]; [done|]. unfold slug_byte, slug_alnum in Hb. rewrite lower_bytes_cons by (zbool; lia). rewrite IH.
  f_equal. destruct (Z.leb_spec 65 b), (Z.leb_spec b 90); simpl; try done. zbool; lia.
Qed.

Lemma normalizeSlug_normal value : exists l, normal l /\ normalizeSlug value = string_of_bytes l.
Proof.
  unfold normalizeSlug. set (l := bytes_of_string _). eexists. split; [|reflexivity].
  apply trim_dashes_normal. by apply slug_loop_dashed.
Qed.

Lemma normal_bytes l : normal l -> Forall printable l /\ Forall (fun b => slug_byte b = true) l /\ bytes_of_string (string_of_bytes l) = l.
Proof.
  intros [Hd _]. apply dashed_printable in Hd as [H1 H2]. split_and!; [done..|]. apply bytes_of_string_of_bytes.
  eapply Forall_impl; [exact H1|]. unfold printable, is_byte. lia.
Qed.

Lemma normalizeSlug_fixed l : normal l -> normalizeSlug (string_of_bytes l) = string_of_bytes l.
Proof.
  intros Hn. pose proof Hn as [Hd Hl]. apply normal_bytes in Hn as (Hp & Hs & Hb). unfold normalizeSlug, to_lower.
  rewrite trim_space_printable by by rewrite Hb. rewrite Hb, lower_normal, Hb by done.
  rewrite slug_loop_normal by done. rewrite app_nil_r, rev_involutive. f_equal. by apply trim_dashes_normal.
Qed.

Lemma normal_check l : normal l ->
  slug_check (string_of_bytes l) = (1 <=? Z.of_nat (length l)) && (Z.of_nat (length l) <=? 80).
Proof.
  intros Hn. pose proof Hn as [Hd Hl]. apply normal_bytes in Hn as (_ & Hs & Hb). unfold slug_check. rewrite Hb.
  assert (forallb (fun b => slug_alnum b || (b =? 45)) l = true) as ->.
  { apply forallb_forall. rewrite Forall_forall in Hs. intros b Hin. apply Hs. by apply list_elem_of_In. }
  rewrite andb_true_r, andb_comm. destruct l as [|b l]; [done|]. f_equal. cbn [head length].
  destruct (Z.leb_spec 1 (Z.of_nat (S (length l)))); [|lia].
  destruct (last (b :: l)) as [c|] eqn:Ec; [|by apply last_None in Ec]. apply andb_true_intro. split.
  - simpl in Hd. destruct (Z.eqb_spec b 45); [done|]. by apply andb_prop in Hd as [].
  - apply last_Some in Ec as [l' Ec]. rewrite Ec, dashed_snoc in Hd.
    apply andb_prop in Hd as [_ Hc]. destruct (Z.eqb_spec c 45) as [->|]; [done|exact Hc].
Qed.

Lemma bytes_length s : length (bytes_of_string s) = String.length s.
Proof. induction s as [|c s IH]; [done|]. simpl. by rewrite IH. Qed.

Lemma validate_normal l : normal l -> validateSlug (string_of_bytes l) =
  (if (1 <=? Z.of_nat (length l)) && (Z.of_nat (length l) <=? 80) then Ret tt else Err ErrInvalid).
Proof.
  intros (_ & Hs & Hb)%normal_bytes. unfold validateSlug, invalid_if. rewrite <- bytes_length, Hb.
  assert (forallb (fun b => slug_alnum b || (b =? 45)) l = true) as ->.
  { apply forallb_forall. rewrite Forall_forall in Hs. intros b Hin. apply Hs. by apply list_elem_of_In. }
  destruct (Z.ltb_spec (Z.of_nat (length l)) 1), (Z.leb_spec 1 (Z.of_nat (length l))); try lia; [done|].
  destruct (Z.ltb_spec 80 (Z.of_nat (length l))), (Z.leb_spec (Z.of_nat (length l)) 80); try lia; done.
Qed.

(** C40: Normalising a slug twice is normalising it once, and a normalised slug
    passes validateSlug exactly when it satisfies the CHECK constraint of the
    slug columns: a request that passes validation never fails on the slug. *)
Theorem slug_normal_form value :
  normalizeSlug (normalizeSlug value) = normalizeSlug value
  /\ (validateSlug (normalizeSlug value) = Ret tt <-> slug_check (normalizeSlug value) = true).
Proof.
  destruct (normalizeSlug_normal value) as (l & Hn & ->). split; [by apply normalizeSlug_fixed|].
  rewrite normal_check, validate_normal by done. by destruct (_ && _).
Qed.

(** * Theorems on projects

    The slugs of projects and their redirects, requests that are repeated and
    updates of one version. *)

(** ** Slugs *)

(** The tables are sound, and no slug both names a project and redirects. *)
Definition slugs_sound (d : ProjectDB) : Prop :=
  tables_sound d
  /\ forall org slug r i p, pd_redirects d !! (org, slug) = Some r -> pd_projects d !! i = Some p -> has_slug org slug p = false.

(** The slug names the project, or redirects to it. *)
Definition resolves (d : ProjectDB) (org slug : string) (id : uuid) : Prop :=
  (exists p, pd_projects d !! id = Some p /\ has_slug org slug p = true)
  \/ exists r, pd_redirects d !! (org, slug) = Some r /\ rd_project_id r = id.

(** Slugs stay sound, and lead where they led. *)
Definition slugs_kept (d d' : ProjectDB) : Prop :=
  slugs_sound d -> slugs_sound d' /\ forall org slug id, resolves d org slug id -> resolves d' org slug id.

#[export] Instance slugs_kept_preorder : PreOrder slugs_kept.
Proof.
  split; [by intros d Hd|]. intros d1 d2 d3 H1 H2 Hd. destruct (H1 Hd) as [S2 R2]. destruct (H2 S2) as [S3 R3]. split; [done|]. auto.
Qed.

Definition same_slugs (d d' : ProjectDB) : Prop := pd_projects d' = pd_projects d /\ pd_redirects d' = pd_redirects d.

#[export] Instance same_slugs_preorder : PreOrder same_slugs.
Proof. split; [by intros d|]. intros d1 d2 d3 [A B] [A' B']. split; congruence. Qed.

Lemma has_slug_spec org slug p : has_slug org slug p = true <-> pr_org_id p = org /\ pr_slug p = slug.
Proof. unfold has_slug. rewrite andb_true_iff, !bool_decide_eq_true. done. Qed.

Lemma same_slugs_kept d d' : sound_step d d' -> same_slugs d d' -> slugs_kept d d'.
Proof.
  intros [_ HS] [EP ER] [HT HD]. split; [split; [by apply HS|by rewrite EP, ER]|]. unfold resolves. by rewrite EP, ER.
Qed.

(** A project row is replaced by one with the same organisation and slug. *)
Lemma touched_kept id old new d d' :
  sound_step d d' -> pd_projects d !! id = Some old -> pr_org_id new = pr_org_id old -> pr_slug new = pr_slug old ->
  pd_projects d' = <[id := new]> (pd_projects d) -> pd_redirects d' = pd_redirects d -> slugs_kept d d'.
Proof.
  intros [_ HS] El Eo Es EP ER [HT HD].
  assert (forall org slug, has_slug org slug new = has_slug org slug old) as Hh by (intros; unfold has_slug; by rewrite Eo, Es).
  split; [split; [by apply HS|]|].
  - intros org slug r i p Hr Hp. rewrite ER in Hr. rewrite EP in Hp. apply lookup_insert_Some in Hp as [[<- <-]|[_ Hp]]; [|by eapply HD].
    rewrite Hh. by eapply HD.
  - intros org slug i [(p & Hp & Hs)|Hr]; [left|right; by rewrite ER]. rewrite EP. destruct (decide (i = id)) as [->|Hne].
    + rewrite El in Hp. injection Hp as <-. exists new. by rewrite lookup_insert_eq, Hh.
    + exists p. by rewrite lookup_insert_ne.
Qed.

Lemma created_kept id new d d' :
  sound_step d d' -> pd_projects d !! id = None -> slug_free (pr_org_id new) (pr_slug new) None d ->
  pd_projects d' = <[id := new]> (pd_projects d) -> pd_redirects d' = pd_redirects d -> slugs_kept d d'.
Proof.
  intros [_ HS] En [Hfree _] EP ER [HT HD]. split; [split; [by apply HS|]|].
  - intros org slug r i p Hr Hp. rewrite ER in Hr. rewrite EP in Hp. apply lookup_insert_Some in Hp as [[<- <-]|[_ Hp]]; [|by eapply HD].
    apply not_true_iff_false. intros [<- <-]%has_slug_spec. congruence.
  - intros org slug i [(p & Hp & Hs)|Hr]; [left|right; by rewrite ER]. exists p. rewrite EP, lookup_insert_ne; [done|].
    intros ->. congruence.
Qed.

(** A renamed project leaves its old slug as a redirect. *)
Lemma renamed_kept id old new org free d d' :
  sound_step d d' -> pd_projects d !! id = Some old -> pr_org_id old = org -> pr_org_id new = org -> pr_slug new <> pr_slug old ->
  slug_free org (pr_slug new) free d -> pd_projects d' = <[id := new]> (pd_projects d) ->
  redirect_added org (pr_slug old) id d d' -> slugs_kept d d'.
Proof.
  intros [_ HS] El Eo Eo' Hne [Hfree _] EP Hadd [HT HD].
  destruct Hadd as [[_ [r Hr]]|(actor & at_ & Hnone & ER)].
  { exfalso. pose proof (HD _ _ _ _ _ Hr El) as Hc. rewrite <- not_true_iff_false in Hc. apply Hc. by apply has_slug_spec. }
  split; [split; [by apply HS|]|].
  - intros o s r i p Hr Hp. apply not_true_iff_false. intros Hs. pose proof Hs as [Hs1 Hs2]%has_slug_spec. rewrite ER in Hr. rewrite EP in Hp.
    apply lookup_insert_Some in Hr as [[[= Er1 Er2] _]|[_ Hr]], Hp as [[_ Epp]|[Hpi Hp]]; [congruence| |congruence|].
    + apply Hpi, (ts_slug d HT _ _ _ _ El Hp). unfold same_slug. rewrite !bool_decide_true by congruence. done.
    + pose proof (HD _ _ _ _ _ Hr Hp). congruence.
  - intros o s i [(p & Hp & Hs)|(r & Hr & Hri)].
    + destruct (decide (i = id)) as [->|Hi].
      * rewrite El in Hp. injection Hp as <-. apply has_slug_spec in Hs as [<- <-]. right. eexists. rewrite ER, Eo, lookup_insert_eq. done.
      * left. exists p. rewrite EP, lookup_insert_ne by congruence. done.
    + right. exists r. rewrite ER, lookup_insert_ne; [done|]. congruence.
Qed.

Section Slugs.
Context `{ProjectsEnv} `{Digest}.

Lemma environment_tx_same pr k :
  (forall i, moves same_slugs (createEnvironmentTx pr k i)) /\ (forall i, moves same_slugs (updateEnvironmentTx pr k i))
  /\ (forall i st ty, moves same_slugs (setEnvironmentStateTx pr k i st ty)).
Proof.
  destruct (loads_move same_slugs) as (L1 & _ & _ & L4 & _).
  assert (forall e, moves same_slugs (insertEnvironment e)) as W1.
  { intros e. refine (moves_exec _ _ _ _). intros d d' Hd. unfold InsertEnvironment in Hd. do 4 take_step Hd.
    apply obind_Ret_inv in Hd as (d1 & Hp & Hd). take_step Hd. injection Hd as <-. by apply put_environment_Ret in Hp as (_ & _ & ->). }
  assert (forall o p e ty a l, moves same_slugs (insertProjectEvent o p e ty a l)) as W2.
  { intros. unfold insertProjectEvent. moving. refine (moves_exec _ _ _ _). intros d d' Hd. unfold InsertProjectEvent in Hd.
    do 4 take_step Hd. by injection Hd as <-. }
  assert (forall k e t, moves same_slugs (insertIdempotentEnvironment k e t)) as W3.
  { intros. refine (moves_exec _ _ _ _). intros d d' Hd. take_step Hd. by apply insert_record_Ret in Hd as [_ ->]. }
  unfold createEnvironmentTx, updateEnvironmentTx, setEnvironmentStateTx, one_row. split_and!; moving; refine (moves_run _ _ _ _).
  - intros d n d' Hd. unfold UpdateEnvironmentRow in Hd. case_match; [|by injection Hd as _ <-]. case_match; [|by injection Hd as _ <-].
    take_step Hd. apply obind_Ret_inv in Hd as (d1 & Hp & [= _ <-]). by apply put_environment_Ret in Hp as (_ & _ & ->).
  - intros d n d' Hd. unfold SetEnvironmentState in Hd. case_match; [|by injection Hd as _ <-]. case_match; [|by injection Hd as _ <-].
    take_step Hd. apply obind_Ret_inv in Hd as (d1 & Hp & [= _ <-]). by apply put_environment_Ret in Hp as (_ & _ & ->).
Qed.

Lemma op_slugs A (m : M pworld projectError A) : project_op A m -> moves slugs_kept m.
Proof.
  apply op_moves; [apply _| | | | | |]; intros pr k; intros; apply InTx_kept; [apply _| |apply _| |apply _| |apply _| |apply _| |apply _|];
    intros w a w' Hr; pose proof (transactions_move pr k) as (T1 & T2 & T3 & T4 & T5 & T6);
    pose proof (environment_tx_same pr k) as (S4 & S5 & S6).
  - pose proof (run_moves _ _ _ _ _ (T1 _) Hr) as Hs. apply createProjectTx_Ret in Hr as (t & _ & _ & En & Hf & EP & ER & _); [|done].
    exact (created_kept _ (created_row _ _ _ _) _ _ Hs En Hf EP ER).
  - pose proof (run_moves _ _ _ _ _ (T2 _) Hr) as Hs.
    apply updateProjectTx_Ret in Hr as (old & at_ & El & Eo & _ & _ & _ & EP & Hren & _); [|done]. unfold renames in Hren.
    case_bool_decide as Hsl; simpl in Hren; [exact (touched_kept _ _ (updated_row _ _ _ _) _ _ Hs El eq_refl Hsl EP Hren)|].
    destruct Hren as [Hf Hadd]. exact (renamed_kept _ _ (updated_row _ _ _ _) _ _ _ _ Hs El Eo Eo Hsl Hf EP Hadd).
  - pose proof (run_moves _ _ _ _ _ (T3 _ _ _) Hr) as Hs. apply setProjectStateTx_Ret in Hr as (old & at_ & El & Eo & _ & _ & _ & EP & ER & _); [|done].
    exact (touched_kept _ _ (set_project_row _ _ _ _ _) _ _ Hs El eq_refl eq_refl EP ER).
  - eapply same_slugs_kept; [exact (run_moves _ _ _ _ _ (T4 _) Hr)|exact (run_moves _ _ _ _ _ (S4 _) Hr)].
  - eapply same_slugs_kept; [exact (run_moves _ _ _ _ _ (T5 _) Hr)|exact (run_moves _ _ _ _ _ (S5 _) Hr)].
  - eapply same_slugs_kept; [exact (run_moves _ _ _ _ _ (T6 _ _ _) Hr)|exact (run_moves _ _ _ _ _ (S6 _ _ _) Hr)].
Qed.
Lemma steps_slugs d d' : rtc store_step d d' -> slugs_kept d d'.
Proof. apply steps_along; [apply _|]. apply op_slugs. Qed.

(** C33: After any sequence of calls of the projects store, whatever their
    outcomes, the tables satisfy their constraints, a slug names at most one
    project of an organisation, no slug both names a project and redirects,
    and every redirect leads to a project of its organisation. *)
Theorem project_slugs_sound d d' :
  rtc store_step d d' -> slugs_sound d ->
  slugs_sound d'
  /\ (forall org slug i j p q, pd_projects d' !! i = Some p -> pd_projects d' !! j = Some q ->
        has_slug org slug p = true -> has_slug org slug q = true -> i = j)
  /\ (forall org slug r, pd_redirects d' !! (org, slug) = Some r ->
        exists p, pd_projects d' !! rd_project_id r = Some p /\ pr_org_id p = org /\ pr_slug p <> slug).
Proof.
  intros Hs Hd. destruct (steps_slugs _ _ Hs Hd) as [[HT HD] _]. split; [done|]. split.
  - intros org slug i j p q Hp Hq [<- <-]%has_slug_spec [E1 E2]%has_slug_spec. apply (ts_slug d' HT i j p q Hp Hq).
    unfold same_slug. by rewrite !bool_decide_true.
  - intros org slug r Hr. pose proof (ts_redirect d' HT _ _ _ Hr) as Hp. unfold project_of in Hp.
    destruct (pd_projects d' !! rd_project_id r) as [p|] eqn:E; [|done]. apply bool_decide_eq_true in Hp. exists p.
    split; [done|]. split; [done|]. intros <-. pose proof (HD _ _ _ _ _ Hr E) as Hc. rewrite <- not_true_iff_false in Hc.
    apply Hc. by apply has_slug_spec.
Qed.

(** ** Resolving a slug *)

Lemma GetProjectBySlug_Some org slug d kv :
  GetProjectBySlug org slug d = Some kv -> pd_projects d !! kv.1 = Some kv.2 /\ has_slug org slug kv.2 = true.
Proof.
  intros Hh. assert (kv ∈ filter (fun kv => has_slug org slug kv.2 = true) (map_to_list (pd_projects d))) as Hin.
  { unfold GetProjectBySlug in Hh. destruct (filter _ _); [done|]. injection Hh as ->. constructor. }
  apply list_elem_of_filter in Hin as [Hs Hin]. destruct kv. by apply elem_of_map_to_list in Hin.
Qed.

Lemma GetProjectBySlug_None org slug d i p :
  GetProjectBySlug org slug d = None -> pd_projects d !! i = Some p -> has_slug org slug p = false.
Proof.
  intros Hh Hp. apply not_true_iff_false. intros Hs. unfold GetProjectBySlug in Hh.
  assert ((i, p) ∈ filter (fun kv => has_slug org slug kv.2 = true) (map_to_list (pd_projects d))) as Hin.
  { apply list_elem_of_filter. split; [done|]. by apply elem_of_map_to_list. }
  destruct (filter _ _); [by apply elem_of_nil in Hin|done].
Qed.

Lemma resolve_slug_Ret org slug active w w' p :
  ResolveProject (mkResolveProject org uuid_Nil slug active) w = (Ret p, w') ->
  w' = w /\ trim_space org <> "" /\ trim_space slug <> "" /\ resolves (pw_db w) (trim_space org) (normalizeSlug slug) (pj_ID p)
  /\ pj_OrgID p = trim_space org.
Proof.
  intros Hr. apply mbindM_Ret_inv in Hr as ([] & w1 & [Ho ->]%lift_Ret & Hr). apply mbindM_Ret_inv in Hr as ([] & w1 & [Hs ->]%lift_Ret & Hr).
  unfold invalid_if in Ho, Hs. simpl in Ho, Hs.
  case_bool_decide as Eo; [done|]. case_bool_decide as Es; [done|].
  apply mbindM_Ret_inv in Hr as (q & w1 & Hq & Hr). apply mbindM_Ret_inv in Hr as ([] & w2 & [_ ->]%fail_if_Ret & Hr). injection Hr as -> ->.
  cbn [rq_ProjectID rq_OrgID rq_Slug] in Hq. change (negb (uuid_Nil =? uuid_Nil)) with false in Hq. cbv beta iota zeta in Hq. cbn [negb] in Hq. cbv iota in Hq.
  assert (pgOrgID org = Ret (trim_space org)) as Hg by (unfold pgOrgID; by rewrite decide_False).
  assert (forall slug, loadProjectBySlug org slug w =
    match GetProjectBySlug (trim_space org) slug (pw_db w) with Some row => (Ret (projectFromStore row), w) | None => (Err ErrNotFound, w) end) as Hl.
  { intros t. unfold loadProjectBySlug, mbindM, mlift. rewrite Hg. unfold read. by destruct (GetProjectBySlug _ _ _). }

  rewrite Hl in Hq. destruct (GetProjectBySlug _ _ _) as [[i row]|] eqn:E.
  - injection Hq as <- <-. apply GetProjectBySlug_Some in E as [E1 E2]. split_and!; [done..| |by apply has_slug_spec in E2 as []].
    left. exists row. by simpl in *.
  - unfold loadProjectByRedirectSlug, mbindM, mlift in Hq. rewrite Hg in Hq. unfold read, GetProjectByRedirectSlug in Hq.
    destruct (pd_redirects _ !! _) as [r|] eqn:Er; [|done]. unfold GetProjectByID in Hq.
    destruct (pd_projects _ !! rd_project_id r) as [row|] eqn:Ep; [|done]. case_decide as Hd; [|done]. injection Hq as <- <-.
    split_and!; [done..| |done]. right. by exists r.
Qed.

Lemma resolve_slug_run org slug id w :
  slugs_sound (pw_db w) -> trim_space org <> "" -> trim_space slug <> "" ->
  resolves (pw_db w) (trim_space org) (normalizeSlug slug) id ->
  exists p, ResolveProject (mkResolveProject org uuid_Nil slug false) w = (Ret p, w) /\ pj_ID p = id /\ pj_OrgID p = trim_space org.
Proof.
  intros [HT HD] Eo Es Hres. unfold ResolveProject, mbindM, mlift, invalid_if. cbn [rq_ProjectID rq_OrgID rq_Slug rq_RequireActive].
  rewrite bool_decide_false by done. change (uuid_Nil =? uuid_Nil) with true. rewrite bool_decide_false by done. cbv iota beta zeta.
  cbn [andb negb]. cbv iota beta.
  assert (pgOrgID org = Ret (trim_space org)) as Hg by (unfold pgOrgID; by rewrite decide_False).
  unfold loadProjectBySlug, mbindM, mlift. rewrite Hg. unfold read.
  destruct (GetProjectBySlug (trim_space org) (normalizeSlug slug) (pw_db w)) as [[i row]|] eqn:E.
  - apply GetProjectBySlug_Some in E as [E1 E2]. simpl in E1, E2. eexists. split; [reflexivity|]. simpl.
    split; [|by apply has_slug_spec in E2 as []]. destruct Hres as [(p & Hp & Hs)|(r & Hr & _)].
    + apply has_slug_spec in E2 as [A1 A2]. apply has_slug_spec in Hs as [B1 B2]. apply (ts_slug _ HT i id row p E1 Hp).
      unfold same_slug. rewrite !bool_decide_true by congruence. done.
    + pose proof (HD _ _ _ _ _ Hr E1). congruence.
  - destruct Hres as [(p & Hp & Hs)|(r & Hr & <-)].
    + pose proof (GetProjectBySlug_None _ _ _ _ _ E Hp). congruence.
    + simpl. unfold loadProjectByRedirectSlug, mbindM, mlift. rewrite Hg. unfold read, GetProjectByRedirectSlug. rewrite Hr.
      pose proof (ts_redirect _ HT _ _ _ Hr) as Hp. unfold project_of in Hp. unfold GetProjectByID.
      destruct (pd_projects (pw_db w) !! rd_project_id r) as [row|]; [|done]. apply bool_decide_eq_true in Hp. rewrite decide_True by done.
      eexists. split; [reflexivity|]. split; [done|exact Hp].
Qed.

(** C34: A slug is permanent: once it has resolved to a project of an
    organisation, it resolves to that project after any further sequence of
    calls, however often the project, or others, are renamed, archived or
    created. *)
Theorem resolved_slug_permanent org slug active w w1 w2 p :
  slugs_sound (pw_db w) -> ResolveProject (mkResolveProject org uuid_Nil slug active) w = (Ret p, w1) ->
  rtc store_step (pw_db w1) (pw_db w2) ->
  exists p', ResolveProject (mkResolveProject org uuid_Nil slug false) w2 = (Ret p', w2)
    /\ pj_ID p' = pj_ID p /\ pj_OrgID p' = pj_OrgID p.
Proof.
  intros Hd (-> & Eo & Es & Hr & Ep)%resolve_slug_Ret Hs. destruct (steps_slugs _ _ Hs Hd) as [Hd2 Hk].
  rewrite Ep. apply resolve_slug_run; auto.
Qed.
End Slugs.

(** ** Updates *)

Section Updates.
Context `{ProjectsEnv} `{Digest}.

(** The content of an update request that is hashed. *)
Definition update_content (input : UpdateProjectRequest) : list (string * jval) :=
  [("description", json_optional (up_Description input)); ("display_name", json_optional (up_DisplayName input));
   ("project_id", JStr (uuid_String (up_ProjectID input))); ("slug", json_optional (up_Slug input));
   ("version", JInt (up_Version input))]%string.

(** The request repeats one whose result [p] is recorded. *)
Definition replays (k : requestKey) (p : Project) (d : ProjectDB) : Prop :=
  exists row payload, pd_records d !! (rk_org k, rk_operation k, rk_keyHash k) = Some row
    /\ ir_request_hash row = rk_requestHash k /\ ir_result row = ResultProject payload /\ p = projectFromPayload payload.

Lemma loadIdempotentProject_Some k w p w' : loadIdempotentProject k w = (Ret (Some p), w') -> replays k p (pw_db w).
Proof.
  intros Hr. apply mbindM_Ret_inv in Hr as (row & w1 & [-> ->]%read_Ret & Hr). unfold GetProjectIdempotencyRecord in Hr.
  destruct (pd_records (pw_db w) !! _) as [row|] eqn:E; [|done]. destruct (ir_result row) as [payload|] eqn:Er; [|done].
  case_decide as Hh; [|done]. injection Hr as <- _. by exists row, payload.
Qed.

Lemma UpdateProject_Ret pr input w p w' :
  UpdateProject pr input w = (Ret p, w') ->
  exists input' k, NormalizeUpdateProject input = Ret input'
    /\ requestFor pr "project.update" (up_IdempotencyKey input') (update_content input') = Ret k
    /\ (replays k p (pw_db w) /\ w' = w
        \/ loadIdempotentProject k w = (Ret None, w) /\ update_done (pc_Subject pr) k input' p (pw_db w) (pw_db w')).
Proof.
  intros Hr. apply mbindM_Ret_inv in Hr as ([] & w1 & [_ ->]%lift_Ret & Hr). apply mbindM_Ret_inv in Hr as (i & w1 & [Hi ->]%lift_Ret & Hr).
  apply mbindM_Ret_inv in Hr as (k & w1 & [Hk ->]%lift_Ret & Hr). exists i, k. split; [done|]. split; [done|].
  apply once_Ret in Hr as [[Hl ->]|[Hl Hr]]; [left|right|by intros; apply loadIdempotentProject_same].
  - split; [by eapply loadIdempotentProject_Some|done].
  - split; [done|]. apply updateProjectTx_Ret; [|done]. by eapply requestFor_org.
Qed.

Lemma UpdateProject_undone pr input w r w' : UpdateProject pr input w = (r, w') -> is_ret r = false -> pw_db w' = pw_db w.
Proof.
  unfold UpdateProject, mbindM, mlift. destruct (ValidatePrincipal pr); [|by intros [= <- <-]..].
  destruct (NormalizeUpdateProject input) as [i|e|]; [|by intros [= <- <-]..].
  destruct (requestFor _ _ _ _) as [k|e|]; [|by intros [= <- <-]..]. unfold once, InTx.
  destruct ((do! result <- loadIdempotentProject k; _) w) as [[q|e|] w1]; intros [= <- <-] Hf; [done|reflexivity|reflexivity].
Qed.

(** C37: An update of a project either answers with the recorded result of the
    same request and changes nothing, or finds the project active at the
    version the request names, sets exactly what the request asks for (the
    rest of the row stays), in the next version, leaves the old slug as a
    redirect when it renames the project, adds one event and records the
    result; an update that fails changes nothing. *)
Theorem project_update_outcome pr input w r w' :
  UpdateProject pr input w = (r, w') ->
  match r with
  | Ret p => exists input' k, NormalizeUpdateProject input = Ret input' /\ rk_org k = trim_space (pc_OrgID pr)
      /\ (replays k p (pw_db w) /\ w' = w \/ update_done (pc_Subject pr) k input' p (pw_db w) (pw_db w'))
  | _ => pw_db w' = pw_db w
  end.
Proof.
  intros Hr. destruct r as [p|e|]; [|by eapply UpdateProject_undone..].
  apply UpdateProject_Ret in Hr as (i & k & Hi & Hk%requestFor_org & Hcases). exists i, k. split; [done|]. split.
  - unfold pgOrgID in Hk. case_decide; [done|]. by injection Hk as <-.
  - destruct Hcases as [Hc|[_ Hc]]; [by left|by right].
Qed.

Lemma normalize_update input i : NormalizeUpdateProject input = Ret i -> up_ProjectID i = up_ProjectID input /\ up_Version i = up_Version input.
Proof.
  unfold NormalizeUpdateProject. intros Hi. do 4 take_step Hi. by injection Hi as <-.
Qed.

(** C38: Of all updates of a project that name the same version at most one is
    applied: after one that changed the database, whatever is called in
    between, another succeeds only as a repetition that changes nothing. *)
Theorem update_versions_exclusive pr1 input1 pr2 input2 w w1 w2 w3 p1 p2 :
  UpdateProject pr1 input1 w = (Ret p1, w1) -> pw_db w1 <> pw_db w -> rtc store_step (pw_db w1) (pw_db w2) ->
  up_ProjectID input2 = up_ProjectID input1 -> up_Version input2 = up_Version input1 ->
  UpdateProject pr2 input2 w2 = (Ret p2, w3) -> w3 = w2.
Proof.
  intros (i1 & k1 & (Hi1 & Hv1)%normalize_update & _ & Hc1)%UpdateProject_Ret Hne Hs Eid Ev
    (i2 & k2 & (Hi2 & Hv2)%normalize_update & _ & Hc2)%UpdateProject_Ret.
  destruct Hc1 as [[_ ->]|[_ Hd1]]; [done|]. destruct Hc2 as [[_ ->]|[_ Hd2]]; [done|]. exfalso.
  destruct Hd1 as (old1 & t1 & _ & _ & _ & V1 & _ & EP1 & _). destruct Hd2 as (old2 & t2 & E2 & _ & _ & V2 & _).
  destruct (steps_sound _ _ Hs) as [(HP & _) _]. specialize (HP (up_ProjectID i1) (updated_row (pc_Subject pr1) i1 t1 old1)).
  rewrite EP1, lookup_insert_eq in HP. destruct (HP eq_refl) as (y & Ey & _ & _ & _ & Hle). simpl in Hle.
  rewrite Hi2, Eid, <- Hi1, Ey in E2. injection E2 as <-. lia.
Qed.
End Updates.

(** ** Repeated requests *)

Section Repeats.
Context `{ProjectsEnv} `{Digest}.

Inductive project_write : M pworld projectError Project -> Prop :=
| pw_create pr i : project_write (CreateProject pr i)
| pw_update pr i : project_write (UpdateProject pr i)
| pw_archive pr i : project_write (ArchiveProject pr i)
| pw_restore pr i : project_write (RestoreProject pr i).

Inductive environment_write : M pworld projectError Environment -> Prop :=
| ew_create pr i : environment_write (CreateEnvironment pr i)
| ew_update pr i : environment_write (UpdateEnvironment pr i)
| ew_archive pr i : environment_write (ArchiveEnvironment pr i).

(** The stored form of a result is recorded. *)
Definition result_recorded (k : requestKey) (r : resultPayload) (d : ProjectDB) : Prop :=
  exists row, pd_records d !! (rk_org k, rk_operation k, rk_keyHash k) = Some row
    /\ ir_request_hash row = rk_requestHash k /\ ir_result row = r.

Lemma result_recorded_kept k r d d' : kept d d' -> result_recorded k r d -> result_recorded k r d'.
Proof. intros (_ & _ & _ & HK & _) (row & Hr & Hrest). destruct (HK _ _ Hr) as (y & Hy & <-). by exists row. Qed.

Lemma replayed_project k p body w : result_recorded k (ResultProject (projectPayload p)) (pw_db w) -> pj_RedirectedFromSlug p = ""%string ->
  once (loadIdempotentProject k) body w = (Ret p, w).
Proof.
  intros (row & Hr & Hh & Hres) Hs. unfold once, InTx, loadIdempotentProject, mbindM, read, GetProjectIdempotencyRecord.
  rewrite Hr, Hres, decide_True by done. unfold mret. do 2 f_equal. destruct p. simpl in Hs. by subst.
Qed.

Lemma replayed_environment k e body w : result_recorded k (ResultEnvironment (environmentPayload e)) (pw_db w) ->
  once (loadIdempotentEnvironment k) body w = (Ret (environmentFromPayload (environmentPayload e)), w).
Proof.
  intros (row & Hr & Hh & Hres). unfold once, InTx, loadIdempotentEnvironment, mbindM, read, GetProjectIdempotencyRecord.
  by rewrite Hr, Hres, decide_True.
Qed.

(** The result of a request is recorded when it returns. *)
Lemma once_project_recorded k body w p w' :
  (body w = (Ret p, w') -> result_recorded k (ResultProject (projectPayload p)) (pw_db w') /\ pj_RedirectedFromSlug p = ""%string) ->
  once (loadIdempotentProject k) body w = (Ret p, w') ->
  result_recorded k (ResultProject (projectPayload p)) (pw_db w') /\ pj_RedirectedFromSlug p = ""%string.
Proof.
  intros Hb [[Hl ->]|[_ Hr]]%once_Ret; [|by apply Hb|by intros; apply loadIdempotentProject_same].
  apply loadIdempotentProject_Some in Hl as (row & payload & Hr & Hh & Hres & ->). split; [|done]. exists row.
  split; [done|]. split; [done|]. rewrite Hres. by destruct payload.
Qed.

Lemma announced_recorded k i e r ty d d' : announced k i e r ty d d' -> result_recorded k r d'.
Proof. intros (_ & _ & _ & t & E). eexists. rewrite E, lookup_insert_eq. done. Qed.

Lemma mlift_step {A B} (o : pres A) (f : A -> M pworld projectError B) w b w' :
  mbindM (mlift o) f w = (Ret b, w') -> exists a, o = Ret a /\ f a w = (Ret b, w') /\ forall v, mbindM (mlift o) f v = f a v.
Proof. unfold mbindM, mlift. destruct o as [a|e|]; [|done..]. intros Hr. by exists a. Qed.

(** Take the steps of a request that do not look at the world. *)
Ltac lift_steps Hr := repeat (apply mlift_step in Hr as (? & ? & Hr & Hrun); rewrite Hrun; clear Hrun).

Lemma project_write_repeats m w p w1 w2 :
  project_write m -> m w = (Ret p, w1) -> rtc store_step (pw_db w1) (pw_db w2) -> m w2 = (Ret p, w2).
Proof.
  intros Hm Hr Hs. apply steps_sound in Hs as [Hk _]. destruct Hm; unfold CreateProject, UpdateProject, ArchiveProject, RestoreProject, setProjectState in *;
    lift_steps Hr; (apply once_project_recorded in Hr as [Hrec Hred];
    [apply replayed_project; [by eapply result_recorded_kept|done]|]); intros Hb;
    match goal with Hq : requestFor _ _ _ _ = Ret _ |- _ => apply requestFor_org in Hq end.
  - apply createProjectTx_Ret in Hb as (t & Hp & _ & _ & _ & _ & _ & _ & _ & rt & Ec); [|done]. split; [|by rewrite Hp].
    eexists. rewrite Ec, lookup_insert_eq. done.
  - apply updateProjectTx_Ret in Hb as (old & t & _ & _ & _ & _ & -> & _ & _ & Ha); [|done]. split; [by eapply announced_recorded|done].
  - apply setProjectStateTx_Ret in Hb as (old & t & _ & _ & _ & _ & -> & _ & _ & Ha); [|done]. split; [by eapply announced_recorded|done].
  - apply setProjectStateTx_Ret in Hb as (old & t & _ & _ & _ & _ & -> & _ & _ & Ha); [|done]. split; [by eapply announced_recorded|done].
Qed.
Lemma environment_recorded k e t w e' w' :
  (exec! insertIdempotentEnvironment k e t; mret e) w = (Ret e', w') ->
  result_recorded k (ResultEnvironment (environmentPayload e')) (pw_db w').
Proof.
  intros Hr. apply mbindM_Ret_inv in Hr as ([] & w1 & (rt & _ & E)%insertIdempotentEnvironment_Ret & Hr). injection Hr as <- <-.
  eexists. rewrite E. simpl. by rewrite lookup_insert_eq.
Qed.

Lemma environment_tx_recorded pr k w e w' :
  (exists i, createEnvironmentTx pr k i w = (Ret e, w')) \/ (exists i, updateEnvironmentTx pr k i w = (Ret e, w'))
  \/ (exists i st ty, setEnvironmentStateTx pr k i st ty w = (Ret e, w')) ->
  result_recorded k (ResultEnvironment (environmentPayload e)) (pw_db w').
Proof.
  intros [[i Hr]|[[i Hr]|(i & st & ty & Hr)]].
  - do 6 apply mbindM_Ret_inv in Hr as (? & ? & _ & Hr). by apply environment_recorded in Hr.
  - do 8 apply mbindM_Ret_inv in Hr as (? & ? & _ & Hr). by apply environment_recorded in Hr.
  - do 8 apply mbindM_Ret_inv in Hr as (? & ? & _ & Hr). by apply environment_recorded in Hr.
Qed.

Lemma loadIdempotentEnvironment_Some k w e w' :
  loadIdempotentEnvironment k w = (Ret (Some e), w') ->
  result_recorded k (ResultEnvironment (environmentPayload e)) (pw_db w).
Proof.
  intros Hr. apply mbindM_Ret_inv in Hr as (row & w1 & [-> ->]%read_Ret & Hr). unfold GetProjectIdempotencyRecord in Hr.
  destruct (pd_records (pw_db w) !! _) as [row|] eqn:E; [|done]. destruct (ir_result row) as [|payload] eqn:Er; [done|].
  case_decide as Hh; [|done]. injection Hr as <- _. exists row. split; [done|]. split; [done|]. rewrite Er. by destruct payload.
Qed.

Lemma environment_write_repeats m w e w1 w2 :
  environment_write m -> m w = (Ret e, w1) -> rtc store_step (pw_db w1) (pw_db w2) ->
  m w2 = (Ret (environmentFromPayload (environmentPayload e)), w2).
Proof.
  intros Hm Hr Hs. apply steps_sound in Hs as [Hk _].
  destruct Hm; unfold CreateEnvironment, UpdateEnvironment, ArchiveEnvironment, setEnvironmentState in *; lift_steps Hr;
    apply replayed_environment, (result_recorded_kept _ _ _ _ Hk);
    (apply once_Ret in Hr as [[Hl ->]|[_ Hr]]; [by eapply loadIdempotentEnvironment_Some| |by intros; apply loadIdempotentEnvironment_same]);
    eapply environment_tx_recorded; eauto 6.
Qed.

(** C36: A request that succeeded may be repeated at any later time: whatever
    has been called in between, the same request answers with the same project
    and changes nothing; a repeated environment request answers with the same
    environment, a protection policy that was nil now being empty. *)
Theorem requests_repeat :
  (forall m w p w1 w2, project_write m -> m w = (Ret p, w1) -> rtc store_step (pw_db w1) (pw_db w2) -> m w2 = (Ret p, w2))
  /\ (forall m w e w1 w2, environment_write m -> m w = (Ret e, w1) -> rtc store_step (pw_db w1) (pw_db w2) ->
       exists e', m w2 = (Ret e', w2) /\ en_ProtectionPolicy e' = Some (default ∅ (en_ProtectionPolicy e))
         /\ environmentPayload e' = environmentPayload e).
Proof.
  split; [apply project_write_repeats|]. intros m w e w1 w2 Hm Hr Hs. eexists. split; [by eapply environment_write_repeats|].
  split; [done|]. by destruct e.
Qed.
End Repeats.

(** ** The theorems on the sample run *)

Lemma empty_slugs_sound : slugs_sound (pw_db empty_projects).
Proof. split; [exact empty_tables_sound|]. intros org slug r i p Hr. exfalso. simpl in Hr. by rewrite lookup_empty in Hr. Qed.

Lemma alpha_slugs_sound : slugs_sound (pw_db alpha_world).
Proof. exact (proj1 (steps_slugs _ _ to_alpha empty_slugs_sound)). Qed.

Lemma project_slugs_sound_witness :
  slugs_sound (pw_db beta_world) /\ exists r, pd_redirects (pw_db beta_world) !! ("org-1", "alpha-one")%string = Some r.
Proof.
  split; [exact (proj1 (project_slugs_sound _ _ to_beta empty_slugs_sound))|]. eexists. vm_compute. reflexivity.
Defined.

Lemma resolved_slug_permanent_witness :
  exists p p', resolve_alpha alpha_world = (Ret p, (resolve_alpha alpha_world).2)
    /\ ResolveProject (mkResolveProject "org-1" uuid_Nil "Alpha One" false) beta_world = (Ret p', beta_world) /\ pj_ID p' = pj_ID p.
Proof.
  destruct alpha_resolved as [p Hp]. exists p.
  destruct (resolved_slug_permanent _ _ _ _ _ beta_world p alpha_slugs_sound Hp alpha_resolved_to_beta) as (p' & H1 & H2 & _).
  exists p'. split; [exact Hp|]. split; [exact H1|exact H2].
Defined.

Lemma project_update_outcome_witness :
  exists p input' k, rename_alpha alpha_world = (Ret p, beta_world)
    /\ update_done "alice" k input' p (pw_db alpha_world) (pw_db beta_world).
Proof.
  destruct alpha_renamed as [p Hp]. exists p.
  destruct (project_update_outcome _ _ _ _ _ Hp) as (input' & k & _ & _ & [[_ E]|Hd]).
  - exfalso. exact (renamed_changes (f_equal pw_db E)).
  - exists input', k. split; [exact Hp|exact Hd].
Defined.

Lemma update_versions_exclusive_witness : exists p w, rename_alpha beta_world = (Ret p, w) /\ w = beta_world.
Proof.
  destruct alpha_renamed as [p Hp]. destruct beta_repeated as (p2 & w & H2). exists p2, w. split; [exact H2|].
  exact (update_versions_exclusive _ _ _ _ _ _ _ _ _ _ Hp renamed_changes (rtc_refl _ _) eq_refl eq_refl H2).
Defined.

Lemma requests_repeat_witness :
  (exists p, create_alpha empty_projects = (Ret p, alpha_world) /\ create_alpha beta_world = (Ret p, beta_world))
  /\ exists e e', create_staging beta_world = (Ret e, staging_world) /\ create_staging staging_world = (Ret e', staging_world)
       /\ environmentPayload e' = environmentPayload e.
Proof.
  destruct requests_repeat as [HP HE]. split.
  - destruct alpha_created as [p Hp]. exists p. split; [exact Hp|]. exact (HP _ _ _ _ _ (pw_create _ _) Hp alpha_to_beta).
  - destruct staging_created as [e He]. exists e. destruct (HE _ _ _ _ _ (ew_create _ _) He (rtc_refl _ _)) as (e' & H1 & _ & H2).
    exists e'. split; [exact He|]. split; [exact H1|exact H2].
Defined.
