(* ===== verification/ProjectPages.v ===== *)
(** * Projects: paging through a listing

    A listing answers with one page and the cursor of the next one; following
    the cursors from the empty one visits every row once, newest first. *)

From S2P Require Import Prelude GoStd GoTime GoFormat Json GoText ProjectTypes ProjectStore ProjectService.
From S2P Require Import ProjectSystem.
From S2P Require Import ProjectSamples.

(** ** The order of a listing *)

#[export] Instance newest_first_strict_weak {A} (at_ : A -> time) : StrictWeak (newest_first at_).
Proof. split; unfold newest_first, before; simpl; intros; repeat (zbool; try case_bool); lia. Qed.

(** The rows of a listing, all of them. *)
Definition newest_rows {A} (at_ : A -> time) (test : A -> bool) (m : gmap uuid A) : list (uuid * A) :=
  sort_slice (newest_first at_) (filter (fun kv => test kv.2 = true) (map_to_list m)).

Section Order.
Context {A : Type} (at_ : A -> time) (test : A -> bool) (m : gmap uuid A).

Abbreviation pos kv := (at_ kv.2, kv.1).

Lemma newest_rows_perm : newest_rows at_ test m ≡ₚ filter (fun kv => test kv.2 = true) (map_to_list m).
Proof. apply sort_slice_perm. Qed.

Lemma newest_rows_elem kv : kv ∈ newest_rows at_ test m <-> test kv.2 = true /\ m !! kv.1 = Some kv.2.
Proof. rewrite newest_rows_perm, list_elem_of_filter. destruct kv. by rewrite elem_of_map_to_list. Qed.

(** Two rows at the same place are the same row. *)
Lemma newest_separates x y : m !! x.1 = Some x.2 -> m !! y.1 = Some y.2 ->
  newest_first at_ x y = false -> newest_first at_ y x = false -> x = y.
Proof.
  unfold newest_first, before. simpl. intros Hx Hy H1 H2.
  assert (x.1 = y.1) as E by (repeat (zbool; try case_bool); lia). destruct x, y. simpl in *. subst. congruence.
Qed.

Lemma newest_rows_nodup : NoDup (newest_rows at_ test m).
Proof. rewrite newest_rows_perm. apply NoDup_filter, NoDup_map_to_list. Qed.

Lemma sorted_suffix (l1 l2 : list (uuid * A)) x : StronglySorted (not_after (newest_first at_)) (l1 ++ x :: l2) ->
  StronglySorted (not_after (newest_first at_)) l2
  /\ (forall y, y ∈ l1 -> newest_first at_ x y = false) /\ (forall y, y ∈ l2 -> newest_first at_ y x = false).
Proof.
  intros Hs. apply StronglySorted_app in Hs as (H1 & H2 & H3). apply StronglySorted_inv in H3 as [H3 H4]. split_and!; [done| |].
  - intros y Hy. apply H1; [done|constructor].
  - intros y Hy. rewrite Forall_forall in H4. by apply H4.
Qed.

(** What comes after the row [x]. *)
Lemma rows_after l1 x l2 : newest_rows at_ test m = l1 ++ x :: l2 ->
  sort_slice (newest_first at_) (filter (fun kv => test kv.2 && before (pos kv) (pos x) = true) (map_to_list m)) = l2.
Proof.
  intros E. pose proof (sort_sorted (newest_first at_) (filter (fun kv => test kv.2 = true) (map_to_list m))) as Hs.
  fold (newest_rows at_ test m) in Hs. pose proof newest_rows_nodup as Hn. rewrite E in Hs, Hn. apply sorted_suffix in Hs as (Hs & Hb & Ha).
  assert (forall y, y ∈ l1 ++ x :: l2 -> m !! y.1 = Some y.2) as Hm by (intros y Hy; rewrite <- E in Hy; by apply newest_rows_elem in Hy as []).
  symmetry. apply sort_unique; [apply _| | |done].
  - intros y z [_ Hy]%list_elem_of_filter [_ Hz]%list_elem_of_filter. destruct y, z. rewrite elem_of_map_to_list in Hy, Hz. by apply newest_separates.
  - apply NoDup_Permutation.
    + apply NoDup_app in Hn as (_ & _ & Hn). by apply NoDup_cons in Hn as [_ Hn].
    + apply NoDup_filter, NoDup_map_to_list.
    + intros y. rewrite list_elem_of_filter, andb_true_iff. change (before (pos y) (pos x) = true) with (newest_first at_ x y = true).
      split.
      * intros Hy. assert (y ∈ l1 ++ x :: l2) as Hy' by (apply elem_of_app; right; by constructor). pose proof (Hm y Hy') as Hl.
        rewrite <- E in Hy'. apply newest_rows_elem in Hy' as [Ht _]. split; [split; [done|]|destruct y; by apply elem_of_map_to_list].
        destruct (newest_first at_ x y) eqn:Ex; [done|]. exfalso. apply NoDup_app in Hn as (_ & _ & Hn). apply NoDup_cons in Hn as [Hn _]. apply Hn.
        enough (x = y) by congruence. apply newest_separates; [apply Hm; apply elem_of_app; right; constructor|done..|by apply Ha].
      * intros [[Ht Hlt] Hy]. assert (y ∈ newest_rows at_ test m) as Hin by (apply newest_rows_elem; destruct y; by apply elem_of_map_to_list in Hy).
        rewrite E in Hin. apply elem_of_app in Hin as [Hin|Hin]; [rewrite (Hb y Hin) in Hlt; done|].
        apply elem_of_cons in Hin as [->|Hin]; [|done]. rewrite (sw_irrefl (less := newest_first at_)) in Hlt. done.
Qed.
End Order.

(** ** Cursors *)

(** A position whose time is stored (whole microseconds, in the range of an
    int64 of nanoseconds: years 1678 to 2262) and whose id is not nil. *)
Definition listable (p : position) : Prop :=
  pg_timestamptz p.1 = p.1 /\ - 2 ^ 63 <= p.1 <= i64_max /\ 0 < p.2 < 2 ^ 128.

#[export] Instance listable_dec p : Decision (listable p).
Proof. unfold listable. apply _. Defined.

Section Cursors.
Context `{ProjectsEnv} (parse_String : forall i, 0 <= i < 2 ^ 128 -> uuid_Parse (uuid_String i) = Some i).

Lemma unix_nano_small t : - 2 ^ 63 <= t <= i64_max -> unix_nano t = t.
Proof. unfold unix_nano, i64_max. intros Ht. rewrite Z.mod_small; lia. Qed.

Lemma encodeCursor_bytes t i : bytes_of_string (encodeCursor t i) = b64_encode (bytes_of_string (format_int (unix_nano t) +:+ "|" +:+ uuid_String i)).
Proof.
  unfold encodeCursor. apply bytes_of_string_of_bytes. eapply Forall_impl; [apply b64_encode_printable, bytes_are_bytes|].
  unfold printable, is_byte. lia.
Qed.

Lemma encodeCursor_nonempty t i : encodeCursor t i <> ""%string.
Proof.
  intros E. apply (f_equal bytes_of_string) in E. rewrite encodeCursor_bytes in E. pose proof (b64_decode_encode _ (bytes_are_bytes (format_int (unix_nano t) +:+ "|" +:+ uuid_String i))) as Hd.
  rewrite E, !bytes_of_string_app in Hd. vm_compute (b64_decode _) in Hd. injection Hd as Hd. symmetry in Hd.
  by apply app_eq_nil in Hd as [_ Hd].
Qed.

Lemma parse_encodeCursor t i : - 2 ^ 63 <= t <= i64_max -> 0 <= i < 2 ^ 128 -> parseCursor (encodeCursor t i) = Ret (t, i).
Proof using parse_String.
  intros Ht Hi. unfold parseCursor. rewrite trim_space_printable.
  2: { rewrite encodeCursor_bytes. apply b64_encode_printable, bytes_are_bytes. }
  rewrite decide_False by apply encodeCursor_nonempty. rewrite encodeCursor_bytes, b64_decode_encode by apply bytes_are_bytes.
  rewrite !bytes_of_string_app. change (bytes_of_string "|") with [124]. cbn [app].
  rewrite split_two_sep by apply format_int_no_bar. rewrite !string_of_bytes_of_string, unix_nano_small by done.
  by rewrite parse_format_int, parse_String.
Qed.

Lemma cursorPosition_encoded t i : listable (t, i) ->
  exists c, parseCursor (encodeCursor t i) = Ret c /\ cursorPosition c = Some (t, i).
Proof using parse_String.
  intros (Hp & Ht & Hi). simpl in Hp, Ht, Hi. exists (t, i). split; [apply parse_encodeCursor; [done|lia]|].
  unfold cursorPosition, is_zero, uuid_Nil. simpl. rewrite Hp. destruct (Z.eqb_spec t zero_time) as [->|]; [exfalso; vm_compute in Ht; intuition|].
  destruct (Z.eqb_spec i 0); [lia|]. done.
Qed.
End Cursors.

(** ** Following the cursors *)

Section Walk.
Context `{ProjectsEnv} `{Digest} (parse_String : forall i, 0 <= i < 2 ^ 128 -> uuid_Parse (uuid_String i) = Some i).
Abbreviation P := (M pworld projectError).

(** The pages of a listing, from the cursor on; a listing of more than [fuel]
    pages panics. *)
Fixpoint all_pages {B} (listing : string -> P (list B * string)) (fuel : nat) (cursor : string) : P (list (list B)) :=
  match fuel with
  | O => fun w => (Panic, w)
  | S fuel' =>
      do! page <- listing cursor;
      if decide (page.2 = ""%string) then mret [page.1]
      else do! rest <- all_pages listing fuel' page.2; mret (page.1 :: rest)
  end.

(** What [page] cuts a page from. *)
Definition rows_from {A} (at_ : A -> time) (test : A -> bool) (m : gmap uuid A) (cursor : option position) : list (uuid * A) :=
  sort_slice (newest_first at_)
    (filter (fun kv => test kv.2 && match cursor with Some c => before (at_ kv.2, kv.1) c | None => true end = true) (map_to_list m)).

Lemma rows_from_ext {A} (at_ : A -> time) (test test' : A -> bool) (m : gmap uuid A) cursor :
  (forall x, test x = test' x) -> rows_from at_ test m cursor = rows_from at_ test' m cursor.
Proof. intros Ht. unfold rows_from. f_equal. apply list_filter_iff. intros kv. by rewrite Ht. Qed.

(** A listing that answers with the rows after the cursor. *)
Definition lists {A B} (at_ : A -> time) (convert : uuid * A -> B) (atB : B -> time) (idB : B -> uuid) (limit : Z)
    (after : option position -> list (uuid * A)) (listing : string -> P (list B * string)) (w : pworld) : Prop :=
  forall cursor c, parseCursor cursor = Ret c ->
    listing cursor w = (Ret (cut_page atB idB limit (convert <$> take (Z.to_nat (limit + 1)) (after (cursorPosition c)))), w).

Context {A B : Type} (at_ : A -> time) (test : A -> bool) (m : gmap uuid A).
Context (convert : uuid * A -> B) (atB : B -> time) (idB : B -> uuid).
Context (HatB : forall kv, atB (convert kv) = at_ kv.2) (HidB : forall kv, idB (convert kv) = kv.1).
Context (limit : Z) (Hlimit : 1 <= limit).

Lemma cut_page_last (l : list (uuid * A)) :
  Z.of_nat (length l) <= limit -> cut_page atB idB limit (convert <$> take (Z.to_nat (limit + 1)) l) = (convert <$> l, ""%string).
Proof using Hlimit.
  intros Hl. rewrite take_ge by lia. unfold cut_page. rewrite length_fmap. destruct (Z.ltb_spec limit (Z.of_nat (length l))); [lia|done].
Qed.

Lemma cut_page_more (l : list (uuid * A)) : limit < Z.of_nat (length l) ->
  exists l1 x l2, l = l1 ++ x :: l2 /\ Z.of_nat (length (l1 ++ [x])) = limit
    /\ cut_page atB idB limit (convert <$> take (Z.to_nat (limit + 1)) l) = (convert <$> (l1 ++ [x]), encodeCursor (at_ x.2) x.1).
Proof using HatB HidB Hlimit.
  intros Hl. destruct (lookup_lt_is_Some_2 l (Z.to_nat (limit - 1))) as [x Hx]; [lia|].
  exists (take (Z.to_nat (limit - 1)) l), x, (drop (S (Z.to_nat (limit - 1))) l).
  assert (take (Z.to_nat limit) l = take (Z.to_nat (limit - 1)) l ++ [x]) as Et.
  { replace (Z.to_nat limit) with (S (Z.to_nat (limit - 1))) by lia. by apply take_S_r. }
  split; [symmetry; by apply take_drop_middle|]. split; [rewrite length_app, length_take; simpl; lia|].
  unfold cut_page. rewrite length_fmap, length_take. destruct (Z.ltb_spec limit (Z.of_nat (Z.to_nat (limit + 1) `min` length l))); [|lia].
  rewrite list_lookup_fmap, lookup_take_lt by lia. rewrite Hx. simpl. rewrite HatB, HidB. f_equal.
  rewrite <- fmap_take, take_take, Nat.min_l by lia. by rewrite Et.
Qed.

Lemma rows_from_start : rows_from at_ test m None = newest_rows at_ test m.
Proof. unfold rows_from, newest_rows. f_equal. apply list_filter_iff. intros kv. by rewrite andb_true_r. Qed.

Lemma walk_from listing w fuel l1 l2 cursor c :
  lists at_ convert atB idB limit (rows_from at_ test m) listing w ->
  newest_rows at_ test m = l1 ++ l2 -> Forall (fun kv => listable (at_ kv.2, kv.1)) l2 -> (length l2 < fuel)%nat ->
  parseCursor cursor = Ret c -> rows_from at_ test m (cursorPosition c) = l2 ->
  exists pages, all_pages listing fuel cursor w = (Ret pages, w) /\ concat pages = convert <$> l2
    /\ Forall (fun page => Z.of_nat (length page) <= limit) pages.
Proof using HatB HidB Hlimit parse_String.
  intros Hl. revert l1 l2 cursor c. induction fuel as [|fuel IH]; intros l1 l2 cursor c E Hok Hlen Hc Hrows; [lia|].
  specialize (Hl _ _ Hc) as Hpage. rewrite Hrows in Hpage. simpl. unfold mbindM at 1. rewrite Hpage.
  destruct (Z.le_gt_cases (Z.of_nat (length l2)) limit) as [Hle|Hgt].
  - rewrite cut_page_last by done. rewrite decide_True by done. eexists. split; [reflexivity|].
    split; [simpl; by rewrite app_nil_r|]. apply Forall_singleton. cbn [fst]. by rewrite length_fmap.
  - destruct (cut_page_more l2) as (k1 & x & k2 & E2 & Hk & ->); [done|]. rewrite decide_False by apply encodeCursor_nonempty.
    rewrite E2 in Hok, E. apply Forall_app in Hok as [_ Hok]. apply Forall_cons in Hok as [Hx Hok].
    destruct (cursorPosition_encoded parse_String _ _ Hx) as (c' & Hc' & Hpos).
    destruct (IH (l1 ++ k1 ++ [x]) k2 (encodeCursor (at_ x.2) x.1) c') as (pages & Hp & Ec & Hs); [by rewrite E, <- !app_assoc|done| |done| |].
    + rewrite E2, length_app in Hlen. simpl in Hlen. lia.
    + rewrite Hpos. rewrite app_assoc in E. by apply (rows_after _ _ _ _ _ _ E).
    + exists ((convert <$> (k1 ++ [x])) :: pages). cbn [snd fst]. unfold mbindM. rewrite Hp. split; [done|]. split.
      * simpl. rewrite Ec, E2, <- fmap_app, <- app_assoc. done.
      * constructor; [|done]. rewrite length_fmap. lia.
Qed.

Lemma walk_all listing w :
  lists at_ convert atB idB limit (rows_from at_ test m) listing w ->
  Forall (fun kv => listable (at_ kv.2, kv.1)) (newest_rows at_ test m) ->
  exists pages, all_pages listing (S (length (newest_rows at_ test m))) "" w = (Ret pages, w)
    /\ concat pages = convert <$> newest_rows at_ test m /\ Forall (fun page => Z.of_nat (length page) <= limit) pages.
Proof using HatB HidB Hlimit parse_String.
  intros Hl Hok. apply (walk_from listing w _ [] _ "" (zero_time, uuid_Nil)); [done..|lia|done|]. simpl.
  apply rows_from_start.
Qed.
End Walk.

Section Listings.
Context `{ProjectsEnv} `{Digest}.

Lemma normalizeLimit_range limit : 1 <= normalizeLimit limit <= 100.
Proof. unfold normalizeLimit, defaultListLimit. repeat case_bool; zbool; lia. Qed.

Lemma int32_limit limit : int32FromInt (normalizeLimit limit + 1) = Ret (normalizeLimit limit + 1).
Proof.
  pose proof (normalizeLimit_range limit). unfold int32FromInt, i32_min, i32_max.
  repeat (case_bool; zbool; try lia). done.
Qed.

(** The projects a listing is about. *)
Definition listed (org : string) (state : string) (p : projectRow) : bool :=
  bool_decide (pr_org_id p = org) && (bool_decide (state = "") || bool_decide (state = state_text (pr_state p))).

Lemma listed_by_state org state st p : state_of_text state = Some st -> listed org state p = in_org_state org st p.
Proof.
  unfold state_of_text, listed, in_org_state. generalize (pr_state p). intros st'. intros Hs. f_equal.
  destruct (decide (state = "active")) as [->|]; [|destruct (decide (state = "archived")) as [->|]; [|done]];
    injection Hs as <-; by destruct st'.
Qed.

Lemma ListProjects_lists pr state limit w :
  ValidatePrincipal pr = Ret tt -> state = ""%string \/ is_Some (state_of_text state) ->
  lists pr_created_at projectFromStore pj_CreatedAt pj_ID (normalizeLimit limit)
    (rows_from pr_created_at (listed (trim_space (pc_OrgID pr)) state) (pd_projects (pw_db w)))
    (fun c => ListProjects pr (mkListProjects state limit c)) w.
Proof.
  intros Hv Hs cursor c Hc. unfold ListProjects, mbindM, mlift. cbn [ls_State ls_Limit ls_Cursor]. rewrite Hv.
  assert (pgOrgID (pc_OrgID pr) = Ret (trim_space (pc_OrgID pr))) as ->.
  { unfold pgOrgID. case_decide as E; [|done]. unfold ValidatePrincipal in Hv. rewrite (bool_decide_true _ E) in Hv. by destruct (invalid_if _). }
  rewrite Hc, int32_limit. destruct Hs as [->|[st Hs]].
  - rewrite decide_True by done. rewrite (rows_from_ext _ _ (in_org (trim_space (pc_OrgID pr)))).
    + unfold read, ListProjectsAfterCursor, ListProjects_rows, page, rows_from. by destruct (cursorPosition c).
    + intros p. unfold listed, in_org. by rewrite andb_true_r.
  - rewrite decide_False by (intros ->; vm_compute in Hs; done). rewrite Hs.
    rewrite (rows_from_ext _ _ (in_org_state (trim_space (pc_OrgID pr)) st)) by (intros p; by apply listed_by_state).
    unfold read, ListProjectsByStateAfterCursor, ListProjectsByState, page, rows_from. by destruct (cursorPosition c).
Qed.

Lemma ListEvents_lists org limit w :
  trim_space org <> ""%string ->
  lists ev_created_at eventFromStore pe_CreatedAt pe_ID (normalizeLimit limit)
    (rows_from ev_created_at (event_in_org (trim_space org)) (pd_events (pw_db w))) (fun c => ListEvents org c limit) w.
Proof.
  intros Ho cursor c Hc. unfold ListEvents, mbindM, mlift, pgOrgID. rewrite decide_False by done. rewrite Hc, int32_limit.
  unfold read, ListEventsAfterCursor, ListEvents_rows, page, rows_from. by destruct (cursorPosition c).
Qed.
End Listings.

(** C39: Following the cursors of ListProjects from the first page visits every
    project of the organisation in the requested state exactly once, newest
    first, on pages of at most the requested size, and ends after at most one
    page per project and one more. *)
Theorem project_pages_complete `{ProjectsEnv} `{Digest} pr state limit w :
  (forall i, 0 <= i < 2 ^ 128 -> uuid_Parse (uuid_String i) = Some i) ->
  ValidatePrincipal pr = Ret tt -> state = ""%string \/ is_Some (state_of_text state) ->
  let selected := listed (trim_space (pc_OrgID pr)) state in
  let rows := newest_rows pr_created_at selected (pd_projects (pw_db w)) in
  Forall (fun kv => listable (pr_created_at kv.2, kv.1)) rows ->
  (exists pages, all_pages (fun c => ListProjects pr (mkListProjects state limit c)) (S (length rows)) "" w = (Ret pages, w)
    /\ concat pages = projectFromStore <$> rows /\ Forall (fun page => Z.of_nat (length page) <= normalizeLimit limit) pages)
  /\ StronglySorted (not_after (newest_first pr_created_at)) rows /\ NoDup rows
  /\ (forall i p, (i, p) ∈ rows <-> selected p = true /\ pd_projects (pw_db w) !! i = Some p).
Proof.
  intros Hu Hv Hs selected rows Hok. split; [|split_and!].
  - apply (walk_all Hu pr_created_at selected (pd_projects (pw_db w)) projectFromStore pj_CreatedAt pj_ID); try done;
      [by intros []..|apply normalizeLimit_range|by apply ListProjects_lists].
  - apply sort_sorted. apply _.
  - apply newest_rows_nodup.
  - intros i p. apply (newest_rows_elem _ _ _ (i, p)).
Qed.

Lemma three_listable :
  Forall (fun kv => listable (pr_created_at kv.2, kv.1)) (newest_rows pr_created_at (listed "org-1" "active") (pd_projects (pw_db three_world))).
Proof. refine (bool_decide_eq_true_1 _ _). vm_compute. reflexivity. Qed.

Lemma project_pages_complete_witness :
  exists pages rows, all_pages (fun c => ListProjects alice (mkListProjects "active" 2 c)) (S (length rows)) "" three_world = (Ret pages, three_world)
    /\ concat pages = projectFromStore <$> rows /\ length rows = 3%nat.
Proof.
  destruct (project_pages_complete alice "active" 2 three_world sample_uuid_parse eq_refl (or_intror (mk_is_Some _ _ eq_refl)) three_listable)
    as [(pages & H1 & H2 & _) _].
  exists pages. eexists. split; [exact H1|]. split; [exact H2|]. vm_compute. reflexivity.
Defined.

(** The same of ListEvents. *)
Theorem event_pages_complete `{ProjectsEnv} `{Digest} org limit w :
  (forall i, 0 <= i < 2 ^ 128 -> uuid_Parse (uuid_String i) = Some i) -> trim_space org <> ""%string ->
  let rows := newest_rows ev_created_at (event_in_org (trim_space org)) (pd_events (pw_db w)) in
  Forall (fun kv => listable (ev_created_at kv.2, kv.1)) rows ->
  exists pages, all_pages (fun c => ListEvents org c limit) (S (length rows)) "" w = (Ret pages, w)
    /\ concat pages = eventFromStore <$> rows /\ Forall (fun page => Z.of_nat (length page) <= normalizeLimit limit) pages.
Proof.
  intros Hu Ho rows Hok.
  apply (walk_all Hu ev_created_at (event_in_org (trim_space org)) (pd_events (pw_db w)) eventFromStore pe_CreatedAt pe_ID); try done;
    [by intros []..|apply normalizeLimit_range|by apply ListEvents_lists].
Qed.
