(* ===== verification/ProjectTenants.v ===== *)
(** * Projects: organisations are kept apart

    A call made for one organisation neither changes nor shows the rows of
    another. *)

From stdpp Require Import relations.
From S2P Require Import Prelude GoStd GoTime GoFormat Json GoText ProjectTypes ProjectStore ProjectService.
From S2P Require Import ProjectSystem ProjectSamples.

(** ** The rows of the other organisations *)

Section Elsewhere.
Context {K A : Type} `{Countable K} (org : K -> A -> string) (o : string).

Definition same_elsewhere (m m' : gmap K A) : Prop := forall k x, org k x <> o -> (m' !! k = Some x <-> m !! k = Some x).

#[export] Instance same_elsewhere_preorder : PreOrder same_elsewhere.
Proof. split; [by intros m k x|]. intros m1 m2 m3 H1 H2 k x Hx. rewrite (H2 k x Hx). by apply H1. Qed.

Lemma elsewhere_insert m k x : org k x = o -> (forall y, m !! k = Some y -> org k y = o) -> same_elsewhere m (<[k := x]> m).
Proof.
  intros Hx Hm i y Hy. destruct (decide (i = k)) as [->|Hne]; [|by rewrite lookup_insert_ne].
  rewrite lookup_insert_eq. split; [intros [= ->]; done|]. intros E. by apply Hm in E.
Qed.

Lemma elsewhere_new m k x : org k x = o -> m !! k = None -> same_elsewhere m (<[k := x]> m).
Proof. intros Hx Hn. apply elsewhere_insert; [done|]. by rewrite Hn. Qed.
End Elsewhere.

(** Every row that belongs to another organisation than [o] is the same before and after. *)
Definition others_same (o : string) (d d' : ProjectDB) : Prop :=
  same_elsewhere (fun _ => pr_org_id) o (pd_projects d) (pd_projects d')
  /\ same_elsewhere (fun k _ => k.1) o (pd_redirects d) (pd_redirects d')
  /\ same_elsewhere (fun _ => er_org_id) o (pd_environments d) (pd_environments d')
  /\ same_elsewhere (fun k _ => k.1.1) o (pd_records d) (pd_records d')
  /\ same_elsewhere (fun _ => ev_org_id) o (pd_events d) (pd_events d').

#[export] Instance others_same_preorder o : PreOrder (others_same o).
Proof.
  split; [by intros d; split_and!|]. intros d1 d2 d3 (A & B & C & D & E) (A' & B' & C' & D' & E').
  split_and!; etransitivity; eassumption.
Qed.

Section Statements.
Context `{ProjectsEnv} `{Digest}.

Lemma record_others o op key row d d' : insert_record o op key row d = Ret d' -> others_same o d d'.
Proof. intros [Hn ->]%insert_record_Ret. split_and!; try done. by apply elsewhere_new. Qed.

Lemma writes_others o :
  (forall k p t, rk_org k = o -> moves (others_same o) (insertIdempotentProject k p t))
  /\ (forall k e t, rk_org k = o -> moves (others_same o) (insertIdempotentEnvironment k e t))
  /\ (forall p e ty a l, trim_space o = o -> moves (others_same o) (insertProjectEvent o p e ty a l))
  /\ (forall i s a t, trim_space o = o -> moves (others_same o) (insertProjectSlugRedirect o i s a t))
  /\ (forall e, en_OrgID e = o -> moves (others_same o) (insertEnvironment e)).
Proof.
  split_and!.
  - intros k p t <-. refine (moves_exec _ _ _ _). intros d d' Hd. take_step Hd. by eapply record_others.
  - intros k e t <-. refine (moves_exec _ _ _ _). intros d d' Hd. take_step Hd. by eapply record_others.
  - intros p e ty a l Ht. unfold insertProjectEvent. apply moves_lift_bind; [apply _|]. intros org Ho.
    unfold pgOrgID in Ho. case_decide; [done|]. injection Ho as <-. rewrite Ht. moving.
    refine (moves_exec _ _ _ _). intros d d' Hd. unfold InsertProjectEvent in Hd. do 4 take_step Hd. injection Hd as <-. required.
    match goal with H : bool_decide _ = true |- _ => apply bool_decide_eq_true in H as Hn end.
    split_and!; try done. by apply elsewhere_new.
  - intros i s a t Ht. unfold insertProjectSlugRedirect. apply moves_lift_bind; [apply _|]. intros org Ho.
    refine (moves_exec _ _ _ _). intros d d' Hd. unfold pgOrgID in Ho. case_decide; [done|]. injection Ho as <-.
    unfold InsertProjectSlugRedirect in Hd. do 2 take_step Hd.
    destruct (bool_decide_reflect (pd_redirects d !! (trim_space o, s) = None)) as [Hn|]; [|by injection Hd as <-].
    take_step Hd. injection Hd as <-. split_and!; try done. by apply elsewhere_new.
  - intros e <-. refine (moves_exec _ _ _ _). intros d d' Hd. unfold InsertEnvironment in Hd. do 4 take_step Hd.
    apply obind_Ret_inv in Hd as (d1 & Hp & Hd). take_step Hd. injection Hd as <-. required.
    match goal with H : bool_decide _ = true |- _ => apply bool_decide_eq_true in H as Hn end.
    apply put_environment_Ret in Hp as (_ & _ & ->). split_and!; try done. by apply elsewhere_new.
Qed.

(** The rows a load finds belong to the organisation. *)
Lemma moves_load_project {B} o i (f : Project -> M pworld projectError B) :
  (forall p, pj_OrgID p = trim_space o -> moves (others_same (trim_space o)) (f p)) ->
  moves (others_same (trim_space o)) (mbindM (loadProjectByID o i) f).
Proof.
  intros Hf w. destruct (mbindM (loadProjectByID o i) f w) as [r w'] eqn:E. simpl. unfold mbindM in E.
  destruct (loadProjectByID o i w) as [[p|e|] w1] eqn:El.
  - apply loadProjectByID_Ret in El as (-> & row & Ho & _ & ->). unfold pgOrgID in Ho. case_decide; [done|]. injection Ho as Ho.
    specialize (Hf (projectFromStore (i, row)) (eq_sym Ho) w). by rewrite E in Hf.
  - injection E as <- <-. destruct (loads_move (others_same (trim_space o))) as (L & _). specialize (L o i w). by rewrite El in L.
  - injection E as <- <-. destruct (loads_move (others_same (trim_space o))) as (L & _). specialize (L o i w). by rewrite El in L.
Qed.

Lemma moves_load_environment {B} o p i (f : Environment -> M pworld projectError B) :
  (forall e, en_OrgID e = trim_space o -> moves (others_same (trim_space o)) (f e)) ->
  moves (others_same (trim_space o)) (mbindM (loadEnvironment o p i) f).
Proof.
  intros Hf w. destruct (mbindM (loadEnvironment o p i) f w) as [r w'] eqn:E. simpl. unfold mbindM in E.
  destruct (loadEnvironment o p i w) as [[e|e|] w1] eqn:El.
  - apply loadEnvironment_Ret in El as (-> & row & Ho & _ & _ & ->). unfold pgOrgID in Ho. case_decide; [done|]. injection Ho as Ho.
    specialize (Hf (environmentFromStore (i, row)) (eq_sym Ho) w). by rewrite E in Hf.
  - injection E as <- <-. destruct (loads_move (others_same (trim_space o))) as (_ & _ & _ & L & _). specialize (L o p i w). by rewrite El in L.
  - injection E as <- <-. destruct (loads_move (others_same (trim_space o))) as (_ & _ & _ & L & _). specialize (L o p i w). by rewrite El in L.
Qed.
End Statements.

Section Calls.
Context `{ProjectsEnv} `{Digest}.

Lemma default_others {B} p slug dn kind actor t (f : Environment -> M pworld projectError B) o :
  pj_OrgID p = o -> (forall e, en_OrgID e = o -> moves (others_same o) (f e)) ->
  moves (others_same o) (mbindM (defaultEnvironment p slug dn kind actor t) f).
Proof.
  intros Hp Hf w.
  exact (Hf (mkEnvironment _ _ _ _ _ _ _ _ _ _ _ _ _ _) Hp (mkPWorld (pw_db w) (pw_ticks w) (S (pw_ids w)))).
Qed.

(** A row of the organisation is replaced. *)
Lemma project_others id p old d d' o :
  put_project id p d = Ret d' -> pr_org_id p = o -> pd_projects d !! id = Some old -> pr_org_id old = o -> others_same o d d'.
Proof.
  intros (_ & _ & ->)%put_project_Ret Hp Hl Ho. split_and!; try done. apply elsewhere_insert; [done|]. rewrite Hl. by intros y [= <-].
Qed.

Lemma environment_others id e old d d' o :
  put_environment id e d = Ret d' -> er_org_id e = o -> pd_environments d !! id = Some old -> er_org_id old = o -> others_same o d d'.
Proof.
  intros (_ & _ & ->)%put_environment_Ret Hp Hl Ho. split_and!; try done. apply elsewhere_insert; [done|]. rewrite Hl. by intros y [= <-].
Qed.

Lemma updates_others o e :
  (forall id slug dn desc actor t v, moves (others_same o) (run e (UpdateProjectRow o id slug dn desc actor t v)))
  /\ (forall id st actor t v archived, moves (others_same o) (run e (SetProjectState o id st actor t v archived)))
  /\ (forall project id dn policy actor t v, moves (others_same o) (run e (UpdateEnvironmentRow o project id dn policy actor t v)))
  /\ (forall project id st actor t v archived, moves (others_same o) (run e (SetEnvironmentState o project id st actor t v archived))).
Proof.
  split_and!; intros; refine (moves_run _ _ _ _); intros d n d' Hd; unfold UpdateProjectRow, SetProjectState, UpdateEnvironmentRow, SetEnvironmentState in Hd.
  all: destruct (_ !! id) as [old|] eqn:El; [|by injection Hd as _ <-]; destruct (_ && _) eqn:G; [|by injection Hd as _ <-].
  all: take_step Hd; apply obind_Ret_inv in Hd as (d1 & Hp & [= _ <-]); repeat (apply andb_prop in G as [G ?]); apply bool_decide_eq_true in G.
  1,2: by eapply project_others. all: by eapply environment_others.
Qed.

Lemma create_others pr k i o :
  pc_OrgID pr = o -> trim_space o = o -> rk_org k = o -> moves (others_same o) (createProjectTx pr k i).
Proof.
  intros Hp Ht Hk. destruct (loads_move (others_same o)) as (_ & _ & _ & _ & _ & L6 & _).
  destruct (writes_others o) as (W1 & _ & W3 & _ & W5). unfold createProjectTx, insertDefaultEnvironments. cbn [pj_OrgID]. rewrite Hp.
  repeat (moving; try (apply default_others; [done|intros ? ?])); auto.
  refine (moves_exec _ _ _ _). intros d d' (c & u & _ & _ & Hn & ->)%InsertProject_Ret. split_and!; try done. by apply elsewhere_new.
Qed.

Lemma transactions_others pr k o :
  trim_space (pc_OrgID pr) = o -> rk_org k = o ->
  (forall i, moves (others_same o) (updateProjectTx pr k i)) /\ (forall i st ty, moves (others_same o) (setProjectStateTx pr k i st ty))
  /\ (forall i, moves (others_same o) (createEnvironmentTx pr k i)) /\ (forall i, moves (others_same o) (updateEnvironmentTx pr k i))
  /\ (forall i st ty, moves (others_same o) (setEnvironmentStateTx pr k i st ty)).
Proof.
  intros <- Hk. set (o := trim_space (pc_OrgID pr)) in *. assert (trim_space o = o) as Ht by apply trim_space_trimmed.
  destruct (loads_move (others_same o)) as (L1 & _ & _ & L4 & _ & L6 & _). destruct (writes_others o) as (W1 & W2 & W3 & W4 & W5).
  unfold updateProjectTx, setProjectStateTx, createEnvironmentTx, updateEnvironmentTx, setEnvironmentStateTx, one_row.
  split_and!; intros; (apply moves_load_project || apply moves_load_environment); intros x Hx; fold o in Hx; rewrite Hx; moving; auto.
  all: apply updates_others.
Qed.

(** The calls made for a principal. *)
Inductive principal_op (pr : Principal) : forall A : Type, M pworld projectError A -> Prop :=
| po_create i : principal_op pr Project (CreateProject pr i)
| po_update i : principal_op pr Project (UpdateProject pr i)
| po_archive i : principal_op pr Project (ArchiveProject pr i)
| po_restore i : principal_op pr Project (RestoreProject pr i)
| po_create_env i : principal_op pr Environment (CreateEnvironment pr i)
| po_update_env i : principal_op pr Environment (UpdateEnvironment pr i)
| po_archive_env i : principal_op pr Environment (ArchiveEnvironment pr i).

Lemma principal_others pr A (m : M pworld projectError A) :
  principal_op pr A m -> moves (others_same (trim_space (pc_OrgID pr))) m.
Proof.
  set (o := trim_space (pc_OrgID pr)). intros Hop.
  assert (forall op key content k, requestFor pr op key content = Ret k -> rk_org k = o /\ pgOrgID (pc_OrgID pr) = Ret (rk_org k)) as Hk.
  { intros op key content k Hr%requestFor_org. split; [|done]. unfold pgOrgID in Hr. case_decide; [done|]. by injection Hr as <-. }
  assert (forall k i, rk_org k = o -> pgOrgID (pc_OrgID pr) = Ret (rk_org k) -> moves (others_same o) (InTx (createProjectTx pr k i))) as Hc.
  { intros k i Ek Hp. apply InTx_kept; [apply _|]. intros w a w' Hr. refine (run_moves _ _ _ _ _ (create_others pr k i o _ _ Ek) Hr).
    - apply createProjectTx_Ret in Hr as (t & _ & E & _); [|done]. by rewrite E.
    - apply trim_space_trimmed. }
  assert (forall k, rk_org k = o -> _) as Ht by (intros k Ek; exact (transactions_others pr k o eq_refl Ek)).
  destruct Hop; unfold CreateProject, UpdateProject, ArchiveProject, RestoreProject, setProjectState, CreateEnvironment,
    UpdateEnvironment, ArchiveEnvironment, setEnvironmentState; repeat (apply moves_lift_bind; [apply _|]; intros ? ?);
    match goal with Hr : requestFor _ _ _ _ = Ret ?k |- _ => destruct (Hk _ _ _ _ Hr) as [Ek Hp]; destruct (Ht _ Ek) as (T1 & T2 & T3 & T4 & T5) end;
    (apply moves_once; [apply _|auto using loadIdempotentProject_same, loadIdempotentEnvironment_same|]);
    first [by apply Hc|apply moves_InTx; [apply _|]; auto].
Qed.
End Calls.

(** ** What a call shows *)

Section Shown.
Context `{ProjectsEnv} `{Digest}.

Lemma pgOrgID_Ret o org : pgOrgID o = Ret org -> org = trim_space o.
Proof. unfold pgOrgID. case_decide; [done|]. by intros [= <-]. Qed.

Lemma page_test {A} (at_ : A -> time) test c limit m : Forall (fun kv => test kv.2 = true) (page at_ test c limit m).
Proof.
  unfold page. apply Forall_take. rewrite sort_slice_perm. apply Forall_forall. intros kv [Hk _]%list_elem_of_filter.
  by apply andb_prop in Hk as [].
Qed.

Lemma cut_page_all {A} (P : A -> Prop) at_ id limit (items : list A) : Forall P items -> Forall P (cut_page at_ id limit items).1.
Proof. intros HP. unfold cut_page. destruct (_ <? _); [by apply Forall_take|done]. Qed.

Lemma GetProject_shows pr i w p w' : GetProject pr i w = (Ret p, w') -> pj_OrgID p = trim_space (pc_OrgID pr).
Proof.
  intros Hr. apply mbindM_Ret_inv in Hr as ([] & w1 & _ & (_ & row & Ho & _ & ->)%loadProjectByID_Ret).
  by apply pgOrgID_Ret.
Qed.

Lemma ListProjects_shows pr i w ps c w' :
  ListProjects pr i w = (Ret (ps, c), w') -> Forall (fun p => pj_OrgID p = trim_space (pc_OrgID pr)) ps.
Proof.
  intros Hr. apply mbindM_Ret_inv in Hr as ([] & w1 & _ & Hr). apply mbindM_Ret_inv in Hr as (org & w2 & [Ho _]%lift_Ret & Hr).
  apply mbindM_Ret_inv in Hr as (cur & w3 & _ & Hr). apply mbindM_Ret_inv in Hr as (rows & w4 & Hrows & Hr).
  assert (Forall (fun kv => pr_org_id kv.2 = org) rows) as HF.
  { destruct (decide (ls_State i = ""%string)); [|destruct (state_of_text (ls_State i)) as [st|]; [|done]];
      apply mbindM_Ret_inv in Hrows as (lim & w5 & _ & Hrows); destruct (cursorPosition cur); apply read_Ret in Hrows as [-> _];
      (eapply Forall_impl; [apply page_test|]); intros kv Hkv; unfold in_org, in_org_state in Hkv; zbool; by eapply bool_decide_eq_true. }
  apply pgOrgID_Ret in Ho as ->.
  assert (ps = (cut_page pj_CreatedAt pj_ID (normalizeLimit (ls_Limit i)) (projectFromStore <$> rows)).1) as -> by by injection Hr as ->.
  apply cut_page_all, Forall_fmap. eapply Forall_impl; [exact HF|]. by intros [].
Qed.

Lemma ListEnvironments_shows pr i w es w' :
  ListEnvironments pr i w = (Ret es, w') -> Forall (fun e => en_OrgID e = trim_space (pc_OrgID pr) /\ en_ProjectID e = i) es.
Proof.
  intros Hr. apply mbindM_Ret_inv in Hr as ([] & w1 & _ & Hr).
  apply mbindM_Ret_inv in Hr as (p & w2 & (-> & row & Ho & _ & ->)%loadProjectByID_Ret & Hr).
  apply mbindM_Ret_inv in Hr as (rows & w3 & [-> _]%read_Ret & Hr). injection Hr as <- _.
 apply pgOrgID_Ret in Ho. apply Forall_fmap. unfold ListEnvironments_rows. rewrite sort_slice_perm.
  apply Forall_forall. intros [k e] [Hk _]%list_elem_of_filter. unfold env_in in Hk. simpl in *. zbool. split; [|done]. rewrite <- Ho. by eapply bool_decide_eq_true.
Qed.

Lemma ListEvents_shows org cursor limit w es c w' :
  ListEvents org cursor limit w = (Ret (es, c), w') -> Forall (fun e => pe_OrgID e = trim_space org) es.
Proof.
  intros Hr. apply mbindM_Ret_inv in Hr as (o & w2 & [Ho _]%lift_Ret & Hr).
  apply mbindM_Ret_inv in Hr as (cur & w3 & _ & Hr). apply mbindM_Ret_inv in Hr as (n & w4 & _ & Hr).
  apply mbindM_Ret_inv in Hr as (rows & w5 & Hrows & Hr).
  assert (Forall (fun kv => ev_org_id kv.2 = o) rows) as HF.
  { destruct (cursorPosition cur); apply read_Ret in Hrows as [-> _];
      (eapply Forall_impl; [apply page_test|]); intros kv Hkv; by eapply bool_decide_eq_true. }
  apply pgOrgID_Ret in Ho as ->.
  assert (es = (cut_page pe_CreatedAt pe_ID (normalizeLimit limit) (eventFromStore <$> rows)).1) as -> by by injection Hr as ->.
  apply cut_page_all, Forall_fmap. eapply Forall_impl; [exact HF|]. by intros [].
Qed.

(** C35: Organisations are kept apart: a call made for a principal leaves every
    row of every other organisation as it is, whatever its outcome, and the
    reads show only rows of the caller's organisation. *)
Theorem tenants_isolated pr :
  (forall A (m : M pworld projectError A) w, principal_op pr A m ->
     others_same (trim_space (pc_OrgID pr)) (pw_db w) (pw_db (m w).2))
  /\ (forall id w p w', GetProject pr id w = (Ret p, w') -> pj_OrgID p = trim_space (pc_OrgID pr))
  /\ (forall i w ps c w', ListProjects pr i w = (Ret (ps, c), w') -> Forall (fun p => pj_OrgID p = trim_space (pc_OrgID pr)) ps)
  /\ (forall id w es w', ListEnvironments pr id w = (Ret es, w') ->
        Forall (fun e => en_OrgID e = trim_space (pc_OrgID pr) /\ en_ProjectID e = id) es)
  /\ (forall org cursor limit w es c w', ListEvents org cursor limit w = (Ret (es, c), w') ->
        Forall (fun e => pe_OrgID e = trim_space org) es).
Proof.
  split; [intros A m w Hop; by apply principal_others|].
  split; [apply GetProject_shows|]. split; [apply ListProjects_shows|]. split; [apply ListEnvironments_shows|apply ListEvents_shows].
Qed.
End Shown.

Lemma tenants_isolated_witness :
  others_same "org-1" (pw_db alpha_world) (pw_db beta_world) /\ exists p w, GetProject alice 1 beta_world = (Ret p, w) /\ pj_OrgID p = "org-1"%string.
Proof.
  destruct (tenants_isolated alice) as (H1 & H2 & _). split; [exact (H1 _ _ _ (po_update _ beta_input))|].
  destruct (run_result (GetProject alice 1) beta_world) as [p Hp]; [vm_compute; reflexivity|].
  exists p. eexists. split; [exact Hp|exact (H2 _ _ _ _ Hp)].
Defined.
